(** * xv6 kernel core: a shallow embedding of the C sources and the
      properties of the specification checked against it.

    Every module below embeds one source file (or the part of it that the
    properties need).  Machine integers are [Z]; C arrays are lists read with
    stdpp's lookup and written with its insert; structs are records; [panic]
    and the points where the kernel spins or sleeps are explicit outcomes. *)

From Stdlib Require Import ZArith Lia List Bool.
From stdpp Require Import base option list gmap strings.

Local Open Scope Z_scope.

(** ** Outcomes of kernel code *)

(** A kernel routine either returns a value in a new state, stops the machine
    through [panic], spins on a held spinlock (the [xchg] loop of [acquire]),
    or leaves the CPU in [sched] (the state is the one handed to the
    scheduler). *)
Inductive outcome (S A : Type) : Type :=
| Ret (a : A) (s : S)
| Panic (msg : string)
| Spin (s : S)
| Asleep (s : S).
Arguments Ret {S A} a s.
Arguments Panic {S A} msg.
Arguments Spin {S A} s.
Arguments Asleep {S A} s.

Definition bind {S A B} (m : S -> outcome S A) (k : A -> S -> outcome S B)
  : S -> outcome S B :=
  fun s => match m s with
           | Ret a s' => k a s'
           | Panic msg => Panic msg
           | Spin s' => Spin s'
           | Asleep s' => Asleep s'
           end.

Notation "'let!' x ':=' m 'in' k" := (bind m (fun x => k))
  (at level 10, x name, m at level 100, k at level 200).
Notation "m ;; k" := (bind m (fun _ => k))
  (at level 100, k at level 200, right associativity).

Definition ret {S A} (a : A) : S -> outcome S A := fun s => Ret a s.
Definition panic {S A} (msg : string) : S -> outcome S A := fun _ => Panic msg.
Definition gets {S A} (f : S -> A) : S -> outcome S A := fun s => Ret (f s) s.
Definition modify {S} (f : S -> S) : S -> outcome S unit := fun s => Ret tt (f s).

(** ** synchronization/spinlock.c *)
Module Spinlock.

(** [FL_IF], the interrupt-enable bit of [eflags] (mmu.h). *)
Definition FL_IF : Z := 0x200.

(** The fields of [struct cpu] that the lock code touches, with the CPU's
    own [eflags] register next to them. *)
Record cpu := mkCpu {
  ncli : Z;       (* depth of pushcli nesting *)
  intena : Z;     (* were interrupts enabled before pushcli? *)
  eflags : Z
}.

(** [struct spinlock]: [locked] and the owner ([lk->cpu], 0 when free). *)
Record spinlock := mkLock {
  locked : Z;
  owner : option nat
}.

Record machine := mkMachine {
  cpus : list cpu;
  locks : list spinlock
}.

Definition M (A : Type) := machine -> outcome machine A.

Definition dflt_cpu : cpu := mkCpu 0 0 0.
Definition dflt_lock : spinlock := mkLock 0 None.

(** [mycpu()] on CPU number [c]. *)
Definition mycpu (c : nat) (s : machine) : cpu := nth c (cpus s) dflt_cpu.
Definition lock_at (l : nat) (s : machine) : spinlock := nth l (locks s) dflt_lock.

Definition set_cpu (c : nat) (x : cpu) (s : machine) : machine :=
  mkMachine (<[c := x]> (cpus s)) (locks s).
Definition set_lock (l : nat) (x : spinlock) (s : machine) : machine :=
  mkMachine (cpus s) (<[l := x]> (locks s)).

Definition readeflags (c : nat) (s : machine) : Z := eflags (mycpu c s).

(** [cli] and [sti] clear and set the interrupt flag of the executing CPU. *)
Definition cli (c : nat) (s : machine) : machine :=
  let x := mycpu c s in
  set_cpu c (mkCpu (ncli x) (intena x) (Z.land (eflags x) (Z.lnot FL_IF))) s.
Definition sti (c : nat) (s : machine) : machine :=
  let x := mycpu c s in
  set_cpu c (mkCpu (ncli x) (intena x) (Z.lor (eflags x) FL_IF)) s.

(** [initlock]. *)
Definition initlock (l : nat) (s : machine) : machine :=
  set_lock l (mkLock 0 None) s.

(** [pushcli]: read eflags, cli, record the flag at depth 0, count. *)
Definition pushcli (c : nat) : M unit := fun s =>
  let fl := readeflags c s in
  let s1 := cli c s in
  let s2 := if ncli (mycpu c s1) =? 0
            then let x := mycpu c s1 in
                 set_cpu c (mkCpu (ncli x) (Z.land fl FL_IF) (eflags x)) s1
            else s1 in
  let x := mycpu c s2 in
  Ret tt (set_cpu c (mkCpu (ncli x + 1) (intena x) (eflags x)) s2).

(** [popcli]. *)
Definition popcli (c : nat) : M unit := fun s =>
  if negb (Z.land (readeflags c s) FL_IF =? 0)
  then Panic "popcli - interruptible"
  else
    let x := mycpu c s in
    let s1 := set_cpu c (mkCpu (ncli x - 1) (intena x) (eflags x)) s in
    if ncli (mycpu c s1) <? 0 then Panic "popcli"
    else if (ncli (mycpu c s1) =? 0) && negb (intena (mycpu c s1) =? 0)
         then Ret tt (sti c s1)
         else Ret tt s1.

(** [holding]: does this CPU hold the lock? *)
Definition holding (l : nat) (c : nat) : M bool :=
  pushcli c ;;
  let! r := gets (fun s => negb (locked (lock_at l s) =? 0)
                           && bool_decide (owner (lock_at l s) = Some c)) in
  popcli c ;;
  ret r.

(** [acquire].  The [xchg] loop is one test here: a lock that is taken
    leaves the CPU spinning, with interrupts already off. *)
Definition acquire (l : nat) (c : nat) : M unit :=
  pushcli c ;;
  let! h := holding l c in
  if h : bool then panic "acquire"
  else fun s =>
    if negb (locked (lock_at l s) =? 0) then Spin s
    else Ret tt (set_lock l (mkLock 1 (Some c)) s).

(** [release]. *)
Definition release (l : nat) (c : nat) : M unit :=
  let! h := holding l c in
  if h : bool
  then modify (set_lock l (mkLock 0 None)) ;; popcli c
  else panic "release".

(** The lock is held by CPU [c] (the condition [holding] computes). *)
Definition held_by (c : nat) (k : spinlock) : bool :=
  negb (locked k =? 0) && bool_decide (owner k = Some c).

Definition nheld (c : nat) (s : machine) : Z :=
  Z.of_nat (length (filter (fun k => held_by c k = true) (locks s))).

(** Interrupts are off on CPU [c]. *)
Definition intr_off (c : nat) (s : machine) : Prop :=
  Z.land (eflags (mycpu c s)) FL_IF = 0.

(** The invariant of the lock discipline on CPU [c]: every lock it holds
    is counted in [ncli], and a positive depth means interrupts are off. *)
Definition cpu_inv (c : nat) (s : machine) : Prop :=
  (c < length (cpus s))%nat /\
  nheld c s <= ncli (mycpu c s) /\
  (0 < ncli (mycpu c s) -> intr_off c s).

Definition inv (s : machine) : Prop :=
  forall c, (c < length (cpus s))%nat -> cpu_inv c s.

(** [n] nested calls of a routine. *)
Fixpoint repeat_m (n : nat) (f : M unit) : M unit :=
  match n with
  | O => ret tt
  | S n' => f ;; repeat_m n' f
  end.

(** What [pushcli] and [popcli] do to the [struct cpu] they run on. *)
Definition pushcli_cpu (x : cpu) : cpu :=
  mkCpu (ncli x + 1)
        (if ncli x =? 0 then Z.land (eflags x) FL_IF else intena x)
        (Z.land (eflags x) (Z.lnot FL_IF)).

Definition popcli_cpu (x : cpu) : cpu :=
  mkCpu (ncli x - 1) (intena x)
        (if (ncli x - 1 =? 0) && negb (intena x =? 0)
         then Z.lor (eflags x) FL_IF else eflags x).

Definition b2z (b : bool) : Z := if b then 1 else 0.

(** Two CPUs with interrupts on, two free locks. *)
Definition two_cpus : machine :=
  mkMachine [mkCpu 0 0 0x202; mkCpu 0 0 0x202] [mkLock 0 None; mkLock 0 None].

(** CPU [c] can take lock [l]: the invariant holds, both exist, and the lock
    is free. *)
Definition lock_ready (c l : nat) (s : machine) : Prop :=
  inv s /\ (c < length (cpus s))%nat /\ (l < length (locks s))%nat /\
  locked (lock_at l s) = 0.

End Spinlock.

(** ** processus/proc.c *)
Module Proc.
Import Spinlock.

Definition NPROC : nat := 64.
Definition NCPU : nat := 8.

Inductive procstate := UNUSED | EMBRYO | SLEEPING | RUNNABLE | RUNNING | ZOMBIE.

#[global] Instance procstate_eq_dec : EqDecision procstate.
Proof. solve_decision. Defined.

(** A sleep channel is the address of a kernel object; the objects the
    kernel sleeps on are told apart by constructor. *)
Inductive chan :=
| ChanProc (slot : nat)        (* a [struct proc] of [ptable.proc] *)
| ChanLog                      (* [&log] *)
| ChanTicks                    (* [&ticks] *)
| ChanPipeRead (p : Z)         (* [&p->nread] *)
| ChanPipeWrite (p : Z)        (* [&p->nwrite] *)
| ChanSleeplock (l : nat)      (* a [struct sleeplock] *)
| ChanBuf (b : nat).           (* a [struct buf] *)

#[global] Instance chan_eq_dec : EqDecision chan.
Proof. solve_decision. Defined.

(** [struct proc].  Pointers into [ptable.proc] and [ftable.file] are slot
    numbers, [None] is the null pointer; of the trap frame only the two
    registers the system-call layer reads and writes are kept. *)
Record proc := mkProc {
  sz : Z;
  pgdir : Z;
  kstack : Z;
  state : procstate;
  pid : Z;
  parent : option nat;
  tf_esp : Z;
  tf_eax : Z;
  pchan : option chan;
  killed : Z;
  ofile : list (option nat);
  cwd : option nat;
  name0 : Z                      (* [name[0]] *)
}.

(** The kernel state of this file: the lock machine, [ptable.proc], the
    [proc] field of every [struct cpu], and the pages given to [kfree] and
    the page directories given to [freevm], in call order. *)
Record kernel := mkKernel {
  mach : machine;
  procs : list proc;
  cpu_proc : list (option nat);
  kfreed : list Z;
  vmfreed : list Z
}.

Definition M (A : Type) := kernel -> outcome kernel A.

(** Slots of the kernel's spinlocks in [locks]. *)
Definition ptable_lock : nat := 0.
Definition ftable_lock : nat := 1.
Definition log_lock : nat := 2.
Definition icache_lock : nat := 3.
Definition tickslock : nat := 4.

Definition set_mach (m : machine) (k : kernel) : kernel :=
  mkKernel m (procs k) (cpu_proc k) (kfreed k) (vmfreed k).
Definition set_procs (ps : list proc) (k : kernel) : kernel :=
  mkKernel (mach k) ps (cpu_proc k) (kfreed k) (vmfreed k).

(** Lock routines run on the [mach] component. *)
Definition lift {A} (m : Spinlock.M A) : M A := fun k =>
  match m (mach k) with
  | Ret a s => Ret a (set_mach s k)
  | Panic msg => Panic msg
  | Spin s => Spin (set_mach s k)
  | Asleep s => Asleep (set_mach s k)
  end.

Definition dflt_proc : proc :=
  mkProc 0 0 0 UNUSED 0 None 0 0 None 0 [] None 0.

Definition proc_at (i : nat) (k : kernel) : proc := nth i (procs k) dflt_proc.

Definition upd_proc (i : nat) (f : proc -> proc) (k : kernel) : kernel :=
  set_procs (<[i := f (proc_at i k)]> (procs k)) k.

Definition set_state (st : procstate) (p : proc) : proc :=
  mkProc (sz p) (pgdir p) (kstack p) st (pid p) (parent p) (tf_esp p) (tf_eax p)
         (pchan p) (killed p) (ofile p) (cwd p) (name0 p).
Definition set_chan (ch : option chan) (p : proc) : proc :=
  mkProc (sz p) (pgdir p) (kstack p) (state p) (pid p) (parent p) (tf_esp p) (tf_eax p)
         ch (killed p) (ofile p) (cwd p) (name0 p).
Definition set_killed (v : Z) (p : proc) : proc :=
  mkProc (sz p) (pgdir p) (kstack p) (state p) (pid p) (parent p) (tf_esp p) (tf_eax p)
         (pchan p) v (ofile p) (cwd p) (name0 p).
Definition set_ofile (o : list (option nat)) (p : proc) : proc :=
  mkProc (sz p) (pgdir p) (kstack p) (state p) (pid p) (parent p) (tf_esp p) (tf_eax p)
         (pchan p) (killed p) o (cwd p) (name0 p).
Definition set_eax (v : Z) (p : proc) : proc :=
  mkProc (sz p) (pgdir p) (kstack p) (state p) (pid p) (parent p) (tf_esp p) v
         (pchan p) (killed p) (ofile p) (cwd p) (name0 p).

(** [myproc]: the [proc] field of this CPU, read between [pushcli] and
    [popcli]. *)
Definition myproc (c : nat) : M (option nat) :=
  lift (pushcli c) ;;
  let! p := gets (fun k => nth c (cpu_proc k) None) in
  lift (popcli c) ;;
  ret p.

(** [wakeup1]: every process sleeping on [ch] becomes runnable. *)
Definition wakeup1_proc (ch : chan) (p : proc) : proc :=
  if bool_decide (state p = SLEEPING) && bool_decide (pchan p = Some ch)
  then set_state RUNNABLE p else p.

Definition wakeup1 (ch : chan) : M unit :=
  modify (fun k => set_procs (map (wakeup1_proc ch) (procs k)) k).

(** [wakeup]. *)
Definition wakeup (c : nat) (ch : chan) : M unit :=
  lift (acquire ptable_lock c) ;; wakeup1 ch ;; lift (release ptable_lock c).

(** The scan of [kill]: the first slot whose pid is [pd]. *)
Fixpoint find_pid (pd : Z) (ps : list proc) (i : nat) : option nat :=
  match ps with
  | [] => None
  | p :: rest => if pid p =? pd then Some i else find_pid pd rest (S i)
  end.

(** [kill]. *)
Definition kill (c : nat) (pd : Z) : M Z :=
  lift (acquire ptable_lock c) ;;
  let! f := gets (fun k => find_pid pd (procs k) 0) in
  match f with
  | Some i =>
      modify (upd_proc i (fun p =>
        let p1 := set_killed 1 p in
        if bool_decide (state p1 = SLEEPING) then set_state RUNNABLE p1 else p1)) ;;
      lift (release ptable_lock c) ;;
      ret 0
  | None => lift (release ptable_lock c) ;; ret (-1)
  end.

(** [sched] up to [swtch]: the four checks, then the saved [intena]. *)
Definition sched_enter (c : nat) (p : nat) : M Z :=
  let! h := lift (holding ptable_lock c) in
  if negb h then panic "sched ptable.lock"
  else
    let! n := gets (fun k => ncli (mycpu c (mach k))) in
    if negb (n =? 1) then panic "sched locks"
    else
      let! st := gets (fun k => state (proc_at p k)) in
      if bool_decide (st = RUNNING) then panic "sched running"
      else
        let! fl := gets (fun k => readeflags c (mach k)) in
        if negb (Z.land fl FL_IF =? 0) then panic "sched interruptible"
        else gets (fun k => intena (mycpu c (mach k))).

(** [sched] after [swtch] has come back: [mycpu()->intena = intena]. *)
Definition sched_leave (c : nat) (ie : Z) : M unit :=
  modify (fun k =>
    let x := mycpu c (mach k) in
    set_mach (set_cpu c (mkCpu (ncli x) ie (eflags x)) (mach k)) k).

(** [sleep] up to the [swtch] inside [sched]. *)
Definition sleep_enter (c : nat) (ch : chan) (lk : nat) : M (nat * Z) :=
  let! mp := myproc c in
  match mp with
  | None => panic "sleep"
  | Some p =>
      (if bool_decide (lk = ptable_lock) then ret tt
       else lift (acquire ptable_lock c) ;; lift (release lk c)) ;;
      modify (upd_proc p (set_chan (Some ch))) ;;
      modify (upd_proc p (set_state SLEEPING)) ;;
      let! ie := sched_enter c p in
      ret (p, ie)
  end.

(** [sleep] from the return of [swtch] on. *)
Definition sleep_leave (c : nat) (lk : nat) (pi : nat * Z) : M unit :=
  sched_leave c (snd pi) ;;
  modify (upd_proc (fst pi) (set_chan None)) ;;
  if bool_decide (lk = ptable_lock) then ret tt
  else lift (release ptable_lock c) ;; lift (acquire lk c).

(** What the rest of the machine does while a process is off the CPU: one
    state transformer for each time the process is switched back in. *)
Definition schedule := list (kernel -> kernel).

(** The scan of [wait] over [ptable.proc]: the first zombie child, or
    whether a child was seen at all. *)
Fixpoint wait_scan (cur : nat) (ps : list proc) (i : nat) (havekids : bool)
  : option nat * bool :=
  match ps with
  | [] => (None, havekids)
  | p :: rest =>
      if bool_decide (parent p = Some cur)
      then if bool_decide (state p = ZOMBIE) then (Some i, true)
           else wait_scan cur rest (S i) true
      else wait_scan cur rest (S i) havekids
  end.

(** The zombie found: its stack and address space are freed and the slot is
    reset. *)
Definition reap (p : proc) : proc :=
  mkProc (sz p) (pgdir p) 0 UNUSED 0 None (tf_esp p) (tf_eax p)
         (pchan p) 0 (ofile p) (cwd p) 0.

Definition reap_slot (i : nat) (k : kernel) : kernel :=
  let p := proc_at i k in
  mkKernel (mach k) (<[i := reap p]> (procs k)) (cpu_proc k)
           (kfreed k ++ [kstack p]) (vmfreed k ++ [pgdir p]).

(** The [for (;;)] of [wait]; each sleep takes the next step of the
    schedule, and a schedule that ends leaves the process asleep. *)
Fixpoint wait_loop (env : schedule) (c : nat) (cur : nat) : M Z := fun k =>
  match wait_scan cur (procs k) 0 false with
  | (Some i, _) =>
      (let! pd := gets (fun k => pid (proc_at i k)) in
       modify (reap_slot i) ;;
       lift (release ptable_lock c) ;;
       ret pd) k
  | (None, havekids) =>
      if negb havekids || negb (killed (proc_at cur k) =? 0)
      then (lift (release ptable_lock c) ;; ret (-1)) k
      else
        (let! pi := sleep_enter c (ChanProc cur) ptable_lock in
         fun k1 =>
           match env with
           | [] => Asleep k1
           | e :: env' =>
               (sleep_leave c ptable_lock pi ;; wait_loop env' c cur) (e k1)
           end) k
  end.

(** [wait]. *)
Definition wait (env : schedule) (c : nat) : M Z :=
  let! mp := myproc c in
  match mp with
  | None => panic "wait: no process"
  | Some cur => lift (acquire ptable_lock c) ;; wait_loop env c cur
  end.

(** A small table: a killed process in slot 0, running on CPU 0, with one
    sleeping child in slot 1. *)
Definition killed_parent : kernel :=
  mkKernel two_cpus
    [mkProc 4096 0 0 RUNNING 1 None 4096 0 None 1 [] None 0;
     mkProc 4096 0 0 SLEEPING 2 (Some 0%nat) 4096 0 (Some ChanTicks) 0 [] None 0]
    [Some 0%nat; None] [] [].

(** One CPU inside [sys_sleep]: the process in slot 0 runs on it and holds
    [tickslock], with interrupts off. *)
Definition sleeper : kernel :=
  mkKernel
    (mkMachine [mkCpu 1 0x200 0x2]
               [mkLock 0 None; mkLock 0 None; mkLock 0 None; mkLock 0 None;
                mkLock 1 (Some 0%nat)])
    [mkProc 4096 0 0 RUNNING 1 None 4096 0 None 0 [] None 0]
    [Some 0%nat] [] [].

End Proc.

(** ** systemCall/syscall.c and sysproc.c *)
Module Syscall.
Import Spinlock Proc.

(** The address space the system call runs in, kernel half included: the
    [int] stored at an address, [None] where nothing is mapped. *)
Record sys := mkSys {
  kern : kernel;
  load32 : Z -> option Z;
  reads : list Z             (* the addresses dereferenced so far *)
}.

Definition M (A : Type) := sys -> outcome sys A.

Definition liftK {A} (m : Proc.M A) : M A := fun s =>
  match m (kern s) with
  | Ret a k => Ret a (mkSys k (load32 s) (reads s))
  | Panic msg => Panic msg
  | Spin k => Spin (mkSys k (load32 s) (reads s))
  | Asleep k => Asleep (mkSys k (load32 s) (reads s))
  end.

(** [*(int* )(addr)]: a load; a fault in kernel mode ends in [panic("trap")]
    (trap.c). *)
Definition deref (addr : Z) : M Z := fun s =>
  match load32 s addr with
  | Some v => Ret v (mkSys (kern s) (load32 s) (reads s ++ [addr]))
  | None => Panic "trap"
  end.

(** [fetchint]: the comparison with [curproc->sz] is inside a comment in the
    source; what runs is the load and [return 0].  The pair is the return
    value and [*ip]. *)
Definition fetchint (addr : Z) : M (Z * Z) :=
  let! v := deref addr in
  ret (0, v).

(** [argint]: [fetchint(esp + 4 + 4*n, ip)] in [uint] arithmetic. *)
Definition argint (c : nat) (n : Z) : M (Z * Z) :=
  let! mp := liftK (myproc c) in
  match mp with
  | None => panic "trap"
  | Some p =>
      let! esp := gets (fun s => tf_esp (proc_at p (kern s))) in
      fetchint ((esp + 4 + 4 * n) mod 2 ^ 32)
  end.

(** [argptr]. *)
Definition argptr (c : nat) (n : Z) : M (Z * Z) :=
  let! r := argint c n in
  if fst r <? 0 then ret (-1, 0) else ret (0, snd r).

(** [sys_kill]. *)
Definition sys_kill (c : nat) : M Z :=
  let! r := argint c 0 in
  if fst r <? 0 then ret (-1)
  else liftK (kill c (snd r)).

(** A process of one page (slot 0, pid 1) enters the kernel with its stack
    pointer just below the kernel's first megabyte, where the word 2 is
    stored; pid 2 sleeps in slot 1. *)
Definition stray_esp : sys :=
  mkSys
    (mkKernel two_cpus
       [mkProc 4096 0 0 RUNNING 1 None (0x80100000 - 4) 0 None 0 [] None 0;
        mkProc 4096 0 0 SLEEPING 2 (Some 0%nat) 4096 0 (Some ChanTicks) 0 [] None 0]
       [Some 0%nat; None] [] [])
    (fun a => if a =? 0x80100000 then Some 2 else None)
    [].

(** [*s] for a [char* s]: a load of one byte of the address space
    [load8]. *)
Definition deref8 (load8 : Z -> option Z) (a : Z) : M Z := fun s =>
  match load8 a with
  | Some v => Ret v (mkSys (kern s) (load32 s) (reads s ++ [a]))
  | None => Panic "trap"
  end.

(** The [for] of [fetchstr] from [s] on; [todo] bounds the bytes up to
    [ep]. *)
Fixpoint fetchstr_scan (load8 : Z -> option Z) (todo : nat) (pp s ep : Z) : M Z :=
  match todo with
  | O => ret (-1)
  | S t =>
      if s <? ep then
        let! b := deref8 load8 s in
        if b =? 0 then ret (s - pp) else fetchstr_scan load8 t pp (s + 1) ep
      else ret (-1)
  end.

(** [fetchstr]: the value returned and [*pp] ([None] when it is not
    assigned). *)
Definition fetchstr (load8 : Z -> option Z) (c : nat) (addr : Z) : M (Z * option Z) :=
  let! mp := liftK (myproc c) in
  match mp with
  | None => panic "trap"
  | Some p =>
      let! psz := gets (fun s => sz (proc_at p (kern s))) in
      if psz <=? addr then ret (-1, None)
      else
        let! r := fetchstr_scan load8 (Z.to_nat (psz - addr)) addr addr psz in
        ret (r, Some addr)
  end.

End Syscall.

(** ** fileSystem/log.c *)
Module Log.
Import Spinlock Proc.

Definition MAXOPBLOCKS : Z := 10.
Definition LOGSIZE : Z := MAXOPBLOCKS * 3.
Definition B_VALID : Z := 0x2.
Definition B_DIRTY : Z := 0x4.

(** [struct logheader]: [block] has [LOGSIZE] entries of type [int]. *)
Record logheader := mkHeader {
  n : Z;
  block : list Z
}.

(** [struct log] without its lock, which is [log_lock] of the machine. *)
Record log := mkLog {
  start : Z;
  size : Z;
  outstanding : Z;
  committing : Z;
  dev : Z;
  lh : logheader
}.

(** The fields of [struct buf] that [log_write] reads and writes. *)
Record buf := mkBuf {
  flags : Z;
  blockno : Z
}.

Record lstate := mkL {
  kern : kernel;
  lg : log;
  bufs : list buf               (* [bcache.buf] *)
}.

Definition M (A : Type) := lstate -> outcome lstate A.

Definition liftK {A} (m : Proc.M A) : M A := fun s =>
  match m (kern s) with
  | Ret a k => Ret a (mkL k (lg s) (bufs s))
  | Panic msg => Panic msg
  | Spin k => Spin (mkL k (lg s) (bufs s))
  | Asleep k => Asleep (mkL k (lg s) (bufs s))
  end.

Definition set_lg (l : log) (s : lstate) : lstate := mkL (kern s) l (bufs s).
Definition set_lh (h : logheader) (l : log) : log :=
  mkLog (start l) (size l) (outstanding l) (committing l) (dev l) h.
Definition set_outstanding (v : Z) (l : log) : log :=
  mkLog (start l) (size l) v (committing l) (dev l) (lh l).
Definition set_committing (v : Z) (l : log) : log :=
  mkLog (start l) (size l) (outstanding l) v (dev l) (lh l).

Definition dflt_buf : buf := mkBuf 0 0.
Definition buf_at (b : nat) (s : lstate) : buf := nth b (bufs s) dflt_buf.

(** Conversions between [uint] and [int] values of the same 32 bits. *)
Definition to_int (x : Z) : Z :=
  let y := x mod 2 ^ 32 in if y <? 2 ^ 31 then y else y - 2 ^ 32.
Definition to_uint (x : Z) : Z := x mod 2 ^ 32.

(** The absorption loop [for (i = 0; i < log.lh.n; i++)] with its [break]:
    the value of [i] after the loop.  [todo] counts the iterations left. *)
Fixpoint absorb_scan (blk : list Z) (bno : Z) (i : Z) (todo : nat) : Z :=
  match todo with
  | O => i
  | S t => if to_uint (nth (Z.to_nat i) blk 0) =? bno then i
           else absorb_scan blk bno (i + 1) t
  end.

(** The header after the loop and the [if (i == log.lh.n)] that follows. *)
Definition absorb (h : logheader) (bno : Z) : logheader :=
  let i := absorb_scan (block h) bno 0 (Z.to_nat (n h)) in
  if i =? n h
  then mkHeader (n h + 1) (<[Z.to_nat i := to_int bno]> (block h))
  else h.

(** [log_write] of buffer slot [b]. *)
Definition log_write (c : nat) (b : nat) : M unit := fun s =>
  if (LOGSIZE <=? n (lh (lg s))) || (size (lg s) - 1 <=? n (lh (lg s)))
  then Panic "too big a transaction"
  else if outstanding (lg s) <? 1
  then Panic "log_write outside of trans"
  else
    (liftK (lift (acquire log_lock c)) ;;
     modify (fun s => set_lg (set_lh (absorb (lh (lg s)) (blockno (buf_at b s))) (lg s)) s) ;;
     modify (fun s =>
       let x := buf_at b s in
       mkL (kern s) (lg s) (<[b := mkBuf (Z.lor (flags x) B_DIRTY) (blockno x)]> (bufs s))) ;;
     liftK (lift (release log_lock c))) s.

(** The [while (1)] of [begin_op]; a sleep takes the next step of the
    schedule, and the schedule that is left is returned for the caller's
    later sleeps. *)
Fixpoint begin_op_loop (env : list (lstate -> lstate)) (c : nat) : M (list (lstate -> lstate)) :=
  fun s =>
  if negb (committing (lg s) =? 0)
     || (LOGSIZE <? n (lh (lg s)) + (outstanding (lg s) + 1) * MAXOPBLOCKS)
  then
    (let! pi := liftK (sleep_enter c ChanLog log_lock) in
     fun s1 =>
       match env with
       | [] => Asleep s1
       | e :: env' => (liftK (sleep_leave c log_lock pi) ;; begin_op_loop env' c) (e s1)
       end) s
  else
    (modify (fun s => set_lg (set_outstanding (outstanding (lg s) + 1) (lg s)) s) ;;
     liftK (lift (release log_lock c)) ;;
     ret env) s.

(** [begin_op]. *)
Definition begin_op (env : list (lstate -> lstate)) (c : nat) : M (list (lstate -> lstate)) :=
  liftK (lift (acquire log_lock c)) ;; begin_op_loop env c.

(** [end_op]; [commit] is the commit procedure, which goes to the disk. *)
Definition end_op (commit : M unit) (c : nat) : M unit :=
  let! cm := gets (fun s => committing (lg s)) in
  if negb (cm =? 0) then panic "log.committing"
  else
    liftK (lift (acquire log_lock c)) ;;
    modify (fun s => set_lg (set_outstanding (outstanding (lg s) - 1) (lg s)) s) ;;
    let! o := gets (fun s => outstanding (lg s)) in
    (if o =? 0
     then modify (fun s => set_lg (set_committing 1 (lg s)) s)
     else liftK (wakeup c ChanLog)) ;;
    liftK (lift (release log_lock c)) ;;
    let! cm2 := gets (fun s => committing (lg s)) in
    if negb (cm2 =? 0)
    then
      commit ;;
      liftK (lift (acquire log_lock c)) ;;
      modify (fun s => set_lg (set_committing 0 (lg s)) s) ;;
      liftK (wakeup c ChanLog) ;;
      liftK (lift (release log_lock c))
    else ret tt.

(** The entries of the staged header: the first [n] slots of [block]. *)
Definition entries (h : logheader) : list Z := take (Z.to_nat (n h)) (block h).

(** How many header entries name block [bno]. *)
Definition count_block (bno : Z) (h : logheader) : nat :=
  length (filter (fun e => to_uint e = bno) (entries h)).

(** The staged header during a transaction: a count within the array, 32-bit
    [int] entries, no block number twice. *)
Definition header_ok (h : logheader) : Prop :=
  0 <= n h <= LOGSIZE /\
  length (block h) = Z.to_nat LOGSIZE /\
  (forall e, In e (entries h) -> - 2 ^ 31 <= e < 2 ^ 31) /\
  NoDup (entries h).

(** A state in which a transaction is open on CPU [c] with an empty header:
    the lock machine of [two_cpus] with a third lock, so that [log_lock]
    exists; a log of 30 blocks; cached buffers of blocks 33 and 34. *)
Definition open_transaction : lstate :=
  mkL (mkKernel (mkMachine (cpus two_cpus) [mkLock 0 None; mkLock 0 None; mkLock 0 None])
                [] [None; None] [] [])
      (mkLog 2 30 1 0 1 (mkHeader 0 (repeat 0 30)))
      [mkBuf B_VALID 33; mkBuf B_VALID 34].

(** What is left of [end_op] after [commit]. *)
Definition after_commit (c : nat) : M unit :=
  liftK (lift (acquire log_lock c)) ;;
  modify (fun s => set_lg (set_committing 0 (lg s)) s) ;;
  liftK (wakeup c ChanLog) ;;
  liftK (lift (release log_lock c)).

End Log.

(** ** fileSystem/fs.c: blocks, block map, inode contents *)
Module Fs.

Definition BSIZE : Z := 512.
Definition NDIRECT : Z := 12.
(** [NINDIRECT] is [BSIZE / sizeof(uint)], and a [uint] has 4 bytes. *)
Definition NINDIRECT : Z := BSIZE / 4.
Definition MAXFILE : Z := NDIRECT + NINDIRECT.
(** [INODE_PER_BLOCK]: a [struct dinode] has 64 bytes. *)
Definition INODE_PER_BLOCK : Z := BSIZE / 64.
Definition BPB : Z := BSIZE * 8.
Definition T_DIR : Z := 1.
Definition T_FILE : Z := 2.
Definition T_DEV : Z := 3.
Definition NDEV : Z := 10.

Record superblock := mkSb {
  sb_size : Z;
  nblocks : Z;
  ninodes : Z;
  nlog : Z;
  logstart : Z;
  inodestart : Z;
  bmapstart : Z
}.

Definition IBLOCK (i : Z) (b : superblock) : Z := i / INODE_PER_BLOCK + inodestart b.
Definition BBLOCK (b : Z) (sb : superblock) : Z := b / BPB + bmapstart sb.

(** [struct inode] without its sleeplock. *)
Record inode := mkInode {
  dev : Z;
  inum : Z;
  ref : Z;
  valid : Z;
  type : Z;
  major : Z;
  minor : Z;
  nlink : Z;
  size : Z;
  addrs : list Z               (* [NDIRECT + 1] block numbers *)
}.

(** The device as the buffer cache shows it: the byte at an offset of a
    block of a device.  [bread] hands out the cached block, a change of
    [bp->data] is a change of this content, and [log_write] and [brelse]
    leave it as it is.  [devsw_write] is the [write] column of [devsw];
    [None] is a null function pointer. *)
Record disk := mkDisk {
  sb : superblock;
  blocks : Z -> Z -> Z -> Z;
  devsw_write : Z -> option (list Z -> Z -> Z)
}.

Definition M (A : Type) := disk -> outcome disk A.

Definition get8 (d : disk) (dv b o : Z) : Z := blocks d dv b o.

(** [memmove(bp->data + o, bs, length bs)] on block [b]. *)
Definition put_bytes (dv b o : Z) (bs : list Z) (d : disk) : disk :=
  mkDisk (sb d)
    (fun dv' b' o' =>
       if (dv' =? dv) && (b' =? b) && (o <=? o') && (o' <? o + Z.of_nat (length bs))
       then nth (Z.to_nat (o' - o)) bs 0
       else blocks d dv' b' o')
    (devsw_write d).

(** The [w] bytes of [v], low byte first. *)
Definition le (w : nat) (v : Z) : list Z :=
  map (fun k => (v / 256 ^ Z.of_nat k) mod 256) (seq 0 w).

(** [((uint* )bp->data)[i]] read and written. *)
Definition get32 (d : disk) (dv b i : Z) : Z :=
  get8 d dv b (4 * i) + 256 * get8 d dv b (4 * i + 1)
  + 65536 * get8 d dv b (4 * i + 2) + 16777216 * get8 d dv b (4 * i + 3).
Definition put32 (dv b i v : Z) (d : disk) : disk :=
  put_bytes dv b (4 * i) (le 4 v) d.

(** [bzero]. *)
Definition bzero (dv bno : Z) : M unit :=
  modify (put_bytes dv bno 0 (repeat 0 (Z.to_nat BSIZE))).

(** The two loops of [balloc] as one walk over the bit numbers
    [k = b + bi]: bit [k] is bit [bi % 8] of byte [bi / 8] of bitmap block
    [BBLOCK(b, sb)], with [bi = k % BPB] and [b = k - bi]. *)
Fixpoint balloc_scan (dv : Z) (k : Z) (todo : nat) : M Z := fun d =>
  match todo with
  | O => Panic "balloc: out of blocks"
  | S t =>
      let bi := k mod BPB in
      let bb := BBLOCK (k - bi) (sb d) in
      let m := Z.shiftl 1 (bi mod 8) in
      if Z.land (get8 d dv bb (bi / 8)) m =? 0
      then (modify (put_bytes dv bb (bi / 8) [Z.lor (get8 d dv bb (bi / 8)) m]) ;;
            bzero dv k ;;
            ret k) d
      else balloc_scan dv (k + 1) t d
  end.

Definition balloc (dv : Z) : M Z := fun d =>
  balloc_scan dv 0 (Z.to_nat (sb_size (sb d))) d.

Definition addr_at (ip : inode) (i : Z) : Z := nth (Z.to_nat i) (addrs ip) 0.
Definition set_addr (i v : Z) (ip : inode) : inode :=
  mkInode (dev ip) (inum ip) (ref ip) (valid ip) (type ip) (major ip) (minor ip)
          (nlink ip) (size ip) (<[Z.to_nat i := v]> (addrs ip)).
Definition set_size (v : Z) (ip : inode) : inode :=
  mkInode (dev ip) (inum ip) (ref ip) (valid ip) (type ip) (major ip) (minor ip)
          (nlink ip) v (addrs ip).

(** [bmap]; the result is the block number and the inode with the
    addresses that were filled in. *)
Definition bmap (ip : inode) (bn : Z) : M (Z * inode) :=
  if bn <? NDIRECT then
    if addr_at ip bn =? 0
    then let! a := balloc (dev ip) in ret (a, set_addr bn a ip)
    else ret (addr_at ip bn, ip)
  else
    let bn := bn - NDIRECT in
    if bn <? NINDIRECT then
      let! ai := (if addr_at ip NDIRECT =? 0
                  then let! a := balloc (dev ip) in ret (a, set_addr NDIRECT a ip)
                  else ret (addr_at ip NDIRECT, ip)) in
      let ind := fst ai in
      let ip1 := snd ai in
      let! e := gets (fun d => get32 d (dev ip) ind bn) in
      if e =? 0
      then let! a := balloc (dev ip) in
           modify (put32 (dev ip) ind bn a) ;;
           ret (a, ip1)
      else ret (e, ip1)
    else panic "bmap: out of range".

(** [iupdate]: the 64 bytes of the on-disk inode. *)
Definition dinode_bytes (ip : inode) : list Z :=
  le 2 (type ip) ++ le 2 (major ip) ++ le 2 (minor ip) ++ le 2 (nlink ip)
  ++ le 4 (size ip) ++ flat_map (le 4) (addrs ip).

Definition iupdate (ip : inode) : M unit :=
  fun d => modify (put_bytes (dev ip) (IBLOCK (inum ip) (sb d))
                             (inum ip mod INODE_PER_BLOCK * 64) (dinode_bytes ip)) d.

(** The [for] loop of [writei]: [src] is the whole source buffer, [tot] the
    bytes done, and the result the inode and the final [off].  Every turn
    adds at least one to [tot], so [n - tot] turns are enough. *)
Fixpoint writei_loop (turns : nat) (ip : inode) (src : list Z) (off tot n : Z)
  : M (inode * Z) :=
  match turns with
  | O => ret (ip, off)
  | S t =>
      if tot <? n then
        let! r := bmap ip (off / BSIZE) in
        let m := Z.min (n - tot) (BSIZE - off mod BSIZE) in
        modify (put_bytes (dev ip) (fst r) (off mod BSIZE)
                          (take (Z.to_nat m) (drop (Z.to_nat tot) src))) ;;
        writei_loop t (snd r) src (off + m) (tot + m) n
      else ret (ip, off)
  end.

(** [writei]; [off] and [n] are [uint].  The result is the return value and
    the inode. *)
Definition writei (ip : inode) (src : list Z) (off n : Z) : M (Z * inode) :=
  if type ip =? T_DEV then
    fun d =>
      if (major ip <? 0) || (NDEV <=? major ip) then Ret (-1, ip) d
      else match devsw_write d (major ip) with
           | Some w => Ret (w src n, ip) d
           | None => Ret (-1, ip) d
           end
  else if (size ip <? off) || ((off + n) mod 2 ^ 32 <? off) then ret (-1, ip)
  else if MAXFILE * BSIZE <? (off + n) mod 2 ^ 32 then ret (-1, ip)
  else
    let! r := writei_loop (Z.to_nat n) ip src off 0 n in
    let ip1 := fst r in
    let off1 := snd r in
    if (0 <? n) && (size ip1 <? off1)
    then iupdate (set_size off1 ip1) ;; ret (n, set_size off1 ip1)
    else ret (n, ip1).



(** [bfree]; the byte stored is an [uchar]. *)
Definition bfree (dv b : Z) : M unit := fun d =>
  let bb := BBLOCK b (sb d) in
  let bi := b mod BPB in
  let m := Z.shiftl 1 (bi mod 8) in
  if Z.land (get8 d dv bb (bi / 8)) m =? 0
  then Panic "freeing free block"
  else modify (put_bytes dv bb (bi / 8)
                 [Z.land (get8 d dv bb (bi / 8)) (Z.lnot m) mod 256]) d.

(** Bit [k] of the free bitmap of device [dv]: is block [k] in use? *)
Definition bit_used (d : disk) (dv k : Z) : bool :=
  Z.testbit (get8 d dv (BBLOCK k (sb d)) (k mod BPB / 8)) (k mod BPB mod 8).

(** A disk of 64 blocks with one bitmap block, block 3; the blocks 0 to 9
    are in use. *)
Definition small_bitmap : disk :=
  mkDisk (mkSb 64 54 8 0 2 2 3)
    (fun dv b o => if (b =? 3) && (o =? 0) then 255
                   else if (b =? 3) && (o =? 1) then 3 else 0)
    (fun _ => None).

(** A [short] of [bp->data], at byte offset [o]. *)
Definition get16 (d : disk) (dv b o : Z) : Z :=
  let v := get8 d dv b o + 256 * get8 d dv b (o + 1) in
  if v <? 32768 then v else v - 65536.

(** [ilock] of a pointer that is not null.  The sleeplock of the inode,
    which the record leaves out, is [locked]: a held lock puts the caller
    to sleep.  [struct dinode] number [i] of a block is the 64 bytes from
    [64 * i] on: the shorts [type], [major], [minor] and [nlink], then
    [size], which is the [uint] number [16 * i + 2] of the block, then the
    13 [addrs]. *)
Definition ilock (ip : inode) (locked : bool) : M inode := fun d =>
  if ref ip <? 1 then Panic "ilock"
  else if locked then Asleep d
  else if valid ip =? 0 then
    let b := IBLOCK (inum ip) (sb d) in
    let i := inum ip mod INODE_PER_BLOCK in
    if get16 d (dev ip) b (64 * i) =? 0 then Panic "ilock: no type"
    else Ret (mkInode (dev ip) (inum ip) (ref ip) 1
                (get16 d (dev ip) b (64 * i))
                (get16 d (dev ip) b (64 * i + 2))
                (get16 d (dev ip) b (64 * i + 4))
                (get16 d (dev ip) b (64 * i + 6))
                (get32 d (dev ip) b (16 * i + 2))
                (map (fun k => get32 d (dev ip) b (16 * i + 3 + Z.of_nat k))
                     (seq 0 (Z.to_nat NDIRECT + 1)))) d
  else Ret ip d.

(** The loop of [ialloc] from [inum] on; [type] is a [short].  The result
    is the inode number with which the source calls [iget]. *)
Fixpoint ialloc_scan (dv ty inum : Z) (todo : nat) : M Z := fun d =>
  match todo with
  | O => Panic "ialloc: no inodes"
  | S t =>
      let b := IBLOCK inum (sb d) in
      let o := inum mod INODE_PER_BLOCK * 64 in
      if get16 d dv b o =? 0
      then (modify (put_bytes dv b o (repeat 0 64)) ;;
            modify (put_bytes dv b o (le 2 ty)) ;;
            ret inum) d
      else ialloc_scan dv ty (inum + 1) t d
  end.

Definition ialloc (dv ty : Z) : M Z := fun d =>
  ialloc_scan dv ty 1 (Z.to_nat (ninodes (sb d) - 1)) d.

(** The [type] field of the on-disk inode [inum]. *)
Definition dinode_type (d : disk) (dv inum : Z) : Z :=
  get16 d dv (IBLOCK inum (sb d)) (64 * (inum mod INODE_PER_BLOCK)).

(** The bytes of the on-disk inode [inum]. *)
Definition in_dinode (d : disk) (dv inum dv' b o : Z) : Prop :=
  dv' = dv /\ b = IBLOCK inum (sb d) /\
  64 * (inum mod INODE_PER_BLOCK) <= o < 64 * (inum mod INODE_PER_BLOCK) + 64.

(** The fields of an inode fit their C types. *)
Definition fields_ok (ip : inode) : Prop :=
  0 <= inum ip /\
  -32768 <= type ip < 32768 /\ -32768 <= major ip < 32768 /\
  -32768 <= minor ip < 32768 /\ -32768 <= nlink ip < 32768 /\
  0 <= size ip < 2 ^ 32 /\
  length (addrs ip) = 13%nat /\ Forall (fun a => 0 <= a < 2 ^ 32) (addrs ip).

(** A disk with 16 on-disk inodes in the blocks 2 and 3; the inodes 1 and 2
    are in use. *)
Definition inode_disk : disk :=
  mkDisk (mkSb 64 54 16 0 2 2 4)
    (fun dv b o => if (b =? 2) && ((o =? 64) || (o =? 128)) then 1 else 0)
    (fun _ => None).

Definition some_inode : inode :=
  mkInode 1 5 1 1 T_DEV 2 (-1) 1 1000 [20; 21; 0; 0; 0; 0; 0; 0; 0; 0; 0; 0; 4000000000].

End Fs.

(** ** pipe.c: the pipe itself *)
Module Pipe.
Import Proc.

Definition PIPESIZE : Z := 512.

(** [struct pipe] without its lock. *)
Record pipe := mkPipe {
  data : list Z;                (* [PIPESIZE] bytes *)
  nread : Z;
  nwrite : Z;
  readopen : Z;
  writeopen : Z
}.

(** What [pipewrite] asks of the lock and the scheduler, in call order. *)
Inductive event :=
| EvAcquire
| EvRelease
| EvWakeup (ch : chan)
| EvSleep (ch : chan).

(** What may have happened when the writer is switched back in after a
    sleep: the reader took [k] bytes, the read end was closed, the writer
    was killed, or nothing. *)
Inductive action :=
| Reads (k : Z)
| ClosesRead
| Kills
| Nothing.

(** The pipe at address [pa] as [pipewrite] sees it, with the writer's
    [killed] flag. *)
Record pstate := mkP {
  pp : pipe;
  pkilled : Z;
  trace : list event
}.

Definition emit (e : event) (st : pstate) : pstate :=
  mkP (pp st) (pkilled st) (trace st ++ [e]).

Definition act (a : action) (st : pstate) : pstate :=
  let p := pp st in
  match a with
  | Reads k =>
      let avail := (nwrite p - nread p) mod 2 ^ 32 in
      let k' := Z.max 0 (Z.min k avail) in
      mkP (mkPipe (data p) ((nread p + k') mod 2 ^ 32) (nwrite p) (readopen p) (writeopen p))
          (pkilled st) (trace st)
  | ClosesRead =>
      mkP (mkPipe (data p) (nread p) (nwrite p) 0 (writeopen p)) (pkilled st) (trace st)
  | Kills => mkP p 1 (trace st)
  | Nothing => st
  end.


(** [p->data[p->nwrite++ % PIPESIZE] = b]. *)
Definition store (b : Z) (st : pstate) : pstate :=
  let p := pp st in
  mkP (mkPipe (<[Z.to_nat (nwrite p mod PIPESIZE) := b]> (data p)) (nread p)
              ((nwrite p + 1) mod 2 ^ 32) (readopen p) (writeopen p))
      (pkilled st) (trace st).






(** The bytes in use: [nwrite - nread] on [uint]. *)
Definition used (p : pipe) : Z := (nwrite p - nread p) mod 2 ^ 32.

(** The trace ends with the events [es]. *)
Definition ends_with (es : list event) (st : pstate) : Prop :=
  exists pre, trace st = pre ++ es.



(** [store] of every byte of a list, in order. *)
Fixpoint store_all (bs : list Z) (st : pstate) : pstate :=
  match bs with
  | [] => st
  | b :: r => store_all r (store b st)
  end.

(** What may have happened when the reader is switched back in after a
    sleep: the writer stored bytes (as many of [bs] as there is room for),
    the write end was closed, the reader was killed, or nothing. *)
Inductive raction :=
| Writes (bs : list Z)
| ClosesWrite
| KillsReader
| NothingR.

Definition ract (a : raction) (st : pstate) : pstate :=
  let p := pp st in
  match a with
  | Writes bs => store_all (take (Z.to_nat (PIPESIZE - used p)) bs) st
  | ClosesWrite =>
      mkP (mkPipe (data p) (nread p) (nwrite p) (readopen p) 0) (pkilled st) (trace st)
  | KillsReader => mkP p 1 (trace st)
  | NothingR => st
  end.

(** The first [while] of [piperead]: [true] when there is something to
    read or the write end is closed, [false] when [piperead] has released
    the lock to return -1; each sleep takes the next action, and without
    one the reader stays asleep. *)
Fixpoint wait_data (pa : Z) (env : list raction) (st : pstate)
  : outcome pstate (bool * list raction) :=
  if (nread (pp st) =? nwrite (pp st)) && negb (writeopen (pp st) =? 0) then
    if negb (pkilled st =? 0)
    then Ret (false, env) (emit EvRelease st)
    else
      let st1 := emit (EvSleep (ChanPipeRead pa)) st in
      match env with
      | [] => Asleep st1
      | a :: env' => wait_data pa env' (ract a st1)
      end
  else Ret (true, env) st.

(** [p->data[p->nread++ % PIPESIZE]]. *)
Definition fetch (st : pstate) : Z * pstate :=
  let p := pp st in
  (nth (Z.to_nat (nread p mod PIPESIZE)) (data p) 0,
   mkP (mkPipe (data p) ((nread p + 1) mod 2 ^ 32) (nwrite p) (readopen p) (writeopen p))
       (pkilled st) (trace st)).

(** The second [while] of [piperead], [todo] bytes still asked for: the
    bytes copied to [addr], in order. *)
Fixpoint read_bytes (todo : nat) (st : pstate) : list Z * pstate :=
  match todo with
  | O => ([], st)
  | S t =>
      if nread (pp st) =? nwrite (pp st) then ([], st)
      else
        let (b, st1) := fetch st in
        let (bs, st2) := read_bytes t st1 in
        (b :: bs, st2)
  end.

(** [piperead]: the value returned and the bytes stored at [addr]. *)
Definition piperead (pa : Z) (n : Z) (env : list raction) (st : pstate)
  : outcome pstate (Z * list Z) :=
  match wait_data pa env (emit EvAcquire st) with
  | Ret (true, _) st1 =>
      let (bs, st2) := read_bytes (Z.to_nat n) st1 in
      Ret (Z.of_nat (length bs), bs)
          (emit EvRelease (emit (EvWakeup (ChanPipeWrite pa)) st2))
  | Ret (false, _) st1 => Ret (-1, []) st1
  | Panic msg => Panic msg
  | Spin s => Spin s
  | Asleep s => Asleep s
  end.

(** The bytes waiting in the pipe, the oldest first. *)
Definition contents (p : pipe) : list Z :=
  map (fun k => nth (Z.to_nat ((nread p + Z.of_nat k) mod 2 ^ 32 mod PIPESIZE)) (data p) 0)
      (seq 0 (Z.to_nat (used p))).

(** A pipe as [pipealloc] and the two routines keep it. *)
Definition pipe_ok (p : pipe) : Prop :=
  length (data p) = 512%nat /\ 0 <= nread p < 2 ^ 32 /\ 0 <= nwrite p < 2 ^ 32 /\
  used p <= 512.

(** An empty pipe with both ends open. *)
Definition empty_pipe : pstate :=
  mkP (mkPipe (repeat 0 512) 0 0 1 1) 0 [].

End Pipe.

(** ** file.c, pipe.c ([pipealloc], [pipeclose]), kalloc.c and sysfile.c
       ([fdalloc], [sys_pipe]) *)
Module File.
Import Spinlock Proc Pipe.

Definition NFILE : nat := 100.
Definition PGSIZE : Z := 4096.
Definition KERNBASE : Z := 0x80000000.
Definition PHYSTOP : Z := 0xE000000.
Definition V2P (a : Z) : Z := (a - KERNBASE) mod 2 ^ 32.

Inductive filetype := FD_NONE | FD_PIPE | FD_INODE.

#[global] Instance filetype_eq_dec : EqDecision filetype.
Proof. solve_decision. Defined.

(** [struct file]; [fpipe] is the address of the pipe (0 for null) and
    [fip] the slot of the inode in the inode cache. *)
Record file := mkFile {
  ftype : filetype;
  fref : Z;
  readable : Z;
  writable : Z;
  fpipe : Z;
  fip : option nat;
  foff : Z
}.

(** The state these files work on: the kernel with its log, [ftable.file],
    [kmem] ([use_lock], the free list, and [end], the first address after
    the kernel image), the pipes that live in allocated pages, keyed by the
    address of the page, and the memory of the current address space with
    the addresses read in it. *)
Record fstate := mkF {
  lst : Log.lstate;
  ftable : list file;
  use_lock : Z;
  freelist : list Z;
  kend : Z;
  pipes : gmap Z pipe;
  load32 : Z -> option Z;
  reads : list Z
}.

Definition M (A : Type) := fstate -> outcome fstate A.

Definition kmem_lock : nat := 5.

(** The slot of the lock of the pipe in the page at [pa]: every page has
    one, after the locks of the kernel's global objects. *)
Definition pipe_lock (pa : Z) : nat := (6 + Z.to_nat ((pa - KERNBASE) / PGSIZE))%nat.

Definition set_lst (l : Log.lstate) (s : fstate) : fstate :=
  mkF l (ftable s) (use_lock s) (freelist s) (kend s) (pipes s) (load32 s) (reads s).
Definition set_ftable (t : list file) (s : fstate) : fstate :=
  mkF (lst s) t (use_lock s) (freelist s) (kend s) (pipes s) (load32 s) (reads s).
Definition set_freelist (l : list Z) (s : fstate) : fstate :=
  mkF (lst s) (ftable s) (use_lock s) l (kend s) (pipes s) (load32 s) (reads s).
Definition set_pipes (p : gmap Z pipe) (s : fstate) : fstate :=
  mkF (lst s) (ftable s) (use_lock s) (freelist s) (kend s) p (load32 s) (reads s).
Definition set_mem (m : Z -> option Z) (r : list Z) (s : fstate) : fstate :=
  mkF (lst s) (ftable s) (use_lock s) (freelist s) (kend s) (pipes s) m r.

Definition liftL {A} (m : Log.M A) : M A := fun s =>
  match m (lst s) with
  | Ret a l => Ret a (set_lst l s)
  | Panic msg => Panic msg
  | Spin l => Spin (set_lst l s)
  | Asleep l => Asleep (set_lst l s)
  end.

Definition liftK {A} (m : Proc.M A) : M A := liftL (Log.liftK m).
Definition liftM {A} (m : Spinlock.M A) : M A := liftK (lift m).

Definition liftS {A} (m : Syscall.M A) : M A := fun s =>
  let back (y : Syscall.sys) :=
    set_mem (Syscall.load32 y) (Syscall.reads y)
            (set_lst (Log.mkL (Syscall.kern y) (Log.lg (lst s)) (Log.bufs (lst s))) s) in
  match m (Syscall.mkSys (Log.kern (lst s)) (load32 s) (reads s)) with
  | Ret a y => Ret a (back y)
  | Panic msg => Panic msg
  | Spin y => Spin (back y)
  | Asleep y => Asleep (back y)
  end.

Definition kernel_of (s : fstate) : kernel := Log.kern (lst s).
Definition dflt_file : file := mkFile FD_NONE 0 0 0 0 None 0.
Definition file_at (f : nat) (s : fstate) : file := nth f (ftable s) dflt_file.
Definition upd_file (f : nat) (g : file -> file) (s : fstate) : fstate :=
  set_ftable (<[f := g (file_at f s)]> (ftable s)) s.

Definition set_fref (v : Z) (x : file) : file :=
  mkFile (ftype x) v (readable x) (writable x) (fpipe x) (fip x) (foff x).
Definition set_ftype (t : filetype) (x : file) : file :=
  mkFile t (fref x) (readable x) (writable x) (fpipe x) (fip x) (foff x).

(** [kalloc]: the head of the free list, or 0. *)
Definition kalloc (c : nat) : M Z :=
  let! ul := gets use_lock in
  (if negb (ul =? 0) then liftM (acquire kmem_lock c) else ret tt) ;;
  let! fl := gets freelist in
  (match fl with
   | [] => ret tt
   | _ :: rest => modify (set_freelist rest)
   end) ;;
  (if negb (ul =? 0) then liftM (release kmem_lock c) else ret tt) ;;
  ret (match fl with [] => 0 | r :: _ => r end).

(** [kfree]: the page is filled with 1s, which wipes a pipe that lived in it
    and leaves its lock word at 0x01010101, and goes to the head of the
    free list. *)
Definition kfree (c : nat) (v : Z) : M unit :=
  let! e := gets kend in
  if negb (v mod PGSIZE =? 0) || (v <? e) || (PHYSTOP <=? V2P v) then panic "kfree"
  else
    modify (fun s => set_pipes (delete v (pipes s)) s) ;;
    liftM (modify (set_lock (pipe_lock v) (mkLock 0x01010101 None))) ;;
    let! ul := gets use_lock in
    (if negb (ul =? 0) then liftM (acquire kmem_lock c) else ret tt) ;;
    modify (fun s => set_freelist (v :: freelist s) s) ;;
    (if negb (ul =? 0) then liftM (release kmem_lock c) else ret tt).

(** The scan of [filealloc]: the first slot with [ref == 0]. *)
Fixpoint free_slot (t : list file) (i : nat) : option nat :=
  match t with
  | [] => None
  | x :: rest => if fref x =? 0 then Some i else free_slot rest (S i)
  end.

(** [filealloc]. *)
Definition filealloc (c : nat) : M (option nat) :=
  liftM (acquire ftable_lock c) ;;
  let! r := gets (fun s => free_slot (ftable s) 0) in
  match r with
  | Some f => modify (upd_file f (set_fref 1)) ;;
              liftM (release ftable_lock c) ;;
              ret (Some f)
  | None => liftM (release ftable_lock c) ;; ret None
  end.


Definition dflt_pipe : pipe := mkPipe [] 0 0 0 0.
Definition pipe_at (pa : Z) (s : fstate) : pipe := default dflt_pipe (pipes s !! pa).

(** [pipeclose]. *)
Definition pipeclose (c : nat) (pa : Z) (wr : Z) : M unit :=
  liftM (acquire (pipe_lock pa) c) ;;
  modify (fun s =>
    let p := pipe_at pa s in
    set_pipes (<[pa := if negb (wr =? 0)
                       then mkPipe (data p) (nread p) (nwrite p) (readopen p) 0
                       else mkPipe (data p) (nread p) (nwrite p) 0 (writeopen p)]> (pipes s)) s) ;;
  let! p := gets (pipe_at pa) in
  if (readopen p =? 0) && (writeopen p =? 0)
  then liftM (release (pipe_lock pa) c) ;; kfree c pa
  else liftM (release (pipe_lock pa) c).

Section WithInodeLayer.

(** [iput] of fs.c, on a slot of the inode cache, and the commit procedure
    of log.c; both go to the disk. *)
Variable iput : nat -> M unit.
Variable commit : Log.M unit.

(** [fileclose]. *)
Definition fileclose (env : list (Log.lstate -> Log.lstate)) (c : nat) (f : nat) : M unit :=
  liftM (acquire ftable_lock c) ;;
  let! x := gets (file_at f) in
  if fref x <? 1 then panic "fileclose"
  else
    modify (upd_file f (set_fref (fref x - 1))) ;;
    if 0 <? fref x - 1
    then liftM (release ftable_lock c)
    else
      (match ftype x with
       | FD_PIPE => pipeclose c (fpipe x) (writable x)
       | FD_INODE =>
           liftL (Log.begin_op env c) ;;
           (match fip x with
            | Some i => iput i
            | None => panic "iput: null inode"
            end) ;;
           liftL (Log.end_op commit c)
       | FD_NONE => ret tt
       end) ;;
      modify (upd_file f (set_ftype FD_NONE)) ;;
      liftM (release ftable_lock c).

(** [fileclose] on a [struct file*]: the null pointer has no [ref] to
    read; the model stops there. *)
Definition fileclose_ptr (env : list (Log.lstate -> Log.lstate)) (c : nat)
                         (f : option nat) : M unit :=
  match f with
  | Some i => fileclose env c i
  | None => panic "fileclose: null file"
  end.

(** [pipealloc].  The parameters are [struct file*] values: the assignments
    to [f0] and [f1] stay inside the function, and the [int] is all that
    comes back.  The page of the pipe comes from the free list, where
    [kfree] has filled it with 1s. *)
Definition pipealloc (c : nat) (f0 f1 : option nat) : M Z :=
  let bad (p : Z) (f0 f1 : option nat) : M Z :=
    (if negb (p =? 0) then kfree c p else ret tt) ;;
    (match f0 with Some i => fileclose [] c i | None => ret tt end) ;;
    (match f1 with Some i => fileclose [] c i | None => ret tt end) ;;
    ret (-1) in
  let! a0 := filealloc c in
  match a0 with
  | None => bad 0 None f1
  | Some i0 =>
      let! a1 := filealloc c in
      match a1 with
      | None => bad 0 (Some i0) None
      | Some i1 =>
          let! p := kalloc c in
          if p =? 0 then bad 0 (Some i0) (Some i1)
          else
            modify (fun s => set_pipes (<[p := mkPipe (repeat 1 512%nat) 0 0 1 1]> (pipes s)) s) ;;
            liftM (modify (initlock (pipe_lock p))) ;;
            modify (upd_file i0 (fun x => mkFile FD_PIPE (fref x) 1 0 p (fip x) (foff x))) ;;
            modify (upd_file i1 (fun x => mkFile FD_PIPE (fref x) 0 1 p (fip x) (foff x))) ;;
            ret 0
      end
  end.

(** The scan of [fdalloc]: the first null entry of [ofile]. *)
Fixpoint free_fd (o : list (option nat)) (fd : Z) : option Z :=
  match o with
  | [] => None
  | None :: _ => Some fd
  | Some _ :: rest => free_fd rest (fd + 1)
  end.

(** [fdalloc]. *)
Definition fdalloc (c : nat) (f : option nat) : M Z :=
  let! mp := liftK (myproc c) in
  match mp with
  | None => panic "trap"
  | Some p =>
      let! o := gets (fun s => ofile (proc_at p (kernel_of s))) in
      match free_fd o 0 with
      | Some fd =>
          liftK (modify (upd_proc p (fun x => set_ofile (<[Z.to_nat fd := f]> (ofile x)) x))) ;;
          ret fd
      | None => ret (-1)
      end
  end.

(** [fd[i] = v]: a store into the current address space. *)
Definition store32 (a v : Z) : M unit := fun s =>
  match load32 s a with
  | Some _ => Ret tt (set_mem (fun a' => if a' =? a then Some v else load32 s a') (reads s) s)
  | None => Panic "trap"
  end.

(** [sys_pipe]. *)
Definition sys_pipe (c : nat) : M Z :=
  let rf : option nat := None in
  let wf : option nat := None in
  let! r := liftS (Syscall.argptr c 0) in
  if fst r <? 0 then ret (-1)
  else
    let fd := snd r in
    let! pr := pipealloc c rf wf in
    if pr <? 0 then ret (-1)
    else
      let! fd0 := fdalloc c rf in
      let! fd1 := (if fd0 <? 0 then ret (-1) else fdalloc c wf) in
      if (fd0 <? 0) || (fd1 <? 0)
      then
        (if 0 <=? fd0
         then let! mp := liftK (myproc c) in
              match mp with
              | Some p => liftK (modify (upd_proc p (fun x =>
                            set_ofile (<[Z.to_nat fd0 := None]> (ofile x)) x)))
              | None => panic "trap"
              end
         else ret tt) ;;
        fileclose_ptr [] c rf ;;
        fileclose_ptr [] c wf ;;
        ret (-1)
      else
        store32 fd fd0 ;;
        store32 ((fd + 4) mod 2 ^ 32) fd1 ;;
        ret 0.

End WithInodeLayer.

(** A process (slot 0, pid 1, two pages) with no open file calls [pipe(fd)]
    with [fd = 4100]: the argument is at [esp + 4 = 4004].  The file table
    is empty, one page is free, and the log is idle. *)
Definition pipe_call : fstate :=
  mkF (Log.mkL
         (mkKernel (mkMachine (cpus two_cpus) (repeat (mkLock 0 None) 300))
                   [mkProc 8192 0 0 RUNNING 1 None 4000 0 None 0 (repeat None 16) None 0]
                   [Some 0%nat; None] [] [])
         (Log.mkLog 2 30 0 0 1 (Log.mkHeader 0 (repeat 0 30)))
         [])
      (repeat dflt_file 100) 1 [KERNBASE + 0x100000] (KERNBASE + 0x100000) ∅
      (fun a => if a =? 4004 then Some 4100
                else if (a =? 4100) || (a =? 4104) then Some (-1) else None)
      [].

(** Process 0 on CPU 0 holds the last reference to an open file on inode
    slot 3 (file slot 0) while another process is committing the log. *)
Definition last_close_during_commit : fstate :=
  mkF (Log.mkL
         (mkKernel (mkMachine (cpus two_cpus) (repeat (mkLock 0 None) 6))
                   [mkProc 8192 0 0 RUNNING 1 None 4000 0 None 0
                           (Some 0%nat :: repeat None 15) None 0]
                   [Some 0%nat; None] [] [])
         (Log.mkLog 2 30 0 1 1 (Log.mkHeader 3 (repeat 0 30)))
         [])
      (mkFile FD_INODE 1 1 0 0 (Some 3%nat) 0 :: repeat dflt_file 99)
      1 [] (KERNBASE + 0x100000) ∅ (fun _ => None) [].





End File.

(** ** memory/kalloc.c and memory/vm.c *)
Module Vm.
Import Spinlock.

Definition PGSIZE : Z := 4096.
Definition KERNBASE : Z := 0x80000000.
Definition PHYSTOP : Z := 0xE000000.
Definition PTE_W : Z := 0x002.
Definition PTE_U : Z := 0x004.
Definition PTXSHIFT : Z := 12.
Definition PDXSHIFT : Z := 22.

Definition V2P (a : Z) : Z := (a - KERNBASE) mod 2 ^ 32.
Definition P2V (a : Z) : Z := (a + KERNBASE) mod 2 ^ 32.
Definition PDX (va : Z) : Z := Z.land (Z.shiftr va PDXSHIFT) 0x3FF.
Definition PTX (va : Z) : Z := Z.land (Z.shiftr va PTXSHIFT) 0x3FF.
Definition PGADDR (d t o : Z) : Z :=
  Z.lor (Z.lor (Z.shiftl d PDXSHIFT) (Z.shiftl t PTXSHIFT)) o mod 2 ^ 32.
Definition PGROUNDUP (sz : Z) : Z := Z.land (sz + PGSIZE - 1) (Z.lnot (PGSIZE - 1)) mod 2 ^ 32.
Definition PGROUNDDOWN (a : Z) : Z := Z.land a (Z.lnot (PGSIZE - 1)) mod 2 ^ 32.

(** [pageDirecoryEntry] (and [pageTableEntry], the same type): a 32-bit
    word as its five bit fields, of 1, 1, 1, 9 and 20 bits. *)
Record entry := mkEntry {
  present : Z;
  writable : Z;
  permission : Z;
  padding : Z;
  physicalAdress : Z
}.

Definition zero_entry : entry := mkEntry 0 0 0 0 0.

(** The word [w] seen through the bit fields. *)
Definition entry_of_word (w : Z) : entry :=
  mkEntry (w mod 2) (w / 2 mod 2) (w / 4 mod 2) (w / 8 mod 512) (w / 4096 mod 2 ^ 20).

(** The state of the allocator and of memory: the lock machine, [kmem]
    ([use_lock], the free list as the list of its pages, [end]), and the
    pages of kernel memory, each 1024 words seen as entries, by the kernel
    virtual address of the page. *)
Record vstate := mkV {
  mach : machine;
  use_lock : Z;
  freelist : list Z;
  kend : Z;
  mem : Z -> Z -> entry
}.

Definition M (A : Type) := vstate -> outcome vstate A.

Definition kmem_lock : nat := 5.

Definition liftM {A} (m : Spinlock.M A) : M A := fun s =>
  let back (x : machine) := mkV x (use_lock s) (freelist s) (kend s) (mem s) in
  match m (mach s) with
  | Ret a x => Ret a (back x)
  | Panic msg => Panic msg
  | Spin x => Spin (back x)
  | Asleep x => Asleep (back x)
  end.

Definition set_freelist (l : list Z) (s : vstate) : vstate :=
  mkV (mach s) (use_lock s) l (kend s) (mem s).
Definition set_mem (m : Z -> Z -> entry) (s : vstate) : vstate :=
  mkV (mach s) (use_lock s) (freelist s) (kend s) m.

(** One entry of a page written. *)
Definition write_entry (p i : Z) (e : entry) (s : vstate) : vstate :=
  set_mem (fun p' i' => if (p' =? p) && (i' =? i) then e else mem s p' i') s.

(** [memset(p, b, PGSIZE)] for the byte [b], which fills every word with
    [b] four times. *)
Definition memset_page (p : Z) (b : Z) (s : vstate) : vstate :=
  let w := b + 256 * b + 65536 * b + 16777216 * b in
  set_mem (fun p' i' => if p' =? p then entry_of_word w else mem s p' i') s.

(** [kalloc]. *)
Definition kalloc (c : nat) : M Z :=
  let! ul := gets use_lock in
  (if negb (ul =? 0) then liftM (acquire kmem_lock c) else ret tt) ;;
  let! fl := gets freelist in
  (match fl with
   | [] => ret tt
   | _ :: rest => modify (set_freelist rest)
   end) ;;
  (if negb (ul =? 0) then liftM (release kmem_lock c) else ret tt) ;;
  ret (match fl with [] => 0 | r :: _ => r end).

(** [kfree]: the page is filled with 1s, its first word becomes the link to
    the old head of the list, and it is the new head. *)
Definition kfree (c : nat) (v : Z) : M unit :=
  let! e := gets kend in
  if negb (v mod PGSIZE =? 0) || (v <? e) || (PHYSTOP <=? V2P v) then panic "kfree"
  else
    modify (memset_page v 1) ;;
    let! ul := gets use_lock in
    (if negb (ul =? 0) then liftM (acquire kmem_lock c) else ret tt) ;;
    modify (fun s => write_entry v 0 (entry_of_word (hd 0 (freelist s))) s) ;;
    modify (fun s => set_freelist (v :: freelist s) s) ;;
    (if negb (ul =? 0) then liftM (release kmem_lock c) else ret tt).

(** The page a present directory entry points to:
    [P2V(pde->physicalAdress << 12)]. *)
Definition table_of (e : entry) : Z := P2V ((physicalAdress e * 4096) mod 2 ^ 32).

(** [walkpgdir]: the page table and the index in it of the entry of [va],
    or [None] for the null pointer. *)
Definition walkpgdir (c : nat) (pgdir va : Z) (alloc : Z) : M (option (Z * Z)) :=
  let! pde := gets (fun s => mem s pgdir (PDX va)) in
  if present pde =? 1 then ret (Some (table_of pde, PTX va))
  else if alloc =? 0 then ret None
  else
    let! pgtab := kalloc c in
    if pgtab =? 0 then ret None
    else
      modify (memset_page pgtab 0) ;;
      modify (write_entry pgdir (PDX va)
                (mkEntry 1 1 1 (padding pde) (Z.land (Z.shiftr (V2P pgtab) 12) 0xfffff))) ;;
      ret (Some (pgtab, PTX va)).

(** The [while (1)] of [mappages]; [more] is the number of pages after
    [a], zero exactly when [a == last]. *)
Fixpoint mappages_loop (more : nat) (c : nat) (pgdir a last pa perm : Z) : M Z :=
  let! w := walkpgdir c pgdir a 1 in
  match w with
  | None => ret (-1)
  | Some (t, i) =>
      let! pte := gets (fun s => mem s t i) in
      if negb (present pte =? 0) then panic "remap"
      else
        modify (write_entry t i
                  (mkEntry 1
                           (if 1 <? Z.land perm 2 then 1 else 0)
                           (if 2 <? Z.land perm 4 then 1 else 0)
                           (padding pte)
                           (Z.shiftr pa 12))) ;;
        if a =? last then ret 0
        else match more with
             | O => ret 0
             | S m => mappages_loop m c pgdir ((a + PGSIZE) mod 2 ^ 32) last
                                    ((pa + PGSIZE) mod 2 ^ 32) perm
             end
  end.

(** [mappages]. *)
Definition mappages (c : nat) (pgdir va size pa perm : Z) : M Z :=
  let a := PGROUNDDOWN va in
  let last := PGROUNDDOWN ((va + size - 1) mod 2 ^ 32) in
  mappages_loop (Z.to_nat (((last - a) mod 2 ^ 32) / PGSIZE)) c pgdir a last pa perm.

(** The [for] of [deallocuvm]; every turn moves [a] up by a page at least,
    so as many turns as there are pages below [oldsz] are enough. *)
Fixpoint deallocuvm_loop (turns : nat) (c : nat) (pgdir oldsz a : Z) : M unit :=
  match turns with
  | O => ret tt
  | S t =>
      if a <? oldsz then
        let! w := walkpgdir c pgdir a 0 in
        match w with
        | None =>
            let a1 := (PGADDR (PDX a + 1) 0 0 - PGSIZE) mod 2 ^ 32 in
            deallocuvm_loop t c pgdir oldsz ((a1 + PGSIZE) mod 2 ^ 32)
        | Some (tb, i) =>
            let! pte := gets (fun s => mem s tb i) in
            (if negb (present pte =? 0) then
               let pa := (physicalAdress pte * 4096) mod 2 ^ 32 in
               if pa =? 0 then panic "kfree"
               else
                 kfree c (P2V pa) ;;
                 modify (fun s => write_entry tb i (mkEntry 0 0 0 (padding (mem s tb i)) 0) s)
             else ret tt) ;;
            deallocuvm_loop t c pgdir oldsz ((a + PGSIZE) mod 2 ^ 32)
        end
      else ret tt
  end.

(** [deallocuvm]. *)
Definition deallocuvm (c : nat) (pgdir oldsz newsz : Z) : M Z :=
  if oldsz <=? newsz then ret oldsz
  else
    let a := PGROUNDUP newsz in
    deallocuvm_loop (Z.to_nat ((oldsz - a + PGSIZE - 1) / PGSIZE)) c pgdir oldsz a ;;
    ret newsz.

(** The [for] of [allocuvm]. *)
Fixpoint allocuvm_loop (turns : nat) (c : nat) (pgdir oldsz newsz a : Z) : M Z :=
  match turns with
  | O => ret newsz
  | S t =>
      if a <? newsz then
        let! m := kalloc c in
        if m =? 0 then
          deallocuvm c pgdir newsz oldsz ;; ret 0
        else
          modify (memset_page m 0) ;;
          let! r := mappages c pgdir a PGSIZE (V2P m) (Z.lor PTE_W PTE_U) in
          if r <? 0 then
            deallocuvm c pgdir newsz oldsz ;; kfree c m ;; ret 0
          else allocuvm_loop t c pgdir oldsz newsz ((a + PGSIZE) mod 2 ^ 32)
      else ret newsz
  end.

(** [allocuvm]. *)
Definition allocuvm (c : nat) (pgdir oldsz newsz : Z) : M Z :=
  if KERNBASE <=? newsz then ret 0
  else if newsz <? oldsz then ret oldsz
  else
    let a := PGROUNDUP oldsz in
    allocuvm_loop (Z.to_nat ((newsz - a + PGSIZE - 1) / PGSIZE)) c pgdir oldsz newsz a.

(** What the page table [pgdir] makes of a user address: the page-table
    entry when both levels are present. *)
Definition translate (s : vstate) (pgdir va : Z) : option entry :=
  let pde := mem s pgdir (PDX va) in
  if present pde =? 1
  then let pte := mem s (table_of pde) (PTX va) in
       if present pte =? 0 then None else Some pte
  else None.

(** A page of kernel memory: page aligned, above [KERNBASE]. *)
Definition kpage (p : Z) : Prop := p mod 4096 = 0 /\ KERNBASE < p < 2 ^ 32.

(** The allocator can take its lock, when it uses one. *)
Definition lock_ok (c : nat) (s : vstate) : Prop :=
  use_lock s = 0 \/ lock_ready c kmem_lock (mach s).

(** A page [kfree] accepts. *)
Definition freeable (s : vstate) (p : Z) : Prop :=
  kpage p /\ kend s <= p /\ p - KERNBASE < PHYSTOP.

(** The free list holds pages that [kfree] accepts, each once. *)
Definition free_ok (s : vstate) : Prop :=
  NoDup (freelist s) /\ forall p, In p (freelist s) -> freeable s p.

(** [p] is the page directory [pgdir] or a page table of its user half. *)
Definition allocated (s : vstate) (pgdir p : Z) : Prop :=
  p = pgdir \/
  exists i, 0 <= i < 512 /\ present (mem s pgdir i) = 1 /\ table_of (mem s pgdir i) = p.

(** Every page table of the user half is pointed to once and is not the
    directory itself. *)
Definition tables_apart (s : vstate) (pgdir : Z) : Prop :=
  (forall i, 0 <= i < 512 -> present (mem s pgdir i) = 1 ->
     table_of (mem s pgdir i) <> pgdir) /\
  (forall i j, 0 <= i < 512 -> 0 <= j < 512 ->
     present (mem s pgdir i) = 1 -> present (mem s pgdir j) = 1 ->
     table_of (mem s pgdir i) = table_of (mem s pgdir j) -> i = j).

(** The user half of the page directory [pgdir] is well formed: its tables
    are apart, and neither it nor a table is a free page. *)
Definition pgdir_ok (s : vstate) (pgdir : Z) : Prop :=
  tables_apart s pgdir /\ forall p, allocated s pgdir p -> ~ In p (freelist s).

(** A page that holds user data: [kfree] accepts it and it is not part of
    the page table. *)
Definition frame_ok (s : vstate) (pgdir f : Z) : Prop :=
  freeable s f /\ ~ allocated s pgdir f.

(** [va] is mapped to the page frame at [f], present, writable and for the
    user. *)
Definition maps_to (s : vstate) (pgdir va f : Z) : Prop :=
  kpage f /\
  exists pad, translate s pgdir va = Some (mkEntry 1 1 1 pad ((f - KERNBASE) / 4096)).

(** A frame that [allocuvm] took from the free list of [s0] for user data:
    no longer free, not part of the page table, and zeroed. *)
Definition data_frame (pgdir : Z) (s0 s : vstate) (f : Z) : Prop :=
  In f (freelist s0) /\ ~ In f (freelist s) /\ ~ allocated s pgdir f /\
  forall i, mem s f i = zero_entry.

(** The state of [allocuvm] when its loop, started at [lo] in state [s0],
    has reached [a]; [pend] is the frame taken for the page at [a] and not
    mapped yet. *)
Record growing (c : nat) (pgdir lo : Z) (s0 : vstate) (pend : option Z)
       (s : vstate) (a : Z) : Prop := mkGrowing {
  g_range : 0 <= lo <= a /\ a <= KERNBASE /\ lo mod 4096 = 0 /\ a mod 4096 = 0;
  g_lock : lock_ok c s;
  g_use_lock : use_lock s = use_lock s0;
  g_kend : kend s = kend s0;
  g_nodup : NoDup (freelist s);
  g_incl : forall p, In p (freelist s) -> In p (freelist s0);
  g_pgdir : pgdir_ok s pgdir;
  g_pages : forall p, In p (freelist s0) ->
            In p (freelist s) \/ allocated s pgdir p \/ pend = Some p \/
            exists va, lo <= va < a /\ maps_to s pgdir va p;
  g_outside : forall va, 0 <= va < KERNBASE -> ~ (lo <= va < a) ->
              translate s pgdir va = translate s0 pgdir va;
  g_mapped : forall va, lo <= va < a ->
             exists f, data_frame pgdir s0 s f /\ maps_to s pgdir va f;
  g_distinct : forall va va' f, lo <= va < a -> lo <= va' < a ->
               maps_to s pgdir va f -> maps_to s pgdir va' f ->
               va / 4096 = va' / 4096;
  g_pend : forall f, pend = Some f ->
           data_frame pgdir s0 s f /\ forall va, lo <= va < a -> ~ maps_to s pgdir va f
}.

(** One CPU with interrupts on and six free locks, the last one
    [kmem.lock]. *)
Definition one_cpu : machine :=
  mkMachine [mkCpu 0 0 0x202]
            [mkLock 0 None; mkLock 0 None; mkLock 0 None;
             mkLock 0 None; mkLock 0 None; mkLock 0 None].

(** A kernel after [kinit2] with [frames] as its free list and no page
    present anywhere. *)
Definition empty_vm (frames : list Z) : vstate :=
  mkV one_cpu 1 frames 0x80100000 (fun _ _ => zero_entry).

(** Three free frames: enough for a page table and two pages. *)
Definition three_frames : vstate := empty_vm [0x80400000; 0x80401000; 0x80402000].

(** Two free frames: a page table and one page. *)
Definition two_frames : vstate := empty_vm [0x80400000; 0x80401000].

(** What a run of [allocuvm] leaves, for comparison: the value returned, the
    free list, and the frame numbers the two first pages are mapped to. *)
Definition summary (pgdir : Z) (o : outcome vstate Z)
  : option (Z * list Z * option Z * option Z) :=
  match o with
  | Ret r s => Some (r, freelist s,
                     option_map physicalAdress (translate s pgdir 0),
                     option_map physicalAdress (translate s pgdir 4096))
  | _ => None
  end.







(** What a pointer to a page-table entry points to; the null pointer is
    the first word of the page at address 0. *)
Definition pte_place (w : option (Z * Z)) : Z * Z :=
  match w with
  | Some (t, i) => (t, i)
  | None => (0, 0)
  end.

(** [clearpteu]. *)
Definition clearpteu (c : nat) (pgdir uva : Z) : M unit :=
  let! w := walkpgdir c pgdir uva 0 in
  match w with
  | None => panic "clearpteu"
  | Some (t, i) =>
      modify (fun s =>
        let e := mem s t i in
        write_entry t i (mkEntry (present e) (writable e) 0 (padding e) (physicalAdress e)) s)
  end.

(** [uva2ka]; the entry is read through the pointer [walkpgdir] gave
    without a test for null. *)
Definition uva2ka (c : nat) (pgdir uva : Z) : M Z :=
  let! w := walkpgdir c pgdir uva 0 in
  let! pte := gets (fun s => mem s (fst (pte_place w)) (snd (pte_place w))) in
  if present pte =? 0 then ret 0
  else if permission pte =? 0 then ret 0
  else ret (table_of pte).



(** A page directory at [0x803ff000] with one page table, at [0x80400000],
    and one user page, at address 0, in the frame at [0x80401000]; no page
    is free. *)
Definition one_page : vstate :=
  mkV one_cpu 1 [] 0x80100000
      (fun p i => if (p =? 0x803ff000) && (i =? 0) then mkEntry 1 1 1 0 0x400
                  else if (p =? 0x80400000) && (i =? 0) then mkEntry 1 1 1 0 0x401
                  else zero_entry).

End Vm.


(** ** sysfile.c: [sys_unlink], with the directory and inode layer of fs.c *)

(** The file of an inode is seen as its bytes, a hole reading as zeros (the
    blocks behind it, [bmap] and [balloc], are module [Fs]); the inode cache,
    the on-disk inodes, the sleep lock of each inode and the C strings are as
    in the source.  Pointers to inodes are slots of [icache.inode]. *)
Module Sysfile.

Definition DIRSIZ : Z := 14.
Definition NINODE : nat := 50.
Definition ROOTDEV : Z := 1.
Definition ROOTINO : Z := 1.
Definition T_DIR : Z := 1.
Definition T_FILE : Z := 2.
Definition T_DEV : Z := 3.
Definition BSIZE : Z := 512.
Definition MAXFILE : Z := 12 + BSIZE / 4.

(** [sizeof(struct dirent)]: a [ushort] and [DIRSIZ] characters. *)
Definition DIRENT : Z := 16.

(** [struct dinode] without [addrs]. *)
Record dinode := mkDinode {
  dtype : Z;
  dmajor : Z;
  dminor : Z;
  dnlink : Z;
  dsize : Z
}.

(** [struct inode] without [addrs]; [locked] and [lkpid] are its
    [struct sleeplock]. *)
Record inode := mkInode {
  dev : Z;
  inum : Z;
  ref : Z;
  locked : Z;
  lkpid : Z;
  valid : Z;
  type : Z;
  major : Z;
  minor : Z;
  nlink : Z;
  size : Z
}.

(** The disk ([dinodes] and the bytes of each file, by device and inode
    number), the inode cache, and of the running process its [cwd] and
    [pid]. *)
Record fsys := mkFsys {
  dinodes : Z -> Z -> dinode;
  content : Z -> Z -> Z -> Z;
  icache : list inode;
  cwd : nat;
  pid : Z
}.

Definition M (A : Type) := fsys -> outcome fsys A.

Definition to_short (x : Z) : Z :=
  let y := x mod 65536 in if y <? 32768 then y else y - 65536.
Definition to_uint (x : Z) : Z := x mod 2 ^ 32.

Definition dflt_inode : inode := mkInode 0 0 0 0 0 0 0 0 0 0 0.
Definition ip_at (i : nat) (s : fsys) : inode := nth i (icache s) dflt_inode.
Definition upd_ip (i : nat) (f : inode -> inode) (s : fsys) : fsys :=
  mkFsys (dinodes s) (content s) (<[i := f (ip_at i s)]> (icache s)) (cwd s) (pid s).

Definition set_ref (v : Z) (x : inode) : inode :=
  mkInode (dev x) (inum x) v (locked x) (lkpid x) (valid x) (type x) (major x)
          (minor x) (nlink x) (size x).
Definition set_lock (l p : Z) (x : inode) : inode :=
  mkInode (dev x) (inum x) (ref x) l p (valid x) (type x) (major x)
          (minor x) (nlink x) (size x).
Definition set_valid (v : Z) (x : inode) : inode :=
  mkInode (dev x) (inum x) (ref x) (locked x) (lkpid x) v (type x) (major x)
          (minor x) (nlink x) (size x).
Definition set_type (v : Z) (x : inode) : inode :=
  mkInode (dev x) (inum x) (ref x) (locked x) (lkpid x) (valid x) v (major x)
          (minor x) (nlink x) (size x).
Definition set_nlink (v : Z) (x : inode) : inode :=
  mkInode (dev x) (inum x) (ref x) (locked x) (lkpid x) (valid x) (type x) (major x)
          (minor x) v (size x).
Definition set_size (v : Z) (x : inode) : inode :=
  mkInode (dev x) (inum x) (ref x) (locked x) (lkpid x) (valid x) (type x) (major x)
          (minor x) (nlink x) v.
(** The copy of the on-disk inode that [ilock] makes. *)
Definition load (d : dinode) (x : inode) : inode :=
  mkInode (dev x) (inum x) (ref x) (locked x) (lkpid x) 1 (dtype d) (dmajor d)
          (dminor d) (dnlink d) (dsize d).

Definition set_dinode (d n : Z) (v : dinode) (s : fsys) : fsys :=
  mkFsys (fun d' n' => if (d' =? d) && (n' =? n) then v else dinodes s d' n')
         (content s) (icache s) (cwd s) (pid s).
Definition set_content (d n : Z) (f : Z -> Z) (s : fsys) : fsys :=
  mkFsys (dinodes s)
         (fun d' n' => if (d' =? d) && (n' =? n) then f else content s d' n')
         (icache s) (cwd s) (pid s).

(** The loop of [iget]: the slot that holds the inode, and the first empty
    slot seen before it or in the whole cache. *)
Fixpoint iget_scan (l : list inode) (i : nat) (empty : option nat) (d n : Z)
  : option nat * option nat :=
  match l with
  | [] => (None, empty)
  | x :: r =>
      if (0 <? ref x) && (dev x =? d) && (inum x =? n) then (Some i, empty)
      else iget_scan r (S i)
             (match empty with
              | None => if ref x =? 0 then Some i else None
              | Some e => Some e
              end) d n
  end.

(** [iget]. *)
Definition iget (d n : Z) : M nat := fun s =>
  match iget_scan (icache s) 0 None d n with
  | (Some i, _) => Ret i (upd_ip i (fun x => set_ref (ref x + 1) x) s)
  | (None, Some e) =>
      Ret e (upd_ip e (fun x => mkInode d n 1 (locked x) (lkpid x) 0 (type x) (major x)
                                        (minor x) (nlink x) (size x)) s)
  | (None, None) => Panic "iget: no inodes"
  end.

(** [idup]. *)
Definition idup (i : nat) : M nat :=
  modify (upd_ip i (fun x => set_ref (ref x + 1) x)) ;; ret i.

(** [acquiresleep] on the lock of inode [i]: a held lock puts the caller to
    sleep. *)
Definition acquiresleep (i : nat) : M unit := fun s =>
  if negb (locked (ip_at i s) =? 0) then Asleep s
  else Ret tt (upd_ip i (set_lock 1 (pid s)) s).

(** [releasesleep]. *)
Definition releasesleep (i : nat) : M unit := modify (upd_ip i (set_lock 0 0)).

(** [holdingsleep]. *)
Definition holdingsleep (i : nat) (s : fsys) : bool :=
  negb (locked (ip_at i s) =? 0) && (lkpid (ip_at i s) =? pid s).

(** [ilock] of a pointer that is not null. *)
Definition ilock (i : nat) : M unit :=
  let! x := gets (ip_at i) in
  if ref x <? 1 then panic "ilock"
  else
    acquiresleep i ;;
    let! x := gets (ip_at i) in
    if valid x =? 0 then
      let! d := gets (fun s => dinodes s (dev x) (inum x)) in
      if dtype d =? 0 then panic "ilock: no type"
      else modify (upd_ip i (load d))
    else ret tt.

(** [iunlock] of a pointer that is not null. *)
Definition iunlock (i : nat) : M unit :=
  let! h := gets (holdingsleep i) in
  let! x := gets (ip_at i) in
  if negb h || (ref x <? 1) then panic "iunlock" else releasesleep i.

(** [iupdate]. *)
Definition iupdate (i : nat) : M unit :=
  modify (fun s =>
    let x := ip_at i s in
    set_dinode (dev x) (inum x)
               (mkDinode (type x) (major x) (minor x) (nlink x) (size x)) s).

(** [itrunc]: the blocks are freed, so that the file reads as zeros. *)
Definition itrunc (i : nat) : M unit :=
  modify (fun s => let x := ip_at i s in set_content (dev x) (inum x) (fun _ => 0) s) ;;
  modify (upd_ip i (set_size 0)) ;;
  iupdate i.

(** [iput]. *)
Definition iput (i : nat) : M unit :=
  acquiresleep i ;;
  let! x := gets (ip_at i) in
  (if negb (valid x =? 0) && (nlink x =? 0) then
     let r := ref x in
     if r =? 1 then
       itrunc i ;;
       modify (upd_ip i (set_type 0)) ;;
       iupdate i ;;
       modify (upd_ip i (set_valid 0))
     else ret tt
   else ret tt) ;;
  releasesleep i ;;
  modify (upd_ip i (fun x => set_ref (ref x - 1) x)).

(** [iunlockput]. *)
Definition iunlockput (i : nat) : M unit := iunlock i ;; iput i.

(** The bytes [off .. off + n) of a file. *)
Definition bytes_at (f : Z -> Z) (off : Z) (n : nat) : list Z :=
  map (fun k => f (off + Z.of_nat k)) (seq 0 n).

(** [readi] of an inode that is not a device: the value returned and the
    bytes copied.  (For [T_DEV] the source hands over to [devsw]; no caller
    here reaches that branch, which is given the result of a device without
    a read function.) *)
Definition readi (s : fsys) (i : nat) (off n : Z) : Z * list Z :=
  let x := ip_at i s in
  if type x =? T_DEV then (-1, [])
  else if size x <? off then (-1, [])
  else
    let n := if size x <? to_uint (off + n) then to_uint (size x - off) else n in
    (n, bytes_at (content s (dev x) (inum x)) off (Z.to_nat n)).

(** [writei] of an inode that is not a device. *)
Definition writei (i : nat) (src : list Z) (off n : Z) : M Z :=
  let! x := gets (ip_at i) in
  if type x =? T_DEV then ret (-1)
  else if (size x <? off) || (to_uint (off + n) <? off) then ret (-1)
  else if MAXFILE * BSIZE <? to_uint (off + n) then ret (-1)
  else
    modify (fun s =>
      set_content (dev x) (inum x)
        (fun o => if (off <=? o) && (o <? off + n) then nth (Z.to_nat (o - off)) src 0
                  else content s (dev x) (inum x) o) s) ;;
    (if (0 <? n) && (size x <? off + n)
     then modify (upd_ip i (set_size (off + n))) ;; iupdate i
     else ret tt) ;;
    ret n.

(** [strncmp]; a string is the list of its characters and reads as 0 past
    its end. *)
Fixpoint strncmp (p q : list Z) (n : nat) : Z :=
  match n with
  | O => 0
  | S n' =>
      let a := hd 0 p in
      let b := hd 0 q in
      if negb (a =? 0) && (a =? b) then strncmp (tl p) (tl q) n' else a - b
  end.

(** [namecmp]. *)
Definition namecmp (s t : list Z) : Z := strncmp s t (Z.to_nat DIRSIZ).

(** The fields of a [struct dirent] read from its bytes. *)
Definition de_inum (de : list Z) : Z := nth 0 de 0 + 256 * nth 1 de 0.
Definition de_name (de : list Z) : list Z := drop 2 de.

Definition dot : list Z := [46].
Definition dotdot : list Z := [46; 46].

(** What the loop of [dirlookup] ends with. *)
Inductive scan :=
| NotFound
| ReadError
| Found (off n : Z).

(** The [for] of [dirlookup] from offset [off]; an entry is passed in every
    turn, so one turn more than there are entries is enough. *)
Fixpoint dirscan (turns : nat) (s : fsys) (dp : nat) (name : list Z) (off : Z) : scan :=
  match turns with
  | O => NotFound
  | S t =>
      if off <? size (ip_at dp s) then
        let (r, de) := readi s dp off DIRENT in
        if negb (r =? DIRENT) then ReadError
        else if de_inum de =? 0 then dirscan t s dp name (to_uint (off + DIRENT))
        else if namecmp name (de_name de) =? 0 then Found off (de_inum de)
        else dirscan t s dp name (to_uint (off + DIRENT))
      else NotFound
  end.

(** [dirlookup]: the inode and the offset stored through [poff]. *)
Definition dirlookup (dp : nat) (name : list Z) : M (option (nat * Z)) := fun s =>
  if negb (type (ip_at dp s) =? T_DIR) then Panic "dirlookup not DIR"
  else match dirscan (S (Z.to_nat (size (ip_at dp s) / DIRENT))) s dp name 0 with
       | NotFound => Ret None s
       | ReadError => Panic "dirlookup read"
       | Found off n => (let! ip := iget (dev (ip_at dp s)) n in ret (Some (ip, off))) s
       end.

(** The [for] of [isdirempty] from offset [off]: 0 or 1, or [None] when
    [readi] comes short. *)
Fixpoint emptyscan (turns : nat) (s : fsys) (dp : nat) (off : Z) : option Z :=
  match turns with
  | O => Some 1
  | S t =>
      if off <? size (ip_at dp s) then
        let (r, de) := readi s dp off DIRENT in
        if negb (r =? DIRENT) then None
        else if negb (de_inum de =? 0) then Some 0
        else emptyscan t s dp (off + DIRENT)
      else Some 1
  end.

(** [isdirempty]. *)
Definition isdirempty (dp : nat) : M Z := fun s =>
  match emptyscan (S (Z.to_nat (size (ip_at dp s) / DIRENT))) s dp (2 * DIRENT) with
  | None => Panic "isdirempty: readi"
  | Some r => Ret r s
  end.

(** The loops of [skipelem] over slashes. *)
Fixpoint skip_slashes (p : list Z) : list Z :=
  match p with
  | c :: r => if c =? 47 then skip_slashes r else p
  | [] => []
  end.

(** The loop of [skipelem] over the characters of a name: up to a slash or
    the end of the string. *)
Fixpoint skip_name (p : list Z) : list Z :=
  match p with
  | c :: r => if (c =? 47) || (c =? 0) then p else skip_name r
  | [] => []
  end.

(** [skipelem]: the rest of the path and the [name] buffer, or [None] for
    the null pointer. *)
Definition skipelem (path name : list Z) : option (list Z * list Z) :=
  let s := skip_slashes path in
  if hd 0 s =? 0 then None
  else
    let e := skip_name s in
    let len := (length s - length e)%nat in
    let name' := if (Z.to_nat DIRSIZ <=? len)%nat
                 then take (Z.to_nat DIRSIZ) s ++ drop (Z.to_nat DIRSIZ) name
                 else take len s ++ [0] ++ drop (S len) name in
    Some (skip_slashes e, name').

Section WithLog.

(** [begin_op] and [end_op] of the log layer (module [Log]). *)
Variables begin_op end_op : M unit.

(** The [while] of [namex]; every turn takes a character of the path at
    least, and when none is left the loop ends as [skipelem] does on the
    empty string. *)
Fixpoint namex_loop (turns : nat) (parent : bool) (ip : nat) (path name : list Z)
  : M (option nat * list Z) :=
  match turns with
  | O => ret (Some ip, name)
  | S t =>
      match skipelem path name with
      | None => ret (Some ip, name)
      | Some (path', name') =>
          ilock ip ;;
          let! x := gets (ip_at ip) in
          if negb (type x =? T_DIR) then iunlockput ip ;; ret (None, name')
          else if parent && (hd 0 path' =? 0) then iunlock ip ;; ret (Some ip, name')
          else
            let! l := dirlookup ip name' in
            match l with
            | None => iunlockput ip ;; ret (None, name')
            | Some (next, _) => iunlockput ip ;; namex_loop t parent next path' name'
            end
      end
  end.

(** [namex]: the inode, or [None] for the null pointer, and the [name]
    buffer as it is left. *)
Definition namex (path : list Z) (parent : bool) (name : list Z)
  : M (option nat * list Z) :=
  let! ip := (if hd 0 path =? 47 then iget ROOTDEV ROOTINO
              else let! c := gets cwd in idup c) in
  namex_loop (length path) parent ip path name.

(** [nameiparent]. *)
Definition nameiparent (path name : list Z) : M (option nat * list Z) :=
  namex path true name.

(** The label [bad] of [sys_unlink]. *)
Definition bad (dp : nat) : M Z := iunlockput dp ;; end_op ;; ret (-1).

(** [sys_unlink]; [path] is what [argstr] fetched, [None] when it failed,
    and [name0] is what the array [name] holds on entry. *)
Definition sys_unlink (path : option (list Z)) (name0 : list Z) : M Z :=
  match path with
  | None => ret (-1)
  | Some path =>
      begin_op ;;
      let! r := nameiparent path name0 in
      match r with
      | (None, _) => end_op ;; ret (-1)
      | (Some dp, name) =>
          ilock dp ;;
          if (namecmp name dot =? 0) || (namecmp name dotdot =? 0) then bad dp
          else
            let! l := dirlookup dp name in
            match l with
            | None => bad dp
            | Some (ip, off) =>
                ilock ip ;;
                let! x := gets (ip_at ip) in
                if nlink x <? 1 then panic "unlink: nlink < 1"
                else
                  let! e := (if type x =? T_DIR then isdirempty ip else ret 1) in
                  if (type x =? T_DIR) && (e =? 0) then iunlockput ip ;; bad dp
                  else
                    let! w := writei dp (repeat 0 (Z.to_nat DIRENT)) off DIRENT in
                    if negb (w =? DIRENT) then panic "unlink: writei"
                    else
                      let! x := gets (ip_at ip) in
                      (if type x =? T_DIR then
                         modify (upd_ip dp (fun d => set_nlink (to_short (nlink d - 1)) d)) ;;
                         iupdate dp
                       else ret tt) ;;
                      iunlockput dp ;;
                      modify (upd_ip ip (fun d => set_nlink (to_short (nlink d - 1)) d)) ;;
                      iupdate ip ;;
                      iunlockput ip ;;
                      end_op ;;
                      ret 0
            end
      end
  end.

End WithLog.

(** The name that the last [skipelem] of a walk along [path] leaves in the
    buffer: the final component of the path. *)
Fixpoint last_name (turns : nat) (path name : list Z) : option (list Z) :=
  match turns with
  | O => None
  | S t =>
      match skipelem path name with
      | None => None
      | Some (path', name') =>
          if hd 0 path' =? 0 then Some name' else last_name t path' name'
      end
  end.

(** The directory entry at offset [off] of the file of inode [n]. *)
Definition entry_at (s : fsys) (d n off : Z) : list Z :=
  bytes_at (content s d n) off (Z.to_nat DIRENT).

(** The cached inode in slot [i] agrees with the disk. *)
Definition coherent (s : fsys) (i : nat) : Prop :=
  let x := ip_at i s in
  dinodes s (dev x) (inum x) = mkDinode (type x) (major x) (minor x) (nlink x) (size x).

(** The directory that the walk returned in slot [dp]: referenced, unlocked,
    valid and a directory (as [namex] leaves it for a path with a name in
    it), a whole number of entries, within the largest file, linked, and its
    cached copy as on disk. *)
Definition parent_ok (s : fsys) (dp : nat) : Prop :=
  let d := ip_at dp s in
  (1 <= ref d /\ locked d = 0 /\ valid d <> 0 /\ type d = T_DIR) /\
  size d mod DIRENT = 0 /\ 0 <= size d <= MAXFILE * BSIZE /\
  1 <= nlink d <= 32767 /\ coherent s dp.

(** Inode [n] of the device of [dp], which [iget] finds or places in slot
    [ip]: another inode than the directory, not locked, allocated and
    linked on disk, a cached copy as on disk, and when it is a directory, a
    whole number of entries. *)
Definition target_ok (s : fsys) (dp : nat) (n : Z) (ip : nat) : Prop :=
  let d := dev (ip_at dp s) in
  let t := dinodes s d n in
  match iget_scan (icache s) 0 None d n with
  | (Some i, _) => ip = i /\ (valid (ip_at i s) <> 0 -> coherent s i)
  | (None, Some e) => ip = e
  | (None, None) => False
  end /\
  ip <> dp /\ n <> inum (ip_at dp s) /\ locked (ip_at ip s) = 0 /\
  dtype t <> 0 /\ 1 <= dnlink t <= 32767 /\
  (dtype t = T_DIR -> dsize t mod DIRENT = 0 /\ 0 <= dsize t < 2 ^ 31).

(** A directory with an entry in use after its first two. *)
Definition has_entries (s : fsys) (d n : Z) : Prop :=
  exists k, 2 <= k /\ DIRENT * k < dsize (dinodes s d n) /\
            de_inum (entry_at s d n (DIRENT * k)) <> 0.

(** The bytes of a directory entry. *)
Definition dirent (n : Z) (name : list Z) : list Z :=
  [n mod 256; n / 256] ++ name ++ repeat 0 (Z.to_nat DIRSIZ - length name).

(** A file given by its bytes. *)
Definition file_of (bytes : list Z) : Z -> Z :=
  fun off => if off <? 0 then 0 else nth (Z.to_nat off) bytes 0.

(** A small disk: the root directory (inode 1) with the file [a] (inode 2),
    the empty directory [d] (inode 3) and the directory [e] (inode 4), which
    holds the file [f] (inode 5); the cache holds the root, as the current
    directory of process 7. *)
Definition small_disk : fsys :=
  mkFsys
    (fun d n =>
       if negb (d =? 1) then mkDinode 0 0 0 0 0
       else if n =? 1 then mkDinode T_DIR 0 0 3 80
       else if n =? 2 then mkDinode T_FILE 0 0 1 0
       else if n =? 3 then mkDinode T_DIR 0 0 1 32
       else if n =? 4 then mkDinode T_DIR 0 0 1 48
       else if n =? 5 then mkDinode T_FILE 0 0 1 0
       else mkDinode 0 0 0 0 0)
    (fun d n =>
       if negb (d =? 1) then fun _ => 0
       else if n =? 1 then
         file_of (dirent 1 dot ++ dirent 1 dotdot ++ dirent 2 [97] ++ dirent 3 [100]
                  ++ dirent 4 [101])
       else if n =? 3 then file_of (dirent 3 dot ++ dirent 1 dotdot)
       else if n =? 4 then file_of (dirent 4 dot ++ dirent 1 dotdot ++ dirent 5 [102])
       else fun _ => 0)
    (mkInode 1 1 1 0 0 1 T_DIR 0 0 3 80 :: repeat dflt_inode 49)
    0 7.

(** What a run of [sys_unlink] leaves, for comparison: the value returned,
    the link counts on disk of inodes 1 to 4, and the numbers in the entries
    of the root directory. *)
Definition summary (o : outcome fsys Z) : option (Z * list Z * list Z) :=
  match o with
  | Ret r s =>
      Some (r,
            map (fun n => dnlink (dinodes s 1 n)) [1; 2; 3; 4],
            map (fun k => de_inum (entry_at s 1 1 (DIRENT * k))) [0; 1; 2; 3; 4])
  | _ => None
  end.

(** The cached inode in slot [i] once [ilock] has locked it, loaded from the
    disk when it was not valid. *)
Definition locked_copy (s : fsys) (i : nat) : inode :=
  let x := ip_at i s in
  let y := set_lock 1 (pid s) x in
  if valid x =? 0 then load (dinodes s (dev x) (inum x)) y else y.

(** [small_disk] once [nameiparent] has walked a path of one name from the
    root: the root has a reference more. *)
Definition walked_disk : fsys :=
  mkFsys (dinodes small_disk) (content small_disk)
         (mkInode 1 1 2 0 0 1 T_DIR 0 0 3 80 :: repeat dflt_inode 49)
         0 7.

(** The [name] buffer of [sys_unlink], zeroed, and with a name of one
    character in it. *)
Definition buffer0 : list Z := repeat 0 (Z.to_nat DIRSIZ).
Definition buffer1 (c : Z) : list Z := c :: repeat 0 (Z.to_nat DIRSIZ - 1).

(** The inode cache holds an inode in one slot at most: two slots in use
    with the same device and inode number are the same slot. *)
Definition cache_ok (s : fsys) : Prop :=
  forall i j,
    0 < ref (ip_at i s) -> 0 < ref (ip_at j s) ->
    dev (ip_at i s) = dev (ip_at j s) -> inum (ip_at i s) = inum (ip_at j s) ->
    i = j.

(** A cache of three slots: inode 1 of device 1 in slot 0, in use twice,
    slot 1 free, and inode 7 in slot 2. *)
Definition three_slots : fsys :=
  mkFsys (fun _ _ => mkDinode 0 0 0 0 0) (fun _ _ _ => 0)
         [mkInode 1 1 2 0 0 1 1 0 0 1 32;
          mkInode 0 0 0 0 0 0 0 0 0 0 0;
          mkInode 1 7 1 0 0 0 0 0 0 0 0]
         0 1.

End Sysfile.

(** ** fileSystem/log.c: the log on the disk *)

Module LogDisk.
Import Fs.

(** [struct log] (its lock apart) and the device as the buffer cache shows
    it, as in [Fs.disk]: [bread] hands out the block, a [memmove] into
    [bp->data] changes it, and [bwrite] and [brelse] leave what the next
    [bread] shows as it is. *)
Record lstate := mkLd {
  dsk : disk;
  lg : Log.log
}.

Definition M (A : Type) := lstate -> outcome lstate A.

Definition set_dsk (d : disk) (s : lstate) : lstate := mkLd d (lg s).
Definition set_lh (h : Log.logheader) (s : lstate) : lstate :=
  mkLd (dsk s) (Log.set_lh h (lg s)).

(** [log.dev], [log.start] and [log.lh] as [bread] gets them: the
    arguments of [bread] are [uint]. *)
Definition ldev (s : lstate) : Z := Log.to_uint (Log.dev (lg s)).
Definition head_block (s : lstate) : Z := Log.to_uint (Log.start (lg s)).
Definition log_block (s : lstate) (tail : Z) : Z :=
  Log.to_uint (Log.start (lg s) + tail + 1).
Definition home_block (s : lstate) (tail : Z) : Z :=
  Log.to_uint (nth (Z.to_nat tail) (Log.block (Log.lh (lg s))) 0).

(** [memmove(to->data, from->data, BSIZE)] for the blocks [from] and [to]. *)
Definition copy_block (dv from to : Z) (d : disk) : disk :=
  put_bytes dv to 0
    (map (fun o => get8 d dv from (Z.of_nat o)) (seq 0 (Z.to_nat BSIZE))) d.

(** The loop of [install_trans], from [tail] on. *)
Fixpoint install_loop (todo : nat) (tail : Z) (s : lstate) : lstate :=
  match todo with
  | O => s
  | S t =>
      install_loop t (tail + 1)
        (set_dsk (copy_block (ldev s) (log_block s tail) (home_block s tail) (dsk s)) s)
  end.

Definition install_trans : M unit :=
  modify (fun s => install_loop (Z.to_nat (Log.n (Log.lh (lg s)))) 0 s).

(** [read_head]: in the header block the count [n] is the [int] number 0
    and [block[i]] the [int] number [1 + i]. *)
Definition read_head : M unit :=
  modify (fun s =>
    let nn := Log.to_int (get32 (dsk s) (ldev s) (head_block s) 0) in
    set_lh (Log.mkHeader nn
              (fold_left
                 (fun blk i =>
                    <[i := Log.to_int (get32 (dsk s) (ldev s) (head_block s)
                                             (1 + Z.of_nat i))]> blk)
                 (seq 0 (Z.to_nat nn)) (Log.block (Log.lh (lg s))))) s).

(** [write_head]. *)
Definition write_head : M unit :=
  modify (fun s =>
    set_dsk (fold_left
               (fun d i => put32 (ldev s) (head_block s) (1 + Z.of_nat i)
                                 (nth i (Log.block (Log.lh (lg s))) 0) d)
               (seq 0 (Z.to_nat (Log.n (Log.lh (lg s))))) (dsk s)) s).

Definition clear_n : M unit :=
  modify (fun s => set_lh (Log.mkHeader 0 (Log.block (Log.lh (lg s)))) s).

(** [recover_from_log]. *)
Definition recover_from_log : M unit :=
  read_head ;; install_trans ;; clear_n ;; write_head.

(** The loop of [write_log], from [tail] on. *)
Fixpoint write_log_loop (todo : nat) (tail : Z) (s : lstate) : lstate :=
  match todo with
  | O => s
  | S t =>
      write_log_loop t (tail + 1)
        (set_dsk (copy_block (ldev s) (home_block s tail) (log_block s tail) (dsk s)) s)
  end.

Definition write_log : M unit :=
  modify (fun s => write_log_loop (Z.to_nat (Log.n (Log.lh (lg s)))) 0 s).

(** [commit]. *)
Definition commit : M unit :=
  let! nn := gets (fun s => Log.n (Log.lh (lg s))) in
  if 0 <? nn
  then write_log ;; write_head ;; install_trans ;; clear_n ;; write_head
  else ret tt.

(** The count in the header block of the log on the disk. *)
Definition disk_count (s : lstate) : Z :=
  Log.to_int (get32 (dsk s) (ldev s) (head_block s) 0).

(** A block of the log area that a transaction of [n] blocks uses. *)
Definition in_log (s : lstate) (n b : Z) : Prop :=
  b = head_block s \/ exists t, 0 <= t < n /\ b = log_block s t.

(** The header in memory fits its array, and its block numbers are block
    numbers of the device outside the log. *)
Definition staged_ok (s : lstate) : Prop :=
  let h := Log.lh (lg s) in
  0 <= Log.n h <= Log.LOGSIZE /\
  length (Log.block h) = Z.to_nat Log.LOGSIZE /\
  0 <= Log.start (lg s) /\ Log.start (lg s) + Log.LOGSIZE < 2 ^ 31 /\
  forall t, 0 <= t < Log.n h ->
    0 <= nth (Z.to_nat t) (Log.block h) 0 < 2 ^ 31 /\
    ~ in_log s (Log.n h) (nth (Z.to_nat t) (Log.block h) 0).

(** The bytes of block [b]: [v] in block 40, [w] in block 41, zeros
    elsewhere; the log starts at block 2 and its header on the disk has the
    count 0, as [mkfs] writes it. *)
Definition two_blocks (v w : Z) : disk :=
  mkDisk (mkSb 64 54 8 30 2 32 58)
    (fun dv b o => if b =? 40 then v else if b =? 41 then w else 0)
    (fun _ => None).

Definition staged_two : lstate :=
  mkLd (two_blocks 7 9)
       (Log.mkLog 2 30 0 1 1 (Log.mkHeader 2 (40 :: 41 :: repeat 0 28))).

End LogDisk.

(** ** fileSystem/bio.c and synchronization/sleeplock.c: the buffer cache *)

Module Bio.
Import Spinlock Proc.

Definition NBUF : nat := 30.
Definition B_VALID : Z := 0x2.
Definition B_DIRTY : Z := 0x4.

(** [struct buf] without [data] and [qnext].  [slocked] and [spid] are the
    [locked] and [pid] of its sleeplock, whose spinlock is lock [buf_lk b]
    of the machine; [prev] and [next] are slots of [bcache.buf], and [None]
    is the null pointer.  [dev], [blockno] and [refcnt] are [uint]. *)
Record buf := mkBuf {
  flags : Z;
  dev : Z;
  blockno : Z;
  slocked : Z;
  spid : Z;
  refcnt : Z;
  prev : option nat;
  next : option nat
}.

(** [bcache], with the kernel state under it. *)
Record bstate := mkB {
  kern : kernel;
  bufs : list buf;
  head : option nat
}.

Definition M (A : Type) := bstate -> outcome bstate A.

(** Slots of the spinlocks in [locks]: [bcache.lock], and [lk] of the
    sleeplock of buffer [b]. *)
Definition bcache_lock : nat := 5.
Definition buf_lk (b : nat) : nat := 6 + b.

Definition liftK {A} (m : Proc.M A) : M A := fun s =>
  match m (kern s) with
  | Ret a k => Ret a (mkB k (bufs s) (head s))
  | Panic msg => Panic msg
  | Spin k => Spin (mkB k (bufs s) (head s))
  | Asleep k => Asleep (mkB k (bufs s) (head s))
  end.

Definition dflt_buf : buf := mkBuf 0 0 0 0 0 0 None None.
Definition buf_at (b : nat) (s : bstate) : buf := nth b (bufs s) dflt_buf.
Definition upd_buf (b : nat) (f : buf -> buf) (s : bstate) : bstate :=
  mkB (kern s) (<[b := f (buf_at b s)]> (bufs s)) (head s).
Definition set_head (h : option nat) (s : bstate) : bstate :=
  mkB (kern s) (bufs s) h.
Definition set_kern (k : kernel) (s : bstate) : bstate :=
  mkB k (bufs s) (head s).

Definition set_refcnt (v : Z) (x : buf) : buf :=
  mkBuf (flags x) (dev x) (blockno x) (slocked x) (spid x) v (prev x) (next x).
Definition set_slock (l p : Z) (x : buf) : buf :=
  mkBuf (flags x) (dev x) (blockno x) l p (refcnt x) (prev x) (next x).
Definition set_prev (p : option nat) (x : buf) : buf :=
  mkBuf (flags x) (dev x) (blockno x) (slocked x) (spid x) (refcnt x) p (next x).
Definition set_next (n : option nat) (x : buf) : buf :=
  mkBuf (flags x) (dev x) (blockno x) (slocked x) (spid x) (refcnt x) (prev x) n.
(** The four assignments of [bget] to the buffer it recycles. *)
Definition recycle (dv bn : Z) (x : buf) : buf :=
  mkBuf 0 dv bn (slocked x) (spid x) 1 (prev x) (next x).

(** The use of a pointer: the null pointer traps. *)
Definition deref (p : option nat) : M nat :=
  match p with
  | None => panic "trap"
  | Some b => ret b
  end.

(** What the rest of the machine does while the process is off the CPU:
    one state transformer for each time it is switched back in. *)
Definition schedule := list (bstate -> bstate).

(** The [while (lk->locked)] of [acquiresleep] on the lock of buffer [b];
    a schedule that ends leaves the process asleep. *)
Fixpoint sleep_while_locked (env : schedule) (c b : nat) : M unit := fun s =>
  if negb (slocked (buf_at b s) =? 0)
  then
    (let! pi := liftK (sleep_enter c (ChanSleeplock b) (buf_lk b)) in
     fun s1 =>
       match env with
       | [] => Asleep s1
       | e :: env' =>
           (liftK (sleep_leave c (buf_lk b) pi) ;; sleep_while_locked env' c b) (e s1)
       end) s
  else Ret tt s.

(** [acquiresleep] on the lock of buffer [b]. *)
Definition acquiresleep (env : schedule) (c b : nat) : M unit :=
  liftK (lift (acquire (buf_lk b) c)) ;;
  sleep_while_locked env c b ;;
  let! mp := liftK (myproc c) in
  let! p := deref mp in
  modify (fun s => upd_buf b (set_slock 1 (pid (proc_at p (kern s)))) s) ;;
  liftK (lift (release (buf_lk b) c)).

(** [releasesleep]. *)
Definition releasesleep (c b : nat) : M unit :=
  liftK (lift (acquire (buf_lk b) c)) ;;
  modify (upd_buf b (set_slock 0 0)) ;;
  liftK (wakeup c (ChanSleeplock b)) ;;
  liftK (lift (release (buf_lk b) c)).

(** [holdingsleep]; [&&] calls [myproc] only when the lock is taken. *)
Definition holdingsleep (c b : nat) : M bool :=
  liftK (lift (acquire (buf_lk b) c)) ;;
  let! x := gets (buf_at b) in
  let! r := (if slocked x =? 0 then ret false
             else
               let! mp := liftK (myproc c) in
               let! p := deref mp in
               gets (fun s => spid x =? pid (proc_at p (kern s)))) in
  liftK (lift (release (buf_lk b) c)) ;;
  ret r.

(** [initsleeplock]. *)
Definition initsleeplock (b : nat) (s : bstate) : bstate :=
  upd_buf b (set_slock 0 0)
    (set_kern (set_mach (initlock (buf_lk b) (mach (kern s))) (kern s)) s).

(** The loop of [binit], from buffer [i] on. *)
Fixpoint binit_loop (todo : nat) (i : nat) : M unit :=
  match todo with
  | O => ret tt
  | S t =>
      let! h := gets head in
      modify (upd_buf i (set_next h)) ;;
      let! hp := deref h in
      modify (upd_buf hp (set_prev (Some i))) ;;
      modify (set_head (Some i)) ;;
      modify (initsleeplock i) ;;
      binit_loop t (S i)
  end.

(** [binit]. *)
Definition binit : M unit :=
  modify (fun s => set_kern (set_mach (initlock bcache_lock (mach (kern s))) (kern s)) s) ;;
  modify (set_head (Some 0%nat)) ;;
  binit_loop (NBUF - 1) 1 ;;
  let! h := gets head in
  modify (upd_buf 0 (set_next h)) ;;
  let! hp := deref h in
  modify (upd_buf hp (set_prev (Some 0%nat))).

(** A [do ... while (b != bcache.head)] of [bget], at buffer [b]: the
    first buffer that passes [test], if the walk along [next] meets one
    before it is back at the head.  [turns] bounds the walk; a walk that
    needs more does not come to an end. *)
Fixpoint walk (test : buf -> bool) (turns : nat) (b : nat) : M (option nat) := fun s =>
  match turns with
  | O => Spin s
  | S t =>
      let x := buf_at b s in
      if test x then Ret (Some b) s
      else if bool_decide (next x = head s) then Ret None s
      else (let! b' := deref (next x) in walk test t b') s
  end.

(** The tests of the two loops: the buffer holds the block; the buffer is
    not in use. *)
Definition cached (dv bn : Z) (x : buf) : bool := (dev x =? dv) && (blockno x =? bn).
Definition unused (x : buf) : bool := (refcnt x =? 0) && (Z.land (flags x) B_DIRTY =? 0).

Definition find_cached (turns : nat) (b : nat) (dv bn : Z) : M (option nat) :=
  walk (cached dv bn) turns b.
Definition find_free (turns : nat) (b : nat) : M (option nat) :=
  walk unused turns b.

(** [bget]. *)
Definition bget (turns : nat) (env : schedule) (c : nat) (dv bn : Z) : M nat :=
  liftK (lift (acquire bcache_lock c)) ;;
  let! h := gets head in
  let! b0 := deref h in
  let! r := find_cached turns b0 dv bn in
  match r with
  | Some b =>
      modify (upd_buf b (fun x => set_refcnt ((refcnt x + 1) mod 2 ^ 32) x)) ;;
      acquiresleep env c b ;;
      liftK (lift (release bcache_lock c)) ;;
      ret b
  | None =>
      let! h := gets head in
      let! b0 := deref h in
      let! r := find_free turns b0 in
      match r with
      | Some b =>
          modify (upd_buf b (recycle dv bn)) ;;
          liftK (lift (release bcache_lock c)) ;;
          acquiresleep env c b ;;
          ret b
      | None => panic "bget: no buffers"
      end
  end.

(** The seven pointer assignments of [brelse] that move buffer [b] to the
    head of the list. *)
Definition to_front (b : nat) : M unit :=
  let! x := gets (buf_at b) in
  let! nx := deref (next x) in
  modify (upd_buf nx (set_prev (prev x))) ;;
  let! x := gets (buf_at b) in
  let! pv := deref (prev x) in
  modify (upd_buf pv (set_next (next x))) ;;
  let! h := gets head in
  modify (upd_buf b (set_next h)) ;;
  let! hd := deref h in
  let! hx := gets (buf_at hd) in
  modify (upd_buf b (set_prev (prev hx))) ;;
  let! hx := gets (buf_at hd) in
  let! hp := deref (prev hx) in
  modify (upd_buf hp (set_next (Some b))) ;;
  modify (upd_buf hd (set_prev (Some b))) ;;
  modify (set_head (Some b)).

(** [brelse]. *)
Definition brelse (c b : nat) : M unit :=
  let! h := holdingsleep c b in
  if negb h then panic "brelse"
  else
    releasesleep c b ;;
    liftK (lift (acquire bcache_lock c)) ;;
    modify (upd_buf b (fun x => set_refcnt ((refcnt x - 1) mod 2 ^ 32) x)) ;;
    let! x := gets (buf_at b) in
    let! h := gets head in
    (if (refcnt x =? 0) && negb (bool_decide (Some b = h)) then to_front b else ret tt) ;;
    liftK (lift (release bcache_lock c)).

(** The buffers [x :: y :: ...] are linked in this order. *)
Fixpoint linked (s : bstate) (l : list nat) : Prop :=
  match l with
  | x :: r =>
      match r with
      | y :: _ => next (buf_at x s) = Some y /\ prev (buf_at y s) = Some x /\ linked s r
      | [] => True
      end
  | [] => True
  end.

(** The list of [bcache] is a ring of the buffers [l], from the head on. *)
Definition ring (s : bstate) (l : list nat) : Prop :=
  NoDup l /\ (forall x, In x l -> (x < length (bufs s))%nat) /\
  match l with
  | [] => False
  | h :: t => head s = Some h /\ linked s (h :: t ++ [h])
  end.

(** CPU [c] can take the locks of the buffer cache: the lock invariant
    holds, and [ptable.lock], [bcache.lock] and the spinlocks of the
    sleeplocks of the buffers [l] exist and are free. *)
Definition locks_free (c : nat) (l : list nat) (m : machine) : Prop :=
  inv m /\ (c < length (cpus m))%nat /\
  forall k, k = ptable_lock \/ k = bcache_lock \/ (exists x, In x l /\ k = buf_lk x) ->
    (k < length (locks m))%nat /\ locked (lock_at k m) = 0.

(** Three buffers in the ring 2, 1, 0 on one CPU that runs process 7:
    buffer 2 holds block 33 and is locked by process 9, buffer 1 holds
    block 34 and is dirty, buffer 0 holds block 35 and is not in use. *)
Definition three_bufs : bstate :=
  mkB (mkKernel
         (mkMachine [mkCpu 0 0 0x202] (repeat (mkLock 0 None) 9))
         [mkProc 4096 0 0 RUNNING 7 None 4096 0 None 0 [] None 0]
         [Some 0%nat] [] [])
      [mkBuf B_VALID 1 35 0 0 0 (Some 1%nat) (Some 2%nat);
       mkBuf (Z.lor B_VALID B_DIRTY) 1 34 0 0 0 (Some 2%nat) (Some 0%nat);
       mkBuf B_VALID 1 33 1 9 1 (Some 0%nat) (Some 1%nat)]
      (Some 2%nat).

(** The fields of a buffer other than its two pointers. *)
Definition payload (x : buf) : Z * Z * Z * Z * Z * Z :=
  (flags x, dev x, blockno x, slocked x, spid x, refcnt x).

(** [three_bufs] with buffer 0 in use by the running process, and the
    buffers of [bcache] before [binit]. *)
Definition held_bufs : bstate :=
  upd_buf 0 (fun x => set_slock 1 7 (set_refcnt 1 x)) three_bufs.
Definition unlinked_bufs : bstate :=
  mkB (kern three_bufs) (repeat dflt_buf NBUF) None.

End Bio.

(** * Properties *)

Module SpinlockSpec.
Import Spinlock.

Lemma land_cli e : Z.land (Z.land e (Z.lnot FL_IF)) FL_IF = 0.
Proof.
  rewrite <- Z.land_assoc, (Z.land_comm (Z.lnot FL_IF)), Z.land_lnot_diag.
  apply Z.land_0_r.
Qed.

Lemma FL_IF_bit n : 0 <= n -> Z.testbit FL_IF n = (n =? 9).
Proof.
  intros Hn. change FL_IF with (2 ^ 9).
  rewrite Z.pow2_bits_eqb by lia. apply Z.eqb_sym.
Qed.

Lemma land_IF_cases e : Z.land e FL_IF = 0 \/ Z.land e FL_IF = FL_IF.
Proof.
  destruct (Z.testbit e 9) eqn:E; [right | left]; apply Z.bits_inj'; intros n Hn;
    rewrite Z.land_spec, ?Z.bits_0, FL_IF_bit by lia;
    destruct (Z.eqb_spec n 9); subst; rewrite ?E, ?andb_false_r; auto.
Qed.

Lemma sti_restores e : Z.land e FL_IF <> 0 -> Z.lor (Z.land e (Z.lnot FL_IF)) FL_IF = e.
Proof.
  intros H. assert (Hb : Z.testbit e 9 = true).
  { destruct (Z.testbit e 9) eqn:E; auto. exfalso. apply H.
    apply Z.bits_inj'; intros n Hn.
    rewrite Z.land_spec, Z.bits_0, FL_IF_bit by lia.
    destruct (Z.eqb_spec n 9); subst; rewrite ?E, ?andb_false_r; auto. }
  apply Z.bits_inj'; intros n Hn.
  rewrite Z.lor_spec, Z.land_spec, Z.lnot_spec, FL_IF_bit by lia.
  destruct (Z.eqb_spec n 9); subst; rewrite ?Hb; simpl;
    rewrite ?orb_false_r, ?andb_true_r; auto.
Qed.

Lemma cli_keeps e : Z.land e FL_IF = 0 -> Z.land e (Z.lnot FL_IF) = e.
Proof.
  intros H. assert (Hb : Z.testbit e 9 = false).
  { rewrite <- (andb_true_r (Z.testbit e 9)).
    change true with (9 =? 9). rewrite <- FL_IF_bit, <- Z.land_spec, H by lia.
    apply Z.bits_0. }
  apply Z.bits_inj'; intros n Hn.
  rewrite Z.land_spec, Z.lnot_spec, FL_IF_bit by lia.
  destruct (Z.eqb_spec n 9); subst; rewrite ?Hb; simpl; rewrite ?andb_true_r; auto.
Qed.

Lemma mycpu_set_eq c x s :
  (c < length (cpus s))%nat -> mycpu c (set_cpu c x s) = x.
Proof.
  intros H. unfold mycpu, set_cpu; simpl.
  apply nth_lookup_Some with (d := dflt_cpu). now apply list_lookup_insert_eq.
Qed.

Lemma mycpu_set_ne c c' x s : c <> c' -> mycpu c' (set_cpu c x s) = mycpu c' s.
Proof.
  intros H. unfold mycpu, set_cpu; simpl.
  destruct (decide (c' < length (cpus s))%nat) as [Hl|Hl].
  - destruct (lookup_lt_is_Some_2 (cpus s) c' Hl) as [y Hy].
    rewrite (nth_lookup_Some _ _ dflt_cpu y Hy).
    apply nth_lookup_Some. now rewrite list_lookup_insert_ne.
  - rewrite !nth_overflow; auto; rewrite ?length_insert; lia.
Qed.

Lemma set_cpu_twice c x y s : set_cpu c x (set_cpu c y s) = set_cpu c x s.
Proof. unfold set_cpu; simpl. now rewrite list_insert_insert_eq. Qed.

Lemma length_set_cpu c x s : length (cpus (set_cpu c x s)) = length (cpus s).
Proof. unfold set_cpu; simpl. apply length_insert. Qed.

Lemma pushcli_eq c s :
  (c < length (cpus s))%nat ->
  pushcli c s = Ret tt (set_cpu c (pushcli_cpu (mycpu c s)) s).
Proof.
  intros H. unfold pushcli, cli, readeflags, pushcli_cpu.
  rewrite mycpu_set_eq by auto. simpl.
  destruct (ncli (mycpu c s) =? 0).
  - rewrite !mycpu_set_eq by (rewrite ?length_set_cpu; auto). simpl.
    now rewrite !set_cpu_twice.
  - rewrite !mycpu_set_eq by (rewrite ?length_set_cpu; auto). simpl.
    now rewrite !set_cpu_twice.
Qed.
Lemma popcli_eq c s :
  (c < length (cpus s))%nat ->
  popcli c s =
    if negb (Z.land (eflags (mycpu c s)) FL_IF =? 0) then Panic "popcli - interruptible"
    else if ncli (mycpu c s) - 1 <? 0 then Panic "popcli"
    else Ret tt (set_cpu c (popcli_cpu (mycpu c s)) s).
Proof.
  intros H. unfold popcli, sti, readeflags, popcli_cpu.
  destruct (negb _); auto.
  rewrite !mycpu_set_eq by auto. simpl.
  destruct (ncli (mycpu c s) - 1 <? 0); auto.
  destruct (_ && _); auto. now rewrite set_cpu_twice.
Qed.


Lemma set_cpu_same c s : set_cpu c (mycpu c s) s = s.
Proof.
  unfold set_cpu, mycpu. destruct s as [cs ls]; simpl. f_equal.
  destruct (decide (c < length cs)%nat) as [Hl|Hl].
  - destruct (lookup_lt_is_Some_2 cs c Hl) as [y Hy].
    rewrite (nth_lookup_Some _ _ dflt_cpu y Hy). now apply list_insert_id.
  - apply list_insert_ge. lia.
Qed.

Lemma lock_at_set_cpu l c x s : lock_at l (set_cpu c x s) = lock_at l s.
Proof. reflexivity. Qed.

Lemma mycpu_set_lock c l k s : mycpu c (set_lock l k s) = mycpu c s.
Proof. reflexivity. Qed.

Lemma holding_eq l c s :
  (c < length (cpus s))%nat -> 0 <= ncli (mycpu c s) ->
  holding l c s =
    Ret (held_by c (lock_at l s))
        (set_cpu c (popcli_cpu (pushcli_cpu (mycpu c s))) s).
Proof.
  intros Hc Hn. unfold holding, bind at 1. rewrite pushcli_eq by auto.
  unfold bind at 1, gets. unfold bind at 1.
  rewrite popcli_eq by (rewrite length_set_cpu; auto).
  rewrite mycpu_set_eq by auto. cbn [eflags pushcli_cpu ncli].
  rewrite land_cli. simpl negb. cbv iota.
  replace (ncli (mycpu c s) + 1 - 1 <? 0) with false by (symmetry; apply Z.ltb_ge; lia).
  unfold ret. rewrite set_cpu_twice. reflexivity.
Qed.

Lemma holding_cpu_id x :
  1 <= ncli x -> Z.land (eflags x) FL_IF = 0 -> popcli_cpu (pushcli_cpu x) = x.
Proof.
  intros Hn Hi. destruct x as [n i e]; simpl in *.
  unfold popcli_cpu, pushcli_cpu; simpl.
  replace (n =? 0) with false by (symmetry; apply Z.eqb_neq; lia).
  replace (n + 1 - 1 =? 0) with false by (symmetry; apply Z.eqb_neq; lia).
  simpl. rewrite cli_keeps by auto. f_equal. lia.
Qed.

Lemma holding_id l c s :
  (c < length (cpus s))%nat -> 1 <= ncli (mycpu c s) -> intr_off c s ->
  holding l c s = Ret (held_by c (lock_at l s)) s.
Proof.
  intros Hc Hn Hi. rewrite holding_eq by (auto; lia).
  rewrite holding_cpu_id by auto. now rewrite set_cpu_same.
Qed.

Lemma acquire_eq l c s :
  (c < length (cpus s))%nat -> 0 <= ncli (mycpu c s) ->
  acquire l c s =
    let s1 := set_cpu c (pushcli_cpu (mycpu c s)) s in
    if held_by c (lock_at l s) then Panic "acquire"
    else if negb (locked (lock_at l s) =? 0) then Spin s1
    else Ret tt (set_lock l (mkLock 1 (Some c)) s1).
Proof.
  intros Hc Hn. unfold acquire, bind at 1. rewrite pushcli_eq by auto.
  unfold bind. rewrite holding_id.
  - rewrite lock_at_set_cpu. cbv zeta. destruct (held_by _ _); auto.
  - now rewrite length_set_cpu.
  - rewrite mycpu_set_eq by auto. simpl. lia.
  - unfold intr_off. rewrite mycpu_set_eq by auto. simpl. apply land_cli.
Qed.

Lemma release_eq l c s :
  (c < length (cpus s))%nat -> 1 <= ncli (mycpu c s) -> intr_off c s ->
  release l c s =
    if held_by c (lock_at l s)
    then Ret tt (set_cpu c (popcli_cpu (mycpu c s)) (set_lock l (mkLock 0 None) s))
    else Panic "release".
Proof.
  intros Hc Hn Hi. unfold release, bind at 1. rewrite holding_id by auto.
  destruct (held_by _ _); auto.
  unfold bind, modify. rewrite popcli_eq by auto.
  rewrite mycpu_set_lock. rewrite Hi. simpl.
  replace (ncli (mycpu c s) - 1 <? 0) with false by (symmetry; apply Z.ltb_ge; lia).
  reflexivity.
Qed.


Lemma nheld_set_cpu c c' x s : nheld c' (set_cpu c x s) = nheld c' s.
Proof. reflexivity. Qed.

Lemma lock_at_lookup l s :
  (l < length (locks s))%nat -> locks s !! l = Some (lock_at l s).
Proof.
  intros H. destruct (lookup_lt_is_Some_2 _ _ H) as [y Hy].
  unfold lock_at. now rewrite (nth_lookup_Some _ _ dflt_lock y Hy).
Qed.

Lemma held_in_range c l s :
  held_by c (lock_at l s) = true -> (l < length (locks s))%nat.
Proof.
  intros H. destruct (decide (l < length (locks s))%nat); auto.
  unfold lock_at in H. rewrite nth_overflow in H by lia. discriminate.
Qed.

Lemma nheld_set_lock c l k s :
  (l < length (locks s))%nat ->
  nheld c (set_lock l k s) =
    nheld c s - b2z (held_by c (lock_at l s)) + b2z (held_by c k).
Proof.
  intros Hl. unfold nheld, set_lock; simpl.
  rewrite insert_take_drop by auto.
  rewrite <- (take_drop_middle (locks s) l (lock_at l s)) at 3
    by now apply lock_at_lookup.
  rewrite !filter_app, !filter_cons, !length_app.
  destruct (decide (held_by c k = true)) as [E|E];
    destruct (decide (held_by c (lock_at l s) = true)) as [E'|E'];
    rewrite ?E, ?E'; apply not_true_is_false in E || idtac;
    apply not_true_is_false in E' || idtac; rewrite ?E, ?E'; simpl; lia.
Qed.

Lemma nheld_pos c l s : held_by c (lock_at l s) = true -> 1 <= nheld c s.
Proof.
  intros H. pose proof (held_in_range _ _ _ H) as Hl.
  unfold nheld. rewrite <- (take_drop_middle (locks s) l (lock_at l s))
    by now apply lock_at_lookup.
  rewrite filter_app, filter_cons, length_app.
  destruct (decide _); [simpl; lia | contradiction].
Qed.

Lemma nheld_nonneg c s : 0 <= nheld c s.
Proof. unfold nheld. lia. Qed.

Lemma lock_at_set_eq l k s :
  (l < length (locks s))%nat -> lock_at l (set_lock l k s) = k.
Proof.
  intros H. unfold lock_at, set_lock; simpl.
  apply nth_lookup_Some with (d := dflt_lock). now apply list_lookup_insert_eq.
Qed.

(** The fact the invariant is for: a CPU that holds a lock has interrupts
    off and a positive depth. *)
Lemma held_intr_off c l s :
  cpu_inv c s -> held_by c (lock_at l s) = true ->
  intr_off c s /\ 1 <= ncli (mycpu c s).
Proof.
  intros (Hc & Hle & Hoff) H. pose proof (nheld_pos _ _ _ H). split; [apply Hoff|]; lia.
Qed.

Lemma held_by_other c c' k : c <> c' -> held_by c k = true -> held_by c' k = false.
Proof.
  unfold held_by. intros Hne H. apply andb_true_iff in H as [_ H].
  apply bool_decide_eq_true in H. apply andb_false_iff. right.
  apply bool_decide_eq_false. congruence.
Qed.

Lemma acquire_inv l c s s' :
  inv s -> (c < length (cpus s))%nat ->
  acquire l c s = Ret tt s' \/ acquire l c s = Spin s' -> inv s'.
Proof.
  intros Hinv Hc Hacq.
  destruct (Hinv c Hc) as (_ & Hle & Hoff).
  pose proof (nheld_nonneg c s).
  rewrite acquire_eq in Hacq by (auto; lia). cbv zeta in Hacq.
  destruct (held_by c (lock_at l s)) eqn:Hh; [destruct Hacq; discriminate|].
  destruct (locked (lock_at l s) =? 0) eqn:Hk; simpl in Hacq;
    destruct Hacq as [Hacq|Hacq]; try discriminate; inversion Hacq; subst s'; clear Hacq.
  - (* the lock was free and is taken *)
    intros c' Hc'. unfold set_lock in Hc'; simpl in Hc'. rewrite length_insert in Hc'.
    split; [unfold set_lock; simpl; now rewrite length_insert|].
    rewrite mycpu_set_lock.
    destruct (decide (l < length (locks s))%nat) as [Hl|Hl].
    + rewrite nheld_set_lock by auto. rewrite lock_at_set_cpu, nheld_set_cpu.
      assert (Hfree : held_by c' (lock_at l s) = false).
      { unfold held_by. apply Z.eqb_eq in Hk. now rewrite Hk. }
      rewrite Hfree. simpl b2z.
      destruct (decide (c = c')) as [<-|Hne].
      * rewrite mycpu_set_eq by auto. simpl. split.
        -- unfold held_by; simpl. destruct (bool_decide _); simpl; lia.
        -- intros _. unfold intr_off. rewrite mycpu_set_lock, mycpu_set_eq by auto.
           apply land_cli.
      * rewrite mycpu_set_ne by auto.
        assert (Hn : held_by c' (mkLock 1 (Some c)) = false).
        { unfold held_by; simpl. apply bool_decide_eq_false. congruence. }
        rewrite Hn. simpl.
        destruct (Hinv c' Hc') as (_ & Hle' & Hoff'). split; [lia|].
        intros Hp. unfold intr_off. rewrite mycpu_set_lock, mycpu_set_ne by auto.
        now apply Hoff'.
    + unfold set_lock. rewrite list_insert_ge by (simpl; lia).
      change (mkMachine (cpus ?a) (locks ?a)) with a.
      replace (nheld c' _) with (nheld c' s) by reflexivity.
      destruct (decide (c = c')) as [<-|Hne].
      * rewrite mycpu_set_eq by auto. simpl. split; [lia|].
        intros _. unfold intr_off. simpl. rewrite mycpu_set_eq by auto. apply land_cli.
      * rewrite mycpu_set_ne by auto.
        destruct (Hinv c' Hc') as (_ & Hle' & Hoff'). split; [lia|].
        intros Hp. unfold intr_off. simpl. rewrite mycpu_set_ne by auto.
        now apply Hoff'.
  - (* spinning: only the depth changed *)
    intros c' Hc'. rewrite length_set_cpu in Hc'.
    split; [now rewrite length_set_cpu|]. rewrite nheld_set_cpu.
    destruct (decide (c = c')) as [<-|Hne].
    + rewrite mycpu_set_eq by auto. simpl. split; [lia|].
      intros _. unfold intr_off. rewrite mycpu_set_eq by auto. apply land_cli.
    + rewrite mycpu_set_ne by auto.
      destruct (Hinv c' Hc') as (_ & Hle' & Hoff'). split; [lia|].
      intros Hp. unfold intr_off. rewrite mycpu_set_ne by auto. now apply Hoff'.
Qed.


Lemma release_inv l c s s' :
  inv s -> (c < length (cpus s))%nat -> release l c s = Ret tt s' -> inv s'.
Proof.
  intros Hinv Hc Hrel.
  destruct (Hinv c Hc) as (_ & Hle & Hoff).
  pose proof (nheld_nonneg c s).
  assert (Hheld : held_by c (lock_at l s) = true).
  { destruct (held_by c (lock_at l s)) eqn:E; auto. exfalso.
    unfold release, bind at 1 in Hrel. rewrite holding_eq, E in Hrel by (auto; lia).
    discriminate. }
  destruct (held_intr_off c l s (Hinv c Hc) Hheld) as [Hi Hn].
  pose proof (held_in_range _ _ _ Hheld) as Hl.
  rewrite release_eq, Hheld in Hrel by auto. inversion Hrel; subst s'; clear Hrel.
  intros c' Hc'. rewrite length_set_cpu in Hc'. simpl in Hc'.
  split; [now rewrite length_set_cpu|].
  rewrite nheld_set_cpu, nheld_set_lock by auto.
  assert (Hz : held_by c' (mkLock 0 None) = false) by reflexivity. rewrite Hz.
  destruct (decide (c = c')) as [<-|Hne].
  - rewrite Hheld, mycpu_set_eq by auto. simpl. split; [lia|].
    intros Hp. unfold intr_off. rewrite mycpu_set_eq by auto. simpl.
    replace (ncli (mycpu c s) - 1 =? 0) with false by (symmetry; apply Z.eqb_neq; lia).
    simpl. apply Hi.
  - rewrite mycpu_set_ne, mycpu_set_lock by auto.
    rewrite (held_by_other c c' _ Hne Hheld). simpl.
    destruct (Hinv c' Hc') as (_ & Hle' & Hoff'). split; [lia|].
    intros Hp. unfold intr_off. rewrite mycpu_set_ne, mycpu_set_lock by auto.
    now apply Hoff'.
Qed.

(** Under the invariant [acquire] of a free lock returns with the lock held,
    and [release] of a held lock returns. *)
Lemma acquire_returns l c s :
  inv s -> (c < length (cpus s))%nat -> (l < length (locks s))%nat ->
  locked (lock_at l s) = 0 ->
  exists s', acquire l c s = Ret tt s' /\ held_by c (lock_at l s') = true.
Proof.
  intros Hinv Hc Hl Hk. destruct (Hinv c Hc) as (_ & Hle & _).
  pose proof (nheld_nonneg c s).
  rewrite acquire_eq by (auto; lia). cbv zeta.
  unfold held_by at 1. rewrite Hk. simpl. eexists; split; [reflexivity|].
  rewrite lock_at_set_eq by (simpl; auto). unfold held_by; simpl.
  now apply bool_decide_eq_true.
Qed.

Lemma release_returns l c s :
  inv s -> (c < length (cpus s))%nat -> held_by c (lock_at l s) = true ->
  exists s', release l c s = Ret tt s' /\ locked (lock_at l s') = 0.
Proof.
  intros Hinv Hc Hh. destruct (held_intr_off c l s (Hinv c Hc) Hh) as [Hi Hn].
  rewrite release_eq, Hh by auto. eexists; split; [reflexivity|].
  rewrite lock_at_set_cpu, lock_at_set_eq; auto. eapply held_in_range; eauto.
Qed.

(** Nesting: from depth 0, [n] pushes then [n] pops. *)
Lemma push_n c s n :
  (c < length (cpus s))%nat -> ncli (mycpu c s) = 0 ->
  repeat_m (S n) (pushcli c) s =
    Ret tt (set_cpu c (mkCpu (Z.of_nat (S n))
                             (Z.land (eflags (mycpu c s)) FL_IF)
                             (Z.land (eflags (mycpu c s)) (Z.lnot FL_IF))) s).
Proof.
  intros Hc H0.
  assert (G : forall k i e s0, (c < length (cpus s0))%nat -> 1 <= k ->
            mycpu c s0 = mkCpu k i e -> Z.land e FL_IF = 0 ->
            repeat_m n (pushcli c) s0 = Ret tt (set_cpu c (mkCpu (k + Z.of_nat n) i e) s0)).
  { induction n as [|n IH]; intros k i e s0 Hc0 Hk Hx He.
    - simpl. unfold ret. rewrite Z.add_0_r, <- Hx. now rewrite set_cpu_same.
    - cbn [repeat_m]. unfold bind. rewrite pushcli_eq by auto.
      rewrite (IH (k + 1) i e).
      + rewrite set_cpu_twice. do 3 f_equal. lia.
      + now rewrite length_set_cpu.
      + lia.
      + rewrite mycpu_set_eq by auto. rewrite Hx. unfold pushcli_cpu; simpl.
        replace (k =? 0) with false by (symmetry; apply Z.eqb_neq; lia).
        now rewrite cli_keeps.
      + auto. }
  cbn [repeat_m]. unfold bind. rewrite pushcli_eq by auto.
  rewrite (G 1 (Z.land (eflags (mycpu c s)) FL_IF) (Z.land (eflags (mycpu c s)) (Z.lnot FL_IF))).
  - rewrite set_cpu_twice. do 3 f_equal. lia.
  - now rewrite length_set_cpu.
  - lia.
  - rewrite mycpu_set_eq by auto. unfold pushcli_cpu. now rewrite H0.
  - apply land_cli.
Qed.

Lemma pop_m c s m k i e :
  (c < length (cpus s))%nat -> mycpu c s = mkCpu k i e -> Z.land e FL_IF = 0 ->
  Z.of_nat m < k ->
  repeat_m m (popcli c) s = Ret tt (set_cpu c (mkCpu (k - Z.of_nat m) i e) s).
Proof.
  revert s k. induction m as [|m IH]; intros s k Hc Hx He Hm.
  - simpl. unfold ret. rewrite Z.sub_0_r, <- Hx. now rewrite set_cpu_same.
  - cbn [repeat_m]. unfold bind. rewrite popcli_eq by auto. rewrite Hx. cbn [eflags ncli].
    rewrite He. simpl negb. cbv iota.
    replace (k - 1 <? 0) with false by (symmetry; apply Z.ltb_ge; lia).
    rewrite (IH _ (k - 1)).
    + rewrite set_cpu_twice. do 3 f_equal. lia.
    + now rewrite length_set_cpu.
    + rewrite mycpu_set_eq by auto. unfold popcli_cpu; simpl.
      replace (k - 1 =? 0) with false by (symmetry; apply Z.eqb_neq; lia). reflexivity.
    + auto.
    + lia.
Qed.

Lemma push_pop_nest c s n m :
  (c < length (cpus s))%nat -> ncli (mycpu c s) = 0 -> (m <= n)%nat ->
  exists s',
    (repeat_m (S n) (pushcli c) ;; repeat_m m (popcli c)) s = Ret tt s' /\
    intr_off c s' /\ ncli (mycpu c s') = Z.of_nat (S n) - Z.of_nat m /\
    intena (mycpu c s') = Z.land (eflags (mycpu c s)) FL_IF /\
    exists s'', popcli c s' = Ret tt s'' /\
      ((m < n)%nat -> intr_off c s'') /\
      (m = n -> ncli (mycpu c s'') = 0 /\ eflags (mycpu c s'') = eflags (mycpu c s)).
Proof.
  intros Hc H0 Hm. unfold bind. rewrite push_n by auto.
  erewrite pop_m; [| now rewrite length_set_cpu | now rewrite mycpu_set_eq | apply land_cli | lia].
  rewrite set_cpu_twice. eexists; split; [reflexivity|].
  unfold intr_off. rewrite !mycpu_set_eq by auto. cbn [eflags ncli intena].
  split; [apply land_cli|]. split; [reflexivity|]. split; [reflexivity|].
  rewrite popcli_eq by (now rewrite length_set_cpu).
  rewrite mycpu_set_eq by auto. cbn [eflags ncli intena]. rewrite land_cli. simpl negb. cbv iota.
  replace (_ <? 0) with false by (symmetry; apply Z.ltb_ge; lia).
  eexists; split; [reflexivity|]. rewrite set_cpu_twice, mycpu_set_eq by auto.
  unfold popcli_cpu. cbn [eflags ncli intena]. split.
  - intros Hlt. replace (_ =? 0) with false by (symmetry; apply Z.eqb_neq; lia).
    simpl. apply land_cli.
  - intros ->. split; [lia|].
    replace (_ =? 0) with true by (symmetry; apply Z.eqb_eq; lia). simpl.
    destruct (Z.eqb_spec (Z.land (eflags (mycpu c s)) FL_IF) 0) as [E|E]; simpl.
    + now apply cli_keeps.
    + now apply sti_restores.
Qed.


(** C8.  The lock invariant (every lock a CPU holds is counted in its
    [ncli], and a positive [ncli] means the interrupt flag is clear) is
    preserved by every [acquire] (also while it still spins) and every
    [release]; under it a held lock implies interrupts off and depth at
    least 1, [acquire] of a free lock and [release] of a held lock return;
    and from depth 0, after [n+1] calls of [pushcli] and [m <= n] of
    [popcli] interrupts are off and [intena] is the flag of before the
    first push, one more [popcli] keeps them off while [m < n], and the
    matching last one ([m = n]) gives back depth 0 and the [eflags] of
    before the first push. *)
Theorem spinlock_interrupt_discipline s c l :
  inv s -> (c < length (cpus s))%nat ->
  (forall s', acquire l c s = Ret tt s' \/ acquire l c s = Spin s' -> inv s') /\
  (forall s', release l c s = Ret tt s' -> inv s') /\
  (held_by c (lock_at l s) = true -> intr_off c s /\ 1 <= ncli (mycpu c s)) /\
  ((l < length (locks s))%nat -> locked (lock_at l s) = 0 ->
     exists s', acquire l c s = Ret tt s' /\ held_by c (lock_at l s') = true) /\
  (held_by c (lock_at l s) = true ->
     exists s', release l c s = Ret tt s' /\ locked (lock_at l s') = 0) /\
  (forall n m, ncli (mycpu c s) = 0 -> (m <= n)%nat ->
     exists s',
       (repeat_m (S n) (pushcli c) ;; repeat_m m (popcli c)) s = Ret tt s' /\
       intr_off c s' /\ ncli (mycpu c s') = Z.of_nat (S n) - Z.of_nat m /\
       intena (mycpu c s') = Z.land (eflags (mycpu c s)) FL_IF /\
       exists s'', popcli c s' = Ret tt s'' /\
         ((m < n)%nat -> intr_off c s'') /\
         (m = n -> ncli (mycpu c s'') = 0 /\
                   eflags (mycpu c s'') = eflags (mycpu c s))).
Proof.
  intros Hinv Hc.
  split; [intros s'; now apply acquire_inv|].
  split; [intros s'; now apply release_inv|].
  split; [now apply (held_intr_off c l s (Hinv c Hc))|].
  split; [now apply acquire_returns|].
  split; [now apply release_returns|].
  intros n m. now apply push_pop_nest.
Qed.

Lemma two_cpus_inv : inv two_cpus.
Proof.
  intros c Hc. simpl in Hc. unfold cpu_inv.
  destruct c as [|[|c]]; simpl in *; try lia;
    (split; [lia|]); (split; [vm_compute; discriminate | intros H; vm_compute in H; discriminate]).
Defined.

Lemma spinlock_interrupt_discipline_witness :
  inv two_cpus /\
  exists s', acquire 1 0 two_cpus = Ret tt s' /\ inv s' /\
             held_by 0 (lock_at 1 s') = true /\
             eflags (mycpu 0 s') = 0x2 /\ ncli (mycpu 0 s') = 1.
Proof.
  split; [exact two_cpus_inv|].
  destruct (spinlock_interrupt_discipline two_cpus 0%nat 1%nat two_cpus_inv)
    as (Hacq & _); [simpl; lia|].
  eexists. split; [reflexivity|]. split; [apply Hacq; left; reflexivity|].
  repeat split.
Defined.


Lemma acquire_shape l c s s' :
  inv s -> (c < length (cpus s))%nat -> acquire l c s = Ret tt s' ->
  length (cpus s') = length (cpus s) /\ length (locks s') = length (locks s) /\
  forall l', l' <> l -> lock_at l' s' = lock_at l' s.
Proof.
  intros Hinv Hc H. destruct (Hinv c Hc) as (_ & Hle & _). pose proof (nheld_nonneg c s).
  rewrite acquire_eq in H by (auto; lia). cbv zeta in H.
  destruct (held_by _ _); [discriminate|]. destruct (negb _); [discriminate|].
  inversion H; subst s'; simpl. rewrite !length_insert. repeat split; auto.
  intros l' Hne. unfold lock_at; simpl.
  destruct (decide (l' < length (locks s))%nat) as [Hl|Hl].
  - destruct (lookup_lt_is_Some_2 _ _ Hl) as [y Hy].
    rewrite (nth_lookup_Some _ _ dflt_lock y Hy).
    apply nth_lookup_Some. now rewrite list_lookup_insert_ne.
  - rewrite !nth_overflow; auto; rewrite ?length_insert; lia.
Qed.

Lemma release_shape l c s s' :
  inv s -> (c < length (cpus s))%nat -> release l c s = Ret tt s' ->
  length (cpus s') = length (cpus s) /\ length (locks s') = length (locks s) /\
  forall l', l' <> l -> lock_at l' s' = lock_at l' s.
Proof.
  intros Hinv Hc H. destruct (Hinv c Hc) as (_ & Hle & Hoff).
  pose proof (nheld_nonneg c s).
  assert (Hheld : held_by c (lock_at l s) = true).
  { destruct (held_by c (lock_at l s)) eqn:E; auto. exfalso.
    unfold release, bind at 1 in H. rewrite holding_eq, E in H by (auto; lia).
    discriminate. }
  destruct (held_intr_off c l s (Hinv c Hc) Hheld) as [Hi Hn].
  rewrite release_eq, Hheld in H by auto. inversion H; subst s'; simpl.
  rewrite !length_insert. repeat split; auto.
  intros l' Hne. unfold lock_at; simpl.
  destruct (decide (l' < length (locks s))%nat) as [Hl|Hl].
  - destruct (lookup_lt_is_Some_2 _ _ Hl) as [y Hy].
    rewrite (nth_lookup_Some _ _ dflt_lock y Hy).
    apply nth_lookup_Some. now rewrite list_lookup_insert_ne.
  - rewrite !nth_overflow; auto; rewrite ?length_insert; lia.
Qed.

(** A critical section on a free lock: [acquire] returns with the lock
    held, and then [release] returns with the lock free again. *)
Lemma acquire_ready l c s :
  lock_ready c l s ->
  exists s1, acquire l c s = Ret tt s1 /\ inv s1 /\
             (c < length (cpus s1))%nat /\ (l < length (locks s1))%nat /\
             held_by c (lock_at l s1) = true /\
             (forall l', l' <> l -> lock_at l' s1 = lock_at l' s) /\
             length (locks s1) = length (locks s) /\
             length (cpus s1) = length (cpus s).
Proof.
  intros (Hinv & Hc & Hl & Hfree).
  destruct (acquire_returns l c s Hinv Hc Hl Hfree) as (s1 & Hacq & Hheld).
  destruct (acquire_shape l c s s1 Hinv Hc Hacq) as (Hlc & Hll & Hoth).
  assert (Hi1 : inv s1) by (eapply acquire_inv; eauto).
  exists s1. rewrite Hlc, Hll.
  exact (conj Hacq (conj Hi1 (conj Hc (conj Hl (conj Hheld (conj Hoth (conj eq_refl eq_refl))))))).
Qed.

Lemma release_ready l c s :
  inv s -> (c < length (cpus s))%nat -> held_by c (lock_at l s) = true ->
  exists s1, release l c s = Ret tt s1 /\ lock_ready c l s1 /\
             (forall l', l' <> l -> lock_at l' s1 = lock_at l' s) /\
             length (locks s1) = length (locks s) /\
             length (cpus s1) = length (cpus s).
Proof.
  intros Hinv Hc Hheld.
  destruct (release_returns l c s Hinv Hc Hheld) as (s1 & Hrel & Hfree).
  destruct (release_shape l c s s1 Hinv Hc Hrel) as (Hlc & Hll & Hoth).
  pose proof (held_in_range _ _ _ Hheld).
  assert (Hi1 : inv s1) by (eapply release_inv; eauto).
  exists s1. unfold lock_ready. rewrite Hlc, Hll.
  exact (conj Hrel (conj (conj Hi1 (conj Hc (conj H Hfree))) (conj Hoth (conj eq_refl eq_refl)))).
Qed.


Lemma not_held_by_other c c' k :
  c <> c' -> held_by c k = true -> held_by c' k = false /\ locked k <> 0.
Proof.
  intros Hne H. split; [eapply held_by_other; eauto|].
  unfold held_by in H. apply andb_true_iff in H as [H _].
  intros E. rewrite E in H. discriminate H.
Qed.

(** X10.  Misuse of a spinlock stops the kernel: under the lock invariant
    a CPU that acquires a lock it already holds panics with "acquire",
    and a CPU that releases a lock it does not hold (free, or held by
    another CPU) panics with "release". *)
Theorem spinlock_misuse_panics s c l :
  inv s -> (c < length (cpus s))%nat ->
  (held_by c (lock_at l s) = true -> acquire l c s = Panic "acquire") /\
  (held_by c (lock_at l s) = false -> release l c s = Panic "release").
Proof.
  intros Hinv Hc. destruct (Hinv c Hc) as (_ & Hle & _).
  pose proof (nheld_nonneg c s). split; intros Hh.
  - rewrite acquire_eq by (auto; lia). cbv zeta. rewrite Hh. reflexivity.
  - unfold release, bind at 1. rewrite holding_eq, Hh by (auto; lia). reflexivity.
Qed.

Lemma spinlock_misuse_panics_witness :
  release 1 0 two_cpus = Panic "release".
Proof.
  destruct (spinlock_misuse_panics two_cpus 0%nat 1%nat two_cpus_inv) as [_ H].
  - simpl. lia.
  - apply H. reflexivity.
Defined.

(** X11.  Mutual exclusion.  Once CPU [c] has acquired a free lock,
    [acquire] by another CPU [c'] does not return: it spins, with the
    interrupts of [c'] off and the lock still held by [c]; after [c] has
    released the lock, [acquire] by [c'] returns with the lock held by
    [c'] and no longer by [c]. *)
Theorem spinlock_mutual_exclusion s c c' l :
  inv s -> (c < length (cpus s))%nat -> (c' < length (cpus s))%nat ->
  (l < length (locks s))%nat -> c <> c' -> locked (lock_at l s) = 0 ->
  exists s1 s1' s2 s3,
    acquire l c s = Ret tt s1 /\ held_by c (lock_at l s1) = true /\
    acquire l c' s1 = Spin s1' /\ intr_off c' s1' /\
    held_by c (lock_at l s1') = true /\
    release l c s1 = Ret tt s2 /\
    acquire l c' s2 = Ret tt s3 /\
    held_by c' (lock_at l s3) = true /\ held_by c (lock_at l s3) = false.
Proof.
  intros Hinv Hc Hc' Hl Hne Hfree.
  destruct (acquire_ready l c s (conj Hinv (conj Hc (conj Hl Hfree))))
    as (s1 & Ha & Hi1 & Hc1 & Hl1 & Hh1 & _ & _ & Hlen1).
  assert (Hc1' : (c' < length (cpus s1))%nat) by (rewrite Hlen1; exact Hc').
  destruct (not_held_by_other c c' _ Hne Hh1) as [Hnh Hlk].
  destruct (Hinv c' Hc') as (_ & Hle & _).
  destruct (Hi1 c' Hc1') as (_ & Hle1 & _).
  pose proof (nheld_nonneg c' s1).
  destruct (release_ready l c s1 Hi1 Hc1 Hh1) as (s2 & Hr & (Hi2 & Hc2 & Hl2 & Hf2) & _ & _ & Hlen2).
  assert (Hc2' : (c' < length (cpus s2))%nat) by (rewrite Hlen2; exact Hc1').
  destruct (acquire_ready l c' s2 (conj Hi2 (conj Hc2' (conj Hl2 Hf2))))
    as (s3 & Ha3 & _ & _ & _ & Hh3 & _).
  eexists s1, _, s2, s3. split; [exact Ha|]. split; [exact Hh1|].
  split.
  { rewrite acquire_eq by (auto; lia). cbv zeta. rewrite Hnh.
    rewrite (proj2 (Z.eqb_neq _ _) Hlk). reflexivity. }
  split.
  { unfold intr_off. rewrite mycpu_set_eq by exact Hc1'. simpl. apply land_cli. }
  split; [rewrite lock_at_set_cpu; exact Hh1|].
  split; [exact Hr|]. split; [exact Ha3|]. split; [exact Hh3|].
  apply (held_by_other c' c); auto.
Qed.

Lemma spinlock_mutual_exclusion_witness :
  exists s1 s1',
    acquire 0 0 two_cpus = Ret tt s1 /\ acquire 0 1 s1 = Spin s1' /\
    held_by 0 (lock_at 0 s1') = true.
Proof.
  destruct (spinlock_mutual_exclusion two_cpus 0%nat 1%nat 0%nat two_cpus_inv)
    as (s1 & s1' & s2 & s3 & Ha & _ & Hs & _ & Hh & _); simpl; try lia.
  - exists s1, s1'. split; [exact Ha|]. split; [exact Hs|exact Hh].
Defined.

End SpinlockSpec.

Module ProcSpec.
Import Spinlock SpinlockSpec Proc.

Lemma lift_ret {A} (m : Spinlock.M A) k a s :
  m (mach k) = Ret a s -> lift m k = Ret a (set_mach s k).
Proof. intros H. unfold lift. now rewrite H. Qed.

Lemma bind_ret {S A B} (m : S -> outcome S A) (f : A -> S -> outcome S B) s a s' :
  m s = Ret a s' -> bind m f s = f a s'.
Proof. intros H. unfold bind. now rewrite H. Qed.

Lemma pushpop_cpu_ncli x : ncli (popcli_cpu (pushcli_cpu x)) = ncli x.
Proof. unfold popcli_cpu, pushcli_cpu; simpl. lia. Qed.

Lemma myproc_eq c k :
  (c < length (cpus (mach k)))%nat -> 0 <= ncli (mycpu c (mach k)) ->
  myproc c k =
    Ret (nth c (cpu_proc k) None)
        (set_mach (set_cpu c (popcli_cpu (pushcli_cpu (mycpu c (mach k)))) (mach k)) k).
Proof.
  intros Hc Hn. unfold myproc.
  erewrite bind_ret by (apply lift_ret, pushcli_eq; auto).
  erewrite bind_ret by reflexivity.
  erewrite bind_ret.
  2:{ apply lift_ret. simpl. rewrite popcli_eq by (rewrite length_set_cpu; auto).
      rewrite mycpu_set_eq by auto. cbn [eflags pushcli_cpu ncli].
      rewrite land_cli. simpl negb. cbv iota.
      replace (ncli (mycpu c (mach k)) + 1 - 1 <? 0) with false
        by (symmetry; apply Z.ltb_ge; lia).
      rewrite set_cpu_twice. reflexivity. }
  reflexivity.
Qed.

Lemma pushpop_inv c s :
  inv s -> (c < length (cpus s))%nat ->
  inv (set_cpu c (popcli_cpu (pushcli_cpu (mycpu c s))) s).
Proof.
  intros Hinv Hc c' Hc'. rewrite length_set_cpu in Hc'.
  split; [now rewrite length_set_cpu|]. rewrite nheld_set_cpu.
  destruct (Hinv c' Hc') as (_ & Hle & Hoff).
  destruct (decide (c = c')) as [<-|Hne].
  - rewrite mycpu_set_eq by auto. rewrite pushpop_cpu_ncli. split; [lia|].
    intros Hp. unfold intr_off. rewrite mycpu_set_eq by auto.
    unfold popcli_cpu, pushcli_cpu; simpl.
    replace (ncli (mycpu c s) + 1 - 1 =? 0) with false by (symmetry; apply Z.eqb_neq; lia).
    simpl. apply land_cli.
  - rewrite mycpu_set_ne by auto. split; [lia|]. intros Hp.
    unfold intr_off. rewrite mycpu_set_ne by auto. now apply Hoff.
Qed.

Lemma wait_scan_no_zombie cur ps i h :
  (forall p, In p ps -> parent p = Some cur -> state p <> ZOMBIE) ->
  wait_scan cur ps i h =
    (None, h || existsb (fun p => bool_decide (parent p = Some cur)) ps).
Proof.
  revert i h. induction ps as [|p ps IH]; intros i h Hz; simpl.
  - now rewrite orb_false_r.
  - destruct (bool_decide (parent p = Some cur)) eqn:E.
    + apply bool_decide_eq_true in E.
      rewrite bool_decide_eq_false_2 by (apply Hz; simpl; auto).
      rewrite IH by (intros; apply Hz; simpl; auto). simpl. now rewrite orb_true_r.
    + rewrite IH by (intros; apply Hz; simpl; auto). reflexivity.
Qed.

(** [wait_loop] when the caller is killed and no child is a zombie. *)
Lemma wait_loop_killed env c cur k :
  (c < length (cpus (mach k)))%nat ->
  1 <= ncli (mycpu c (mach k)) -> intr_off c (mach k) ->
  held_by c (lock_at ptable_lock (mach k)) = true ->
  killed (proc_at cur k) <> 0 ->
  (forall p, In p (procs k) -> parent p = Some cur -> state p <> ZOMBIE) ->
  wait_loop env c cur k =
    Ret (-1) (set_mach (set_cpu c (popcli_cpu (mycpu c (mach k)))
                                (set_lock ptable_lock (mkLock 0 None) (mach k))) k).
Proof.
  intros Hc Hn Hi Hh Hk Hz.
  destruct env; simpl; rewrite wait_scan_no_zombie by auto;
    (replace (killed (proc_at cur k) =? 0) with false by (symmetry; now apply Z.eqb_neq));
    rewrite orb_true_r;
    (erewrite bind_ret by (apply lift_ret; rewrite release_eq, Hh by auto; reflexivity));
    reflexivity.
Qed.

(** C10.  A caller whose [killed] flag is set and none of whose children is
    a zombie gets -1 from [wait], whether or not it has children (here it
    has one); the process table is left as it was, nothing is freed and
    [ptable.lock] is free again. *)
Theorem wait_killed_returns_minus_one env c cur k child :
  inv (mach k) -> (c < length (cpus (mach k)))%nat ->
  (ptable_lock < length (locks (mach k)))%nat ->
  locked (lock_at ptable_lock (mach k)) = 0 ->
  nth c (cpu_proc k) None = Some cur ->
  killed (proc_at cur k) <> 0 ->
  In child (procs k) -> parent child = Some cur ->
  (forall p, In p (procs k) -> parent p = Some cur -> state p <> ZOMBIE) ->
  exists k',
    wait env c k = Ret (-1) k' /\
    procs k' = procs k /\ kfreed k' = kfreed k /\ vmfreed k' = vmfreed k /\
    locked (lock_at ptable_lock (mach k')) = 0.
Proof.
  intros Hinv Hc Hl Hfree Hcur Hk _ _ Hz.
  destruct (Hinv c Hc) as (_ & Hle & _). pose proof (nheld_nonneg c (mach k)).
  unfold wait. rewrite (bind_ret _ _ _ _ _ (myproc_eq c k Hc ltac:(lia))), Hcur.
  set (m1 := set_cpu c _ (mach k)).
  assert (Hinv1 : inv m1) by now apply pushpop_inv.
  assert (Hc1 : (c < length (cpus m1))%nat) by (unfold m1; now rewrite length_set_cpu).
  destruct (acquire_returns ptable_lock c m1 Hinv1 Hc1) as (m2 & Hacq & Hheld); auto.
  erewrite bind_ret by (apply lift_ret; simpl; exact Hacq).
  assert (Hinv2 : inv m2) by (eapply acquire_inv; eauto).
  assert (Hc2 : (c < length (cpus m2))%nat).
  { rewrite acquire_eq in Hacq by (auto; unfold m1; rewrite mycpu_set_eq, pushpop_cpu_ncli by auto; lia).
    cbv zeta in Hacq. destruct (held_by _ _); [discriminate|].
    destruct (negb _); [discriminate|]. inversion Hacq. simpl. now rewrite length_insert, length_insert. }
  destruct (held_intr_off c ptable_lock m2 (Hinv2 c Hc2) Hheld) as [Hi2 Hn2].
  rewrite wait_loop_killed; auto.
  eexists. split; [reflexivity|]. simpl. repeat split; auto.
  rewrite lock_at_set_cpu, lock_at_set_eq; auto. eapply held_in_range; eauto.
Qed.

Lemma wait_killed_returns_minus_one_witness :
  exists k', wait [] 0 killed_parent = Ret (-1) k' /\
    procs k' = procs killed_parent /\ kfreed k' = [] /\ vmfreed k' = [] /\
    locked (lock_at ptable_lock (mach k')) = 0.
Proof.
  apply (wait_killed_returns_minus_one [] 0%nat 0%nat killed_parent
           (mkProc 4096 0 0 SLEEPING 2 (Some 0%nat) 4096 0 (Some ChanTicks) 0 [] None 0)).
  - exact two_cpus_inv.
  - simpl; lia.
  - vm_compute; lia.
  - reflexivity.
  - reflexivity.
  - vm_compute; lia.
  - simpl; auto.
  - reflexivity.
  - intros p [<-|[<-|[]]]; simpl; congruence.
Defined.


Lemma find_pid_spec pd ps i0 :
  match find_pid pd ps i0 with
  | Some i => (i0 <= i < i0 + length ps)%nat /\
              pid (nth (i - i0) ps dflt_proc) = pd /\
              forall j, (j < i - i0)%nat -> pid (nth j ps dflt_proc) <> pd
  | None => forall p, In p ps -> pid p <> pd
  end.
Proof.
  revert i0. induction ps as [|p ps IH]; intros i0; simpl.
  - intros p [].
  - destruct (Z.eqb_spec (pid p) pd) as [E|E].
    + rewrite Nat.sub_diag. split; [lia|]. split; [exact E|]. intros j Hj; lia.
    + specialize (IH (S i0)). destruct (find_pid pd ps (S i0)) as [i|].
      * destruct IH as (Hr & Hp & Hb). split; [lia|].
        replace (i - i0)%nat with (S (i - S i0)) by lia. split; [exact Hp|].
        intros [|j] Hj; [exact E|]. apply Hb. lia.
      * intros q [<-|Hq]; auto.
Qed.

Lemma find_pid_first pd ps i :
  (i < length ps)%nat -> pid (nth i ps dflt_proc) = pd ->
  (forall j, (j < i)%nat -> pid (nth j ps dflt_proc) <> pd) ->
  find_pid pd ps 0 = Some i.
Proof.
  intros Hi Hp Hb. pose proof (find_pid_spec pd ps 0) as H.
  destruct (find_pid pd ps 0) as [i'|].
  - destruct H as (Hr & Hp' & Hb'). rewrite Nat.sub_0_r in *.
    f_equal. destruct (lt_eq_lt_dec i i') as [[Hlt|E]|Hgt]; auto.
    + exfalso. exact (Hb' i Hlt Hp).
    + exfalso. exact (Hb i' Hgt Hp').
  - exfalso. apply (H (nth i ps dflt_proc)); auto. apply nth_In. exact Hi.
Qed.

Lemma find_pid_none pd ps :
  (forall p, In p ps -> pid p <> pd) -> find_pid pd ps 0 = None.
Proof.
  intros H. pose proof (find_pid_spec pd ps 0) as Hs.
  destruct (find_pid pd ps 0) as [i|]; [|reflexivity].
  destruct Hs as (Hr & Hp & _). exfalso.
  apply (H (nth (i - 0) ps dflt_proc)); auto. apply nth_In. lia.
Qed.

Lemma proc_at_upd_eq i f k :
  (i < length (procs k))%nat -> proc_at i (upd_proc i f k) = f (proc_at i k).
Proof.
  intros H. unfold proc_at, upd_proc; simpl.
  apply nth_lookup_Some with (d := dflt_proc). now apply list_lookup_insert_eq.
Qed.

Lemma proc_at_upd_ne i j f k :
  i <> j -> proc_at j (upd_proc i f k) = proc_at j k.
Proof.
  intros Hne. unfold proc_at, upd_proc; simpl.
  destruct (decide (j < length (procs k))%nat) as [Hl|Hl].
  - destruct (lookup_lt_is_Some_2 _ _ Hl) as [y Hy].
    rewrite (nth_lookup_Some _ _ dflt_proc y Hy).
    apply nth_lookup_Some. now rewrite list_lookup_insert_ne.
  - rewrite !nth_overflow; auto; rewrite ?length_insert; lia.
Qed.

(** X12.  [kill] acts on the first slot of the process table whose [pid]
    field is the one asked for, whatever the state of that slot: it sets
    [killed], turns a sleeping process into a runnable one, leaves every
    other field and every other slot alone and returns 0; when no slot
    has that pid it returns -1 and the table is as before.  In both cases
    [ptable.lock] is free again. *)
Theorem kill_first_matching_slot c pd k :
  lock_ready c ptable_lock (mach k) ->
  (forall i, (i < length (procs k))%nat -> pid (proc_at i k) = pd ->
     (forall j, (j < i)%nat -> pid (proc_at j k) <> pd) ->
     exists k',
       kill c pd k = Ret 0 k' /\
       proc_at i k'
       = (let p1 := set_killed 1 (proc_at i k) in
          if bool_decide (state (proc_at i k) = SLEEPING)
          then set_state RUNNABLE p1 else p1) /\
       (forall j, j <> i -> proc_at j k' = proc_at j k) /\
       length (procs k') = length (procs k) /\
       lock_ready c ptable_lock (mach k')) /\
  ((forall p, In p (procs k) -> pid p <> pd) ->
     exists k',
       kill c pd k = Ret (-1) k' /\ procs k' = procs k /\
       lock_ready c ptable_lock (mach k')).
Proof.
  intros Hr.
  destruct (acquire_ready _ _ _ Hr) as (m1 & Ha & Hi & Hc & Hl & Hh & _).
  destruct (release_ready ptable_lock c m1 Hi Hc Hh) as (m2 & Hrel & Hready & _).
  split.
  - intros i Hlen Hp Hb.
    eexists. split.
    { unfold kill. rewrite (bind_ret _ _ _ _ _ (lift_ret _ _ _ _ Ha)).
      unfold bind at 1, gets. cbn [procs set_mach].
      rewrite (find_pid_first pd (procs k) i Hlen Hp Hb).
      unfold bind at 1, modify. unfold bind at 1.
      unfold lift at 1. cbn [mach upd_proc set_procs set_mach]. rewrite Hrel.
      reflexivity. }
    split.
    { change (proc_at i (set_mach m2 (upd_proc i _ (set_mach m1 k)))) with
        (proc_at i (upd_proc i (fun p => let p1 := set_killed 1 p in
           if bool_decide (state p1 = SLEEPING) then set_state RUNNABLE p1 else p1) k)).
      rewrite proc_at_upd_eq by exact Hlen. reflexivity. }
    split.
    { intros j Hne.
      change (proc_at j (set_mach m2 (upd_proc i _ (set_mach m1 k)))) with
        (proc_at j (upd_proc i (fun p => let p1 := set_killed 1 p in
           if bool_decide (state p1 = SLEEPING) then set_state RUNNABLE p1 else p1) k)).
      apply proc_at_upd_ne. congruence. }
    split; [simpl; now rewrite length_insert|exact Hready].
  - intros Hno. eexists. split.
    { unfold kill. rewrite (bind_ret _ _ _ _ _ (lift_ret _ _ _ _ Ha)).
      unfold bind at 1, gets. cbn [procs set_mach].
      rewrite (find_pid_none pd (procs k) Hno).
      unfold bind at 1. unfold lift at 1. cbn [mach set_mach]. rewrite Hrel.
      reflexivity. }
    split; [reflexivity|exact Hready].
Qed.

Lemma killed_parent_ready : lock_ready 0 ptable_lock (mach killed_parent).
Proof.
  split; [exact two_cpus_inv|]. simpl. split; [lia|]. split; [unfold ptable_lock; lia|].
  reflexivity.
Defined.

Lemma kill_first_matching_slot_witness :
  exists k',
    kill 0 2 killed_parent = Ret 0 k' /\
    killed (proc_at 1 k') = 1 /\ state (proc_at 1 k') = RUNNABLE.
Proof.
  destruct (kill_first_matching_slot 0%nat 2 killed_parent killed_parent_ready)
    as [H _].
  destruct (H 1%nat) as (k' & Hk & Hp & _).
  - simpl. lia.
  - reflexivity.
  - intros j Hj. assert (j = 0%nat) as -> by lia. simpl. discriminate.
  - exists k'. split; [exact Hk|]. rewrite Hp. split; reflexivity.
Defined.








Lemma proc_at_map f k i :
  f dflt_proc = dflt_proc ->
  proc_at i (set_procs (map f (procs k)) k) = f (proc_at i k).
Proof.
  intros Hd. unfold proc_at; simpl. rewrite <- Hd at 1. apply map_nth.
Qed.

(** X14.  [wakeup] makes runnable exactly the processes that sleep on the
    channel: a slot that is [SLEEPING] with that channel becomes
    [RUNNABLE], with its channel and every other field as before; every
    other slot (sleeping on another channel, or not sleeping) is left
    alone; [ptable.lock] is free again.  A second [wakeup] on the same
    channel changes no slot. *)
Theorem wakeup_wakes_the_sleepers_of_the_channel c ch k :
  lock_ready c ptable_lock (mach k) ->
  exists k',
    wakeup c ch k = Ret tt k' /\
    lock_ready c ptable_lock (mach k') /\
    length (procs k') = length (procs k) /\
    (forall i, state (proc_at i k) = SLEEPING -> pchan (proc_at i k) = Some ch ->
       proc_at i k' = set_state RUNNABLE (proc_at i k)) /\
    (forall i, ~ (state (proc_at i k) = SLEEPING /\ pchan (proc_at i k) = Some ch) ->
       proc_at i k' = proc_at i k) /\
    exists k'', wakeup c ch k' = Ret tt k'' /\ procs k'' = procs k'.
Proof.
  intros Hr.
  destruct (acquire_ready _ _ _ Hr) as (m1 & Ha & Hi & Hc & Hl & Hh & _).
  destruct (release_ready ptable_lock c m1 Hi Hc Hh) as (m2 & Hrel & Hready & _).
  destruct (acquire_ready _ _ _ Hready) as (m3 & Ha3 & Hi3 & Hc3 & Hl3 & Hh3 & _).
  destruct (release_ready ptable_lock c m3 Hi3 Hc3 Hh3) as (m4 & Hrel4 & _).
  assert (Hrun : forall k0 ma mb, mach k0 = mach k0 ->
            acquire ptable_lock c (mach k0) = Ret tt ma ->
            release ptable_lock c ma = Ret tt mb ->
            wakeup c ch k0
            = Ret tt (set_mach mb (set_procs (map (wakeup1_proc ch) (procs k0)) k0))).
  { intros k0 ma mb _ H1 H2. unfold wakeup.
    rewrite (bind_ret _ _ _ _ _ (lift_ret _ _ _ _ H1)).
    unfold wakeup1, bind at 1, modify. unfold lift. simpl. rewrite H2. reflexivity. }
  assert (Hd : wakeup1_proc ch dflt_proc = dflt_proc) by reflexivity.
  eexists. split; [apply (Hrun k m1 m2 eq_refl Ha Hrel)|].
  split; [exact Hready|]. split; [simpl; now rewrite length_map|].
  split; [|split].
  - intros i Hs Hp.
    change (proc_at i (set_mach m2 (set_procs (map (wakeup1_proc ch) (procs k)) k)))
      with (proc_at i (set_procs (map (wakeup1_proc ch) (procs k)) k)).
    rewrite proc_at_map by exact Hd. unfold wakeup1_proc.
    rewrite !bool_decide_eq_true_2 by assumption. reflexivity.
  - intros i Hn.
    change (proc_at i (set_mach m2 (set_procs (map (wakeup1_proc ch) (procs k)) k)))
      with (proc_at i (set_procs (map (wakeup1_proc ch) (procs k)) k)).
    rewrite proc_at_map by exact Hd. unfold wakeup1_proc.
    destruct (bool_decide (state (proc_at i k) = SLEEPING)) eqn:E1; [|reflexivity].
    destruct (bool_decide (pchan (proc_at i k) = Some ch)) eqn:E2; [|reflexivity].
    apply bool_decide_eq_true in E1, E2. exfalso. apply Hn. split; assumption.
  - eexists. split.
    { apply (Hrun (set_mach m2 (set_procs (map (wakeup1_proc ch) (procs k)) k))
                  m3 m4 eq_refl Ha3 Hrel4). }
    simpl. rewrite map_map. apply map_ext. intros p. unfold wakeup1_proc.
    destruct (bool_decide (state p = SLEEPING)) eqn:E1; simpl; [|now rewrite E1].
    destruct (bool_decide (pchan p = Some ch)) eqn:E2; simpl; [|now rewrite E1, E2].
    reflexivity.
Qed.

Lemma wakeup_wakes_the_sleepers_of_the_channel_witness :
  exists k',
    wakeup 0 ChanTicks killed_parent = Ret tt k' /\
    state (proc_at 1 k') = RUNNABLE /\ state (proc_at 0 k') = RUNNING.
Proof.
  destruct (wakeup_wakes_the_sleepers_of_the_channel 0%nat ChanTicks killed_parent
              killed_parent_ready) as (k' & Hw & _ & _ & Hs & Hn & _).
  exists k'. split; [exact Hw|]. split.
  - rewrite (Hs 1%nat); reflexivity.
  - rewrite (Hn 0%nat); [reflexivity|]. intros [H _]. discriminate H.
Defined.


Lemma lock_at_set_ne l l' x s : l <> l' -> lock_at l' (set_lock l x s) = lock_at l' s.
Proof.
  intros Hne. unfold lock_at, set_lock; simpl.
  destruct (decide (l' < length (locks s))%nat) as [Hl|Hl].
  - destruct (lookup_lt_is_Some_2 _ _ Hl) as [y Hy].
    rewrite (nth_lookup_Some _ _ dflt_lock y Hy).
    apply nth_lookup_Some. now rewrite list_lookup_insert_ne.
  - rewrite !nth_overflow; auto; rewrite ?length_insert; lia.
Qed.

Lemma set_mach_same k : set_mach (mach k) k = k.
Proof. destruct k; reflexivity. Qed.

Lemma set_cpu_intena c s :
  set_cpu c (mkCpu (ncli (mycpu c s)) (intena (mycpu c s)) (eflags (mycpu c s))) s = s.
Proof.
  replace (mkCpu (ncli (mycpu c s)) (intena (mycpu c s)) (eflags (mycpu c s)))
    with (mycpu c s) by (now destruct (mycpu c s)).
  apply set_cpu_same.
Qed.

(** The state [sleep] hands to the scheduler and the one it returns in.  *)
Lemma sleep_steps c ch lk k p :
  inv (mach k) -> (c < length (cpus (mach k)))%nat ->
  nth c (cpu_proc k) None = Some p -> (p < length (procs k))%nat ->
  lk <> ptable_lock -> held_by c (lock_at lk (mach k)) = true ->
  (ptable_lock < length (locks (mach k)))%nat ->
  locked (lock_at ptable_lock (mach k)) = 0 ->
  ncli (mycpu c (mach k)) = 1 ->
  exists m2,
    sleep_enter c ch lk k
    = Ret (p, intena (mycpu c (mach k)))
          (upd_proc p (set_state SLEEPING)
             (upd_proc p (set_chan (Some ch)) (set_mach m2 k))) /\
    (c < length (cpus m2))%nat /\
    mycpu c m2 = mycpu c (mach k) /\
    lock_at lk m2 = mkLock 0 None /\
    lock_at ptable_lock m2 = mkLock 1 (Some c) /\
    (lk < length (locks m2))%nat /\ (ptable_lock < length (locks m2))%nat.
Proof.
  intros Hinv Hc Hcur Hp Hne Hh Hpl Hfree Hn.
  destruct (held_intr_off c lk _ (Hinv c Hc) Hh) as [Hoff _].
  pose proof (held_in_range _ _ _ Hh) as Hlk.
  set (m0 := mach k) in *.
  set (m1 := set_lock ptable_lock (mkLock 1 (Some c))
               (set_cpu c (pushcli_cpu (mycpu c m0)) m0)).
  assert (Ha : acquire ptable_lock c m0 = Ret tt m1).
  { rewrite acquire_eq by (auto; lia). cbv zeta. unfold held_by. rewrite Hfree. reflexivity. }
  assert (Hc1 : (c < length (cpus m1))%nat) by (unfold m1; simpl; now rewrite length_insert).
  assert (Hx1 : mycpu c m1 = pushcli_cpu (mycpu c m0)).
  { unfold m1. rewrite mycpu_set_lock. now apply mycpu_set_eq. }
  assert (Hlk1 : lock_at lk m1 = lock_at lk m0).
  { unfold m1. rewrite lock_at_set_ne by congruence. apply lock_at_set_cpu. }
  set (m2 := set_cpu c (popcli_cpu (mycpu c m1)) (set_lock lk (mkLock 0 None) m1)).
  assert (Hr : release lk c m1 = Ret tt m2).
  { rewrite release_eq; [rewrite Hlk1, Hh; reflexivity|exact Hc1| |].
    - rewrite Hx1. simpl. lia.
    - unfold intr_off. rewrite Hx1. simpl. apply land_cli. }
  assert (Hc2 : (c < length (cpus m2))%nat) by (unfold m2; simpl; now rewrite length_insert).
  assert (Hx2 : mycpu c m2 = mycpu c m0).
  { unfold m2. rewrite mycpu_set_eq by (simpl; exact Hc1).
    rewrite Hx1. apply holding_cpu_id; [lia|exact Hoff]. }
  assert (Hl2 : lock_at lk m2 = mkLock 0 None).
  { unfold m2. rewrite lock_at_set_cpu. apply lock_at_set_eq.
    unfold m1; simpl. now rewrite length_insert. }
  assert (Hp2 : lock_at ptable_lock m2 = mkLock 1 (Some c)).
  { unfold m2. rewrite lock_at_set_cpu, lock_at_set_ne by exact Hne.
    unfold m1. apply lock_at_set_eq. simpl. exact Hpl. }
  exists m2. split.
  2:{ split; [exact Hc2|]. split; [exact Hx2|]. split; [exact Hl2|]. split; [exact Hp2|].
      unfold m2, m1; simpl. rewrite !length_insert. auto. }
  unfold sleep_enter.
  rewrite (bind_ret _ _ _ _ _ (myproc_eq c k Hc ltac:(fold m0; lia))). fold m0.
  rewrite (holding_cpu_id (mycpu c m0)) by (auto; lia).
  rewrite set_cpu_same. unfold m0 at 1. rewrite set_mach_same. rewrite Hcur.
  rewrite bool_decide_eq_false_2 by exact Hne.
  unfold bind at 1. unfold bind at 1. rewrite (lift_ret _ _ _ _ Ha).
  unfold bind at 1. unfold lift at 1. cbn [mach set_mach]. rewrite Hr.
  unfold bind at 1, modify. unfold bind at 1.
  set (k3 := upd_proc p (set_state SLEEPING) (upd_proc p (set_chan (Some ch))
               (set_mach m2 (set_mach m1 k)))).
  assert (Hm3 : mach k3 = m2) by reflexivity.
  assert (Hk3 : k3 = upd_proc p (set_state SLEEPING)
                       (upd_proc p (set_chan (Some ch)) (set_mach m2 k))) by reflexivity.
  assert (Hs3 : state (proc_at p k3) = SLEEPING).
  { unfold k3. rewrite proc_at_upd_eq; [reflexivity|].
    simpl. now rewrite length_insert. }
  unfold sched_enter, bind at 1. unfold bind at 1. unfold lift at 1. rewrite Hm3.
  rewrite holding_id;
    [|exact Hc2|rewrite Hx2; lia|unfold intr_off; rewrite Hx2; exact Hoff].
  unfold held_by. rewrite Hp2. cbn [locked owner]. 
  rewrite bool_decide_eq_true_2 by reflexivity. cbn [negb andb Z.eqb].
  rewrite <- Hm3 at 1. rewrite set_mach_same.
  unfold bind at 1, gets. rewrite Hm3, Hx2, Hn. cbn [Z.eqb Pos.eqb negb].
  rewrite Hs3. rewrite bool_decide_eq_false_2 by discriminate.
  unfold bind at 1. unfold readeflags. rewrite Hm3, Hx2. rewrite Hoff. cbn [Z.eqb negb].
  rewrite Hm3, Hx2. unfold ret. rewrite Hk3. reflexivity.
Qed.

(** X15.  [sleep] gives up the caller's lock for the time it sleeps and
    takes it back before it returns.  Called by the process on CPU [c]
    with a held lock [lk] other than [ptable.lock], and no other lock
    held, it reaches the scheduler with the process [SLEEPING] on the
    channel, [lk] free and [ptable.lock] held, no other slot changed; and
    when the process is switched back in (the lock machine as [sleep]
    left it), it returns with the channel cleared, [lk] held again by
    this CPU, [ptable.lock] free and one lock counted. *)
Theorem sleep_releases_and_reacquires c ch lk k p :
  inv (mach k) -> (c < length (cpus (mach k)))%nat ->
  nth c (cpu_proc k) None = Some p -> (p < length (procs k))%nat ->
  lk <> ptable_lock -> held_by c (lock_at lk (mach k)) = true ->
  (ptable_lock < length (locks (mach k)))%nat ->
  locked (lock_at ptable_lock (mach k)) = 0 ->
  ncli (mycpu c (mach k)) = 1 ->
  exists ie k1,
    sleep_enter c ch lk k = Ret (p, ie) k1 /\
    state (proc_at p k1) = SLEEPING /\ pchan (proc_at p k1) = Some ch /\
    (forall j, j <> p -> proc_at j k1 = proc_at j k) /\
    locked (lock_at lk (mach k1)) = 0 /\
    held_by c (lock_at ptable_lock (mach k1)) = true /\
    forall k1',
      mach k1' = mach k1 -> (p < length (procs k1'))%nat ->
      exists k2,
        sleep_leave c lk (p, ie) k1' = Ret tt k2 /\
        pchan (proc_at p k2) = None /\
        state (proc_at p k2) = state (proc_at p k1') /\
        (forall j, j <> p -> proc_at j k2 = proc_at j k1') /\
        held_by c (lock_at lk (mach k2)) = true /\
        locked (lock_at ptable_lock (mach k2)) = 0 /\
        ncli (mycpu c (mach k2)) = 1.
Proof.
  intros Hinv Hc Hcur Hp Hne Hh Hpl Hfree Hn.
  destruct (held_intr_off c lk _ (Hinv c Hc) Hh) as [Hoff _].
  destruct (sleep_steps c ch lk k p Hinv Hc Hcur Hp Hne Hh Hpl Hfree Hn)
    as (m2 & Hrun & Hc2 & Hx2 & Hl2 & Hp2 & Hlk2 & Hpl2).
  eexists _, _. split; [exact Hrun|].
  split; [rewrite proc_at_upd_eq by (simpl; now rewrite length_insert); reflexivity|].
  split.
  { rewrite proc_at_upd_eq by (simpl; now rewrite length_insert). cbn [pchan set_state].
    rewrite proc_at_upd_eq by exact Hp. reflexivity. }
  split; [intros j Hj; rewrite !proc_at_upd_ne by congruence; reflexivity|].
  cbn [mach upd_proc set_procs set_mach].
  split; [rewrite Hl2; reflexivity|].
  split.
  { unfold held_by. rewrite Hp2. cbn [locked owner].
    now rewrite bool_decide_eq_true_2. }
  intros k4 Hm4 Hp4.
  set (m5 := set_cpu c (popcli_cpu (mycpu c m2)) (set_lock ptable_lock (mkLock 0 None) m2)).
  assert (Hr5 : release ptable_lock c m2 = Ret tt m5).
  { rewrite release_eq; [|exact Hc2|rewrite Hx2; lia|unfold intr_off; rewrite Hx2; exact Hoff].
    unfold held_by. rewrite Hp2. cbn [locked owner].
    now rewrite bool_decide_eq_true_2. }
  assert (Hc5 : (c < length (cpus m5))%nat) by (unfold m5; simpl; now rewrite length_insert).
  assert (Hx5 : mycpu c m5 = popcli_cpu (mycpu c (mach k))).
  { unfold m5. rewrite mycpu_set_eq by (simpl; exact Hc2). now rewrite Hx2. }
  assert (Hl5 : lock_at lk m5 = mkLock 0 None).
  { unfold m5. rewrite lock_at_set_cpu, lock_at_set_ne by congruence. exact Hl2. }
  set (m6 := set_lock lk (mkLock 1 (Some c)) (set_cpu c (pushcli_cpu (mycpu c m5)) m5)).
  assert (Ha6 : acquire lk c m5 = Ret tt m6).
  { rewrite acquire_eq; [|exact Hc5|rewrite Hx5; simpl; lia]. cbv zeta.
    unfold held_by. rewrite Hl5. reflexivity. }
  exists (set_mach m6 (upd_proc p (set_chan None) k4)). split.
  { unfold sleep_leave, bind at 1, sched_leave, modify. cbn [snd fst].
    rewrite Hm4. cbn [mach upd_proc set_procs set_mach].
    rewrite <- Hx2, set_cpu_intena.
    unfold bind at 1. rewrite bool_decide_eq_false_2 by exact Hne.
    unfold bind at 1. unfold lift at 1. cbn [mach upd_proc set_procs set_mach].
    rewrite Hr5. unfold lift. cbn [mach set_mach]. rewrite Ha6. reflexivity. }
  change (proc_at p (set_mach m6 (upd_proc p (set_chan None) k4)))
    with (proc_at p (upd_proc p (set_chan None) k4)).
  rewrite proc_at_upd_eq by exact Hp4.
  split; [reflexivity|]. split; [reflexivity|]. split.
  { intros j Hj.
    change (proc_at j (set_mach m6 (upd_proc p (set_chan None) k4)))
      with (proc_at j (upd_proc p (set_chan None) k4)).
    apply proc_at_upd_ne. congruence. }
  cbn [mach set_mach].
  assert (Hlen5 : length (locks m5) = length (locks m2))
    by (unfold m5; simpl; now rewrite length_insert).
  split.
  { unfold m6. rewrite lock_at_set_eq
      by (unfold set_cpu; cbn [locks]; rewrite Hlen5; exact Hlk2).
    unfold held_by. cbn [locked owner]. now rewrite bool_decide_eq_true_2. }
  split.
  { unfold m6. rewrite lock_at_set_ne by exact Hne. rewrite lock_at_set_cpu.
    unfold m5. rewrite lock_at_set_cpu, lock_at_set_eq by exact Hpl2. reflexivity. }
  unfold m6. rewrite mycpu_set_lock, mycpu_set_eq by exact Hc5.
  rewrite Hx5. simpl. lia.
Qed.

Lemma sleeper_inv : inv (mach sleeper).
Proof.
  intros c Hc. simpl in Hc. unfold cpu_inv.
  destruct c as [|c]; simpl in *; try lia.
  split; [lia|]. split; [vm_compute; discriminate|]. intros _. reflexivity.
Defined.

Lemma sleep_releases_and_reacquires_witness :
  exists ie k1,
    sleep_enter 0 ChanTicks tickslock sleeper = Ret (0%nat, ie) k1 /\
    state (proc_at 0 k1) = SLEEPING /\
    locked (lock_at tickslock (mach k1)) = 0.
Proof.
  destruct (sleep_releases_and_reacquires 0%nat ChanTicks tickslock sleeper 0%nat)
    as (ie & k1 & Hrun & Hs & _ & _ & Hl & _).
  - exact sleeper_inv.
  - simpl. lia.
  - reflexivity.
  - simpl. lia.
  - discriminate.
  - reflexivity.
  - unfold ptable_lock. simpl. lia.
  - reflexivity.
  - reflexivity.
  - exists ie, k1. split; [exact Hrun|]. split; [exact Hs|exact Hl].
Defined.

(** [myproc] in a system call: the process of the CPU, and a lock machine
    with the same locks. *)
Lemma myproc_ret c k :
  inv (mach k) -> (c < length (cpus (mach k)))%nat ->
  exists m',
    myproc c k = Ret (nth c (cpu_proc k) None) (set_mach m' k) /\
    inv m' /\ length (cpus m') = length (cpus (mach k)) /\ locks m' = locks (mach k).
Proof.
  intros Hinv Hc. destruct (Hinv c Hc) as (_ & Hle & _).
  pose proof (nheld_nonneg c (mach k)).
  eexists. split; [apply myproc_eq; auto; lia|].
  split; [now apply pushpop_inv|]. split; [apply length_set_cpu|reflexivity].
Qed.

End ProcSpec.

Module SyscallSpec.
Import Spinlock SpinlockSpec Proc ProcSpec Syscall.

(** [fetchint] never fails on a mapped address, whatever the size of the
    process. *)
Lemma fetchint_unchecked addr v s :
  load32 s addr = Some v ->
  fetchint addr s = Ret (0, v) (mkSys (kern s) (load32 s) (reads s ++ [addr])).
Proof. intros H. unfold fetchint, bind, deref. now rewrite H. Qed.

(** C1 (the code departs from it).  In [stray_esp] the argument address
    0x80100000 is far above the process size 4096, yet [argint] returns 0
    with the word read from kernel memory, and [sys_kill] goes on to mark
    pid 2 killed and runnable and returns 0 rather than -1. *)
Theorem argint_out_of_range_not_rejected :
  4096 <= 0x80100000 /\
  sz (proc_at 0 (kern stray_esp)) = 4096 /\
  (exists s', argint 0 0 stray_esp = Ret (0, 2) s' /\ reads s' = [0x80100000]) /\
  (exists s', sys_kill 0 stray_esp = Ret 0 s' /\
              reads s' = [0x80100000] /\
              killed (proc_at 1 (kern s')) = 1 /\
              state (proc_at 1 (kern s')) = RUNNABLE /\
              killed (proc_at 1 (kern stray_esp)) = 0 /\
              state (proc_at 1 (kern stray_esp)) = SLEEPING).
Proof.
  split; [lia|]. split; [reflexivity|]. split.
  - eexists. split; [vm_compute; reflexivity | reflexivity].
  - eexists. split; [vm_compute; reflexivity | repeat split].
Qed.


(** The scan of [fetchstr] up to the first zero byte, at [z]. *)
Lemma fetchstr_scan_spec load8 pp ep z :
  load8 z = Some 0 -> z < ep ->
  forall todo s st,
    pp <= s <= z -> z - s < Z.of_nat todo ->
    (forall a, s <= a < z -> exists b, load8 a = Some b /\ b <> 0) ->
    fetchstr_scan load8 todo pp s ep st
    = Ret (z - pp)
          (mkSys (kern st) (load32 st)
                 (reads st ++ map (fun k => s + Z.of_nat k) (seq 0 (Z.to_nat (z - s + 1))))).
Proof.
  intros Hz Hep. induction todo as [|t IH]; intros s st Hs Ht Hnz; [lia|].
  cbn [fetchstr_scan]. rewrite (proj2 (Z.ltb_lt s ep)) by lia.
  unfold bind at 1, deref8.
  destruct (Z.eq_dec s z) as [->|Hne].
  - rewrite Hz. cbn [Z.eqb]. unfold ret.
    replace (z - z + 1) with 1 by lia. simpl. rewrite Z.add_0_r. reflexivity.
  - destruct (Hnz s ltac:(lia)) as (b & Hb & Hb0). rewrite Hb.
    rewrite (proj2 (Z.eqb_neq _ _) Hb0).
    rewrite (IH (s + 1)); [|lia|lia|intros a Ha; apply Hnz; lia].
    f_equal. cbn [kern load32 reads]. f_equal.
    rewrite <- app_assoc. f_equal.
    replace (Z.to_nat (z - s + 1)) with (S (Z.to_nat (z - (s + 1) + 1))) by lia.
    cbn [seq map]. rewrite Z.add_0_r. f_equal.
    rewrite <- seq_shift, map_map. apply map_ext. intros k. lia.
Qed.

Lemma fetchstr_scan_none load8 pp ep :
  forall todo s st,
    s <= ep -> ep - s <= Z.of_nat todo ->
    (forall a, s <= a < ep -> exists b, load8 a = Some b /\ b <> 0) ->
    fetchstr_scan load8 todo pp s ep st
    = Ret (-1)
          (mkSys (kern st) (load32 st)
                 (reads st ++ map (fun k => s + Z.of_nat k) (seq 0 (Z.to_nat (ep - s))))).
Proof.
  induction todo as [|t IH]; intros s st Hs Ht Hnz.
  - assert (ep = s) as -> by lia. rewrite Z.sub_diag. simpl.
    rewrite app_nil_r. now destruct st.
  - cbn [fetchstr_scan]. destruct (Z.ltb_spec s ep) as [Hlt|Hge].
    + unfold bind at 1, deref8.
      destruct (Hnz s ltac:(lia)) as (b & Hb & Hb0). rewrite Hb.
      rewrite (proj2 (Z.eqb_neq _ _) Hb0).
      rewrite (IH (s + 1)); [|lia|lia|intros a Ha; apply Hnz; lia].
      f_equal. cbn [kern load32 reads]. f_equal.
      rewrite <- app_assoc. f_equal.
      replace (Z.to_nat (ep - s)) with (S (Z.to_nat (ep - (s + 1)))) by lia.
      cbn [seq map]. rewrite Z.add_0_r. f_equal.
      rewrite <- seq_shift, map_map. apply map_ext. intros k. lia.
    + assert (ep = s) as -> by lia. rewrite Z.sub_diag. simpl.
      rewrite app_nil_r. now destruct st.
Qed.

(** X23.  [fetchstr] stays below the size of the process.  For the
    process [p] of the CPU, of size [sz]: an address at or above [sz] is
    refused with -1 before any byte is read; for an address below it,
    when the first zero byte from the address on is at [z < sz] the value
    returned is the length [z - addr], [*pp] is the address, and the bytes
    read are those from [addr] to [z]; when there is no zero byte below
    [sz] it returns -1 after reading the bytes from [addr] up to, not
    including, [sz].  No address at or above [sz] is ever read. *)
Theorem fetchstr_stays_below_size load8 c addr s p :
  inv (mach (kern s)) -> (c < length (cpus (mach (kern s))))%nat ->
  nth c (cpu_proc (kern s)) None = Some p ->
  (sz (proc_at p (kern s)) <= addr ->
   exists s', fetchstr load8 c addr s = Ret (-1, None) s' /\ reads s' = reads s) /\
  (forall z,
     addr <= z < sz (proc_at p (kern s)) -> load8 z = Some 0 ->
     (forall a, addr <= a < z -> exists b, load8 a = Some b /\ b <> 0) ->
     exists s',
       fetchstr load8 c addr s = Ret (z - addr, Some addr) s' /\
       reads s' = reads s ++ map (fun k => addr + Z.of_nat k)
                                 (seq 0 (Z.to_nat (z - addr + 1)))) /\
  (addr < sz (proc_at p (kern s)) ->
   (forall a, addr <= a < sz (proc_at p (kern s)) ->
      exists b, load8 a = Some b /\ b <> 0) ->
   exists s',
     fetchstr load8 c addr s = Ret (-1, Some addr) s' /\
     reads s' = reads s ++ map (fun k => addr + Z.of_nat k)
                               (seq 0 (Z.to_nat (sz (proc_at p (kern s)) - addr))) /\
     forall a, In a (reads s') -> In a (reads s) \/ addr <= a < sz (proc_at p (kern s))).
Proof.
  intros Hinv Hc Hcur.
  destruct (myproc_ret c (kern s) Hinv Hc) as (m' & Hm & _).
  rewrite Hcur in Hm.
  assert (Hmp : liftK (myproc c) s = Ret (Some p) (mkSys (set_mach m' (kern s)) (load32 s) (reads s))).
  { unfold liftK. rewrite Hm. reflexivity. }
  set (psz := sz (proc_at p (kern s))) in *.
  split; [|split].
  - intros Hge. eexists. split.
    + unfold fetchstr. rewrite (bind_ret _ _ _ _ _ Hmp).
      unfold bind at 1, gets. cbn [kern].
      change (sz (proc_at p (set_mach m' (kern s)))) with psz.
      rewrite (proj2 (Z.leb_le psz addr) Hge). reflexivity.
    + reflexivity.
  - intros z Hz Hz0 Hnz. eexists. split.
    + unfold fetchstr. rewrite (bind_ret _ _ _ _ _ Hmp).
      unfold bind at 1, gets. cbn [kern].
      change (sz (proc_at p (set_mach m' (kern s)))) with psz.
      rewrite (proj2 (Z.leb_gt psz addr)) by lia.
      unfold bind at 1.
      rewrite (fetchstr_scan_spec load8 addr psz z Hz0 ltac:(lia)
                 (Z.to_nat (psz - addr)) addr); [reflexivity|lia|lia|exact Hnz].
    + reflexivity.
  - intros Hlt Hnz. eexists. split; [|split].
    + unfold fetchstr. rewrite (bind_ret _ _ _ _ _ Hmp).
      unfold bind at 1, gets. cbn [kern].
      change (sz (proc_at p (set_mach m' (kern s)))) with psz.
      rewrite (proj2 (Z.leb_gt psz addr)) by lia.
      unfold bind at 1.
      rewrite (fetchstr_scan_none load8 addr psz (Z.to_nat (psz - addr)) addr);
        [reflexivity|lia|lia|exact Hnz].
    + reflexivity.
    + cbn [reads]. intros a Ha. apply in_app_or in Ha as [Ha|Ha]; [now left|right].
      apply in_map_iff in Ha as (k & <- & Hk). apply in_seq in Hk. lia.
Qed.

Lemma fetchstr_stays_below_size_witness :
  exists s',
    fetchstr (fun a => if a =? 102 then Some 0 else Some 97) 0 100 stray_esp
    = Ret (2, Some 100) s' /\
    reads s' = [100; 101; 102].
Proof.
  destruct (fetchstr_stays_below_size
              (fun a => if a =? 102 then Some 0 else Some 97) 0%nat 100 stray_esp 0%nat)
    as (_ & H & _).
  - exact two_cpus_inv.
  - simpl. lia.
  - reflexivity.
  - destruct (H 102) as (s' & Hrun & Hr).
    + simpl. lia.
    + reflexivity.
    + intros a Ha. exists 97. rewrite (proj2 (Z.eqb_neq a 102)) by lia.
      split; [reflexivity|discriminate].
    + exists s'. split; [exact Hrun|]. rewrite Hr. reflexivity.
Defined.

End SyscallSpec.

Module LogSpec.
Import Spinlock SpinlockSpec Proc ProcSpec Log.

Lemma to_uint_to_int e bno :
  - 2 ^ 31 <= e < 2 ^ 31 -> 0 <= bno < 2 ^ 32 ->
  (to_uint e = bno <-> e = to_int bno).
Proof.
  intros He Hb. unfold to_uint, to_int.
  rewrite (Z.mod_small bno) by lia.
  destruct (Z.ltb_spec bno (2 ^ 31)); split; intros E.
  - destruct (Z_lt_le_dec e 0).
    + rewrite <- (Z.mod_add e 1), Z.mod_small in E by lia. lia.
    + rewrite Z.mod_small in E by lia. lia.
  - subst e. apply Z.mod_small. lia.
  - destruct (Z_lt_le_dec e 0).
    + rewrite <- (Z.mod_add e 1), Z.mod_small in E by lia. lia.
    + rewrite Z.mod_small in E by lia. lia.
  - subst e. rewrite <- (Z.mod_add _ 1), Z.mod_small by lia. lia.
Qed.

Lemma to_int_range bno : - 2 ^ 31 <= to_int bno < 2 ^ 31.
Proof.
  unfold to_int. pose proof (Z.mod_pos_bound bno (2 ^ 32) ltac:(lia)).
  destruct (Z.ltb_spec (bno mod 2 ^ 32) (2 ^ 31)); lia.
Qed.

(** The loop stops at the first slot from [i] on that names [bno], or
    after [todo] slots. *)
Lemma absorb_scan_spec blk bno todo i :
  0 <= i ->
  let r := absorb_scan blk bno i todo in
  i <= r <= i + Z.of_nat todo /\
  (forall j, i <= j < r -> to_uint (nth (Z.to_nat j) blk 0) <> bno) /\
  (r < i + Z.of_nat todo -> to_uint (nth (Z.to_nat r) blk 0) = bno).
Proof.
  revert i. induction todo as [|t IH]; intros i Hi; cbn [absorb_scan].
  - split; [lia|]. split; intros; lia.
  - destruct (Z.eqb_spec (to_uint (nth (Z.to_nat i) blk 0)) bno) as [E|E].
    + split; [lia|]. split; [intros; lia | auto].
    + destruct (IH (i + 1) ltac:(lia)) as (Hr & Hno & Hyes).
      split; [lia|]. split.
      * intros j Hj. destruct (Z.eq_dec j i) as [->|]; auto. apply Hno. lia.
      * intros Hlt. apply Hyes. lia.
Qed.

Lemma entries_nth h j :
  0 <= j < n h -> (Z.to_nat (n h) <= length (block h))%nat ->
  In (nth (Z.to_nat j) (block h) 0) (entries h).
Proof.
  intros Hj Hlen. unfold entries.
  replace (nth (Z.to_nat j) (block h) 0)
    with (nth (Z.to_nat j) (take (Z.to_nat (n h)) (block h)) 0).
  - apply nth_In. rewrite length_take. lia.
  - rewrite nth_firstn. destruct (Nat.ltb_spec (Z.to_nat j) (Z.to_nat (n h))); auto. lia.
Qed.

Lemma entries_In h e :
  In e (entries h) -> exists j, 0 <= j < n h /\ nth (Z.to_nat j) (block h) 0 = e.
Proof.
  unfold entries. intros H. apply (In_nth _ _ 0) in H as (i & Hi & <-).
  rewrite length_take in Hi. exists (Z.of_nat i). split; [lia|].
  rewrite Nat2Z.id, nth_firstn.
  destruct (Nat.ltb_spec i (Z.to_nat (n h))); auto. lia.
Qed.

(** A block already in the header: nothing changes. *)
Lemma absorb_present h bno :
  header_ok h -> (exists e, In e (entries h) /\ to_uint e = bno) ->
  absorb h bno = h.
Proof.
  intros (Hn & Hlen & _) (e & He & Heq). unfold absorb.
  destruct (absorb_scan_spec (block h) bno (Z.to_nat (n h)) 0 ltac:(lia)) as (Hr & Hno & _).
  destruct (Z.eqb_spec (absorb_scan (block h) bno 0 (Z.to_nat (n h))) (n h)) as [E|E]; auto.
  exfalso. apply entries_In in He as (j & Hj & Hje).
  apply (Hno j); [lia | now rewrite Hje].
Qed.

(** A block not in the header yet is appended. *)
Lemma absorb_absent h bno :
  header_ok h -> n h < LOGSIZE ->
  (forall e, In e (entries h) -> to_uint e <> bno) ->
  absorb h bno = mkHeader (n h + 1) (<[Z.to_nat (n h) := to_int bno]> (block h)) /\
  entries (absorb h bno) = entries h ++ [to_int bno].
Proof.
  intros (Hn & Hlen & _) Hlt Hno. unfold absorb.
  destruct (absorb_scan_spec (block h) bno (Z.to_nat (n h)) 0 ltac:(lia)) as (Hr & _ & Hyes).
  destruct (Z.eqb_spec (absorb_scan (block h) bno 0 (Z.to_nat (n h))) (n h)) as [E|E].
  - rewrite E. split; [reflexivity|]. unfold entries; simpl.
    replace (Z.to_nat (n h + 1)) with (S (Z.to_nat (n h))) by lia.
    assert (Hl : (Z.to_nat (n h) < length (block h))%nat) by lia.
    rewrite (take_S_r _ _ (to_int bno)) by (now apply list_lookup_insert_eq).
    now rewrite take_insert_ge by lia.
  - exfalso. apply (Hno (nth (Z.to_nat (absorb_scan (block h) bno 0 (Z.to_nat (n h)))) (block h) 0)).
    + apply entries_nth; lia.
    + apply Hyes. lia.
Qed.


Lemma present_dec h bno :
  {exists e, In e (entries h) /\ to_uint e = bno} +
  {forall e, In e (entries h) -> to_uint e <> bno}.
Proof.
  induction (entries h) as [|x l IH].
  - right. intros e [].
  - destruct (Z.eq_dec (to_uint x) bno) as [E|E].
    + left. exists x. simpl; auto.
    + destruct IH as [IH|Hno].
      * left. destruct IH as (e & He & Heq). exists e. simpl; auto.
      * right. intros e [<-|He]; auto.
Qed.

Lemma count_zero (l : list Z) bno :
  (forall e, In e l -> to_uint e <> bno) ->
  length (filter (fun e => to_uint e = bno) l) = 0%nat.
Proof.
  induction l as [|x l IH]; intros Hno; auto.
  rewrite filter_cons. destruct (decide (to_uint x = bno)) as [E|E].
  - exfalso. apply (Hno x); simpl; auto.
  - apply IH. intros; apply Hno; simpl; auto.
Qed.

Lemma count_one (l : list Z) bno :
  NoDup l -> 0 <= bno < 2 ^ 32 ->
  (forall e, In e l -> - 2 ^ 31 <= e < 2 ^ 31) ->
  In (to_int bno) l ->
  length (filter (fun e => to_uint e = bno) l) = 1%nat.
Proof.
  intros Hnd Hb. induction Hnd as [|x l Hx Hnd IH]; intros Hr Hin; [destruct Hin|].
  rewrite filter_cons. destruct (decide (to_uint x = bno)) as [E|E].
  - apply to_uint_to_int in E; [|apply Hr; simpl; auto|auto]. subst x.
    simpl. f_equal. apply count_zero. intros e He Heq.
    apply to_uint_to_int in Heq; [|apply Hr; simpl; auto|auto]. subst e.
    apply Hx. now apply list_elem_of_In.
  - destruct Hin as [->|Hin].
    + exfalso. apply E. apply to_uint_to_int; auto. apply to_int_range.
    + apply IH; auto. intros; apply Hr; simpl; auto.
Qed.

Lemma count_other (l : list Z) x bno :
  to_uint x <> bno ->
  length (filter (fun e => to_uint e = bno) (l ++ [x])) =
  length (filter (fun e => to_uint e = bno) l).
Proof.
  intros H. rewrite filter_app, length_app, filter_cons.
  destruct (decide _); [contradiction|]. simpl. lia.
Qed.

(** The header after one [log_write] of block [bno]. *)
Lemma absorb_ok h bno :
  header_ok h -> n h < LOGSIZE -> 0 <= bno < 2 ^ 32 ->
  header_ok (absorb h bno) /\
  count_block bno (absorb h bno) = 1%nat /\
  n (absorb h bno) = (if decide (count_block bno h = 0%nat) then n h + 1 else n h) /\
  (forall b', 0 <= b' < 2 ^ 32 -> b' <> bno ->
              count_block b' (absorb h bno) = count_block b' h) /\
  absorb (absorb h bno) bno = absorb h bno.
Proof.
  intros Hok Hlt Hb. pose proof Hok as (Hn & Hlen & Hr & Hnd).
  destruct (present_dec h bno) as [Hp|Ha].
  - pose proof (absorb_present h bno Hok Hp) as E. rewrite !E.
    destruct Hp as (e & He & Heq).
    assert (Hc : count_block bno h = 1%nat).
    { unfold count_block. apply count_one; auto.
      apply to_uint_to_int in Heq; auto. now subst e. }
    rewrite Hc. destruct (decide (1%nat = 0%nat)); [discriminate|]. auto.
  - destruct (absorb_absent h bno Hok Hlt Ha) as [E Ee].
    assert (Hok' : header_ok (absorb h bno)).
    { unfold header_ok. rewrite Ee. rewrite E. simpl.
      split; [lia|]. split; [now rewrite length_insert|]. split.
      - intros e He. apply in_app_or in He as [He|[<-|[]]]; auto. apply to_int_range.
      - apply NoDup_app. split; [auto|]. split; [|apply NoDup_singleton].
        intros x Hx Hx'. apply list_elem_of_singleton in Hx'. subst x.
        apply list_elem_of_In in Hx. apply (Ha _ Hx).
        apply to_uint_to_int; auto using to_int_range. }
    assert (Hin : In (to_int bno) (entries (absorb h bno))).
    { rewrite Ee. apply in_or_app; right; simpl; auto. }
    split; [auto|]. split; [|split; [|split]].
    + unfold count_block. destruct Hok' as (_ & _ & Hr' & Hnd'). apply count_one; auto.
    + unfold count_block. rewrite (count_zero (entries h) bno Ha).
      destruct (decide (0%nat = 0%nat)); [|congruence]. rewrite E. reflexivity.
    + intros b' Hb' Hne. unfold count_block. rewrite Ee. apply count_other.
      intros Heq. apply Hne. rewrite <- Heq.
      apply to_uint_to_int; auto using to_int_range.
    + apply absorb_present; auto. exists (to_int bno). split; auto.
      apply to_uint_to_int; auto. apply to_int_range.
Qed.


Lemma liftK_ret {A} (m : Proc.M A) s a k :
  m (kern s) = Ret a k -> liftK m s = Ret a (mkL k (lg s) (bufs s)).
Proof. intros H. unfold liftK. now rewrite H. Qed.

Lemma log_write_ret c b s :
  lock_ready c log_lock (mach (kern s)) ->
  n (lh (lg s)) < LOGSIZE -> n (lh (lg s)) < size (lg s) - 1 ->
  1 <= outstanding (lg s) ->
  exists m2,
    lock_ready c log_lock m2 /\
    log_write c b s =
      Ret tt (mkL (set_mach m2 (kern s))
                  (set_lh (absorb (lh (lg s)) (blockno (buf_at b s))) (lg s))
                  (<[b := mkBuf (Z.lor (flags (buf_at b s)) B_DIRTY)
                                (blockno (buf_at b s))]> (bufs s))).
Proof.
  intros Hready Hn Hsz Ho.
  destruct (acquire_ready log_lock c _ Hready) as (m1 & Hacq & Hinv1 & Hc1 & Hl1 & Hheld & _).
  destruct (release_ready log_lock c m1 Hinv1 Hc1 Hheld) as (m2 & Hrel & Hready2 & _).
  exists m2. split; auto. unfold log_write.
  replace (LOGSIZE <=? n (lh (lg s))) with false by (symmetry; apply Z.leb_gt; lia).
  replace (size (lg s) - 1 <=? n (lh (lg s))) with false by (symmetry; apply Z.leb_gt; lia).
  replace (outstanding (lg s) <? 1) with false by (symmetry; apply Z.ltb_ge; lia).
  simpl orb. cbv iota.
  erewrite bind_ret by (apply liftK_ret, lift_ret; exact Hacq).
  erewrite bind_ret by reflexivity.
  erewrite bind_ret by reflexivity.
  erewrite liftK_ret by (apply lift_ret; simpl; exact Hrel).
  reflexivity.
Qed.

(** C7.  In an open transaction whose staged header is well formed,
    [log_write] of a buffer returns with the header well formed again and
    holding exactly one entry for the buffer's block number; the count [n]
    grows by one exactly when the block number was not in the header
    before, and the entries of other blocks are as many as before.  A
    second [log_write] of the same buffer, whenever it returns, leaves the
    header as the first one left it, and it returns whenever the header is
    not full. *)
Theorem log_write_absorbs c b s :
  lock_ready c log_lock (mach (kern s)) ->
  header_ok (lh (lg s)) ->
  (b < length (bufs s))%nat ->
  0 <= blockno (buf_at b s) < 2 ^ 32 ->
  n (lh (lg s)) < LOGSIZE -> n (lh (lg s)) < size (lg s) - 1 ->
  1 <= outstanding (lg s) ->
  exists s1,
    log_write c b s = Ret tt s1 /\
    header_ok (lh (lg s1)) /\
    count_block (blockno (buf_at b s)) (lh (lg s1)) = 1%nat /\
    n (lh (lg s1)) =
      (if decide (count_block (blockno (buf_at b s)) (lh (lg s)) = 0%nat)
       then n (lh (lg s)) + 1 else n (lh (lg s))) /\
    (forall b', 0 <= b' < 2 ^ 32 -> b' <> blockno (buf_at b s) ->
       count_block b' (lh (lg s1)) = count_block b' (lh (lg s))) /\
    Z.land (flags (buf_at b s1)) B_DIRTY = B_DIRTY /\
    (forall s2, log_write c b s1 = Ret tt s2 -> lh (lg s2) = lh (lg s1)) /\
    (n (lh (lg s1)) < LOGSIZE -> n (lh (lg s1)) < size (lg s1) - 1 ->
     exists s2, log_write c b s1 = Ret tt s2 /\ lh (lg s2) = lh (lg s1)).
Proof.
  intros Hready Hok Hb Hbno Hn Hsz Ho.
  destruct (log_write_ret c b s Hready Hn Hsz Ho) as (m2 & Hready2 & Hw).
  destruct (absorb_ok _ _ Hok Hn Hbno) as (Hok1 & Hc1 & Hn1 & Hoth & Hidem).
  eexists. split; [exact Hw|]. cbn [lg lh set_lh].
  split; [auto|]. split; [auto|]. split; [auto|]. split; [auto|].
  set (s1 := mkL _ _ _).
  assert (Hbuf : buf_at b s1 = mkBuf (Z.lor (flags (buf_at b s)) B_DIRTY) (blockno (buf_at b s))).
  { unfold buf_at, s1; simpl. apply nth_lookup_Some with (d := dflt_buf).
    now apply list_lookup_insert_eq. }
  split.
  { rewrite Hbuf. simpl. rewrite Z.land_lor_distr_l, Z.land_diag.
    apply Z.bits_inj'; intros i Hi. rewrite Z.lor_spec, Z.land_spec.
    destruct (Z.testbit B_DIRTY i); simpl; auto using andb_false_r, orb_true_r.
    now rewrite andb_false_r. }
  assert (Hsecond : forall s2, log_write c b s1 = Ret tt s2 ->
            n (lh (lg s1)) < LOGSIZE /\ n (lh (lg s1)) < size (lg s1) - 1).
  { intros s2 H2. unfold log_write in H2.
    destruct (Z.leb_spec LOGSIZE (n (lh (lg s1)))); [discriminate|].
    destruct (Z.leb_spec (size (lg s1) - 1) (n (lh (lg s1)))); [discriminate|]. lia. }
  assert (Hex : n (lh (lg s1)) < LOGSIZE -> n (lh (lg s1)) < size (lg s1) - 1 ->
            exists s2, log_write c b s1 = Ret tt s2 /\ lh (lg s2) = lh (lg s1)).
  { intros Hn' Hsz'.
    destruct (log_write_ret c b s1 Hready2 Hn' Hsz' Ho) as (m3 & _ & Hw3).
    eexists. split; [exact Hw3|]. cbn [lg lh set_lh]. rewrite Hbuf. simpl.
    unfold s1; simpl. exact Hidem. }
  split; [|exact Hex].
  intros s2 H2. destruct (Hsecond s2 H2) as [Hn' Hsz'].
  destruct (Hex Hn' Hsz') as (s2' & H2' & Heq). rewrite H2 in H2'. injection H2' as <-. exact Heq.
Qed.


Lemma open_transaction_ready : lock_ready 0 log_lock (mach (kern open_transaction)).
Proof.
  unfold lock_ready. split; [|simpl; unfold log_lock; repeat split; lia].
  intros c Hc. simpl in Hc. unfold cpu_inv.
  destruct c as [|[|c]]; simpl in *; try lia;
    (split; [lia|]); (split; [vm_compute; discriminate | intros H; vm_compute in H; discriminate]).
Defined.

Lemma open_transaction_header : header_ok (lh (lg open_transaction)).
Proof.
  unfold header_ok, entries. simpl. unfold LOGSIZE, MAXOPBLOCKS.
  split; [lia|]. split; [reflexivity|]. split; [intros e []|constructor].
Defined.

Lemma log_write_absorbs_witness :
  exists s1 s2,
    log_write 0 0 open_transaction = Ret tt s1 /\
    log_write 0 0 s1 = Ret tt s2 /\
    n (lh (lg s1)) = 1 /\ n (lh (lg s2)) = 1 /\
    count_block 33 (lh (lg s2)) = 1%nat.
Proof.
  destruct (log_write_absorbs 0%nat 0%nat open_transaction)
    as (s1 & H1 & Hok1 & Hc1 & Hn1 & _ & _ & Hsame & Hex).
  - exact open_transaction_ready.
  - exact open_transaction_header.
  - simpl; lia.
  - simpl. lia.
  - simpl. unfold LOGSIZE, MAXOPBLOCKS. lia.
  - simpl. lia.
  - simpl. lia.
  - assert (E1 : n (lh (lg s1)) = 1) by (rewrite Hn1; reflexivity).
    assert (Esz : size (lg s1) = 30).
    { unfold log_write in H1. simpl in H1. unfold bind, liftK, lift in H1. simpl in H1.
      inversion H1. reflexivity. }
    destruct Hex as (s2 & H2 & Heq);
      [rewrite E1; reflexivity | rewrite E1, Esz; reflexivity |].
    exists s1, s2. rewrite Heq. auto.
Defined.


(** [wakeup] under another held lock. *)
Lemma wakeup_ret c ch k :
  lock_ready c ptable_lock (mach k) ->
  exists m',
    wakeup c ch k = Ret tt (set_mach m' (set_procs (map (wakeup1_proc ch) (procs k)) k)) /\
    lock_ready c ptable_lock m' /\
    (forall l, l <> ptable_lock -> lock_at l m' = lock_at l (mach k)) /\
    length (locks m') = length (locks (mach k)).
Proof.
  intros Hr.
  destruct (acquire_ready _ _ _ Hr) as (m1 & Ha & Hi & Hc & Hl & Hh & Ho1 & Hn1 & _).
  destruct (release_ready ptable_lock c m1 Hi Hc Hh) as (m2 & Hrel & Hready & Ho2 & Hn2 & _).
  exists m2. split; [|split; [exact Hready|split]].
  - unfold wakeup. rewrite (bind_ret _ _ _ _ _ (lift_ret _ _ _ _ Ha)).
    unfold wakeup1, bind at 1, modify. unfold lift. simpl. rewrite Hrel. reflexivity.
  - intros l Hne. rewrite Ho2, Ho1 by exact Hne. reflexivity.
  - congruence.
Qed.

(** X17.  [end_op] commits only for the last operation of a
    transaction.  With the locks of the log and of the process table
    free: if a commit is going on it panics; if other operations are
    still outstanding it only counts itself out and wakes the processes
    that sleep on the log, without calling [commit]; if it is the last
    one it sets [committing], lets go of the lock, and calls [commit] in
    that state (no operation outstanding, [committing] set, the staged
    header untouched); what follows the commit clears [committing] and
    wakes the sleepers. *)
Theorem end_op_commits_only_when_last commit c s :
  lock_ready c log_lock (mach (kern s)) ->
  lock_ready c ptable_lock (mach (kern s)) ->
  (committing (lg s) <> 0 -> end_op commit c s = Panic "log.committing") /\
  (committing (lg s) = 0 -> outstanding (lg s) <> 1 ->
     exists m',
       end_op commit c s
       = Ret tt (mkL (set_mach m' (set_procs (map (wakeup1_proc ChanLog)
                                                  (procs (kern s))) (kern s)))
                     (set_outstanding (outstanding (lg s) - 1) (lg s))
                     (bufs s)) /\
       lock_ready c log_lock m') /\
  (committing (lg s) = 0 -> outstanding (lg s) = 1 ->
     exists m',
       end_op commit c s
       = (commit ;; after_commit c)
           (mkL (set_mach m' (kern s))
                (set_committing 1 (set_outstanding 0 (lg s)))
                (bufs s)) /\
       lock_ready c log_lock m' /\ lock_ready c ptable_lock m').
Proof.
  intros Hr Hp.
  destruct (acquire_ready _ _ _ Hr) as (m1 & Ha & Hi1 & Hc1 & Hl1 & Hh1 & Ho1 & Hlen1 & _).
  split; [|split].
  - intros Hcm. unfold end_op, bind at 1, gets.
    rewrite (proj2 (Z.eqb_neq _ _) Hcm). reflexivity.
  - intros Hcm Hout.
    assert (Hp1 : lock_ready c ptable_lock m1).
    { destruct Hp as (_ & _ & Hpl & Hpf). split; [exact Hi1|]. split; [exact Hc1|].
      split; [rewrite Hlen1; exact Hpl|]. rewrite Ho1 by discriminate. exact Hpf. }
    destruct (wakeup_ret c ChanLog (set_mach m1 (kern s)) Hp1)
      as (m2 & Hw & (Hi2 & Hc2 & _ & _) & Ho2 & Hlen2).
    assert (Hh2 : held_by c (lock_at log_lock m2) = true).
    { rewrite Ho2 by discriminate. exact Hh1. }
    destruct (release_ready log_lock c m2 Hi2 Hc2 Hh2) as (m3 & Hrel & Hready & _).
    exists m3. split; [|exact Hready].
    unfold end_op, bind at 1, gets. rewrite Hcm. cbn [Z.eqb negb].
    rewrite (bind_ret _ _ _ _ _ (liftK_ret _ _ _ _ (lift_ret _ _ _ _ Ha))).
    unfold bind at 1, modify. unfold bind at 1. cbn [lg set_lg outstanding set_outstanding].
    rewrite (proj2 (Z.eqb_neq (outstanding (lg s) - 1) 0)) by lia.
    unfold bind at 1. erewrite liftK_ret by exact Hw.
    unfold bind at 1. erewrite liftK_ret by (apply lift_ret; exact Hrel).
    unfold bind at 1. simpl. rewrite Hcm. reflexivity.
  - intros Hcm Hout.
    destruct (release_ready log_lock c m1 Hi1 Hc1 Hh1)
      as (m2 & Hrel & Hready & Ho2 & Hlen2 & _).
    exists m2. split; [|split; [exact Hready|]].
    + unfold end_op, bind at 1, gets. rewrite Hcm. cbn [Z.eqb negb].
      rewrite (bind_ret _ _ _ _ _ (liftK_ret _ _ _ _ (lift_ret _ _ _ _ Ha))).
      unfold bind at 1, modify. unfold bind at 1. cbn [lg set_lg outstanding set_outstanding].
      rewrite Hout. change (1 - 1) with 0. cbn [Z.eqb].
      unfold bind at 1. unfold bind at 1.
      erewrite liftK_ret by (apply lift_ret; exact Hrel).
      unfold bind at 1. reflexivity.
    + destruct Hready as (Hi2 & Hc2 & Hl2 & _).
      destruct Hp as (_ & _ & Hpl & Hpf). split; [exact Hi2|]. split; [exact Hc2|].
      split; [rewrite Hlen2, Hlen1; exact Hpl|].
      rewrite Ho2, Ho1 by discriminate. exact Hpf.
Qed.

Lemma open_transaction_ptable : lock_ready 0 ptable_lock (mach (kern open_transaction)).
Proof.
  destruct open_transaction_ready as (Hi & Hc & _ & _).
  split; [exact Hi|]. split; [exact Hc|]. split; [simpl; unfold ptable_lock; lia|reflexivity].
Defined.

Lemma end_op_commits_only_when_last_witness :
  exists m',
    end_op (modify (fun s => set_lg (set_lh (mkHeader 0 (block (lh (lg s)))) (lg s)) s))
           0 open_transaction
    = (modify (fun s => set_lg (set_lh (mkHeader 0 (block (lh (lg s)))) (lg s)) s) ;;
       after_commit 0)
        (mkL (set_mach m' (kern open_transaction))
             (set_committing 1 (set_outstanding 0 (lg open_transaction)))
             (bufs open_transaction)).
Proof.
  destruct (end_op_commits_only_when_last
              (modify (fun s => set_lg (set_lh (mkHeader 0 (block (lh (lg s)))) (lg s)) s))
              0%nat open_transaction open_transaction_ready open_transaction_ptable)
    as (_ & _ & H).
  destruct (H eq_refl eq_refl) as (m' & Hrun & _).
  exists m'. exact Hrun.
Defined.

(** The lock machine after [acquire] of a free lock at depth 0. *)
Lemma acquire_first c l m :
  lock_ready c l m -> ncli (mycpu c m) = 0 ->
  exists m1,
    acquire l c m = Ret tt m1 /\ inv m1 /\ (c < length (cpus m1))%nat /\
    held_by c (lock_at l m1) = true /\ ncli (mycpu c m1) = 1 /\
    (forall l', l' <> l -> lock_at l' m1 = lock_at l' m) /\
    length (locks m1) = length (locks m).
Proof.
  intros Hr Hn.
  destruct (acquire_ready _ _ _ Hr) as (m1 & Ha & Hi & Hc & Hl & Hh & Ho & Hlen & _).
  exists m1. repeat (split; [assumption|]). split; [|split; assumption].
  destruct Hr as (Hinv & Hc0 & Hl0 & Hfree).
  rewrite acquire_eq in Ha by (auto; lia). cbv zeta in Ha.
  destruct (held_by c (lock_at l m)); [discriminate|].
  destruct (negb _); [discriminate|]. inversion Ha.
  rewrite mycpu_set_lock, mycpu_set_eq by exact Hc0. simpl. lia.
Qed.

(** X16.  The admission rule of [begin_op].  With the log's lock free:
    when no commit is going on and the staged header plus the worst case
    of the operations already admitted and of this one
    ([MAXOPBLOCKS] blocks each) fits in the log, [begin_op] counts the
    operation in and returns with the lock free and nothing else changed;
    otherwise the process goes to sleep on the log, with the log's lock
    released for the time of the sleep and the log untouched. *)
Theorem begin_op_admits_or_sleeps env c s :
  lock_ready c log_lock (mach (kern s)) ->
  (committing (lg s) = 0 ->
   n (lh (lg s)) + (outstanding (lg s) + 1) * MAXOPBLOCKS <= LOGSIZE ->
   exists m',
     begin_op env c s
     = Ret env (mkL (set_mach m' (kern s))
                    (set_outstanding (outstanding (lg s) + 1) (lg s)) (bufs s)) /\
     lock_ready c log_lock m') /\
  (committing (lg s) <> 0 \/
   LOGSIZE < n (lh (lg s)) + (outstanding (lg s) + 1) * MAXOPBLOCKS ->
   forall p,
     nth c (cpu_proc (kern s)) None = Some p -> (p < length (procs (kern s)))%nat ->
     ncli (mycpu c (mach (kern s))) = 0 ->
     lock_ready c ptable_lock (mach (kern s)) ->
     exists s',
       begin_op [] c s = Asleep s' /\
       state (proc_at p (kern s')) = SLEEPING /\
       pchan (proc_at p (kern s')) = Some ChanLog /\
       locked (lock_at log_lock (mach (kern s'))) = 0 /\
       lg s' = lg s /\ bufs s' = bufs s).
Proof.
  intros Hr. split.
  - intros Hcm Hfit.
    destruct (acquire_ready _ _ _ Hr) as (m1 & Ha & Hi1 & Hc1 & Hl1 & Hh1 & _).
    destruct (release_ready log_lock c m1 Hi1 Hc1 Hh1) as (m2 & Hrel & Hready & _).
    exists m2. split; [|exact Hready].
    unfold begin_op.
    rewrite (bind_ret _ _ _ _ _ (liftK_ret _ _ _ _ (lift_ret _ _ _ _ Ha))).
    destruct env; simpl begin_op_loop; cbn [lg]; rewrite Hcm;
      rewrite (proj2 (Z.ltb_ge _ _) Hfit); cbn [Z.eqb negb orb];
      unfold bind at 1, modify; unfold bind at 1;
      (erewrite liftK_ret by (apply lift_ret; exact Hrel)); reflexivity.
  - intros Hbusy p Hcur Hp Hn Hpt.
    destruct (acquire_first c log_lock _ Hr Hn)
      as (m1 & Ha & Hi1 & Hc1 & Hh1 & Hn1 & Ho1 & Hlen1).
    destruct Hpt as (_ & _ & Hpl & Hpf).
    assert (H1 : (ptable_lock < length (locks m1))%nat) by (rewrite Hlen1; exact Hpl).
    assert (H2 : locked (lock_at ptable_lock m1) = 0)
      by (rewrite Ho1 by discriminate; exact Hpf).
    destruct (sleep_steps c ChanLog log_lock (set_mach m1 (kern s)) p
                Hi1 Hc1 Hcur Hp ltac:(discriminate) Hh1 H1 H2 Hn1)
      as (m2 & Hsl & Hc2 & Hx2 & Hl2 & Hp2 & _).
    eexists. split.
    { unfold begin_op.
      rewrite (bind_ret _ _ _ _ _ (liftK_ret _ _ _ _ (lift_ret _ _ _ _ Ha))).
      simpl begin_op_loop. cbn [lg].
      replace (negb (committing (lg s) =? 0)
               || (LOGSIZE <? n (lh (lg s)) + (outstanding (lg s) + 1) * MAXOPBLOCKS))
        with true.
      2:{ symmetry. apply orb_true_iff. destruct Hbusy as [H|H].
          - left. now rewrite (proj2 (Z.eqb_neq _ _) H).
          - right. now apply Z.ltb_lt. }
      unfold bind at 1. erewrite liftK_ret by exact Hsl. reflexivity. }
    cbn [kern lg bufs].
    split; [rewrite proc_at_upd_eq by (simpl; now rewrite length_insert); reflexivity|].
    split.
    { rewrite proc_at_upd_eq by (simpl; now rewrite length_insert). cbn [pchan set_state].
      rewrite proc_at_upd_eq by exact Hp. reflexivity. }
    split; [|split; reflexivity].
    cbn [mach upd_proc set_procs set_mach]. rewrite Hl2. reflexivity.
Qed.

Lemma begin_op_admits_or_sleeps_witness :
  exists m',
    begin_op [] 0 open_transaction
    = Ret [] (mkL (set_mach m' (kern open_transaction))
                  (set_outstanding 2 (lg open_transaction)) (bufs open_transaction)).
Proof.
  destruct (begin_op_admits_or_sleeps [] 0%nat open_transaction open_transaction_ready)
    as [H _].
  destruct H as (m' & Hrun & _).
  - reflexivity.
  - simpl. unfold MAXOPBLOCKS, LOGSIZE, MAXOPBLOCKS. lia.
  - exists m'. exact Hrun.
Defined.

End LogSpec.

Module FsSpec.
Import Fs.

Lemma bind_ret_inv {S A B} (m : S -> outcome S A) (f : A -> S -> outcome S B) s b s' :
  bind m f s = Ret b s' -> exists a s1, m s = Ret a s1 /\ f a s1 = Ret b s'.
Proof. unfold bind. destruct (m s); try discriminate. eauto. Qed.

Lemma sb_put_bytes dv b o bs d : sb (put_bytes dv b o bs d) = sb d.
Proof. reflexivity. Qed.

Lemma le4_sum v :
  0 <= v < 2 ^ 32 ->
  v mod 256 + 256 * (v / 256 mod 256) + 65536 * (v / 65536 mod 256)
  + 16777216 * (v / 16777216 mod 256) = v.
Proof.
  intros Hv.
  assert (H1 : v / 65536 = v / 256 / 256) by (rewrite Z.div_div by lia; reflexivity).
  assert (H2 : v / 16777216 = v / 256 / 256 / 256) by (rewrite !Z.div_div by lia; reflexivity).
  rewrite H1, H2.
  pose proof (Z.div_mod v 256 ltac:(lia)).
  pose proof (Z.div_mod (v / 256) 256 ltac:(lia)).
  pose proof (Z.div_mod (v / 256 / 256) 256 ltac:(lia)).
  assert (v / 256 / 256 / 256 < 256).
  { apply Z.div_lt_upper_bound; try lia. apply Z.div_lt_upper_bound; try lia.
    apply Z.div_lt_upper_bound; lia. }
  assert (0 <= v / 256 / 256 / 256) by (repeat apply Z.div_pos; lia).
  rewrite (Z.mod_small (v / 256 / 256 / 256)) by lia. lia.
Qed.

Lemma get32_put32 dv b i v d :
  0 <= i -> 0 <= v < 2 ^ 32 -> get32 (put32 dv b i v d) dv b i = v.
Proof.
  intros Hi Hv. unfold get32, put32, get8, put_bytes; simpl.
  rewrite !Z.eqb_refl. simpl.
  repeat match goal with
  | |- context [(?a <=? ?b) && (?c <? ?e)] =>
      replace ((a <=? b) && (c <? e)) with true
        by (symmetry; apply andb_true_iff; split; [apply Z.leb_le|apply Z.ltb_lt]; lia)
  end.
  replace (4 * i - 4 * i) with 0 by lia.
  replace (4 * i + 1 - 4 * i) with 1 by lia.
  replace (4 * i + 2 - 4 * i) with 2 by lia.
  replace (4 * i + 3 - 4 * i) with 3 by lia.
  simpl. rewrite Z.div_1_r. apply (le4_sum v Hv).
Qed.






Lemma size_set_addr i v ip : size (set_addr i v ip) = size ip.
Proof. reflexivity. Qed.

Lemma dev_set_addr i v ip : dev (set_addr i v ip) = dev ip.
Proof. reflexivity. Qed.















Lemma land_bit y j :
  0 <= j -> (Z.land y (Z.shiftl 1 j) =? 0) = negb (Z.testbit y j).
Proof.
  intros Hj. rewrite Z.shiftl_1_l.
  destruct (Z.testbit y j) eqn:E; simpl.
  - apply Z.eqb_neq. intros H.
    assert (Z.testbit (Z.land y (2 ^ j)) j = true).
    { rewrite Z.land_spec, E, Z.pow2_bits_true by lia. reflexivity. }
    rewrite H, Z.bits_0 in H0. discriminate.
  - apply Z.eqb_eq. apply Z.bits_inj'. intros n Hn.
    rewrite Z.land_spec, Z.bits_0.
    destruct (Z.eq_dec n j) as [->|Hne].
    + now rewrite E.
    + rewrite Z.pow2_bits_false by lia. apply andb_false_r.
Qed.

Lemma lor_bit y i j :
  0 <= i -> 0 <= j ->
  Z.testbit (Z.lor y (Z.shiftl 1 i)) j = Z.testbit y j || (j =? i).
Proof.
  intros Hi Hj. rewrite Z.lor_spec, Z.shiftl_1_l. f_equal.
  destruct (Z.eqb_spec j i) as [->|Hne].
  - apply Z.pow2_bits_true. lia.
  - apply Z.pow2_bits_false. lia.
Qed.

Lemma clear_bit y i j :
  0 <= i -> 0 <= j < 8 ->
  Z.testbit (Z.land y (Z.lnot (Z.shiftl 1 i)) mod 256) j
  = Z.testbit y j && negb (j =? i).
Proof.
  intros Hi Hj. change 256 with (2 ^ 8).
  rewrite Z.mod_pow2_bits_low by lia.
  rewrite Z.land_spec, Z.lnot_spec, Z.shiftl_1_l by lia. f_equal. f_equal.
  destruct (Z.eqb_spec j i) as [->|Hne].
  - apply Z.pow2_bits_true. lia.
  - apply Z.pow2_bits_false. lia.
Qed.

Lemma BBLOCK_scan k sbk :
  0 <= k -> BBLOCK (k - k mod BPB) sbk = BBLOCK k sbk.
Proof.
  intros Hk. unfold BBLOCK. f_equal. unfold BPB, BSIZE.
  change (512 * 8) with 4096.
  pose proof (Z.div_mod k 4096 ltac:(lia)).
  replace (k - k mod 4096) with ((k / 4096) * 4096) by lia.
  now rewrite Z.div_mul by lia.
Qed.

Lemma bit_place k :
  0 <= k ->
  0 <= k mod BPB / 8 < 512 /\ 0 <= k mod BPB mod 8 < 8 /\
  k = BPB * (k / BPB) + 8 * (k mod BPB / 8) + k mod BPB mod 8.
Proof.
  intros Hk. unfold BPB, BSIZE. change (512 * 8) with 4096.
  pose proof (Z.div_mod k 4096 ltac:(lia)).
  pose proof (Z.mod_pos_bound k 4096 ltac:(lia)).
  pose proof (Z.div_mod (k mod 4096) 8 ltac:(lia)).
  pose proof (Z.mod_pos_bound (k mod 4096) 8 ltac:(lia)).
  split; [|split; lia].
  split; [apply Z.div_pos; lia|apply Z.div_lt_upper_bound; lia].
Qed.

(** Two block numbers with the same bitmap block, byte and bit are the
    same. *)
Lemma bit_place_inj sbk j k :
  0 <= j -> 0 <= k -> BBLOCK j sbk = BBLOCK k sbk ->
  j mod BPB / 8 = k mod BPB / 8 -> j mod BPB mod 8 = k mod BPB mod 8 -> j = k.
Proof.
  intros Hj Hk Hb Ho Hi. unfold BBLOCK in Hb.
  destruct (bit_place j Hj) as (_ & _ & Ej). destruct (bit_place k Hk) as (_ & _ & Ek).
  rewrite Ej, Ek. rewrite Ho, Hi. f_equal. f_equal. f_equal. lia.
Qed.

Lemma get8_put_one dv b o v d dv' b' o' :
  get8 (put_bytes dv b o [v] d) dv' b' o'
  = if (dv' =? dv) && (b' =? b) && (o' =? o) then v else get8 d dv' b' o'.
Proof.
  unfold get8, put_bytes. cbn [blocks length].
  destruct (Z.eqb_spec dv' dv); [|reflexivity].
  destruct (Z.eqb_spec b' b); [|reflexivity]. cbn [andb].
  destruct (Z.eqb_spec o' o) as [->|Hne].
  - rewrite Z.leb_refl, (proj2 (Z.ltb_lt _ _)) by lia. rewrite Z.sub_diag. reflexivity.
  - destruct (Z.leb_spec o o'); [|reflexivity].
    destruct (Z.ltb_spec o' (o + Z.of_nat 1)); [lia|reflexivity].
Qed.

Lemma get8_bzero dv k d dv' b' o' :
  get8 (put_bytes dv k 0 (repeat 0 (Z.to_nat BSIZE)) d) dv' b' o'
  = if (dv' =? dv) && (b' =? k) && (0 <=? o') && (o' <? 512) then 0
    else get8 d dv' b' o'.
Proof.
  unfold get8, put_bytes. cbn [blocks]. rewrite repeat_length.
  change (0 + Z.of_nat (Z.to_nat BSIZE)) with 512.
  destruct ((dv' =? dv) && (b' =? k) && (0 <=? o') && (o' <? 512)); [|reflexivity].
  rewrite Z.sub_0_r.
  destruct (nth_in_or_default (Z.to_nat o') (repeat 0 (Z.to_nat BSIZE)) 0) as [H|H];
    [|exact H].
  now apply repeat_spec in H.
Qed.

(** The disk after [balloc] has taken block [k]. *)
Lemma balloc_scan_first dv d k :
  bit_used d dv k = false ->
  forall todo k0,
    0 <= k0 <= k -> k < k0 + Z.of_nat todo ->
    (forall j, k0 <= j < k -> bit_used d dv j = true) ->
    balloc_scan dv k0 todo d
    = Ret k (put_bytes dv k 0 (repeat 0 (Z.to_nat BSIZE))
               (put_bytes dv (BBLOCK k (sb d)) (k mod BPB / 8)
                  [Z.lor (get8 d dv (BBLOCK k (sb d)) (k mod BPB / 8))
                         (Z.shiftl 1 (k mod BPB mod 8))] d)).
Proof.
  intros Hfree. induction todo as [|t IH]; intros k0 Hk0 Hlt Hused; [lia|].
  cbn [balloc_scan]. rewrite BBLOCK_scan by lia.
  destruct (bit_place k0 ltac:(lia)) as (_ & Hbit & _).
  rewrite land_bit by lia.
  destruct (Z.eq_dec k0 k) as [->|Hne].
  - unfold bit_used in Hfree. rewrite Hfree. reflexivity.
  - pose proof (Hused k0 ltac:(lia)) as Hu. unfold bit_used in Hu. rewrite Hu.
    cbn [negb]. apply IH; [lia|lia|]. intros j Hj. apply Hused. lia.
Qed.

Lemma balloc_scan_full dv d :
  forall todo k0,
    0 <= k0 ->
    (forall j, k0 <= j < k0 + Z.of_nat todo -> bit_used d dv j = true) ->
    balloc_scan dv k0 todo d = Panic "balloc: out of blocks".
Proof.
  induction todo as [|t IH]; intros k0 Hk0 Hused; [reflexivity|].
  cbn [balloc_scan]. rewrite BBLOCK_scan by lia.
  destruct (bit_place k0 ltac:(lia)) as (_ & Hbit & _).
  rewrite land_bit by lia.
  pose proof (Hused k0 ltac:(lia)) as Hu. unfold bit_used in Hu. rewrite Hu.
  cbn [negb]. apply IH; [lia|]. intros j Hj. apply Hused. lia.
Qed.

(** A change of one byte of the bitmap, seen bit by bit. *)
Lemma bit_used_put dv d b o v j :
  bit_used (put_bytes dv b o [v] d) dv j
  = if (BBLOCK j (sb d) =? b) && (j mod BPB / 8 =? o)
    then Z.testbit v (j mod BPB mod 8)
    else bit_used d dv j.
Proof.
  unfold bit_used. rewrite sb_put_bytes, get8_put_one, Z.eqb_refl.
  cbn [andb]. destruct (_ && _); reflexivity.
Qed.

Lemma bit_used_bzero dv d k j :
  BBLOCK j (sb d) <> k ->
  bit_used (put_bytes dv k 0 (repeat 0 (Z.to_nat BSIZE)) d) dv j = bit_used d dv j.
Proof.
  intros Hne. unfold bit_used. rewrite sb_put_bytes, get8_bzero.
  rewrite (proj2 (Z.eqb_neq _ _) Hne), andb_false_r. reflexivity.
Qed.

(** X22.  The block bitmap.  [balloc] hands out the lowest block below
    [sb.size] whose bit is clear (a block that is not itself a bitmap
    block): it sets that one bit, leaves every other bit as it was and
    fills the block with zeros; when every bit is set it panics.  [bfree]
    of a block whose bit is clear panics; after [balloc], [bfree] of the
    block clears its bit again and nothing else, and the next [balloc]
    hands out the same block. *)
Theorem balloc_bfree_bitmap dv d :
  ((forall j, 0 <= j < sb_size (sb d) -> bit_used d dv j = true) ->
   balloc dv d = Panic "balloc: out of blocks") /\
  (forall b, 0 <= b -> bit_used d dv b = false ->
   bfree dv b d = Panic "freeing free block") /\
  (forall k,
     0 <= k < sb_size (sb d) -> bit_used d dv k = false ->
     (forall j, 0 <= j < k -> bit_used d dv j = true) ->
     (forall j, 0 <= j < sb_size (sb d) -> BBLOCK j (sb d) <> k) ->
     exists d1,
       balloc dv d = Ret k d1 /\
       bit_used d1 dv k = true /\
       (forall j, 0 <= j < sb_size (sb d) -> j <> k ->
          bit_used d1 dv j = bit_used d dv j) /\
       (forall o, 0 <= o < 512 -> get8 d1 dv k o = 0) /\
       exists d2,
         bfree dv k d1 = Ret tt d2 /\
         bit_used d2 dv k = false /\
         (forall j, 0 <= j < sb_size (sb d) -> j <> k ->
            bit_used d2 dv j = bit_used d dv j) /\
         exists d3, balloc dv d2 = Ret k d3).
Proof.
  split; [|split].
  - intros Hfull. unfold balloc. apply balloc_scan_full; [lia|].
    intros j Hj. apply Hfull. lia.
  - intros b Hb Hfree. unfold bfree.
    destruct (bit_place b Hb) as (_ & Hbit & _).
    rewrite land_bit by lia. unfold bit_used in Hfree. rewrite Hfree. reflexivity.
  - intros k Hk Hfree Hlow Hnb.
    destruct (bit_place k ltac:(lia)) as (_ & Hbit & _).
    set (bb := BBLOCK k (sb d)) in *. set (ok := k mod BPB / 8) in *.
    set (ik := k mod BPB mod 8) in *.
    set (x := get8 d dv bb ok).
    set (dA := put_bytes dv bb ok [Z.lor x (Z.shiftl 1 ik)] d).
    set (d1 := put_bytes dv k 0 (repeat 0 (Z.to_nat BSIZE)) dA).
    assert (Hrun : balloc dv d = Ret k d1).
    { unfold balloc. apply (balloc_scan_first dv d k Hfree); [lia|lia|].
      intros j Hj. apply Hlow. lia. }
    assert (Hother : forall j, 0 <= j -> j <> k ->
              (BBLOCK j (sb d) =? bb) && (j mod BPB / 8 =? ok) = true ->
              j mod BPB mod 8 <> ik).
    { intros j Hj Hne E.
      apply andb_true_iff in E as [E1 E2]. apply Z.eqb_eq in E1, E2.
      intros E3. apply Hne. apply (bit_place_inj (sb d)); auto; lia. }
    assert (H1k : bit_used d1 dv k = true).
    { unfold d1. rewrite bit_used_bzero by (apply Hnb; lia).
      unfold dA. rewrite bit_used_put. fold bb ok ik.
      rewrite !Z.eqb_refl. cbn [andb]. rewrite lor_bit by lia.
      rewrite Z.eqb_refl. apply orb_true_r. }
    assert (H1j : forall j, 0 <= j < sb_size (sb d) -> j <> k ->
                    bit_used d1 dv j = bit_used d dv j).
    { intros j Hj Hne. unfold d1. rewrite bit_used_bzero by (apply Hnb; lia).
      unfold dA. rewrite bit_used_put. fold bb ok.
      destruct ((BBLOCK j (sb d) =? bb) && (j mod BPB / 8 =? ok)) eqn:E; [|reflexivity].
      pose proof (Hother j ltac:(lia) Hne E) as Hi.
      destruct (bit_place j ltac:(lia)) as (_ & Hbj & _).
      rewrite lor_bit by lia. rewrite (proj2 (Z.eqb_neq _ _) Hi), orb_false_r.
      apply andb_true_iff in E as [E1 E2]. apply Z.eqb_eq in E1, E2.
      unfold bit_used, x. rewrite E1, E2. reflexivity. }
    exists d1. split; [exact Hrun|]. split; [exact H1k|]. split; [exact H1j|].
    split.
    { intros o Ho. unfold d1. rewrite get8_bzero, !Z.eqb_refl. cbn [andb].
      rewrite (proj2 (Z.leb_le 0 o)), (proj2 (Z.ltb_lt o 512)) by lia. reflexivity. }
    set (y := get8 d1 dv bb ok).
    set (d2 := put_bytes dv bb ok [Z.land y (Z.lnot (Z.shiftl 1 ik)) mod 256] d1).
    assert (Hsb1 : sb d1 = sb d) by reflexivity.
    assert (Hfr : bfree dv k d1 = Ret tt d2).
    { unfold bfree. rewrite Hsb1. fold bb ok ik y.
      rewrite land_bit by lia. unfold bit_used in H1k. rewrite Hsb1 in H1k.
      fold bb ok ik y in H1k. rewrite H1k. reflexivity. }
    assert (H2k : bit_used d2 dv k = false).
    { unfold d2. rewrite bit_used_put. rewrite Hsb1. fold bb ok ik.
      rewrite !Z.eqb_refl. cbn [andb]. rewrite clear_bit by lia. rewrite Z.eqb_refl. apply andb_false_r. }
    assert (H2j : forall j, 0 <= j < sb_size (sb d) -> j <> k ->
                    bit_used d2 dv j = bit_used d dv j).
    { intros j Hj Hne. rewrite <- (H1j j Hj Hne).
      unfold d2. rewrite bit_used_put. rewrite Hsb1.
      destruct ((BBLOCK j (sb d) =? bb) && (j mod BPB / 8 =? ok)) eqn:E; [|reflexivity].
      pose proof (Hother j ltac:(lia) Hne E) as Hi.
      destruct (bit_place j ltac:(lia)) as (_ & Hbj & _).
      rewrite clear_bit by lia. rewrite (proj2 (Z.eqb_neq _ _) Hi). cbn [negb].
      rewrite andb_true_r.
      apply andb_true_iff in E as [E1 E2]. apply Z.eqb_eq in E1, E2.
      unfold bit_used, y. rewrite Hsb1, E1, E2. reflexivity. }
    exists d2. split; [exact Hfr|]. split; [exact H2k|]. split; [exact H2j|].
    eexists. unfold balloc. change (sb d2) with (sb d).
    apply (balloc_scan_first dv d2 k H2k); [lia|lia|].
    intros j Hj. rewrite H2j by lia. apply Hlow. lia.
Qed.

Lemma small_bitmap_used j : 0 <= j < 10 -> bit_used small_bitmap 1 j = true.
Proof.
  intros Hj.
  assert (j = 0 \/ j = 1 \/ j = 2 \/ j = 3 \/ j = 4 \/ j = 5 \/ j = 6 \/ j = 7
          \/ j = 8 \/ j = 9) as H by lia.
  repeat (destruct H as [->|H]; [reflexivity|]). subst j. reflexivity.
Qed.

Lemma balloc_bfree_bitmap_witness :
  exists d1, balloc 1 small_bitmap = Ret 10 d1 /\ bit_used d1 1 10 = true.
Proof.
  destruct (balloc_bfree_bitmap 1 small_bitmap) as (_ & _ & H).
  destruct (H 10) as (d1 & Hrun & Hbit & _).
  - simpl. lia.
  - reflexivity.
  - exact small_bitmap_used.
  - intros j Hj. simpl in Hj. unfold BBLOCK, BPB, BSIZE. simpl bmapstart.
    rewrite Z.div_small by lia. discriminate.
  - exists d1. split; [exact Hrun|exact Hbit].
Defined.


Lemma get8_put_in dv b o bs d o' :
  o <= o' < o + Z.of_nat (length bs) ->
  get8 (put_bytes dv b o bs d) dv b o' = nth (Z.to_nat (o' - o)) bs 0.
Proof.
  intros H. unfold get8, put_bytes. cbn [blocks]. rewrite !Z.eqb_refl.
  rewrite (proj2 (Z.leb_le _ _)), (proj2 (Z.ltb_lt _ _)) by lia. reflexivity.
Qed.

Lemma get8_put_out dv b o bs d dv' b' o' :
  ~ (dv' = dv /\ b' = b /\ o <= o' < o + Z.of_nat (length bs)) ->
  get8 (put_bytes dv b o bs d) dv' b' o' = get8 d dv' b' o'.
Proof.
  intros H. unfold get8, put_bytes. cbn [blocks].
  destruct (Z.eqb_spec dv' dv); [|reflexivity].
  destruct (Z.eqb_spec b' b); [|reflexivity].
  destruct (Z.leb_spec o o'); [|reflexivity].
  destruct (Z.ltb_spec o' (o + Z.of_nat (length bs))); [|reflexivity].
  exfalso. apply H. auto.
Qed.

Lemma le2_decode v :
  -32768 <= v < 32768 ->
  (let w := nth 0 (le 2 v) 0 + 256 * nth 1 (le 2 v) 0 in
   if w <? 32768 then w else w - 65536) = v.
Proof.
  intros Hv. cbn [le map seq nth Z.of_nat]. change (256 ^ 0) with 1.
  rewrite Z.div_1_r.
  assert (E : v mod 256 + 256 * (v / 256 mod 256) = v mod 65536).
  { pose proof (Z.div_mod v 256 ltac:(lia)).
    pose proof (Z.div_mod (v / 256) 256 ltac:(lia)).
    pose proof (Z.mod_pos_bound v 256 ltac:(lia)).
    pose proof (Z.mod_pos_bound (v / 256) 256 ltac:(lia)).
    apply (Z.mod_unique_pos v 65536 (v / 256 / 256)); lia. }
  cbv zeta. change (256 ^ Z.of_nat 1) with 256. rewrite E.
  destruct (Z_lt_le_dec v 0) as [Hneg|Hpos].
  - assert (v mod 65536 = v + 65536)
      by (symmetry; apply (Z.mod_unique_pos v 65536 (-1)); lia).
    destruct (Z.ltb_spec (v mod 65536) 32768); lia.
  - rewrite Z.mod_small by lia. destruct (Z.ltb_spec v 32768); lia.
Qed.

Lemma le4_decode v :
  0 <= v < 2 ^ 32 ->
  nth 0 (le 4 v) 0 + 256 * nth 1 (le 4 v) 0 + 65536 * nth 2 (le 4 v) 0
  + 16777216 * nth 3 (le 4 v) 0 = v.
Proof.
  intros Hv. cbn [le map seq nth Z.of_nat]. change (256 ^ 0) with 1.
  change (256 ^ Z.of_nat 1) with 256. change (256 ^ Z.of_nat 2) with 65536.
  change (256 ^ Z.of_nat 3) with 16777216.
  rewrite Z.div_1_r. apply (le4_sum v Hv).
Qed.

Lemma length_le w v : length (le w v) = w.
Proof. unfold le. now rewrite length_map, length_seq. Qed.

Lemma nth_flat_le4 l : forall k j,
  (k < length l)%nat -> (j < 4)%nat ->
  nth (4 * k + j) (flat_map (le 4) l) 0 = nth j (le 4 (nth k l 0)) 0.
Proof.
  induction l as [|a l IH]; intros k j Hk Hj; [simpl in Hk; lia|].
  cbn [flat_map]. destruct k as [|k].
  - rewrite app_nth1 by (rewrite length_le; lia). reflexivity.
  - rewrite app_nth2 by (rewrite length_le; lia). rewrite length_le.
    replace (4 * S k + j - 4)%nat with (4 * k + j)%nat by lia.
    cbn [nth]. apply IH; [simpl in Hk; lia|exact Hj].
Qed.

Lemma length_dinode_bytes ip :
  length (addrs ip) = 13%nat -> length (dinode_bytes ip) = 64%nat.
Proof.
  intros H. unfold dinode_bytes. rewrite !length_app, !length_le.
  rewrite (flat_map_constant_length (c := 4%nat)); [lia|].
  intros x _. apply length_le.
Qed.

(** The places of the fields in the 64 bytes of an on-disk inode. *)
Lemma dinode_bytes_short ip c j :
  (c < 4)%nat -> (j < 2)%nat ->
  nth (2 * c + j) (dinode_bytes ip) 0
  = nth j (le 2 (nth c [type ip; major ip; minor ip; nlink ip] 0)) 0.
Proof.
  intros Hc Hj. unfold dinode_bytes.
  destruct c as [|[|[|[|c]]]]; [| | | |lia];
    (destruct j as [|[|j]]; [reflexivity|reflexivity|lia]).
Qed.

Lemma dinode_bytes_size ip j :
  (j < 4)%nat -> nth (8 + j) (dinode_bytes ip) 0 = nth j (le 4 (size ip)) 0.
Proof.
  intros Hj. unfold dinode_bytes.
  destruct j as [|[|[|[|j]]]]; [reflexivity|reflexivity|reflexivity|reflexivity|lia].
Qed.

Lemma dinode_bytes_addr ip k j :
  (k < length (addrs ip))%nat -> (j < 4)%nat ->
  nth (12 + 4 * k + j) (dinode_bytes ip) 0 = nth j (le 4 (nth k (addrs ip) 0)) 0.
Proof.
  intros Hk Hj. unfold dinode_bytes.
  change (le 2 (type ip) ++ le 2 (major ip) ++ le 2 (minor ip) ++ le 2 (nlink ip)
          ++ le 4 (size ip) ++ flat_map (le 4) (addrs ip))
    with ((le 2 (type ip) ++ le 2 (major ip) ++ le 2 (minor ip) ++ le 2 (nlink ip)
           ++ le 4 (size ip)) ++ flat_map (le 4) (addrs ip)).
  rewrite app_nth2 by (rewrite !length_app, !length_le; lia).
  rewrite !length_app, !length_le.
  replace (12 + 4 * k + j - (2 + (2 + (2 + (2 + 4)))))%nat with (4 * k + j)%nat by lia.
  now apply nth_flat_le4.
Qed.

(** What [ilock] reads back after [iupdate]. *)
Lemma get16_dinode ip d b i c :
  length (addrs ip) = 13%nat -> (c < 4)%nat ->
  -32768 <= nth c [type ip; major ip; minor ip; nlink ip] 0 < 32768 ->
  get16 (put_bytes (dev ip) b (i * 64) (dinode_bytes ip) d) (dev ip) b
        (64 * i + 2 * Z.of_nat c)
  = nth c [type ip; major ip; minor ip; nlink ip] 0.
Proof.
  intros Hlen Hc Hr. unfold get16.
  rewrite !get8_put_in by (rewrite length_dinode_bytes by exact Hlen; lia).
  replace (Z.to_nat (64 * i + 2 * Z.of_nat c - i * 64)) with (2 * c + 0)%nat by lia.
  replace (Z.to_nat (64 * i + 2 * Z.of_nat c + 1 - i * 64)) with (2 * c + 1)%nat by lia.
  rewrite !dinode_bytes_short by lia. apply (le2_decode _ Hr).
Qed.

Lemma get32_dinode ip d b i q v :
  length (addrs ip) = 13%nat -> (2 <= q < 16)%nat -> 0 <= v < 2 ^ 32 ->
  (forall j, (j < 4)%nat -> nth (4 * q + j) (dinode_bytes ip) 0 = nth j (le 4 v) 0) ->
  get32 (put_bytes (dev ip) b (i * 64) (dinode_bytes ip) d) (dev ip) b
        (16 * i + Z.of_nat q) = v.
Proof.
  intros Hlen Hq Hv Hnth. unfold get32.
  rewrite !get8_put_in by (rewrite length_dinode_bytes by exact Hlen; lia).
  replace (Z.to_nat (4 * (16 * i + Z.of_nat q) - i * 64)) with (4 * q + 0)%nat by lia.
  replace (Z.to_nat (4 * (16 * i + Z.of_nat q) + 1 - i * 64)) with (4 * q + 1)%nat by lia.
  replace (Z.to_nat (4 * (16 * i + Z.of_nat q) + 2 - i * 64)) with (4 * q + 2)%nat by lia.
  replace (Z.to_nat (4 * (16 * i + Z.of_nat q) + 3 - i * 64)) with (4 * q + 3)%nat by lia.
  rewrite !Hnth by lia. apply (le4_decode v Hv).
Qed.

(** [ilock] looks at the 64 bytes of its on-disk inode only. *)
Lemma ilock_ext kp l d d' :
  sb d' = sb d ->
  (forall o, 64 * (inum kp mod INODE_PER_BLOCK) <= o
             < 64 * (inum kp mod INODE_PER_BLOCK) + 64 ->
     get8 d' (dev kp) (IBLOCK (inum kp) (sb d)) o
     = get8 d (dev kp) (IBLOCK (inum kp) (sb d)) o) ->
  ilock kp l d' = match ilock kp l d with
                  | Ret x _ => Ret x d'
                  | Panic m => Panic m
                  | Spin _ => Spin d'
                  | Asleep _ => Asleep d'
                  end.
Proof.
  intros Hsb Hsame. unfold ilock. rewrite Hsb.
  destruct (ref kp <? 1); [reflexivity|]. destruct l; [reflexivity|].
  destruct (valid kp =? 0); [|reflexivity].
  set (i := inum kp mod INODE_PER_BLOCK) in *.
  set (b := IBLOCK (inum kp) (sb d)) in *.
  assert (H16 : forall c, 0 <= c < 63 ->
            get16 d' (dev kp) b (64 * i + c) = get16 d (dev kp) b (64 * i + c)).
  { intros c Hc. unfold get16. rewrite !Hsame by lia. reflexivity. }
  assert (H32 : forall q, 0 <= q < 16 ->
            get32 d' (dev kp) b (16 * i + q) = get32 d (dev kp) b (16 * i + q)).
  { intros q Hq. unfold get32. rewrite !Hsame by lia. reflexivity. }
  pose proof (H16 0 ltac:(lia)) as H0. rewrite Z.add_0_r in H0. rewrite H0.
  rewrite !H16, (H32 2) by lia.
  assert (Hmap : map (fun k => get32 d' (dev kp) b (16 * i + 3 + Z.of_nat k))
                     (seq 0 (Z.to_nat NDIRECT + 1))
               = map (fun k => get32 d (dev kp) b (16 * i + 3 + Z.of_nat k))
                     (seq 0 (Z.to_nat NDIRECT + 1))).
  { apply map_ext_in. intros k Hk. apply in_seq in Hk.
    change (Z.to_nat NDIRECT + 1)%nat with 13%nat in Hk.
    rewrite <- !Z.add_assoc. apply H32. lia. }
  rewrite Hmap. destruct (get16 d (dev kp) b (64 * i) =? 0); reflexivity.
Qed.

(** Two inodes whose bytes on the disk overlap are the same inode. *)
Lemma in_dinode_inj d dv n dv' n' dv0 b o :
  0 <= n -> 0 <= n' ->
  in_dinode d dv n dv0 b o -> in_dinode d dv' n' dv0 b o -> dv = dv' /\ n = n'.
Proof.
  unfold in_dinode, IBLOCK. change INODE_PER_BLOCK with 8.
  intros Hn Hn' (-> & -> & Ho) (-> & Hb & Ho'). split; [reflexivity|].
  pose proof (Z.div_mod n 8 ltac:(lia)). pose proof (Z.div_mod n' 8 ltac:(lia)).
  pose proof (Z.mod_pos_bound n 8 ltac:(lia)).
  pose proof (Z.mod_pos_bound n' 8 ltac:(lia)). lia.
Qed.

(** X25.  [iupdate] and [ilock] agree on the format of the on-disk inode.
    For an inode whose fields fit their C types, [iupdate] changes the 64
    bytes of its on-disk inode and no other byte of the disk, and an
    [ilock] of a cache slot for the same inode that is not valid yet
    reads back the type, the device numbers, the link count, the size and
    the 13 block addresses that [iupdate] wrote; it panics with "ilock:
    no type" if that type is 0.  For every other inode, also one of the
    same block, [ilock] gives what it gave before the [iupdate]. *)
Theorem iupdate_then_ilock ip jp d :
  fields_ok ip -> dev jp = dev ip -> inum jp = inum ip -> 1 <= ref jp -> valid jp = 0 ->
  exists d1,
    iupdate ip d = Ret tt d1 /\ sb d1 = sb d /\
    (forall dv b o, ~ in_dinode d (dev ip) (inum ip) dv b o ->
                    get8 d1 dv b o = get8 d dv b o) /\
    ilock jp false d1
    = (if type ip =? 0 then Panic "ilock: no type"
       else Ret (mkInode (dev ip) (inum ip) (ref jp) 1 (type ip) (major ip) (minor ip)
                         (nlink ip) (size ip) (addrs ip)) d1) /\
    forall kp l,
      0 <= inum kp -> ~ (dev kp = dev ip /\ inum kp = inum ip) ->
      ilock kp l d1 = match ilock kp l d with
                      | Ret x _ => Ret x d1
                      | Panic m => Panic m
                      | Spin _ => Spin d1
                      | Asleep _ => Asleep d1
                      end.
Proof.
  intros (Hin & Hty & Hmj & Hmn & Hnl & Hsz & Hlen & Haddrs) Hdev Hinum Href Hvalid.
  eexists. split; [reflexivity|]. split; [reflexivity|].
  set (i := inum ip mod INODE_PER_BLOCK). set (b := IBLOCK (inum ip) (sb d)).
  set (d1 := put_bytes (dev ip) b (i * 64) (dinode_bytes ip) d).
  assert (Hout : forall dv b' o, ~ in_dinode d (dev ip) (inum ip) dv b' o ->
                   get8 d1 dv b' o = get8 d dv b' o).
  { intros dv b' o Hno. apply get8_put_out. intros (-> & -> & Ho). apply Hno.
    rewrite length_dinode_bytes in Ho by exact Hlen.
    unfold in_dinode. fold i. fold b. repeat split; lia. }
  split; [exact Hout|]. split.
  - unfold ilock. rewrite Hdev, Hinum, Hvalid.
    rewrite (proj2 (Z.ltb_ge _ _)) by lia. cbn [Z.eqb].
    change (sb d1) with (sb d). fold i. fold b.
    pose proof (get16_dinode ip d b i 0 Hlen ltac:(lia) Hty) as E0.
    pose proof (get16_dinode ip d b i 1 Hlen ltac:(lia) Hmj) as E1.
    pose proof (get16_dinode ip d b i 2 Hlen ltac:(lia) Hmn) as E2.
    pose proof (get16_dinode ip d b i 3 Hlen ltac:(lia) Hnl) as E3.
    change (2 * Z.of_nat 0) with 0 in E0. change (2 * Z.of_nat 1) with 2 in E1.
    change (2 * Z.of_nat 2) with 4 in E2. change (2 * Z.of_nat 3) with 6 in E3.
    cbn [nth] in E0, E1, E2, E3. rewrite Z.add_0_r in E0. fold d1 in E0, E1, E2, E3. rewrite E0, E1, E2, E3.
    pose proof (get32_dinode ip d b i 2 (size ip) Hlen ltac:(lia) Hsz
                  (fun j Hj => dinode_bytes_size ip j Hj)) as E4.
    fold d1 in E4. change (Z.of_nat 2) with 2 in E4. rewrite E4.
    assert (Hmap : map (fun k => get32 d1 (dev ip) b (16 * i + 3 + Z.of_nat k))
                       (seq 0 (Z.to_nat NDIRECT + 1)) = addrs ip).
    { change (Z.to_nat NDIRECT + 1)%nat with 13%nat.
      apply nth_ext with (d := 0) (d' := 0).
      - rewrite length_map, length_seq. auto.
      - intros k Hk. rewrite length_map, length_seq in Hk.
        rewrite (nth_indep _ 0 ((fun k => get32 d1 (dev ip) b (16 * i + 3 + Z.of_nat k)) 0%nat))
          by (now rewrite length_map, length_seq).
        rewrite (map_nth (fun k => get32 d1 (dev ip) b (16 * i + 3 + Z.of_nat k))).
        rewrite seq_nth by exact Hk. cbn [Nat.add].
        replace (16 * i + 3 + Z.of_nat k) with (16 * i + Z.of_nat (3 + k)) by lia.
        apply get32_dinode; [exact Hlen|lia| |].
        + apply (proj1 (List.Forall_forall _ _) Haddrs). apply nth_In. lia.
        + intros j Hj. replace (4 * (3 + k) + j)%nat with (12 + 4 * k + j)%nat by lia.
          apply dinode_bytes_addr; lia. }
    rewrite Hmap. reflexivity.
  - intros kp l Hk Hne. apply ilock_ext; [reflexivity|].
    intros o Ho. apply Hout. intros Hin'.
    assert (Hkp : in_dinode d (dev kp) (inum kp) (dev kp) (IBLOCK (inum kp) (sb d)) o)
      by (unfold in_dinode; auto).
    destruct Hin' as (Hdv & Hb & Ho').
    destruct (in_dinode_inj d (dev ip) (inum ip) (dev kp) (inum kp) (dev kp)
                (IBLOCK (inum kp) (sb d)) o Hin Hk) as (E1 & E2).
    + unfold in_dinode. auto.
    + exact Hkp.
    + apply Hne. auto.
Qed.

Lemma some_inode_fields : fields_ok some_inode.
Proof.
  unfold fields_ok, some_inode, T_DEV. cbn [inum type major minor nlink size addrs length].
  repeat (split; [lia|]). repeat constructor; lia.
Qed.

Lemma iupdate_then_ilock_witness :
  exists d1,
    iupdate some_inode inode_disk = Ret tt d1 /\
    ilock (mkInode 1 5 2 0 0 0 0 0 0 []) false d1
    = Ret (mkInode 1 5 2 1 T_DEV 2 (-1) 1 1000 (addrs some_inode)) d1.
Proof.
  destruct (iupdate_then_ilock some_inode (mkInode 1 5 2 0 0 0 0 0 0 []) inode_disk
              some_inode_fields eq_refl eq_refl ltac:(simpl; lia) eq_refl)
    as (d1 & H1 & _ & _ & H2 & _).
  exists d1. split; [exact H1|exact H2].
Defined.


(** The disk after [ialloc] has taken the on-disk inode [k]. *)
Lemma ialloc_scan_first dv ty d k :
  dinode_type d dv k = 0 ->
  forall todo k0,
    k0 <= k < k0 + Z.of_nat todo ->
    (forall j, k0 <= j < k -> dinode_type d dv j <> 0) ->
    ialloc_scan dv ty k0 todo d
    = Ret k (put_bytes dv (IBLOCK k (sb d)) (k mod INODE_PER_BLOCK * 64) (le 2 ty)
               (put_bytes dv (IBLOCK k (sb d)) (k mod INODE_PER_BLOCK * 64)
                          (repeat 0 64) d)).
Proof.
  intros Hfree. induction todo as [|t IH]; intros k0 Hk Hused; [lia|].
  cbn [ialloc_scan]. destruct (Z.eq_dec k0 k) as [->|Hne].
  - unfold dinode_type in Hfree. rewrite Z.mul_comm in Hfree. rewrite Hfree. reflexivity.
  - pose proof (Hused k0 ltac:(lia)) as Hu. unfold dinode_type in Hu.
    rewrite Z.mul_comm in Hu. rewrite (proj2 (Z.eqb_neq _ _) Hu).
    apply IH; [lia|]. intros j Hj. apply Hused. lia.
Qed.

Lemma ialloc_scan_none dv ty d :
  forall todo k0,
    (forall j, k0 <= j < k0 + Z.of_nat todo -> dinode_type d dv j <> 0) ->
    ialloc_scan dv ty k0 todo d = Panic "ialloc: no inodes".
Proof.
  induction todo as [|t IH]; intros k0 Hused; [reflexivity|].
  cbn [ialloc_scan]. pose proof (Hused k0 ltac:(lia)) as Hu. unfold dinode_type in Hu.
  rewrite Z.mul_comm in Hu. rewrite (proj2 (Z.eqb_neq _ _) Hu).
  apply IH. intros j Hj. apply Hused. lia.
Qed.

(** The bytes of a fresh on-disk inode: the type, then zeros. *)
Lemma fresh_dinode_zero dv b i ty d c :
  2 <= c < 64 ->
  get8 (put_bytes dv b (i * 64) (le 2 ty) (put_bytes dv b (i * 64) (repeat 0 64) d))
       dv b (64 * i + c) = 0.
Proof.
  intros Hc. rewrite get8_put_out by (rewrite length_le; lia).
  rewrite get8_put_in by (rewrite repeat_length; lia).
  apply nth_repeat.
Qed.

Lemma fresh_dinode_type dv b i ty d :
  -32768 <= ty < 32768 ->
  get16 (put_bytes dv b (i * 64) (le 2 ty) (put_bytes dv b (i * 64) (repeat 0 64) d))
        dv b (64 * i) = ty.
Proof.
  intros Hty. unfold get16. rewrite !get8_put_in by (rewrite length_le; lia).
  replace (Z.to_nat (64 * i - i * 64)) with 0%nat by lia.
  replace (Z.to_nat (64 * i + 1 - i * 64)) with 1%nat by lia.
  apply (le2_decode ty Hty).
Qed.

(** X26.  [ialloc] takes the first free on-disk inode.  With inode [k]
    the first one from inode 1 on whose type on the disk is 0, [ialloc]
    goes on with inode number [k] (inode 0 is never handed out); on the
    disk it has zeroed the 64 bytes of that inode and stored the type,
    and has changed no other byte, so that an [ilock] of a fresh cache
    slot for inode [k] loads the type asked for with no links, size 0 and
    no block addresses.  When no inode from 1 on has type 0, [ialloc]
    panics with "ialloc: no inodes". *)
Theorem ialloc_first_free_dinode dv ty d :
  -32768 <= ty < 32768 ->
  (forall k,
     1 <= k < ninodes (sb d) -> dinode_type d dv k = 0 ->
     (forall j, 1 <= j < k -> dinode_type d dv j <> 0) ->
     exists d1,
       ialloc dv ty d = Ret k d1 /\ sb d1 = sb d /\
       (forall dv' b o, ~ in_dinode d dv k dv' b o -> get8 d1 dv' b o = get8 d dv' b o) /\
       dinode_type d1 dv k = ty /\
       forall jp, dev jp = dv -> inum jp = k -> 1 <= ref jp -> valid jp = 0 ->
         ilock jp false d1
         = if ty =? 0 then Panic "ilock: no type"
           else Ret (mkInode dv k (ref jp) 1 ty 0 0 0 0 (repeat 0 13)) d1) /\
  ((forall j, 1 <= j < ninodes (sb d) -> dinode_type d dv j <> 0) ->
   ialloc dv ty d = Panic "ialloc: no inodes").
Proof.
  intros Hty. split.
  - intros k Hk Hfree Hused.
    set (i := k mod INODE_PER_BLOCK). set (b := IBLOCK k (sb d)).
    set (d1 := put_bytes dv b (i * 64) (le 2 ty) (put_bytes dv b (i * 64) (repeat 0 64) d)).
    exists d1. split.
    { unfold ialloc. apply (ialloc_scan_first dv ty d k Hfree); [lia|].
      intros j Hj. apply Hused. lia. }
    split; [reflexivity|].
    assert (Htype : get16 d1 dv b (64 * i) = ty) by (apply fresh_dinode_type; exact Hty).
    assert (Hzero : forall c, 2 <= c < 64 -> get8 d1 dv b (64 * i + c) = 0)
      by (intros c Hc; apply fresh_dinode_zero; exact Hc).
    split.
    { intros dv' b' o Hno. unfold d1.
      rewrite !get8_put_out; [reflexivity| |].
      - intros (-> & -> & Ho). apply Hno. rewrite repeat_length in Ho.
        unfold in_dinode. fold i. fold b. repeat split; lia.
      - intros (-> & -> & Ho). apply Hno. rewrite length_le in Ho.
        unfold in_dinode. fold i. fold b. repeat split; lia. }
    split; [exact Htype|].
    intros jp Hdev Hinum Href Hvalid. unfold ilock. rewrite Hdev, Hinum, Hvalid.
    rewrite (proj2 (Z.ltb_ge _ _)) by lia. cbn [Z.eqb].
    change (sb d1) with (sb d). fold i. fold b. rewrite Htype.
    assert (H16 : forall c, 2 <= c < 63 -> get16 d1 dv b (64 * i + c) = 0).
    { intros c Hc. unfold get16. rewrite <- Z.add_assoc, !Hzero by lia. reflexivity. }
    assert (H32 : forall q, 1 <= q < 16 -> get32 d1 dv b (16 * i + q) = 0).
    { intros q Hq. unfold get32.
      replace (4 * (16 * i + q)) with (64 * i + 4 * q) by lia.
      rewrite <- !Z.add_assoc, !Hzero by lia. reflexivity. }
    rewrite !H16, (H32 2) by lia.
    assert (Hmap : map (fun n => get32 d1 dv b (16 * i + 3 + Z.of_nat n))
                       (seq 0 (Z.to_nat NDIRECT + 1)) = repeat 0 13).
    { change (repeat 0 13) with (map (fun _ : nat => 0) (seq 0 13)).
      change (Z.to_nat NDIRECT + 1)%nat with 13%nat.
      apply map_ext_in. intros n Hn. apply in_seq in Hn.
      rewrite <- Z.add_assoc. apply H32. lia. }
    rewrite Hmap. reflexivity.
  - intros Hused. unfold ialloc. apply ialloc_scan_none.
    intros j Hj. apply Hused. lia.
Qed.

Lemma inode_disk_types j :
  1 <= j < 16 -> dinode_type inode_disk 1 j = if j <? 3 then 1 else 0.
Proof.
  intros Hj.
  assert (E : j = 1 \/ j = 2 \/ j = 3 \/ j = 4 \/ j = 5 \/ j = 6 \/ j = 7 \/ j = 8 \/
              j = 9 \/ j = 10 \/ j = 11 \/ j = 12 \/ j = 13 \/ j = 14 \/ j = 15) by lia.
  repeat (destruct E as [->|E]; [reflexivity|]). subst j. reflexivity.
Qed.

Lemma ialloc_first_free_dinode_witness :
  exists d1,
    ialloc 1 T_FILE inode_disk = Ret 3 d1 /\
    ilock (mkInode 1 3 1 0 0 0 0 0 0 []) false d1
    = Ret (mkInode 1 3 1 1 T_FILE 0 0 0 0 (repeat 0 13)) d1.
Proof.
  destruct (ialloc_first_free_dinode 1 T_FILE inode_disk ltac:(unfold T_FILE; lia))
    as (H & _).
  destruct (H 3) as (d1 & H1 & _ & _ & _ & H2).
  - simpl. lia.
  - reflexivity.
  - intros j Hj. rewrite inode_disk_types by lia.
    destruct (Z.ltb_spec j 3); [discriminate|lia].
  - exists d1. split; [exact H1|].
    apply (H2 (mkInode 1 3 1 0 0 0 0 0 0 [])); [reflexivity|reflexivity|simpl; lia|reflexivity].
Defined.

End FsSpec.

Module PipeSpec.
Import Proc Pipe.




Lemma ends_with_act a es st : ends_with es st -> ends_with es (act a st).
Proof. destruct a; auto. Qed.







Lemma store_all_fields bs st :
  nread (pp (store_all bs st)) = nread (pp st) /\
  readopen (pp (store_all bs st)) = readopen (pp st) /\
  writeopen (pp (store_all bs st)) = writeopen (pp st) /\
  pkilled (store_all bs st) = pkilled st /\
  trace (store_all bs st) = trace st.
Proof.
  revert st. induction bs as [|b bs IH]; intros st; simpl; auto.
  destruct (IH (store b st)) as (H1 & H2 & H3 & H4 & H5).
  rewrite H1, H2, H3, H4, H5. auto.
Qed.





Lemma slot_mod x : (x mod 2 ^ 32) mod PIPESIZE = x mod 512.
Proof.
  unfold PIPESIZE. apply Z.mod_mod_divide. exists (2 ^ 23). reflexivity.
Qed.



Lemma used_range p : 0 <= used p < 2 ^ 32.
Proof. unfold used. apply Z.mod_pos_bound. lia. Qed.

Lemma used_zero p :
  0 <= nread p < 2 ^ 32 -> 0 <= nwrite p < 2 ^ 32 ->
  (nread p =? nwrite p) = (used p =? 0).
Proof.
  intros Hr Hw. unfold used.
  destruct (Z.eqb_spec (nread p) (nwrite p)) as [E|E].
  - rewrite E, Z.sub_diag. reflexivity.
  - symmetry. apply Z.eqb_neq. intros H.
    destruct (Z.lt_ge_cases (nwrite p) (nread p)).
    + rewrite <- (Z.mod_add _ 1) in H by lia. rewrite Z.mod_small in H by lia. lia.
    + rewrite Z.mod_small in H by lia. lia.
Qed.




(** A byte fetched is the head of the queue. *)
Lemma contents_fetch st :
  pipe_ok (pp st) -> nread (pp st) <> nwrite (pp st) ->
  contents (pp st) = fst (fetch st) :: contents (pp (snd (fetch st))) /\
  pipe_ok (pp (snd (fetch st))) /\
  used (pp (snd (fetch st))) = used (pp st) - 1.
Proof.
  intros (Hlen & Hr & Hw & Hu) Hne.
  pose proof (used_range (pp st)) as Hur.
  assert (Hpos : 0 < used (pp st)).
  { pose proof (used_zero (pp st) Hr Hw) as E.
    rewrite (proj2 (Z.eqb_neq _ _) Hne) in E. symmetry in E.
    apply Z.eqb_neq in E. lia. }
  assert (Hus : used (pp (snd (fetch st))) = used (pp st) - 1).
  { unfold used, fetch. cbn [snd pp nread nwrite].
    rewrite Zminus_mod_idemp_r.
    replace (nwrite (pp st) - (nread (pp st) + 1))
      with (nwrite (pp st) - nread (pp st) - 1) by lia.
    rewrite <- Zminus_mod_idemp_l. fold (used (pp st)). apply Z.mod_small. lia. }
  split; [|split; [|exact Hus]].
  - unfold contents. rewrite Hus.
    replace (Z.to_nat (used (pp st))) with (S (Z.to_nat (used (pp st) - 1))) by lia.
    cbn [seq map]. f_equal.
    + unfold fetch. cbn [fst]. rewrite Z.add_0_r, slot_mod.
      unfold PIPESIZE. reflexivity.
    + rewrite <- seq_shift, map_map. apply map_ext. intros k.
      unfold fetch. cbn [snd pp nread data]. rewrite Zplus_mod_idemp_l.
      do 4 f_equal. lia.
  - unfold pipe_ok. rewrite Hus. unfold fetch. cbn [snd pp data nread nwrite].
    split; [exact Hlen|]. split; [apply Z.mod_pos_bound; lia|]. split; [exact Hw|lia].
Qed.

(** The copying loop of [piperead] takes the oldest bytes, as many as
    asked for and there are. *)
Lemma read_bytes_spec todo st :
  pipe_ok (pp st) ->
  fst (read_bytes todo st) = take todo (contents (pp st)) /\
  contents (pp (snd (read_bytes todo st))) = drop todo (contents (pp st)) /\
  pipe_ok (pp (snd (read_bytes todo st))) /\
  nwrite (pp (snd (read_bytes todo st))) = nwrite (pp st) /\
  readopen (pp (snd (read_bytes todo st))) = readopen (pp st) /\
  writeopen (pp (snd (read_bytes todo st))) = writeopen (pp st) /\
  trace (snd (read_bytes todo st)) = trace st.
Proof.
  revert st. induction todo as [|t IH]; intros st Hok.
  - simpl. rewrite drop_0. auto 10.
  - cbn [read_bytes].
    destruct Hok as (Hlen & Hr & Hw & Hu).
    destruct (Z.eqb_spec (nread (pp st)) (nwrite (pp st))) as [E|E].
    + assert (Hc : contents (pp st) = []).
      { unfold contents. pose proof (used_zero (pp st) Hr Hw) as Hz.
        rewrite (proj2 (Z.eqb_eq _ _) E) in Hz. symmetry in Hz.
        apply Z.eqb_eq in Hz. rewrite Hz. reflexivity. }
      cbn [fst snd]. rewrite Hc. simpl. unfold pipe_ok. auto 10.
    + destruct (contents_fetch st (conj Hlen (conj Hr (conj Hw Hu))) E)
        as (Hc & Hok1 & _).
      destruct (fetch st) as [b st1] eqn:Ef. cbn [fst snd] in Hc, Hok1.
      specialize (IH st1 Hok1).
      destruct (read_bytes t st1) as [bs st2]. cbn [fst snd] in IH |- *.
      destruct IH as (H1 & H2 & H3 & H4 & H5 & H6 & H7).
      rewrite Hc. cbn [take drop]. rewrite H1, H2.
      assert (Hst1 : st1 = snd (fetch st)) by (rewrite Ef; reflexivity).
      split; [reflexivity|]. split; [reflexivity|]. split; [exact H3|].
      rewrite H4, H5, H6, H7, Hst1. unfold fetch. cbn. auto.
Qed.


Lemma contents_nil p :
  0 <= nread p < 2 ^ 32 -> 0 <= nwrite p < 2 ^ 32 ->
  (contents p = [] <-> nread p = nwrite p).
Proof.
  intros Hr Hw. pose proof (used_zero p Hr Hw) as Hz. pose proof (used_range p).
  unfold contents. split.
  - intros E. apply (f_equal (@length Z)) in E. rewrite length_map, length_seq in E.
    simpl in E. assert (used p = 0) by lia.
    apply Z.eqb_eq. rewrite Hz. now apply Z.eqb_eq.
  - intros E. apply Z.eqb_eq in E. rewrite Hz in E. apply Z.eqb_eq in E.
    rewrite E. reflexivity.
Qed.

(** [piperead] when it does not have to wait. *)
Lemma piperead_ready pa n env st :
  pipe_ok (pp st) -> contents (pp st) <> [] \/ writeopen (pp st) = 0 ->
  exists st1,
    piperead pa n env st
    = Ret (Z.of_nat (length (take (Z.to_nat n) (contents (pp st)))),
           take (Z.to_nat n) (contents (pp st))) st1 /\
    contents (pp st1) = drop (Z.to_nat n) (contents (pp st)) /\
    pipe_ok (pp st1) /\ nwrite (pp st1) = nwrite (pp st) /\
    trace st1 = trace st ++ [EvAcquire; EvWakeup (ChanPipeWrite pa); EvRelease].
Proof.
  intros Hok Hready. pose proof Hok as (Hlen & Hr & Hw & Hu).
  assert (Hgo : (nread (pp st) =? nwrite (pp st)) && negb (writeopen (pp st) =? 0) = false).
  { destruct Hready as [H|H].
    - destruct (Z.eqb_spec (nread (pp st)) (nwrite (pp st))) as [E|E]; [|reflexivity].
      exfalso. apply H. now apply contents_nil.
    - rewrite H. apply andb_false_r. }
  destruct (read_bytes_spec (Z.to_nat n) (emit EvAcquire st) Hok)
    as (H1 & H2 & H3 & H4 & _ & _ & H7).
  unfold piperead.
  assert (Hw0 : wait_data pa env (emit EvAcquire st) = Ret (true, env) (emit EvAcquire st)).
  { destruct env; cbn [wait_data emit pp]; rewrite Hgo; reflexivity. }
  rewrite Hw0.
  destruct (read_bytes (Z.to_nat n) (emit EvAcquire st)) as [bs st2].
  cbn [fst snd emit pp] in *. subst bs.
  eexists. split; [reflexivity|]. cbn [emit pp trace].
  split; [exact H2|]. split; [exact H3|]. split; [exact H4|].
  rewrite H7. unfold emit; cbn [trace]. rewrite <- !app_assoc. reflexivity.
Qed.

(** X18.  [piperead] takes the oldest bytes.  On a well-formed pipe that
    holds bytes, or whose write end is closed, it does not sleep: it
    returns as many of the waiting bytes as were asked for, the oldest
    first, leaves the rest in the pipe in order, wakes the writers and
    releases the lock; with nothing waiting and the write end closed
    this is the end of file, 0 bytes.  On an empty pipe whose write end
    is open it returns -1 if the reader is killed and otherwise sleeps on
    the read channel. *)
Theorem piperead_takes_oldest_bytes pa n env st :
  pipe_ok (pp st) ->
  (contents (pp st) <> [] \/ writeopen (pp st) = 0 ->
   exists st1,
     piperead pa n env st
     = Ret (Z.of_nat (length (take (Z.to_nat n) (contents (pp st)))),
            take (Z.to_nat n) (contents (pp st))) st1 /\
     contents (pp st1) = drop (Z.to_nat n) (contents (pp st)) /\
     trace st1 = trace st ++ [EvAcquire; EvWakeup (ChanPipeWrite pa); EvRelease]) /\
  (contents (pp st) = [] -> writeopen (pp st) = 0 ->
   exists st1, piperead pa n env st = Ret (0, []) st1) /\
  (contents (pp st) = [] -> writeopen (pp st) <> 0 ->
   (pkilled st <> 0 ->
    piperead pa n env st = Ret (-1, []) (emit EvRelease (emit EvAcquire st))) /\
   (pkilled st = 0 ->
    piperead pa n [] st = Asleep (emit (EvSleep (ChanPipeRead pa)) (emit EvAcquire st)))).
Proof.
  intros Hok. pose proof Hok as (Hlen & Hr & Hw & Hu). split; [|split].
  - intros Hready.
    destruct (piperead_ready pa n env st Hok Hready) as (st1 & H1 & H2 & _ & _ & H5).
    exists st1. auto.
  - intros Hc Hwo.
    destruct (piperead_ready pa n env st Hok (or_intror Hwo)) as (st1 & H1 & _).
    exists st1. rewrite H1, Hc. rewrite take_nil. reflexivity.
  - intros Hc Hwo.
    assert (Hwait : (nread (pp st) =? nwrite (pp st)) && negb (writeopen (pp st) =? 0) = true).
    { apply contents_nil in Hc; auto. rewrite Hc, Z.eqb_refl.
      now rewrite (proj2 (Z.eqb_neq _ _) Hwo). }
    split; intros Hk; unfold piperead.
    + destruct env; cbn [wait_data emit pp pkilled]; rewrite Hwait;
        rewrite (proj2 (Z.eqb_neq _ _) Hk); reflexivity.
    + cbn [wait_data emit pp pkilled]. rewrite Hwait, Hk. reflexivity.
Qed.


Lemma piperead_takes_oldest_bytes_witness :
  exists st1, piperead 4096 5 [] (store 7 (store 3 empty_pipe)) = Ret (2, [3; 7]) st1.
Proof.
  assert (Hok : pipe_ok (pp (store 7 (store 3 empty_pipe)))).
  { unfold pipe_ok. split; [vm_compute; reflexivity|].
    split; [vm_compute; split; [intros H; discriminate H|reflexivity]|].
    split; [vm_compute; split; [intros H; discriminate H|reflexivity]|].
    vm_compute. intros H; discriminate H. }
  destruct (piperead_takes_oldest_bytes 4096 5 [] (store 7 (store 3 empty_pipe)) Hok)
    as [H _].
  destruct H as (st1 & Hrun & _).
  - left. vm_compute. discriminate.
  - exists st1. exact Hrun.
Defined.




End PipeSpec.

Module FileSpec.
Import Spinlock SpinlockSpec Proc ProcSpec Pipe File.

(** C2 (the code departs from it).  [sys_pipe] hands its null [rf] and
    [wf] to [pipealloc] by value, so after a successful [pipealloc] they
    are still null: [fdalloc] finds descriptor 0 twice and stores a null
    pointer in it.  The call returns 0 with [fd[0] = fd[1] = 0], the
    caller's descriptor 0 is not open, and the two file slots wired to the
    pipe, with the page of the pipe, stay allocated out of anyone's
    reach. *)
Theorem sys_pipe_returns_unopened_descriptors iput commit :
  exists s1,
    sys_pipe iput commit 0 pipe_call = Ret 0 s1 /\
    load32 s1 4100 = Some 0 /\ load32 s1 4104 = Some 0 /\
    ofile (proc_at 0 (kernel_of s1)) = repeat None 16 /\
    file_at 0 s1 = mkFile FD_PIPE 1 1 0 (KERNBASE + 0x100000) None 0 /\
    file_at 1 s1 = mkFile FD_PIPE 1 0 1 (KERNBASE + 0x100000) None 0 /\
    freelist s1 = [] /\
    pipes s1 !! (KERNBASE + 0x100000) = Some (mkPipe (repeat 1 512%nat) 0 0 1 1).
Proof.
  eexists. split; [vm_compute; reflexivity|].
  repeat split; vm_compute; reflexivity.
Qed.


(** C4 (the code departs from it).  [fileclose] keeps [ftable.lock] from
    its first line to its last, so on the last close of an inode file
    [begin_op], [iput] and [end_op] run under that spinlock.  With the log
    committing, [begin_op] sleeps: [sleep] takes [ptable.lock] and gives
    up [log.lock], [ftable.lock] is still held, and [sched] finds
    [ncli = 2] and panics with "sched locks". *)
Theorem fileclose_sleeps_holding_ftable_lock iput commit env :
  fileclose iput commit env 0 0 last_close_during_commit = Panic "sched locks" /\
  (exists s1,
     liftM (acquire ftable_lock 0) last_close_during_commit = Ret tt s1 /\
     held_by 0 (lock_at ftable_lock (mach (kernel_of s1))) = true /\
     fileclose iput commit env 0 0 last_close_during_commit =
       (modify (upd_file 0 (set_fref 0)) ;;
        (liftL (Log.begin_op env 0) ;;
         iput 3%nat ;;
         liftL (Log.end_op commit 0)) ;;
        modify (upd_file 0 (set_ftype FD_NONE)) ;;
        liftM (release ftable_lock 0)) s1).
Proof.
  split.
  - destruct env; vm_compute; reflexivity.
  - eexists. split; [vm_compute; reflexivity|]. split; [vm_compute; reflexivity|].
    reflexivity.
Qed.





















End FileSpec.

Module VmSpec.
Import Spinlock SpinlockSpec Vm.

Lemma land_lnot_4095 x : Z.land x (Z.lnot 4095) = 4096 * (x / 4096).
Proof.
  change (Z.land x (Z.lnot 4095)) with (Z.ldiff x (Z.ones 12)).
  rewrite Z.ldiff_ones_r by lia.
  rewrite Z.shiftl_mul_pow2, Z.shiftr_div_pow2 by lia.
  change (2 ^ 12) with 4096. lia.
Qed.

Lemma PGROUNDDOWN_eq a : 0 <= a < 2 ^ 32 -> PGROUNDDOWN a = 4096 * (a / 4096).
Proof.
  intros Ha. unfold PGROUNDDOWN, PGSIZE. change (4096 - 1) with 4095.
  rewrite land_lnot_4095. apply Z.mod_small.
  pose proof (Z.mul_div_le a 4096 ltac:(lia)).
  assert (0 <= a / 4096) by (apply Z.div_pos; lia). lia.
Qed.

Lemma PGROUNDUP_eq sz :
  0 <= sz < 2 ^ 31 -> PGROUNDUP sz = 4096 * ((sz + 4095) / 4096).
Proof.
  intros Ha. unfold PGROUNDUP, PGSIZE. change (4096 - 1) with 4095.
  replace (sz + 4096 - 1) with (sz + 4095) by lia.
  rewrite land_lnot_4095. apply Z.mod_small.
  pose proof (Z.mul_div_le (sz + 4095) 4096 ltac:(lia)).
  assert (0 <= (sz + 4095) / 4096) by (apply Z.div_pos; lia). lia.
Qed.

Lemma PDX_eq va : 0 <= va < 2 ^ 32 -> PDX va = va / 4194304.
Proof.
  intros Ha. unfold PDX, PDXSHIFT. change 0x3FF with (Z.ones 10).
  rewrite Z.land_ones, Z.shiftr_div_pow2 by lia. change (2 ^ 22) with 4194304.
  apply Z.mod_small. split; [apply Z.div_pos; lia|].
  apply Z.div_lt_upper_bound; lia.
Qed.

Lemma PTX_eq va : 0 <= va -> PTX va = (va / 4096) mod 1024.
Proof.
  intros Ha. unfold PTX, PTXSHIFT. change 0x3FF with (Z.ones 10).
  rewrite Z.land_ones, Z.shiftr_div_pow2 by lia. reflexivity.
Qed.

Lemma kpage_frame p :
  kpage p ->
  V2P p = p - KERNBASE /\
  Z.shiftr (V2P p) 12 = (p - KERNBASE) / 4096 /\
  Z.land (Z.shiftr (V2P p) 12) 0xfffff = (p - KERNBASE) / 4096 /\
  0 < (p - KERNBASE) / 4096 < 2 ^ 19 /\
  ((p - KERNBASE) / 4096 * 4096) mod 2 ^ 32 = p - KERNBASE /\
  P2V (p - KERNBASE) = p.
Proof.
  intros [Hal Hr]. unfold KERNBASE in *.
  assert (Hv : V2P p = p - 0x80000000).
  { unfold V2P, KERNBASE. apply Z.mod_small. lia. }
  assert (Hd : (p - 0x80000000) mod 4096 = 0).
  { rewrite Zminus_mod, Hal. reflexivity. }
  assert (Hq : (p - 0x80000000) = 4096 * ((p - 0x80000000) / 4096)).
  { rewrite (Z.div_mod (p - 0x80000000) 4096) at 1 by lia. lia. }
  assert (Hb : 0 < (p - 0x80000000) / 4096 < 2 ^ 19) by lia.
  split; [exact Hv|]. rewrite Hv.
  split; [rewrite Z.shiftr_div_pow2 by lia; reflexivity|].
  split.
  { change 0xfffff with (Z.ones 20). rewrite Z.land_ones, Z.shiftr_div_pow2 by lia.
    change (2 ^ 12) with 4096. apply Z.mod_small. lia. }
  split; [exact Hb|]. split.
  { rewrite Z.mod_small by lia. lia. }
  unfold P2V, KERNBASE. rewrite Z.mod_small by lia. lia.
Qed.


Lemma kalloc_spec c s :
  lock_ok c s ->
  exists m',
    kalloc c s = Ret (hd 0 (freelist s))
                     (mkV m' (use_lock s) (tl (freelist s)) (kend s) (mem s)) /\
    (use_lock s = 0 \/ lock_ready c kmem_lock m').
Proof.
  destruct s as [m ul fl ke mm]; unfold lock_ok; simpl.
  destruct (Z.eqb_spec ul 0) as [->|Hul].
  - intros _. exists m. split; [|now left].
    unfold kalloc, bind, gets; simpl. destruct fl; reflexivity.
  - intros [H0|Hr]; [contradiction|].
    destruct (acquire_ready _ _ _ Hr) as (m1 & Ha & Hi & Hc & Hl & Hh & _).
    destruct (release_ready kmem_lock c m1 Hi Hc Hh) as (m2 & Hrel & Hready & _).
    exists m2. split; [|now right].
    unfold kalloc, bind, gets, liftM; simpl.
    rewrite (proj2 (Z.eqb_neq ul 0) Hul); simpl. rewrite Ha.
    destruct fl; simpl; rewrite Hrel; reflexivity.
Qed.

Lemma kfree_spec c s v :
  lock_ok c s -> v mod 4096 = 0 -> kend s <= v -> V2P v < PHYSTOP ->
  exists s',
    kfree c v s = Ret tt s' /\ lock_ok c s' /\
    use_lock s' = use_lock s /\ kend s' = kend s /\
    freelist s' = v :: freelist s /\
    (forall p i, p <> v -> mem s' p i = mem s p i).
Proof.
  destruct s as [m ul fl ke mm]; unfold lock_ok; simpl.
  intros Hlock Hal Hke Hphys.
  assert (Hchk : negb (v mod PGSIZE =? 0) || (v <? ke) || (PHYSTOP <=? V2P v) = false).
  { change PGSIZE with 4096. rewrite Hal. simpl.
    rewrite (proj2 (Z.ltb_ge v ke)) by lia. simpl. apply Z.leb_gt. lia. }
  assert (Hfr : forall p i (g : Z -> Z -> entry) e1 e2, p <> v ->
             (if (p =? v) && (i =? 0) then e1 else if p =? v then e2 else g p i) = g p i).
  { intros p i g e1 e2 Hp. rewrite (proj2 (Z.eqb_neq p v) Hp). reflexivity. }
  destruct (Z.eqb_spec ul 0) as [->|Hul].
  - unfold kfree, bind, gets; simpl. rewrite Hchk. simpl.
    eexists. split; [reflexivity|]. simpl.
    split; [now left|]. repeat split. intros; now apply Hfr.
  - destruct Hlock as [H0|Hr]; [contradiction|].
    destruct (acquire_ready _ _ _ Hr) as (m1 & Ha & Hi & Hc & Hl & Hh & _).
    destruct (release_ready kmem_lock c m1 Hi Hc Hh) as (m2 & Hrel & Hready & _).
    unfold kfree, bind, gets; simpl. rewrite Hchk. simpl.
    rewrite (proj2 (Z.eqb_neq ul 0) Hul). unfold liftM, modify; simpl.
    rewrite Ha. simpl. rewrite Hrel.
    eexists. split; [reflexivity|]. simpl.
    split; [now right|]. repeat split. intros; now apply Hfr.
Qed.


Lemma PDX_user va : 0 <= va < KERNBASE -> 0 <= PDX va < 512.
Proof.
  unfold KERNBASE. intros H. rewrite PDX_eq by lia.
  split; [apply Z.div_pos; lia|]. apply Z.div_lt_upper_bound; lia.
Qed.

Lemma PTX_range va : 0 <= va -> 0 <= PTX va < 1024.
Proof. intros H. rewrite PTX_eq by lia. apply Z.mod_pos_bound. lia. Qed.

Lemma PDX_page va : 0 <= va < 2 ^ 32 -> PDX va = va / 4096 / 1024.
Proof. intros H. rewrite PDX_eq by lia. rewrite Z.div_div by lia. reflexivity. Qed.

(** Two addresses with the same indices are in the same page. *)
Lemma same_indices va va' :
  0 <= va < 2 ^ 32 -> 0 <= va' < 2 ^ 32 ->
  PDX va = PDX va' -> PTX va = PTX va' -> va / 4096 = va' / 4096.
Proof.
  intros H H'. rewrite !PDX_page, !PTX_eq by lia. intros Hd Ht.
  rewrite (Z.div_mod (va / 4096) 1024), (Z.div_mod (va' / 4096) 1024) by lia.
  rewrite Hd, Ht. reflexivity.
Qed.

Lemma translate_page s pgdir va va' :
  0 <= va < 2 ^ 32 -> 0 <= va' < 2 ^ 32 -> va / 4096 = va' / 4096 ->
  translate s pgdir va = translate s pgdir va'.
Proof.
  intros H H' E. unfold translate.
  rewrite !PDX_page, !PTX_eq, E by lia. reflexivity.
Qed.

(** [translate] reads the directory entry and, when it is present, one
    entry of the table. *)
Lemma translate_ext s s' pgdir va :
  mem s' pgdir (PDX va) = mem s pgdir (PDX va) ->
  (present (mem s pgdir (PDX va)) = 1 ->
   mem s' (table_of (mem s pgdir (PDX va))) (PTX va)
   = mem s (table_of (mem s pgdir (PDX va))) (PTX va)) ->
  translate s' pgdir va = translate s pgdir va.
Proof.
  intros Hd Ht. unfold translate. rewrite Hd.
  destruct (Z.eqb_spec (present (mem s pgdir (PDX va))) 1) as [E|E]; [|reflexivity].
  rewrite (Ht E). reflexivity.
Qed.

Lemma translate_some s pgdir va e :
  translate s pgdir va = Some e ->
  present (mem s pgdir (PDX va)) = 1 /\
  e = mem s (table_of (mem s pgdir (PDX va))) (PTX va) /\ present e <> 0.
Proof.
  unfold translate.
  destruct (Z.eqb_spec (present (mem s pgdir (PDX va))) 1) as [E|E]; [|discriminate].
  destruct (Z.eqb_spec (present (mem s (table_of (mem s pgdir (PDX va))) (PTX va))) 0)
    as [E0|E0]; [discriminate|].
  intros [= <-]. auto.
Qed.

Lemma table_of_frame f a b c d :
  kpage f -> table_of (mkEntry a b c d ((f - KERNBASE) / 4096)) = f.
Proof.
  intros Hk. destruct (kpage_frame f Hk) as (_ & _ & _ & _ & E & P).
  unfold table_of. simpl. rewrite E. exact P.
Qed.

Lemma frame_number_inj f g :
  kpage f -> kpage g -> (f - KERNBASE) / 4096 = (g - KERNBASE) / 4096 -> f = g.
Proof.
  intros Hf Hg E.
  rewrite <- (table_of_frame f 0 0 0 0 Hf), <- (table_of_frame g 0 0 0 0 Hg), E.
  reflexivity.
Qed.

Lemma PGADDR_eq d : 0 <= d <= 1024 -> PGADDR d 0 0 = (d * 4194304) mod 2 ^ 32.
Proof.
  intros H. unfold PGADDR, PDXSHIFT, PTXSHIFT.
  rewrite Z.shiftl_0_l, !Z.lor_0_r, Z.shiftl_mul_pow2 by lia. reflexivity.
Qed.

(** The predicates on the page table read the directory only. *)
Lemma allocated_ext s s' pgdir p :
  (forall i, mem s' pgdir i = mem s pgdir i) ->
  allocated s pgdir p -> allocated s' pgdir p.
Proof.
  intros H [E|(i & Hi & Hp & Ht)]; [now left|].
  right. exists i. rewrite H. auto.
Qed.

Lemma tables_apart_ext s s' pgdir :
  (forall i, mem s' pgdir i = mem s pgdir i) ->
  tables_apart s pgdir -> tables_apart s' pgdir.
Proof.
  intros H [H1 H2]. split.
  - intros i Hi. rewrite H. auto.
  - intros i j Hi Hj. rewrite !H. auto.
Qed.


Lemma walkpgdir_present c pgdir va alloc s :
  present (mem s pgdir (PDX va)) = 1 ->
  walkpgdir c pgdir va alloc s
  = Ret (Some (table_of (mem s pgdir (PDX va)), PTX va)) s.
Proof. intros H. unfold walkpgdir, bind, gets. rewrite H. reflexivity. Qed.

Lemma walkpgdir_absent c pgdir va s :
  present (mem s pgdir (PDX va)) <> 1 -> walkpgdir c pgdir va 0 s = Ret None s.
Proof.
  intros H. unfold walkpgdir, bind, gets.
  rewrite (proj2 (Z.eqb_neq _ _) H). reflexivity.
Qed.

Lemma translate_absent s pgdir va :
  present (mem s pgdir (PDX va)) <> 1 -> translate s pgdir va = None.
Proof. intros H. unfold translate. rewrite (proj2 (Z.eqb_neq _ _) H). reflexivity. Qed.

(** A change of memory confined to a data frame [f] and to the entry of the
    page of [a] leaves the translation of every other page alone. *)
Lemma translate_frame s s' pgdir a f va :
  tables_apart s pgdir -> 0 <= a < KERNBASE -> 0 <= va < KERNBASE ->
  present (mem s pgdir (PDX a)) = 1 ->
  ~ allocated s pgdir f ->
  (forall p i, p <> f -> ~ (p = table_of (mem s pgdir (PDX a)) /\ i = PTX a) ->
               mem s' p i = mem s p i) ->
  va / 4096 <> a / 4096 -> translate s' pgdir va = translate s pgdir va.
Proof.
  intros [Hne Hinj] Ha Hva P Hf Hmem Hpage.
  pose proof (PDX_user _ Ha) as Hda. pose proof (PDX_user _ Hva) as Hdv.
  assert (Hfp : pgdir <> f) by (intros <-; apply Hf; now left).
  unfold KERNBASE in *.
  apply translate_ext.
  - apply Hmem; [exact Hfp|]. intros [E _]. exact (Hne _ Hda P (eq_sym E)).
  - intros Pv. apply Hmem.
    + intros E. apply Hf. right. exists (PDX va). auto.
    + intros [E1 E2]. apply Hpage. apply same_indices; try lia.
      apply Hinj; auto.
Qed.

Lemma directory_frame s s' pgdir a f :
  tables_apart s pgdir -> 0 <= a < KERNBASE ->
  present (mem s pgdir (PDX a)) = 1 ->
  ~ allocated s pgdir f ->
  (forall p i, p <> f -> ~ (p = table_of (mem s pgdir (PDX a)) /\ i = PTX a) ->
               mem s' p i = mem s p i) ->
  forall i, mem s' pgdir i = mem s pgdir i.
Proof.
  intros [Hne Hinj] Ha P Hf Hmem i.
  pose proof (PDX_user _ Ha) as Hda.
  apply Hmem.
  - intros <-. apply Hf. now left.
  - intros [E _]. exact (Hne _ Hda P (eq_sym E)).
Qed.

Lemma frame_ok_ext s s' pgdir f :
  (forall i, mem s' pgdir i = mem s pgdir i) -> kend s' = kend s ->
  frame_ok s pgdir f -> frame_ok s' pgdir f.
Proof.
  intros Hm Hk [(Hp & He & Hb) Hn]. split.
  - unfold freeable. rewrite Hk. auto.
  - intros Ha. apply Hn. eapply allocated_ext; [|exact Ha].
    intros i. symmetry. apply Hm.
Qed.

Lemma next_directory_entry a :
  0 <= a < KERNBASE -> a mod 4096 = 0 ->
  let a' := ((PGADDR (PDX a + 1) 0 0 - PGSIZE) mod 2 ^ 32 + PGSIZE) mod 2 ^ 32 in
  a' = (a / 4194304 + 1) * 4194304 /\ a' mod 4096 = 0 /\ a + 4096 <= a' /\
  forall va, a <= va < a' -> PDX va = PDX a.
Proof.
  intros Ha Hal. pose proof (PDX_user _ Ha) as Hd. unfold KERNBASE in *.
  cbv zeta. rewrite PGADDR_eq by lia. unfold PGSIZE.
  rewrite PDX_eq in * by lia.
  assert (Hq : a = 4194304 * (a / 4194304) + a mod 4194304) by (apply Z.div_mod; lia).
  assert (Hr : 0 <= a mod 4194304 < 4194304) by (apply Z.mod_pos_bound; lia).
  assert (Hr' : (a mod 4194304) mod 4096 = 0).
  { rewrite Z.mod_mod_divide by (exists 1024; reflexivity). exact Hal. }
  assert (Hs : a mod 4194304 = 4096 * (a mod 4194304 / 4096)).
  { rewrite (Z.div_mod (a mod 4194304) 4096) at 1 by lia. lia. }
  rewrite (Z.mod_small ((a / 4194304 + 1) * 4194304)) by lia.
  rewrite (Z.mod_small ((a / 4194304 + 1) * 4194304 - 4096)) by lia.
  rewrite Z.mod_small by lia.
  split; [lia|]. split.
  { replace ((a / 4194304 + 1) * 4194304 - 4096 + 4096)
      with ((a / 4194304 + 1) * 1024 * 4096) by lia.
    apply Z.mod_mul. lia. }
  split; [lia|].
  intros va Hva. rewrite PDX_eq by lia.
  symmetry. apply Z.div_unique with (r := va - 4194304 * (a / 4194304)); lia.
Qed.


Lemma aligned_eq a : a mod 4096 = 0 -> a = 4096 * (a / 4096).
Proof. intros H. rewrite (Z.div_mod a 4096) at 1 by lia. lia. Qed.

Lemma page_of a va : a mod 4096 = 0 -> a <= va < a + 4096 -> va / 4096 = a / 4096.
Proof.
  intros Hal Hva. pose proof (aligned_eq a Hal). symmetry.
  apply Z.div_unique with (r := va - 4096 * (a / 4096)); lia.
Qed.

Lemma page_of_inv a va : a mod 4096 = 0 -> va / 4096 = a / 4096 -> a <= va < a + 4096.
Proof.
  intros Hal E. pose proof (aligned_eq a Hal).
  pose proof (Z.div_mod va 4096). pose proof (Z.mod_pos_bound va 4096). lia.
Qed.

Lemma translate_at s pgdir a :
  present (mem s pgdir (PDX a)) = 1 ->
  translate s pgdir a
  = let pte := mem s (table_of (mem s pgdir (PDX a))) (PTX a) in
    if present pte =? 0 then None else Some pte.
Proof. intros P. unfold translate. rewrite P. reflexivity. Qed.

(** The loop of [deallocuvm] from the page-aligned [a] up to [hi]: it
    returns, every page it meets goes back to the free list and loses its
    entry, and nothing else of the user half changes. *)
Lemma deallocuvm_loop_spec c pgdir hi top :
  hi <= top < hi + 4096 -> top mod 4096 = 0 -> top <= KERNBASE ->
  forall turns a s,
    0 <= a -> a mod 4096 = 0 -> top - a <= 4096 * Z.of_nat turns ->
    lock_ok c s -> tables_apart s pgdir ->
    (forall va e, 0 <= va < KERNBASE -> a <= va < top ->
       translate s pgdir va = Some e ->
       (physicalAdress e * 4096) mod 2 ^ 32 <> 0 /\ frame_ok s pgdir (table_of e)) ->
    exists s',
      deallocuvm_loop turns c pgdir hi a s = Ret tt s' /\
      lock_ok c s' /\ use_lock s' = use_lock s /\ kend s' = kend s /\
      (forall i, mem s' pgdir i = mem s pgdir i) /\
      (forall va, 0 <= va < KERNBASE -> ~ (a <= va < top) ->
         translate s' pgdir va = translate s pgdir va) /\
      (forall va, 0 <= va < KERNBASE -> a <= va < top ->
         translate s' pgdir va = None) /\
      (forall p, In p (freelist s) -> In p (freelist s')) /\
      (forall va e, 0 <= va < KERNBASE -> a <= va < top ->
         translate s pgdir va = Some e -> In (table_of e) (freelist s')).
Proof.
  intros Htop Htal Hkb.
  assert (Hdone : forall a s, a mod 4096 = 0 -> ~ a < hi -> lock_ok c s ->
    exists s' : vstate,
      Ret tt s = Ret tt s' /\
      lock_ok c s' /\ use_lock s' = use_lock s /\ kend s' = kend s /\
      (forall i, mem s' pgdir i = mem s pgdir i) /\
      (forall va, 0 <= va < KERNBASE -> ~ (a <= va < top) ->
         translate s' pgdir va = translate s pgdir va) /\
      (forall va, 0 <= va < KERNBASE -> a <= va < top ->
         translate s' pgdir va = None) /\
      (forall p, In p (freelist s) -> In p (freelist s')) /\
      (forall va e, 0 <= va < KERNBASE -> a <= va < top ->
         translate s pgdir va = Some e -> In (table_of e) (freelist s'))).
  { intros a s Hal Hge Hl.
    assert (top <= a).
    { pose proof (aligned_eq a Hal). pose proof (aligned_eq top Htal). lia. }
    exists s. repeat split; auto; intros; lia. }
  induction turns as [|t IH]; intros a s Ha Hal Hturns Hl Hap Hfr.
  { simpl. apply Hdone; auto. lia. }
  cbn [deallocuvm_loop].
  destruct (Z.ltb_spec a hi) as [Hlt|Hge]; [|apply Hdone; auto; lia].
  assert (Hak : 0 <= a < KERNBASE) by lia.
  assert (Hat : a + 4096 <= top).
  { pose proof (aligned_eq a Hal). pose proof (aligned_eq top Htal). lia. }
  pose proof (PDX_user _ Hak) as Hda.
  destruct (Z.eq_dec (present (mem s pgdir (PDX a))) 1) as [P|P].
  2: { (* no page table: on to the next directory entry *)
    rewrite (ProcSpec.bind_ret _ _ _ _ _ (walkpgdir_absent c pgdir a s P)).
    destruct (next_directory_entry a Hak Hal) as (_ & Hal' & Hstep & Hsame).
    cbv zeta in Hal', Hstep, Hsame.
    set (a' := ((PGADDR (PDX a + 1) 0 0 - PGSIZE) mod 2 ^ 32 + PGSIZE) mod 2 ^ 32) in *.
    destruct (IH a' s) as (s' & Hrun & Hl' & Hu & Hk & Hd & Hout & Hin & Hfl & Hback);
      auto; try lia.
    { intros va e Hva Hr. apply Hfr; auto. lia. }
    exists s'. split; [exact Hrun|]. repeat (split; [assumption|]).
    split; [|split; [|split]]; auto.
    - intros va Hva Hn. apply Hout; auto. lia.
    - intros va Hva Hr. destruct (Z.lt_ge_cases va a') as [Hlo|Hhi].
      + rewrite Hout by (auto; lia). apply translate_absent.
        rewrite Hsame by lia. exact P.
      + apply Hin; auto. lia.
    - intros va e Hva Hr He. destruct (Z.lt_ge_cases va a') as [Hlo|Hhi].
      + rewrite translate_absent in He; [discriminate|].
        rewrite Hsame by lia. exact P.
      + eapply Hback; eauto. lia. }
  rewrite (ProcSpec.bind_ret _ _ _ _ _ (walkpgdir_present c pgdir a 0 s P)).
  cbv beta iota. unfold bind at 1. unfold gets at 1.
  set (tb := table_of (mem s pgdir (PDX a))).
  assert (Hnext : (a + PGSIZE) mod 2 ^ 32 = a + 4096).
  { unfold PGSIZE, KERNBASE in *. apply Z.mod_small. lia. }
  rewrite Hnext.
  assert (Hal' : (a + 4096) mod 4096 = 0).
  { rewrite <- Zplus_mod_idemp_l, Hal. reflexivity. }
  pose proof (fun va => page_of a va Hal) as Hpg. pose proof (fun va => page_of_inv a va Hal) as Hpgi.
  pose proof (translate_at s pgdir a P) as Hta. cbv zeta in Hta. fold tb in Hta.
  assert (Hva32 : forall va, 0 <= va < KERNBASE -> 0 <= va < 2 ^ 32)
    by (unfold KERNBASE; intros; lia).
  cbv beta iota.
  destruct (Z.eqb_spec (present (mem s tb (PTX a))) 0) as [P0|P0].
  { (* no page here *)
    cbn [negb]. unfold bind at 1. unfold ret at 1.
    destruct (IH (a + 4096) s) as (s' & Hrun & Hl' & Hu & Hk & Hd & Hout & Hin & Hfl & Hback);
      auto; try lia.
    { intros va e Hva Hr. apply Hfr; auto. lia. }
    exists s'. split; [exact Hrun|]. repeat (split; [assumption|]).
    split; [|split; [|split]]; auto.
    - intros va Hva Hn. apply Hout; auto. lia.
    - intros va Hva Hr. destruct (Z.lt_ge_cases va (a + 4096)) as [Hlo|Hhi].
      + rewrite Hout by (auto; lia).
        rewrite (translate_page s pgdir va a) by (auto; apply Hpg; lia).
        exact Hta.
      + apply Hin; auto. lia.
    - intros va e Hva Hr He. destruct (Z.lt_ge_cases va (a + 4096)) as [Hlo|Hhi].
      + rewrite (translate_page s pgdir va a) in He by (auto; apply Hpg; lia).
        rewrite Hta in He. discriminate.
      + eapply Hback; eauto. lia. }
  (* a page: free its frame, clear its entry *)
  cbn [negb].
  set (pte := mem s tb (PTX a)) in *.
  destruct (Hfr a pte Hak ltac:(lia) Hta) as (Hpa & Hfok).
  rewrite (proj2 (Z.eqb_neq _ _) Hpa).
  change (P2V ((physicalAdress pte * 4096) mod 2 ^ 32)) with (table_of pte).
  set (f := table_of pte) in *.
  destruct Hfok as [(Hkp & Hke & Hph) Hnal].
  destruct (kpage_frame f Hkp) as (Hv2p & _).
  destruct (kfree_spec c s f Hl (proj1 Hkp) Hke ltac:(lia))
    as (s1 & Hfree & Hl1 & Hu1 & Hk1 & Hfl1 & Hm1).
  set (s2 := write_entry tb (PTX a) (mkEntry 0 0 0 (padding (mem s1 tb (PTX a))) 0) s1).
  assert (Hkm : (kfree c f ;;
                 modify (fun s0 => write_entry tb (PTX a)
                           (mkEntry 0 0 0 (padding (mem s0 tb (PTX a))) 0) s0)) s
                = Ret tt s2)
    by (unfold bind; rewrite Hfree; reflexivity).
  rewrite (ProcSpec.bind_ret _ _ _ _ _ Hkm).
  assert (Hm2 : forall p i, p <> f -> ~ (p = tb /\ i = PTX a) -> mem s2 p i = mem s p i).
  { intros p i Hp Hn. unfold s2, write_entry, set_mem. cbn [mem].
    destruct (Z.eqb_spec p tb) as [E1|E1]; [|now apply Hm1].
    destruct (Z.eqb_spec i (PTX a)) as [E2|E2]; [|now apply Hm1].
    exfalso. auto. }
  assert (Hd2 : forall i, mem s2 pgdir i = mem s pgdir i)
    by (eapply directory_frame; eauto).
  assert (Hap2 : tables_apart s2 pgdir) by (eapply tables_apart_ext; eauto).
  assert (Htr2 : forall va, 0 <= va < KERNBASE -> va / 4096 <> a / 4096 ->
                   translate s2 pgdir va = translate s pgdir va).
  { intros va Hva Hne. apply (translate_frame s s2 pgdir a f va); auto. }
  assert (Hta2 : translate s2 pgdir a = None).
  { rewrite translate_at by (rewrite Hd2; exact P). cbv zeta.
    rewrite Hd2. fold tb. unfold s2. simpl.
    rewrite !Z.eqb_refl. reflexivity. }
  destruct (IH (a + 4096) s2) as (s' & Hrun & Hl' & Hu & Hk & Hd & Hout & Hin & Hfl & Hback);
    auto; try lia.
  { intros va e Hva Hr He.
    rewrite Htr2 in He by (auto; intros E; apply Hpgi in E; lia).
    destruct (Hfr va e Hva ltac:(lia) He) as [H1 H2]. split; [exact H1|].
    eapply frame_ok_ext; [| |exact H2]; auto. }
  exists s'. split; [exact Hrun|]. split; [exact Hl'|].
  split; [rewrite Hu; exact Hu1|]. split; [rewrite Hk; exact Hk1|].
  split; [intros i; rewrite Hd; apply Hd2|].
  split; [|split; [|split]].
  - intros va Hva Hn. rewrite Hout by (auto; lia).
    apply Htr2; auto. intros E. apply Hpgi in E. lia.
  - intros va Hva Hr. destruct (Z.lt_ge_cases va (a + 4096)) as [Hlo|Hhi].
    + rewrite Hout by (auto; lia).
      rewrite (translate_page s2 pgdir va a) by (auto; apply Hpg; lia).
      exact Hta2.
    + apply Hin; auto. lia.
  - intros p Hp. apply Hfl. unfold s2. simpl. rewrite Hfl1. now right.
  - intros va e Hva Hr He. destruct (Z.lt_ge_cases va (a + 4096)) as [Hlo|Hhi].
    + rewrite (translate_page s pgdir va a) in He by (auto; apply Hpg; lia).
      rewrite Hta in He.
      injection He as <-. apply Hfl. unfold s2. simpl. rewrite Hfl1. now left.
    + eapply Hback; eauto; [lia|].
      rewrite Htr2; auto. intros E. apply Hpgi in E. lia.
Qed.


Lemma maps_to_ext s s' pgdir va f :
  translate s' pgdir va = translate s pgdir va ->
  maps_to s pgdir va f -> maps_to s' pgdir va f.
Proof. intros E [Hk [pad H]]. split; [exact Hk|]. exists pad. now rewrite E. Qed.

Lemma maps_to_fun s pgdir va f g :
  maps_to s pgdir va f -> maps_to s pgdir va g -> f = g.
Proof.
  intros [Hf [pf Ef]] [Hg [pg Eg]]. rewrite Ef in Eg.
  injection Eg as _ E. now apply frame_number_inj.
Qed.

Lemma maps_to_page s pgdir va va' f :
  0 <= va < KERNBASE -> 0 <= va' < KERNBASE -> va / 4096 = va' / 4096 ->
  maps_to s pgdir va f -> maps_to s pgdir va' f.
Proof.
  unfold KERNBASE. intros H H' E [Hk [pad Hm]]. split; [exact Hk|].
  exists pad. rewrite <- Hm. apply translate_page; auto; lia.
Qed.

Lemma pgdir_ok_ext s s' pgdir :
  (forall i, mem s' pgdir i = mem s pgdir i) ->
  (forall p, In p (freelist s') -> In p (freelist s)) ->
  pgdir_ok s pgdir -> pgdir_ok s' pgdir.
Proof.
  intros Hm Hf [Ht Hn]. split; [eapply tables_apart_ext; eauto|].
  intros p Hp Hin. apply (Hn p); auto.
  eapply allocated_ext; [|exact Hp]. intros i. symmetry. apply Hm.
Qed.

Lemma data_frame_ext pgdir s0 s s' f :
  (forall i, mem s' pgdir i = mem s pgdir i) ->
  (forall p, In p (freelist s') -> In p (freelist s)) ->
  (forall i, mem s' f i = mem s f i) ->
  data_frame pgdir s0 s f -> data_frame pgdir s0 s' f.
Proof.
  intros Hm Hf Hz (H0 & Hn & Ha & Hzero). split; [exact H0|].
  split; [intros Hin; apply Hn; auto|]. split.
  - intros Hal. apply Ha. eapply allocated_ext; [|exact Hal].
    intros i. symmetry. apply Hm.
  - intros i. rewrite Hz. apply Hzero.
Qed.

(** A change of memory outside the page table leaves every translation of
    the user half alone. *)
Lemma translate_data s s' pgdir va :
  0 <= va < KERNBASE ->
  (forall p i, allocated s pgdir p -> mem s' p i = mem s p i) ->
  translate s' pgdir va = translate s pgdir va.
Proof.
  intros Hva Hm. pose proof (PDX_user _ Hva). apply translate_ext.
  - apply Hm. now left.
  - intros P. apply Hm. right. exists (PDX va). auto.
Qed.

(** [kalloc] and [memset] for the page at [a]. *)
Lemma take_frame c pgdir lo s0 s a m rest s1 :
  free_ok s0 -> growing c pgdir lo s0 None s a -> freelist s = m :: rest ->
  lock_ok c s1 -> use_lock s1 = use_lock s -> kend s1 = kend s ->
  freelist s1 = rest ->
  (forall p i, mem s1 p i = if p =? m then zero_entry else mem s p i) ->
  growing c pgdir lo s0 (Some m) s1 a.
Proof.
  intros [_ Hfree0] G Hfl Hl1 Hu1 Hk1 Hfl1 Hm1.
  destruct G as [Hr Hl Hu Hk Hnd Hincl Hpg Hacc Hout Hmap Hdis Hpend].
  rewrite Hfl in *.
  assert (Hnm : ~ allocated s pgdir m).
  { intros Ha. apply (proj2 Hpg m Ha). rewrite Hfl. now left. }
  assert (Hsame : forall p i, p <> m -> mem s1 p i = mem s p i).
  { intros p i Hp. rewrite Hm1. now rewrite (proj2 (Z.eqb_neq _ _) Hp). }
  assert (Hal : forall p i, allocated s pgdir p -> mem s1 p i = mem s p i).
  { intros p i Ha. apply Hsame. intros ->. auto. }
  assert (Hd : forall i, mem s1 pgdir i = mem s pgdir i)
    by (intros i; apply Hal; now left).
  assert (Htr : forall va, 0 <= va < KERNBASE ->
                  translate s1 pgdir va = translate s pgdir va)
    by (intros; now apply translate_data).
  assert (Hsub : forall p, In p (freelist s1) -> In p (freelist s)).
  { intros p Hp. rewrite Hfl1 in Hp. rewrite Hfl. now right. }
  apply NoDup_cons in Hnd as [Hnotin Hnd']. rewrite list_elem_of_In in Hnotin.
  constructor; auto.
  - congruence.
  - congruence.
  - rewrite Hfl1. exact Hnd'.
  - intros p Hp. apply Hincl. rewrite Hfl1 in Hp. now right.
  - eapply pgdir_ok_ext; eauto.
  - intros p Hp. destruct (Hacc p Hp) as [[->|Hin]|[Ha|[Hn|(va & Hva & Hmp)]]].
    + right. right. now left.
    + left. now rewrite Hfl1.
    + right. left. eapply allocated_ext; eauto.
    + discriminate.
    + right. right. right. exists va. split; [exact Hva|].
      eapply maps_to_ext; [|exact Hmp]. apply Htr. lia.
  - intros va Hva Hn. rewrite Htr by exact Hva. auto.
  - intros va Hva. destruct (Hmap va Hva) as (f & Hdf & Hmp).
    exists f. split.
    + eapply data_frame_ext; eauto. intros i. apply Hsame.
      intros ->. apply (proj1 (proj2 Hdf)). rewrite Hfl. now left.
    + eapply maps_to_ext; [|exact Hmp]. apply Htr. lia.
  - intros va va' f Hva Hva' H1 H2. apply (Hdis va va' f); auto.
    + eapply maps_to_ext; [|exact H1]. symmetry. apply Htr. lia.
    + eapply maps_to_ext; [|exact H2]. symmetry. apply Htr. lia.
  - intros f [= <-]. split.
    + split; [apply Hincl; now left|]. split; [now rewrite Hfl1|].
      split.
      * intros Ha. apply Hnm. eapply allocated_ext; [|exact Ha].
        intros i. symmetry. apply Hd.
      * intros i. rewrite Hm1, Z.eqb_refl. reflexivity.
    + intros va Hva Hmp.
      destruct (Hmap va Hva) as (f & Hdf & Hmf).
      assert (f = m).
      { eapply maps_to_fun; [exact Hmf|].
        eapply maps_to_ext; [|exact Hmp]. symmetry. apply Htr. lia. }
      subst f. apply (proj1 (proj2 Hdf)). rewrite Hfl. now left.
Qed.


(** [walkpgdir] adding the page table of the page at [a]. *)
Lemma install_table c pgdir lo s0 pend y a t rest y1 pde' :
  growing c pgdir lo s0 pend y a -> a < KERNBASE ->
  present (mem y pgdir (PDX a)) <> 1 -> freelist y = t :: rest ->
  lock_ok c y1 -> use_lock y1 = use_lock y -> kend y1 = kend y ->
  freelist y1 = rest ->
  present pde' = 1 -> table_of pde' = t ->
  (forall p i, mem y1 p i = if (p =? pgdir) && (i =? PDX a) then pde'
                            else if p =? t then zero_entry else mem y p i) ->
  growing c pgdir lo s0 pend y1 a /\
  present (mem y1 pgdir (PDX a)) = 1 /\ table_of (mem y1 pgdir (PDX a)) = t /\
  (forall i, mem y1 t i = zero_entry).
Proof.
  intros G Hak P Hfl Hl1 Hu1 Hk1 Hfl1 Pp Tp Hm1.
  destruct G as [Hr Hl Hu Hk Hnd Hincl Hpg Hacc Hout Hmap Hdis Hpend].
  assert (Ha : 0 <= a < KERNBASE) by lia.
  pose proof (PDX_user _ Ha) as Hda.
  rewrite Hfl in *.
  apply NoDup_cons in Hnd as [Hnotin Hnd']. rewrite list_elem_of_In in Hnotin.
  destruct Hpg as [[Hne Hinj] Hnf].
  assert (Hnt : ~ allocated y pgdir t).
  { intros Hal. apply (Hnf t Hal). rewrite Hfl. now left. }
  assert (Htp : t <> pgdir) by (intros ->; apply Hnt; now left).
  assert (Hpde : forall i, mem y1 pgdir i = if i =? PDX a then pde' else mem y pgdir i).
  { intros i. rewrite Hm1, Z.eqb_refl. simpl.
    destruct (i =? PDX a); [reflexivity|].
    now rewrite (proj2 (Z.eqb_neq pgdir t)) by auto. }
  assert (Hpa : mem y1 pgdir (PDX a) = pde') by (rewrite Hpde, Z.eqb_refl; reflexivity).
  assert (Hzero : forall i, mem y1 t i = zero_entry).
  { intros i. rewrite Hm1. rewrite (proj2 (Z.eqb_neq t pgdir)) by auto.
    simpl. now rewrite Z.eqb_refl. }
  assert (Hsame : forall p i, p <> pgdir -> p <> t -> mem y1 p i = mem y p i).
  { intros p i H1 H2. rewrite Hm1.
    rewrite (proj2 (Z.eqb_neq p pgdir)), (proj2 (Z.eqb_neq p t)) by auto.
    reflexivity. }
  assert (Hold : forall i, 0 <= i < 512 -> present (mem y pgdir i) = 1 ->
                   mem y1 pgdir i = mem y pgdir i).
  { intros i Hi Hp. rewrite Hpde.
    destruct (Z.eqb_spec i (PDX a)) as [->|]; [contradiction|reflexivity]. }
  assert (Hup : forall p, allocated y pgdir p -> allocated y1 pgdir p).
  { intros p [->|(i & Hi & Hp & Ht)]; [now left|].
    right. exists i. rewrite (Hold i Hi Hp). auto. }
  assert (Hdown : forall p, allocated y1 pgdir p -> allocated y pgdir p \/ p = t).
  { intros p [->|(i & Hi & Hp & Ht)]; [left; now left|].
    rewrite Hpde in Hp, Ht. destruct (Z.eqb_spec i (PDX a)) as [->|Hn].
    - right. congruence.
    - left. right. exists i. auto. }
  assert (Htr : forall va, 0 <= va < KERNBASE ->
                  translate y1 pgdir va = translate y pgdir va).
  { intros va Hva. pose proof (PDX_user _ Hva) as Hdv.
    destruct (Z.eq_dec (PDX va) (PDX a)) as [E|E].
    - rewrite (translate_absent y) by (rewrite E; exact P).
      unfold translate. rewrite E, Hpa, Pp, Tp, Hzero. reflexivity.
    - apply translate_ext.
      + rewrite Hpde. now rewrite (proj2 (Z.eqb_neq _ _) E).
      + intros Pv. apply Hsame.
        * now apply Hne.
        * intros Et. apply Hnt. right. exists (PDX va). auto. }
  assert (Hdf : forall f, data_frame pgdir s0 y f -> data_frame pgdir s0 y1 f).
  { intros f (H0 & Hn & Hna & Hz). split; [exact H0|].
    assert (f <> t) by (intros ->; apply Hn; rewrite Hfl; now left).
    assert (f <> pgdir) by (intros ->; apply Hna; now left).
    split; [|split].
    - rewrite Hfl1. intros Hin. apply Hn. rewrite Hfl. now right.
    - intros Hal. destruct (Hdown f Hal); auto.
    - intros i. rewrite Hsame by auto. apply Hz. }
  split; [|auto].
  - constructor; auto.
    + congruence.
    + congruence.
    + now rewrite Hfl1.
    + intros p Hp. apply Hincl. rewrite Hfl1 in Hp. now right.
    + split; [split|].
      * intros i Hi Hp. rewrite Hpde in *.
        destruct (Z.eqb_spec i (PDX a)); [congruence|now apply Hne].
      * intros i j Hi Hj. rewrite !Hpde.
        destruct (Z.eqb_spec i (PDX a)) as [->|Ei];
          destruct (Z.eqb_spec j (PDX a)) as [->|Ej]; auto.
        -- intros _ Pj Et. exfalso. apply Hnt. right. exists j.
           split; [exact Hj|]. split; [exact Pj|]. congruence.
        -- intros Pi _ Et. exfalso. apply Hnt. right. exists i.
           split; [exact Hi|]. split; [exact Pi|]. congruence.
      * intros p Hal. rewrite Hfl1. intros Hin.
        destruct (Hdown p Hal) as [Hy| ->]; [|contradiction].
        apply (Hnf p Hy). rewrite Hfl. now right.
    + intros p Hp. destruct (Hacc p Hp) as [[->|Hin]|[Hal|[Hn|(va & Hva & Hmp)]]].
      * right. left. right. exists (PDX a). rewrite Hpa. auto.
      * left. now rewrite Hfl1.
      * right. left. auto.
      * right. right. now left.
      * right. right. right. exists va. split; [exact Hva|].
        eapply maps_to_ext; [|exact Hmp]. apply Htr. lia.
    + intros va Hva Hn. rewrite Htr by exact Hva. auto.
    + intros va Hva. destruct (Hmap va Hva) as (f & Hf & Hmp).
      exists f. split; [auto|].
      eapply maps_to_ext; [|exact Hmp]. apply Htr. lia.
    + intros va va' f Hva Hva' H1 H2. apply (Hdis va va' f); auto.
      * eapply maps_to_ext; [|exact H1]. symmetry. apply Htr. lia.
      * eapply maps_to_ext; [|exact H2]. symmetry. apply Htr. lia.
    + intros f Hf. destruct (Hpend f Hf) as [H1 H2]. split; [auto|].
      intros va Hva Hmp. apply (H2 va Hva).
      eapply maps_to_ext; [|exact Hmp]. symmetry. apply Htr. lia.
  - rewrite Hpa. auto.
Qed.

(** [mappages] writing the entry of the page at [a]. *)
Lemma set_pte c pgdir lo s0 z a m pad z1 :
  free_ok s0 ->
  growing c pgdir lo s0 (Some m) z a -> a < KERNBASE ->
  present (mem z pgdir (PDX a)) = 1 ->
  lock_ok c z1 -> use_lock z1 = use_lock z -> kend z1 = kend z ->
  freelist z1 = freelist z ->
  (forall p i, mem z1 p i
               = if (p =? table_of (mem z pgdir (PDX a))) && (i =? PTX a)
                 then mkEntry 1 1 1 pad ((m - KERNBASE) / 4096)
                 else mem z p i) ->
  growing c pgdir lo s0 None z1 (a + 4096).
Proof.
  intros [_ Hfree0] G Hak P Hl1 Hu1 Hk1 Hfl1 Hm1.
  destruct G as [Hr Hl Hu Hk Hnd Hincl Hpg Hacc Hout Hmap Hdis Hpend].
  destruct Hr as (Hlo & Hhi & Hlal & Hal).
  assert (Ha : 0 <= a < KERNBASE) by lia.
  pose proof (PDX_user _ Ha) as Hda.
  set (tb := table_of (mem z pgdir (PDX a))) in *.
  destruct (Hpend m eq_refl) as [(Hm0 & Hmn & Hma & Hmz) Hmfresh].
  assert (Hkm : kpage m) by (apply Hfree0; exact Hm0).
  destruct Hpg as [Hap Hnf]. pose proof Hap as [Hne Hinj].
  assert (Htb : allocated z pgdir tb) by (right; exists (PDX a); auto).
  assert (Hsame : forall p i, ~ (p = tb /\ i = PTX a) -> mem z1 p i = mem z p i).
  { intros p i Hn. rewrite Hm1.
    destruct (Z.eqb_spec p tb); [|reflexivity].
    destruct (Z.eqb_spec i (PTX a)); [|reflexivity]. exfalso. auto. }
  assert (Hd : forall i, mem z1 pgdir i = mem z pgdir i).
  { intros i. apply Hsame. intros [E _]. exact (Hne _ Hda P (eq_sym E)). }
  assert (Htr : forall va, 0 <= va < KERNBASE -> va / 4096 <> a / 4096 ->
                  translate z1 pgdir va = translate z pgdir va).
  { intros va Hva Hn. apply (translate_frame z z1 pgdir a m va); auto. }
  assert (Hta : translate z1 pgdir a
                = Some (mkEntry 1 1 1 pad ((m - KERNBASE) / 4096))).
  { rewrite translate_at by (rewrite Hd; exact P). cbv zeta.
    rewrite Hd. fold tb. rewrite Hm1, !Z.eqb_refl. reflexivity. }
  assert (Hnew : forall va, a <= va < a + 4096 -> maps_to z1 pgdir va m).
  { intros va Hva. split; [exact Hkm|]. exists pad. rewrite <- Hta.
    unfold KERNBASE in *. pose proof (aligned_eq a Hal).
    apply translate_page; try lia. now apply page_of. }
  assert (Hold : forall va f, lo <= va < a ->
                   maps_to z1 pgdir va f <-> maps_to z pgdir va f).
  { intros va f Hva.
    assert (E : translate z1 pgdir va = translate z pgdir va).
    { apply Htr; [lia|]. intros E. apply page_of_inv in E; auto. lia. }
    split; apply maps_to_ext; auto. }
  assert (Hdf : forall f, data_frame pgdir s0 z f -> data_frame pgdir s0 z1 f).
  { intros f Hf. eapply data_frame_ext; eauto.
    - intros p. now rewrite Hfl1.
    - intros i. apply Hsame. intros [-> _]. apply (proj1 (proj2 (proj2 Hf))). exact Htb. }
  assert (Hkb : a + 4096 <= KERNBASE).
  { pose proof (aligned_eq a Hal). unfold KERNBASE in *. lia. }
  assert (Hal' : (a + 4096) mod 4096 = 0).
  { rewrite <- Zplus_mod_idemp_l, Hal. reflexivity. }
  constructor; auto.
  - repeat split; auto; lia.
  - congruence.
  - congruence.
  - now rewrite Hfl1.
  - intros p. rewrite Hfl1. auto.
  - eapply pgdir_ok_ext; eauto; [|split; auto]. intros p. now rewrite Hfl1.
  - intros p Hp. destruct (Hacc p Hp) as [Hin|[Hal0|[[= ->]|(va & Hva & Hmp)]]].
    + left. now rewrite Hfl1.
    + right. left. eapply allocated_ext; eauto.
    + right. right. right. exists a. split; [lia|]. apply Hnew. lia.
    + right. right. right. exists va. split; [lia|]. now apply Hold.
  - intros va Hva Hn. rewrite Htr; auto.
    + apply Hout; auto. lia.
    + intros E. apply page_of_inv in E; auto. lia.
  - intros va Hva. destruct (Z.lt_ge_cases va a) as [Hlt|Hge].
    + destruct (Hmap va ltac:(lia)) as (f & Hf & Hmp).
      exists f. split; [auto|]. apply Hold; auto. lia.
    + exists m. split; [|apply Hnew; lia].
      apply Hdf. repeat split; auto.
  - intros va va' f Hva Hva'.
    destruct (Z.lt_ge_cases va a) as [Hlt|Hge];
      destruct (Z.lt_ge_cases va' a) as [Hlt'|Hge'].
    + rewrite !Hold by lia. apply Hdis; lia.
    + intros H1 H2. exfalso.
      assert (f = m) by (eapply maps_to_fun; [exact H2|apply Hnew; lia]).
      subst f. apply (Hmfresh va ltac:(lia)). apply Hold; auto. lia.
    + intros H1 H2. exfalso.
      assert (f = m) by (eapply maps_to_fun; [exact H1|apply Hnew; lia]).
      subst f. apply (Hmfresh va' ltac:(lia)). apply Hold; auto. lia.
    + intros _ _. rewrite (page_of a va), (page_of a va'); auto; lia.
  - intros f [=].
Qed.


(** [walkpgdir] with [alloc] set on an absent directory entry. *)
Lemma walkpgdir_alloc c pgdir va s :
  lock_ok c s -> present (mem s pgdir (PDX va)) <> 1 ->
  match freelist s with
  | [] =>
      exists s1, walkpgdir c pgdir va 1 s = Ret None s1 /\ lock_ok c s1 /\
                 use_lock s1 = use_lock s /\ kend s1 = kend s /\
                 freelist s1 = [] /\ forall p i, mem s1 p i = mem s p i
  | t :: rest =>
      t <> 0 ->
      exists s1, walkpgdir c pgdir va 1 s = Ret (Some (t, PTX va)) s1 /\
                 lock_ok c s1 /\
                 use_lock s1 = use_lock s /\ kend s1 = kend s /\
                 freelist s1 = rest /\
                 forall p i,
                   mem s1 p i
                   = if (p =? pgdir) && (i =? PDX va)
                     then mkEntry 1 1 1 (padding (mem s pgdir (PDX va)))
                                  (Z.land (Z.shiftr (V2P t) 12) 0xfffff)
                     else if p =? t then zero_entry else mem s p i
  end.
Proof.
  intros Hl P. destruct (kalloc_spec c s Hl) as (m' & Hk & Hl').
  assert (Hw : walkpgdir c pgdir va 1 s
               = bind (kalloc c) (fun pgtab =>
                   if pgtab =? 0 then ret None
                   else modify (memset_page pgtab 0) ;;
                        modify (write_entry pgdir (PDX va)
                                  (mkEntry 1 1 1 (padding (mem s pgdir (PDX va)))
                                     (Z.land (Z.shiftr (V2P pgtab) 12) 0xfffff))) ;;
                        ret (Some (pgtab, PTX va))) s).
  { unfold walkpgdir. unfold bind at 1. unfold gets at 1.
    rewrite (proj2 (Z.eqb_neq _ _) P). reflexivity. }
  rewrite (ProcSpec.bind_ret _ _ _ _ _ Hk) in Hw.
  destruct (freelist s) as [|t rest] eqn:Hfl; cbn [hd tl] in Hw.
  - rewrite Hw. eexists. split; [reflexivity|]. simpl. auto.
  - intros Ht. rewrite Hw, (proj2 (Z.eqb_neq _ _) Ht).
    eexists. split; [reflexivity|]. simpl. repeat split; auto.
Qed.

Lemma mappages_aligned c pgdir a pa perm :
  0 <= a < KERNBASE -> a mod 4096 = 0 ->
  mappages c pgdir a PGSIZE pa perm = mappages_loop 0 c pgdir a a pa perm.
Proof.
  intros Ha Hal. unfold mappages, PGSIZE, KERNBASE in *.
  pose proof (aligned_eq a Hal) as E.
  assert (H1 : PGROUNDDOWN a = a) by (rewrite PGROUNDDOWN_eq by lia; lia).
  assert (H2 : PGROUNDDOWN ((a + 4096 - 1) mod 2 ^ 32) = a).
  { rewrite Z.mod_small by lia. rewrite PGROUNDDOWN_eq by lia.
    replace ((a + 4096 - 1) / 4096) with (a / 4096); [lia|].
    apply Z.div_unique with (r := 4095); lia. }
  cbv zeta. rewrite H1, H2, Z.sub_diag. reflexivity.
Qed.

(** The invariant does not look at the lock machine. *)
Lemma growing_same c pgdir lo s0 pend s s' a :
  growing c pgdir lo s0 pend s a ->
  lock_ok c s' -> use_lock s' = use_lock s -> kend s' = kend s ->
  freelist s' = freelist s -> (forall p i, mem s' p i = mem s p i) ->
  growing c pgdir lo s0 pend s' a.
Proof.
  intros G Hl' Hu' Hk' Hf' Hm'.
  destruct G as [Hr Hl Hu Hk Hnd Hincl Hpg Hacc Hout Hmap Hdis Hpend].
  assert (Htr : forall va, translate s' pgdir va = translate s pgdir va).
  { intros va. apply translate_ext; intros; apply Hm'. }
  assert (Hsub : forall p, In p (freelist s') -> In p (freelist s))
    by (intros p; now rewrite Hf').
  assert (Hdf : forall f, data_frame pgdir s0 s f -> data_frame pgdir s0 s' f)
    by (intros f; apply data_frame_ext; auto).
  constructor; auto.
  - congruence.
  - congruence.
  - now rewrite Hf'.
  - eapply pgdir_ok_ext; eauto.
  - intros p Hp. destruct (Hacc p Hp) as [Hin|[Hal0|[Hpd|(va & Hva & Hmp)]]].
    + left. now rewrite Hf'.
    + right. left. eapply allocated_ext; eauto.
    + right. right. now left.
    + right. right. right. exists va. split; [exact Hva|].
      eapply maps_to_ext; [|exact Hmp]. apply Htr.
  - intros va Hva Hn. rewrite Htr. auto.
  - intros va Hva. destruct (Hmap va Hva) as (f & Hf & Hmp).
    exists f. split; [auto|]. eapply maps_to_ext; [|exact Hmp]. apply Htr.
  - intros va va' f Hva Hva' H1 H2. apply (Hdis va va' f); auto.
    + eapply maps_to_ext; [|exact H1]. symmetry. apply Htr.
    + eapply maps_to_ext; [|exact H2]. symmetry. apply Htr.
  - intros f Hf. destruct (Hpend f Hf) as [H1 H2]. split; [auto|].
    intros va Hva Hmp. apply (H2 va Hva).
    eapply maps_to_ext; [|exact Hmp]. symmetry. apply Htr.
Qed.


Lemma mappages_present c pgdir lo s0 z a m :
  free_ok s0 ->
  growing c pgdir lo s0 (Some m) z a -> a < KERNBASE ->
  present (mem z pgdir (PDX a)) = 1 ->
  present (mem z (table_of (mem z pgdir (PDX a))) (PTX a)) = 0 ->
  exists z1, mappages_loop 0 c pgdir a a (V2P m) (Z.lor PTE_W PTE_U) z = Ret 0 z1 /\
             growing c pgdir lo s0 None z1 (a + 4096).
Proof.
  intros Hfree G Hak P P0.
  assert (Hkm : kpage m).
  { apply Hfree. apply (g_pend _ _ _ _ _ _ _ G m eq_refl). }
  destruct (kpage_frame m Hkm) as (_ & Hsh & _).
  cbn [mappages_loop].
  rewrite (ProcSpec.bind_ret _ _ _ _ _ (walkpgdir_present c pgdir a 1 z P)).
  cbv beta iota. unfold bind at 1. unfold gets at 1.
  rewrite P0. cbn [Z.eqb negb]. unfold bind, modify. rewrite Z.eqb_refl.
  eexists. split; [reflexivity|].
  apply (set_pte c pgdir lo s0 z a m
           (padding (mem z (table_of (mem z pgdir (PDX a))) (PTX a)))); auto.
  - exact (g_lock _ _ _ _ _ _ _ G).
  - intros p i. unfold write_entry, set_mem. cbn [mem]. rewrite Hsh. reflexivity.
Qed.

(** [mappages] for the page at [a] and the frame taken for it: the page
    is mapped, or no page table could be had and nothing changed. *)
Lemma mappages_growing c pgdir lo s0 x a m :
  free_ok s0 ->
  growing c pgdir lo s0 (Some m) x a -> a < KERNBASE ->
  translate x pgdir a = None ->
  exists r x',
    mappages c pgdir a PGSIZE (V2P m) (Z.lor PTE_W PTE_U) x = Ret r x' /\
    ((r = 0 /\ growing c pgdir lo s0 None x' (a + 4096)) \/
     (r = -1 /\ growing c pgdir lo s0 (Some m) x' a)).
Proof.
  intros Hfree G Hak Hnone.
  pose proof (g_range _ _ _ _ _ _ _ G) as (Hlo & Hhi & Hlal & Hal).
  rewrite mappages_aligned by (auto; lia).
  destruct (Z.eq_dec (present (mem x pgdir (PDX a))) 1) as [P|P].
  { rewrite translate_at in Hnone by exact P. cbv zeta in Hnone.
    destruct (Z.eqb_spec (present (mem x (table_of (mem x pgdir (PDX a))) (PTX a))) 0)
      as [P0|P0]; [|discriminate].
    destruct (mappages_present c pgdir lo s0 x a m Hfree G Hak P P0) as (z1 & Hrun & G1).
    exists 0, z1. split; [exact Hrun|]. left. auto. }
  pose proof (walkpgdir_alloc c pgdir a x (g_lock _ _ _ _ _ _ _ G) P) as Hw.
  destruct (freelist x) as [|t rest] eqn:Hfl.
  - destruct Hw as (x1 & Hrun & Hl1 & Hu1 & Hk1 & Hf1 & Hm1).
    exists (-1), x1. split.
    + cbn [mappages_loop]. rewrite (ProcSpec.bind_ret _ _ _ _ _ Hrun). reflexivity.
    + right. split; [reflexivity|].
      eapply growing_same; eauto. congruence.
  - assert (Hkt : kpage t).
    { apply Hfree. apply (g_incl _ _ _ _ _ _ _ G). rewrite Hfl. now left. }
    destruct (kpage_frame t Hkt) as (_ & _ & Hland & _).
    destruct Hw as (y1 & Hrun & Hl1 & Hu1 & Hk1 & Hf1 & Hm1).
    { destruct Hkt as [_ Hr]. unfold KERNBASE in Hr. lia. }
    destruct (install_table c pgdir lo s0 (Some m) x a t rest y1
                (mkEntry 1 1 1 (padding (mem x pgdir (PDX a)))
                         (Z.land (Z.shiftr (V2P t) 12) 0xfffff)))
      as (G1 & P1 & T1 & Z1); auto.
    { rewrite Hland. now apply table_of_frame. }
    destruct (mappages_present c pgdir lo s0 y1 a m Hfree G1 Hak P1) as (z1 & Hrun1 & G2).
    { rewrite T1, Z1. reflexivity. }
    exists 0, z1. split; [|left; auto].
    cbn [mappages_loop] in *.
    rewrite (ProcSpec.bind_ret _ _ _ _ _ Hrun).
    rewrite (ProcSpec.bind_ret _ _ _ _ _ (walkpgdir_present c pgdir a 1 y1 P1)) in Hrun1.
    rewrite T1 in Hrun1. exact Hrun1.
Qed.


Lemma PGROUNDUP_facts sz :
  0 <= sz < KERNBASE ->
  sz <= PGROUNDUP sz < sz + 4096 /\ PGROUNDUP sz mod 4096 = 0 /\
  PGROUNDUP sz <= KERNBASE.
Proof.
  unfold KERNBASE. intros H. rewrite PGROUNDUP_eq by lia.
  pose proof (Z.div_mod (sz + 4095) 4096 ltac:(lia)).
  pose proof (Z.mod_pos_bound (sz + 4095) 4096 ltac:(lia)).
  split; [lia|]. split.
  - rewrite Z.mul_comm. apply Z.mod_mul. lia.
  - assert ((sz + 4095) / 4096 <= 524288); [|lia].
    apply Z.lt_succ_r. apply Z.div_lt_upper_bound; lia.
Qed.

Lemma PGROUNDUP_mono a b : 0 <= a <= b -> b < KERNBASE -> PGROUNDUP a <= PGROUNDUP b.
Proof.
  unfold KERNBASE. intros H Hb. rewrite !PGROUNDUP_eq by lia.
  assert ((a + 4095) / 4096 <= (b + 4095) / 4096) by (apply Z.div_le_mono; lia).
  lia.
Qed.

Lemma mapped_entry s pgdir va f e :
  maps_to s pgdir va f -> translate s pgdir va = Some e ->
  (physicalAdress e * 4096) mod 2 ^ 32 <> 0 /\ table_of e = f.
Proof.
  intros [Hk [pad Hm]] He. rewrite Hm in He. injection He as <-.
  destruct (kpage_frame f Hk) as (_ & _ & _ & Hpos & E & _).
  split.
  - simpl. rewrite E. destruct Hk. lia.
  - now apply table_of_frame.
Qed.

(** The [deallocuvm] of the error paths of [allocuvm]: it returns, and the
    user half is as [allocuvm] found it. *)
Lemma rollback c pgdir oldsz newsz s0 pend s a :
  free_ok s0 -> 0 <= oldsz < newsz -> newsz < KERNBASE ->
  growing c pgdir (PGROUNDUP oldsz) s0 pend s a -> a <= PGROUNDUP newsz ->
  (forall va, PGROUNDUP oldsz <= va < PGROUNDUP newsz -> translate s0 pgdir va = None) ->
  exists s',
    deallocuvm c pgdir newsz oldsz s = Ret oldsz s' /\
    lock_ok c s' /\ use_lock s' = use_lock s /\ kend s' = kend s /\
    (forall i, mem s' pgdir i = mem s pgdir i) /\
    (forall va, 0 <= va < KERNBASE -> translate s' pgdir va = translate s0 pgdir va) /\
    (forall p, In p (freelist s0) ->
       In p (freelist s') \/ allocated s' pgdir p \/ pend = Some p).
Proof.
  intros [_ Hfree0] Hsz Hkb G Hatop Hunm.
  destruct G as [Hr Hl Hu Hk Hnd Hincl Hpg Hacc Hout Hmap Hdis Hpend].
  destruct Hr as (Hlo & Hhi & Hlal & Hal).
  destruct (PGROUNDUP_facts newsz ltac:(lia)) as (Ht1 & Ht2 & Ht3).
  destruct (PGROUNDUP_facts oldsz ltac:(lia)) as (Hl1 & _ & _).
  set (lo := PGROUNDUP oldsz) in *. set (top := PGROUNDUP newsz) in *.
  assert (Hlt : lo <= top) by lia.
  assert (Hturns : top - lo
                   <= 4096 * Z.of_nat (Z.to_nat ((newsz - lo + PGSIZE - 1) / PGSIZE))).
  { unfold PGSIZE. pose proof (aligned_eq lo Hlal) as El.
    pose proof (aligned_eq top Ht2) as Et.
    assert ((newsz - lo + 4096 - 1) / 4096 = top / 4096 - lo / 4096).
    { symmetry. apply Z.div_unique with (r := newsz - top + 4095); lia. }
    lia. }
  destruct (deallocuvm_loop_spec c pgdir newsz top ltac:(lia) Ht2 Ht3
              (Z.to_nat ((newsz - lo + PGSIZE - 1) / PGSIZE)) lo s
              ltac:(lia) Hlal Hturns Hl (proj1 Hpg))
    as (s' & Hrun & Hl' & Hu' & Hk' & Hd' & Hout' & Hin' & Hfl' & Hback').
  { intros va e Hva Hr He. destruct (Z.lt_ge_cases va a) as [Hlow|Hhigh].
    - destruct (Hmap va ltac:(lia)) as (f & (Hf0 & Hfn & Hfa & Hfz) & Hmp).
      destruct (mapped_entry s pgdir va f e Hmp He) as [Hpa <-].
      split; [exact Hpa|]. split; [|exact Hfa].
      destruct (Hfree0 _ Hf0) as (H1 & H2 & H3).
      unfold freeable. rewrite Hk. auto.
    - rewrite Hout, Hunm in He by (auto; lia). discriminate. }
  exists s'. split.
  { unfold deallocuvm. rewrite (proj2 (Z.leb_gt newsz oldsz)) by lia.
    cbv zeta. fold lo. unfold bind. rewrite Hrun. reflexivity. }
  repeat (split; [assumption|]). split.
  - intros va Hva. destruct (Z.lt_ge_cases va lo) as [H1|H1];
      [|destruct (Z.lt_ge_cases va top) as [H2|H2]].
    + rewrite Hout' by (auto; lia). apply Hout; auto. lia.
    + rewrite Hin' by (auto; lia). symmetry. apply Hunm. lia.
    + rewrite Hout' by (auto; lia). apply Hout; auto. lia.
  - intros p Hp. destruct (Hacc p Hp) as [Hin|[Hal0|[Hpd|(va & Hva & Hmp)]]].
    + left. auto.
    + right. left. eapply allocated_ext; eauto.
    + right. right. exact Hpd.
    + left. pose proof Hmp as [_ [pad Hm]].
      destruct (mapped_entry s pgdir va p _ Hmp Hm) as [_ <-].
      eapply Hback'; eauto; lia.
Qed.


(** The loop of [allocuvm] from any state it can reach: it returns, with
    every page mapped or with the user half as it was at the call. *)
Lemma allocuvm_loop_spec c pgdir oldsz newsz s0 :
  free_ok s0 -> 0 <= oldsz <= newsz -> newsz < KERNBASE ->
  (forall va, PGROUNDUP oldsz <= va < PGROUNDUP newsz -> translate s0 pgdir va = None) ->
  forall turns a s,
    growing c pgdir (PGROUNDUP oldsz) s0 None s a -> a <= PGROUNDUP newsz ->
    newsz - a <= 4096 * Z.of_nat turns ->
    exists r s',
      allocuvm_loop turns c pgdir oldsz newsz a s = Ret r s' /\
      ((r = newsz /\ growing c pgdir (PGROUNDUP oldsz) s0 None s' (PGROUNDUP newsz)) \/
       (r = 0 /\
        (forall va, 0 <= va < KERNBASE ->
           translate s' pgdir va = translate s0 pgdir va) /\
        (forall p, In p (freelist s0) -> In p (freelist s') \/ allocated s' pgdir p))).
Proof.
  intros Hfree Hsz Hkb Hunm.
  destruct (PGROUNDUP_facts newsz ltac:(lia)) as (Ht1 & Ht2 & Ht3).
  destruct (PGROUNDUP_facts oldsz ltac:(lia)) as (Hl1 & Hl2 & _).
  set (lo := PGROUNDUP oldsz) in *. set (top := PGROUNDUP newsz) in *.
  assert (Hdone : forall a s, growing c pgdir lo s0 None s a -> a <= top -> newsz <= a ->
            exists r s', Ret newsz s = Ret r s' /\
              ((r = newsz /\ growing c pgdir lo s0 None s' top) \/
               (r = 0 /\
                (forall va, 0 <= va < KERNBASE ->
                   translate s' pgdir va = translate s0 pgdir va) /\
                (forall p, In p (freelist s0) ->
                   In p (freelist s') \/ allocated s' pgdir p)))).
  { intros a s G H1 H2. exists newsz, s. split; [reflexivity|]. left.
    split; [reflexivity|].
    pose proof (g_range _ _ _ _ _ _ _ G) as (_ & _ & _ & Hal).
    assert (a = top); [|subst a; exact G].
    pose proof (aligned_eq a Hal). pose proof (aligned_eq top Ht2). lia. }
  induction turns as [|t IH]; intros a s G Hatop Hturns.
  { simpl. apply (Hdone a); auto. lia. }
  cbn [allocuvm_loop].
  destruct (Z.ltb_spec a newsz) as [Hlt|Hge]; [|apply (Hdone a); auto].
  pose proof (g_range _ _ _ _ _ _ _ G) as (Hlo & Hhi & _ & Hal).
  assert (Hnext : a + 4096 <= top).
  { pose proof (aligned_eq a Hal). pose proof (aligned_eq top Ht2). lia. }
  destruct (kalloc_spec c s (g_lock _ _ _ _ _ _ _ G)) as (m1 & Hk & Hl1').
  rewrite (ProcSpec.bind_ret _ _ _ _ _ Hk).
  set (sa := mkV m1 (use_lock s) (tl (freelist s)) (kend s) (mem s)) in *.
  assert (Hla : lock_ok c sa).
  { destruct Hl1' as [H|H]; [left|right]; exact H. }
  destruct (freelist s) as [|m rest] eqn:Hfl; cbn [hd tl] in *.
  - (* out of memory *)
    cbn [Z.eqb].
    assert (Ga : growing c pgdir lo s0 None sa a).
    { eapply growing_same; eauto. }
    destruct (rollback c pgdir oldsz newsz s0 None sa a Hfree ltac:(lia) Hkb Ga Hatop Hunm)
      as (s' & Hrun & Hl' & _ & _ & _ & Htr & Hacc).
    exists 0, s'. split.
    + unfold bind. rewrite Hrun. reflexivity.
    + right. split; [reflexivity|]. split; [exact Htr|].
      intros p Hp. destruct (Hacc p Hp) as [H|[H|H]]; auto. discriminate.
  - assert (Hkm : freeable s0 m).
    { apply Hfree. apply (g_incl _ _ _ _ _ _ _ G). rewrite Hfl. now left. }
    destruct Hkm as (Hkm & Hke & Hph).
    assert (Hm0 : m <> 0) by (destruct Hkm as [_ H]; unfold KERNBASE in H; lia).
    rewrite (proj2 (Z.eqb_neq _ _) Hm0).
    unfold bind at 1. unfold modify at 1.
    set (sb := memset_page m 0 sa).
    assert (Gb : growing c pgdir lo s0 (Some m) sb a).
    { apply (take_frame c pgdir lo s0 s a m rest sb); auto. }
    assert (Hnone : translate sb pgdir a = None).
    { rewrite (g_outside _ _ _ _ _ _ _ Gb) by lia. apply Hunm. lia. }
    destruct (mappages_growing c pgdir lo s0 sb a m Hfree Gb ltac:(lia) Hnone)
      as (r & x' & Hmap & [[-> Gx]|[-> Gx]]);
      rewrite (ProcSpec.bind_ret _ _ _ _ _ Hmap).
    + (* mapped: on to the next page *)
      cbn [Z.ltb Z.compare].
      assert (Ea : (a + PGSIZE) mod 2 ^ 32 = a + 4096).
      { unfold PGSIZE, KERNBASE in *. apply Z.mod_small. lia. }
      rewrite Ea. apply IH; auto. lia.
    + (* no page table: give everything back *)
      cbn [Z.ltb Z.compare].
      destruct (rollback c pgdir oldsz newsz s0 (Some m) x' a Hfree ltac:(lia) Hkb Gx
                  Hatop Hunm)
        as (s' & Hrun & Hl' & Hu' & Hk' & Hd' & Htr & Hacc).
      destruct (g_pend _ _ _ _ _ _ _ Gx m eq_refl) as [(_ & _ & Hna & _) _].
      assert (Hna' : ~ allocated s' pgdir m).
      { intros H. apply Hna. eapply allocated_ext; [|exact H].
        intros i. symmetry. apply Hd'. }
      destruct (kpage_frame m Hkm) as (Hv2p & _).
      destruct (kfree_spec c s' m Hl' (proj1 Hkm)) as (s'' & Hfr & Hl'' & _ & _ & Hfl'' & Hm'').
      { rewrite Hk'. rewrite (g_kend _ _ _ _ _ _ _ Gx). exact Hke. }
      { lia. }
      assert (Hsame : forall p i, allocated s' pgdir p -> mem s'' p i = mem s' p i).
      { intros p i Hp. apply Hm''. intros ->. auto. }
      exists 0, s''. split.
      * unfold bind. rewrite Hrun, Hfr. reflexivity.
      * right. split; [reflexivity|]. split.
        -- intros va Hva. rewrite <- Htr by exact Hva. now apply translate_data.
        -- intros p Hp. rewrite Hfl''. destruct (Hacc p Hp) as [H|[H|[= ->]]].
           ++ left. now right.
           ++ right. eapply allocated_ext; [|exact H].
              intros i. apply Hsame. now left.
           ++ left. now left.
Qed.


Lemma growing_start c pgdir lo s :
  0 <= lo <= KERNBASE -> lo mod 4096 = 0 ->
  lock_ok c s -> free_ok s -> pgdir_ok s pgdir ->
  growing c pgdir lo s None s lo.
Proof.
  intros Hlo Hal Hl [Hnd Hfr] Hpg.
  constructor; auto.
  - repeat split; auto; lia.
  - intros va Hva. lia.
  - intros va va' f Hva. lia.
  - intros f [=].
Qed.

Lemma unmapped_pages s pgdir lo hi :
  0 <= lo -> lo mod 4096 = 0 -> 0 <= hi < KERNBASE ->
  (forall va, lo <= va < hi -> translate s pgdir va = None) ->
  forall va, lo <= va < PGROUNDUP hi -> translate s pgdir va = None.
Proof.
  intros Hlo Hal Hhi Hun va Hva.
  destruct (PGROUNDUP_facts hi Hhi) as (H1 & H2 & H3).
  pose proof (aligned_eq lo Hal). pose proof (aligned_eq _ H2).
  pose proof (Z.div_mod va 4096 ltac:(lia)).
  pose proof (Z.mod_pos_bound va 4096 ltac:(lia)).
  unfold KERNBASE in *.
  rewrite (translate_page s pgdir va (4096 * (va / 4096))).
  - apply Hun. lia.
  - lia.
  - lia.
  - rewrite Z.mul_comm, Z.div_mul by lia. reflexivity.
Qed.



Lemma one_cpu_inv : inv one_cpu.
Proof.
  intros c Hc. simpl in Hc. unfold cpu_inv.
  destruct c as [|c]; simpl in *; try lia.
  split; [lia|].
  split; [vm_compute; discriminate | intros H; vm_compute in H; discriminate].
Defined.

Lemma empty_vm_lock_ok frames : lock_ok 0 (empty_vm frames).
Proof.
  right. split; [exact one_cpu_inv|]. simpl.
  split; [lia|]. split; [unfold kmem_lock; lia|reflexivity].
Defined.

Lemma empty_vm_pgdir_ok frames pgdir : ~ In pgdir frames -> pgdir_ok (empty_vm frames) pgdir.
Proof.
  intros Hn. split; [split|].
  - intros i _ H. discriminate H.
  - intros i j _ _ H. discriminate H.
  - intros p [->|(i & _ & H & _)]; [exact Hn|discriminate H].
Defined.

Lemma three_frames_free_ok : free_ok three_frames.
Proof.
  split.
  - simpl. apply NoDup_ListNoDup.
    repeat (constructor; [simpl; intros H; repeat destruct H as [H|H]; try discriminate H; exact H|]).
    constructor.
  - intros p H. simpl in H.
    repeat destruct H as [H|H]; try contradiction; subst p;
      (split; [split; [reflexivity|unfold KERNBASE; lia]|]);
      unfold KERNBASE, PHYSTOP; simpl; lia.
Defined.


(** With three free frames the growth to two pages succeeds: the first
    frame backs page 0, the second is the page table, the third backs
    page 1. *)
Example allocuvm_enough_frames :
  summary 0x803ff000 (allocuvm 0 0x803ff000 0 8192 three_frames)
  = Some (8192, [], Some 0x400, Some 0x402).
Proof. vm_compute. reflexivity. Qed.

(** With two free frames the second page cannot be allocated: the call
    returns 0, page 0 is unmapped again and its frame is free again; the
    page table stays. *)
Example allocuvm_out_of_frames :
  summary 0x803ff000 (allocuvm 0 0x803ff000 0 8192 two_frames)
  = Some (0, [0x80400000], None, None).
Proof. vm_compute. reflexivity. Qed.





(** X2.  [kalloc] returns 0 exactly when the free list is empty, and then
    leaves it empty; otherwise it returns a page of the free list, which
    is no longer on it, while every other page stays free.  It never
    writes to memory. *)
Theorem kalloc_null_iff_empty c s :
  lock_ok c s -> free_ok s ->
  exists r s',
    kalloc c s = Ret r s' /\
    (r = 0 <-> freelist s = []) /\
    (r = 0 -> freelist s' = []) /\
    (r <> 0 -> In r (freelist s) /\ ~ In r (freelist s') /\ freeable s r) /\
    (forall p, p <> r -> (In p (freelist s') <-> In p (freelist s))) /\
    lock_ok c s' /\ free_ok s' /\
    (forall p i, mem s' p i = mem s p i).
Proof.
  intros Hl [Hnd Hfr].
  destruct (kalloc_spec c s Hl) as (m' & Ha & Hl').
  exists (hd 0 (freelist s)), (mkV m' (use_lock s) (tl (freelist s)) (kend s) (mem s)).
  split; [exact Ha|]. simpl.
  destruct (freelist s) as [|f fl] eqn:E; simpl.
  - split; [tauto|]. split; [reflexivity|]. split; [intros H; contradiction|].
    split; [tauto|]. split; [exact Hl'|]. split; [|reflexivity].
    split; [constructor|]. intros p Hp; contradiction.
  - assert (Hf : freeable s f) by (apply Hfr; now left).
    assert (Hf0 : f <> 0).
    { destruct Hf as ((_ & H1) & _). unfold KERNBASE in H1. lia. }
    apply NoDup_cons in Hnd as [Hnin Hnd']. rewrite list_elem_of_In in Hnin.
    split; [split; [intros; contradiction|discriminate]|].
    split; [intros; contradiction|].
    split; [intros _; split; [now left|split; [exact Hnin|exact Hf]]|].
    split; [intros p Hp; split; [intros H; now right|intros [H|H]; [congruence|exact H]]|].
    split; [exact Hl'|].
    split; [|reflexivity].
    split; [exact Hnd'|]. intros p Hp.
    destruct (Hfr p (or_intror Hp)) as (H1 & H2 & H3). split; auto.
Qed.

Lemma kalloc_null_iff_empty_witness :
  exists r s', kalloc 0 three_frames = Ret r s' /\ r <> 0 /\ ~ In r (freelist s').
Proof.
  destruct (kalloc_null_iff_empty 0%nat three_frames
              (empty_vm_lock_ok _) three_frames_free_ok)
    as (r & s' & H & Hz & _ & Hnz & _).
  exists r, s'. split; [exact H|].
  assert (r <> 0).
  { intros E. apply Hz in E. discriminate E. }
  split; [assumption|]. now apply Hnz.
Defined.























Lemma one_page_directory i :
  present (mem one_page 0x803ff000 i) = 1 ->
  i = 0 /\ table_of (mem one_page 0x803ff000 i) = 0x80400000.
Proof.
  simpl. destruct (Z.eqb_spec i 0) as [->|Hi]; [intros _; split; reflexivity|].
  intros H; discriminate H.
Qed.

Lemma one_page_tables_apart : tables_apart one_page 0x803ff000.
Proof.
  split.
  - intros i _ H. destruct (one_page_directory i H) as [_ ->]. discriminate.
  - intros i j _ _ Hi Hj _.
    destruct (one_page_directory i Hi) as [-> _].
    destruct (one_page_directory j Hj) as [-> _]. reflexivity.
Qed.





Lemma PGROUNDDOWN_page va :
  0 <= va < 2 ^ 32 ->
  0 <= PGROUNDDOWN va < 2 ^ 32 /\ PGROUNDDOWN va / 4096 = va / 4096.
Proof.
  intros H. rewrite PGROUNDDOWN_eq by lia.
  pose proof (Z.mul_div_le va 4096 ltac:(lia)).
  assert (0 <= va / 4096) by (apply Z.div_pos; lia).
  split; [lia|]. rewrite Z.mul_comm, Z.div_mul by lia. reflexivity.
Qed.

(** X6.  The two ways [mappages] fails on its first page.  When the page
    of [va] is already present in the page table, it stops the kernel
    with [panic("remap")], whatever the size asked for.  When the page
    directory has no table for [va] and no page is free, it returns -1
    and leaves memory and the free list as they were. *)
Theorem mappages_remap_or_no_memory c pgdir va size pa perm s :
  0 <= va < 2 ^ 32 ->
  (forall e, translate s pgdir va = Some e ->
     mappages c pgdir va size pa perm s = Panic "remap") /\
  (lock_ok c s -> present (mem s pgdir (PDX va)) <> 1 -> freelist s = [] ->
     exists s', mappages c pgdir va size pa perm s = Ret (-1) s' /\
                freelist s' = [] /\ lock_ok c s' /\
                forall p i, mem s' p i = mem s p i).
Proof.
  intros Hva. destruct (PGROUNDDOWN_page va Hva) as [Hr Hp].
  set (a := PGROUNDDOWN va) in *.
  assert (Hd : PDX a = PDX va) by (rewrite !PDX_page, Hp by lia; reflexivity).
  split.
  - intros e He. rewrite (translate_page s pgdir va a Hva Hr (eq_sym Hp)) in He.
    destruct (translate_some _ _ _ _ He) as (Hpd & -> & Hpt).
    unfold mappages. cbv zeta. fold a.
    destruct (Z.to_nat _); simpl mappages_loop; unfold bind at 1;
      rewrite (walkpgdir_present c pgdir a 1 s Hpd); unfold bind at 1, gets;
      rewrite (proj2 (Z.eqb_neq _ _) Hpt); reflexivity.
  - intros Hl Hab Hfl. rewrite <- Hd in Hab.
    destruct (kalloc_spec c s Hl) as (m' & Hk & Hl').
    rewrite Hfl in Hk. simpl in Hk.
    eexists. split.
    + unfold mappages. cbv zeta. fold a.
      destruct (Z.to_nat _); simpl mappages_loop; unfold bind at 1;
        unfold walkpgdir, bind at 1, gets;
        rewrite (proj2 (Z.eqb_neq _ _) Hab); simpl; unfold bind at 1;
        rewrite Hk; reflexivity.
    + simpl. auto.
Qed.

Lemma mappages_remap_or_no_memory_witness :
  mappages 0 0x803ff000 0x123 4096 0x500000 6 one_page = Panic "remap".
Proof.
  destruct (mappages_remap_or_no_memory 0%nat 0x803ff000 0x123 4096 0x500000 6 one_page)
    as [H _]; [lia|].
  apply (H (mkEntry 1 1 1 0 0x401)). reflexivity.
Defined.


(** X7.  The guard page.  For a user address whose page is present,
    [uva2ka] returns the kernel address of its frame when the entry is
    for the user and 0 when it is not; [clearpteu] clears that permission
    and nothing else, so that afterwards [uva2ka] returns 0 for the
    address while the page stays present in the same frame.  For an
    address whose table is there but whose page is not, [uva2ka] returns
    0, and [clearpteu] panics when the table itself is missing. *)
Theorem clearpteu_hides_page_from_uva2ka c pgdir va s :
  0 <= va < KERNBASE -> tables_apart s pgdir ->
  (forall e, translate s pgdir va = Some e ->
     uva2ka c pgdir va s = Ret (if permission e =? 0 then 0 else table_of e) s /\
     exists s',
       clearpteu c pgdir va s = Ret tt s' /\
       uva2ka c pgdir va s' = Ret 0 s' /\
       translate s' pgdir va
       = Some (mkEntry (present e) (writable e) 0 (padding e) (physicalAdress e)) /\
       (forall p i, ~ (p = table_of (mem s pgdir (PDX va)) /\ i = PTX va) ->
          mem s' p i = mem s p i)) /\
  (present (mem s pgdir (PDX va)) = 1 -> translate s pgdir va = None ->
     uva2ka c pgdir va s = Ret 0 s) /\
  (present (mem s pgdir (PDX va)) <> 1 ->
     clearpteu c pgdir va s = Panic "clearpteu").
Proof.
  intros Hva [Hself _]. split; [|split].
  - intros e He. destruct (translate_some _ _ _ _ He) as (Hpd & Ee & Hpt).
    pose proof (Hself (PDX va) (PDX_user va Hva) Hpd) as Hne.
    set (t := table_of (mem s pgdir (PDX va))) in *.
    split.
    + unfold uva2ka, bind at 1. rewrite (walkpgdir_present c pgdir va 0 s Hpd).
      unfold bind, gets. cbn [pte_place fst snd]. fold t. rewrite <- Ee.
      rewrite (proj2 (Z.eqb_neq _ _) Hpt).
      destruct (permission e =? 0); reflexivity.
    + eexists. split.
      { unfold clearpteu, bind at 1. rewrite (walkpgdir_present c pgdir va 0 s Hpd).
        fold t. unfold modify. rewrite <- Ee. reflexivity. }
      set (s' := write_entry t (PTX va) _ s).
      assert (Hd' : mem s' pgdir (PDX va) = mem s pgdir (PDX va)).
      { unfold s', write_entry, set_mem. cbn [mem].
        rewrite (proj2 (Z.eqb_neq pgdir t)) by congruence. reflexivity. }
      assert (Ht' : mem s' t (PTX va)
                    = mkEntry (present e) (writable e) 0 (padding e) (physicalAdress e)).
      { unfold s', write_entry, set_mem. cbn [mem]. now rewrite !Z.eqb_refl. }
      split; [|split].
      * unfold uva2ka, bind at 1. rewrite walkpgdir_present by (rewrite Hd'; exact Hpd).
        unfold bind, gets. cbn [pte_place fst snd]. rewrite Hd'. fold t. rewrite Ht'.
        cbn [present permission]. rewrite (proj2 (Z.eqb_neq _ _) Hpt). reflexivity.
      * rewrite translate_at by (rewrite Hd'; exact Hpd). cbv zeta.
        rewrite Hd'. fold t. rewrite Ht'. cbn [present].
        rewrite (proj2 (Z.eqb_neq _ _) Hpt). reflexivity.
      * intros p i Hpi. unfold s', write_entry, set_mem. cbn [mem].
        destruct (Z.eqb_spec p t) as [->|]; [|reflexivity].
        destruct (Z.eqb_spec i (PTX va)) as [->|]; [|reflexivity].
        contradiction Hpi. split; reflexivity.
  - intros Hpd Hno. rewrite translate_at in Hno by exact Hpd. cbv zeta in Hno.
    unfold uva2ka, bind at 1. rewrite (walkpgdir_present c pgdir va 0 s Hpd).
    unfold bind, gets. cbn [pte_place fst snd].
    destruct (present _ =? 0); [reflexivity|discriminate Hno].
  - intros Hpd. unfold clearpteu, bind. rewrite (walkpgdir_absent c pgdir va s Hpd).
    reflexivity.
Qed.

Lemma clearpteu_hides_page_from_uva2ka_witness :
  uva2ka 0 0x803ff000 0 one_page = Ret 0x80401000 one_page /\
  exists s', clearpteu 0 0x803ff000 0 one_page = Ret tt s' /\
             uva2ka 0 0x803ff000 0 s' = Ret 0 s'.
Proof.
  destruct (clearpteu_hides_page_from_uva2ka 0%nat 0x803ff000 0 one_page) as [H _].
  - vm_compute. split; discriminate || reflexivity.
  - exact one_page_tables_apart.
  - destruct (H (mkEntry 1 1 1 0 0x401) eq_refl) as (Hu & s' & Hc & Hu' & _).
    split; [exact Hu|]. exists s'. split; assumption.
Defined.







(** X9.  Growing and shrinking back is a round trip.  Under the
    conditions in which [allocuvm] grows an address space from [oldsz]
    to [newsz], when it succeeds the call
    [deallocuvm(pgdir, newsz, oldsz)] that follows returns [oldsz], and
    then every user address translates as it did before the two calls
    and every page that was free is free again, unless it has become a
    page table of the directory. *)
Theorem allocuvm_then_deallocuvm c pgdir oldsz newsz s :
  0 <= oldsz < newsz -> newsz < KERNBASE ->
  lock_ok c s -> free_ok s -> pgdir_ok s pgdir ->
  (forall va, PGROUNDUP oldsz <= va < newsz -> translate s pgdir va = None) ->
  exists r s1,
    allocuvm c pgdir oldsz newsz s = Ret r s1 /\
    (r = newsz \/ r = 0) /\
    (r = newsz ->
     exists s2,
       deallocuvm c pgdir newsz oldsz s1 = Ret oldsz s2 /\
       (forall va, 0 <= va < KERNBASE ->
          translate s2 pgdir va = translate s pgdir va) /\
       (forall p, In p (freelist s) -> In p (freelist s2) \/ allocated s2 pgdir p) /\
       lock_ok c s2).
Proof.
  intros Hsz Hkb Hl Hfree Hpg Hun.
  destruct (PGROUNDUP_facts newsz ltac:(lia)) as (Ht1 & Ht2 & Ht3).
  destruct (PGROUNDUP_facts oldsz ltac:(lia)) as (Hl1 & Hl2 & Hl3).
  pose proof (PGROUNDUP_mono oldsz newsz ltac:(lia) Hkb) as Hmono.
  assert (Hun' : forall va, PGROUNDUP oldsz <= va < PGROUNDUP newsz ->
                   translate s pgdir va = None).
  { apply unmapped_pages; auto; lia. }
  assert (G : growing c pgdir (PGROUNDUP oldsz) s None s (PGROUNDUP oldsz)).
  { apply growing_start; auto. lia. }
  destruct (allocuvm_loop_spec c pgdir oldsz newsz s Hfree ltac:(lia) Hkb Hun'
              (Z.to_nat ((newsz - PGROUNDUP oldsz + PGSIZE - 1) / PGSIZE))
              (PGROUNDUP oldsz) s G Hmono)
    as (r & s1 & Hrun & Hres).
  { unfold PGSIZE.
    pose proof (Z.div_mod (newsz - PGROUNDUP oldsz + 4096 - 1) 4096 ltac:(lia)).
    pose proof (Z.mod_pos_bound (newsz - PGROUNDUP oldsz + 4096 - 1) 4096 ltac:(lia)).
    lia. }
  exists r, s1. split.
  { unfold allocuvm. rewrite (proj2 (Z.leb_gt KERNBASE newsz)) by lia.
    rewrite (proj2 (Z.ltb_ge newsz oldsz)) by lia. exact Hrun. }
  destruct Hres as [[-> G']|[-> Hback]].
  - split; [now left|]. intros _.
    destruct (rollback c pgdir oldsz newsz s None s1 (PGROUNDUP newsz)
                Hfree Hsz Hkb G' ltac:(lia) Hun')
      as (s2 & Hd & Hl2' & _ & _ & _ & Htr & Hfl).
    exists s2. split; [exact Hd|]. split; [exact Htr|]. split; [|exact Hl2'].
    intros p Hp. destruct (Hfl p Hp) as [H|[H|H]]; auto. discriminate H.
  - split; [now right|]. intros E. lia.
Qed.

Lemma allocuvm_then_deallocuvm_witness :
  exists s1 s2,
    allocuvm 0 0x803ff000 0 8192 three_frames = Ret 8192 s1 /\
    deallocuvm 0 0x803ff000 8192 0 s1 = Ret 0 s2 /\
    translate s2 0x803ff000 0 = None.
Proof.
  destruct (allocuvm_then_deallocuvm 0%nat 0x803ff000 0 8192 three_frames)
    as (r & s1 & Hrun & Hr & Hback).
  - lia.
  - unfold KERNBASE. lia.
  - apply empty_vm_lock_ok.
  - exact three_frames_free_ok.
  - apply empty_vm_pgdir_ok. simpl. intros H.
    repeat destruct H as [H|H]; try discriminate H; exact H.
  - intros va _. reflexivity.
  - assert (E : r = 8192).
    { destruct Hr as [E|E]; [exact E|]. exfalso. subst r.
      vm_compute in Hrun. inversion Hrun. }
    subst r. destruct (Hback eq_refl) as (s2 & Hd & Htr & _).
    exists s1, s2. split; [exact Hrun|]. split; [exact Hd|].
    rewrite Htr by (unfold KERNBASE; lia). reflexivity.
Defined.

End VmSpec.

Module SysfileSpec.
Import Sysfile.

Lemma ip_at_upd_eq i f s :
  (i < length (icache s))%nat -> ip_at i (upd_ip i f s) = f (ip_at i s).
Proof.
  intros H. unfold ip_at, upd_ip. cbn [icache].
  apply nth_lookup_Some. now apply list_lookup_insert_eq.
Qed.

Lemma ip_at_upd_ne i j f s : i <> j -> ip_at j (upd_ip i f s) = ip_at j s.
Proof.
  intros H. unfold ip_at, upd_ip. cbn [icache].
  destruct (icache s !! j) as [x|] eqn:E.
  - rewrite (nth_lookup_Some _ _ _ x), (nth_lookup_Some _ _ _ x); auto.
    rewrite list_lookup_insert_ne; auto.
  - rewrite !nth_overflow; auto.
    + apply lookup_ge_None in E. lia.
    + apply lookup_ge_None in E. rewrite length_insert. lia.
Qed.

Lemma length_upd_ip i f s : length (icache (upd_ip i f s)) = length (icache s).
Proof. unfold upd_ip. cbn [icache]. apply length_insert. Qed.

Lemma ip_at_range i s : ref (ip_at i s) <> 0 -> (i < length (icache s))%nat.
Proof.
  intros H. destruct (Nat.lt_ge_cases i (length (icache s))) as [|Hge]; [assumption|].
  exfalso. apply H. unfold ip_at. rewrite nth_overflow by lia. reflexivity.
Qed.

Lemma upd_upd i f g s :
  (i < length (icache s))%nat ->
  upd_ip i f (upd_ip i g s) = upd_ip i (fun x => f (g x)) s.
Proof.
  intros H. unfold upd_ip at 1 3. rewrite ip_at_upd_eq by exact H.
  cbn [dinodes content icache cwd pid upd_ip].
  now rewrite list_insert_insert_eq.
Qed.

Lemma dinodes_upd i f s : dinodes (upd_ip i f s) = dinodes s.
Proof. reflexivity. Qed.
Lemma content_upd i f s : content (upd_ip i f s) = content s.
Proof. reflexivity. Qed.
Lemma pid_upd i f s : pid (upd_ip i f s) = pid s.
Proof. reflexivity. Qed.
Lemma cwd_upd i f s : cwd (upd_ip i f s) = cwd s.
Proof. reflexivity. Qed.

Lemma upd_const i f s : upd_ip i f s = upd_ip i (fun _ => f (ip_at i s)) s.
Proof. reflexivity. Qed.

(** [ilock] returns on an inode that is referenced, not locked, and either
    valid or allocated on disk; it may load the inode and locks it. *)
Lemma ilock_returns i s :
  1 <= ref (ip_at i s) -> locked (ip_at i s) = 0 ->
  (valid (ip_at i s) = 0 ->
   dtype (dinodes s (dev (ip_at i s)) (inum (ip_at i s))) <> 0) ->
  ilock i s = Ret tt (upd_ip i (fun _ => locked_copy s i) s).
Proof.
  intros Hr Hl Hv.
  assert (Hi : (i < length (icache s))%nat) by (apply ip_at_range; lia).
  unfold ilock, acquiresleep, bind, gets, locked_copy.
  rewrite (proj2 (Z.ltb_ge _ _)) by lia.
  rewrite Hl. cbn [Z.eqb negb].
  rewrite ip_at_upd_eq by exact Hi. cbn [valid set_lock dev inum].
  destruct (Z.eqb_spec (valid (ip_at i s)) 0) as [E|E].
  - rewrite dinodes_upd.
    rewrite (proj2 (Z.eqb_neq _ _) (Hv E)). unfold modify.
    rewrite upd_upd by exact Hi. reflexivity.
  - reflexivity.
Qed.

(** What [ilock] has done when it returns. *)
Lemma ilock_inv i s s' :
  ilock i s = Ret tt s' ->
  (i < length (icache s))%nat /\ 1 <= ref (ip_at i s) /\ locked (ip_at i s) = 0 /\
  s' = upd_ip i (fun _ => locked_copy s i) s /\
  valid (locked_copy s i) <> 0.
Proof.
  unfold ilock, bind at 1, gets at 1.
  destruct (Z.ltb_spec (ref (ip_at i s)) 1) as [|Hr]; [discriminate|].
  assert (Hi : (i < length (icache s))%nat) by (apply ip_at_range; lia).
  unfold acquiresleep, bind at 1.
  destruct (Z.eqb_spec (locked (ip_at i s)) 0) as [Hl|]; [|discriminate].
  cbn [negb]. unfold bind, gets. rewrite ip_at_upd_eq by exact Hi.
  cbn [valid set_lock dev inum dinodes upd_ip]. unfold locked_copy.
  destruct (Z.eqb_spec (valid (ip_at i s)) 0) as [E|E].
  - rewrite dinodes_upd.
    destruct (Z.eqb_spec (dtype (dinodes s (dev (ip_at i s)) (inum (ip_at i s)))) 0);
      [discriminate|].
    unfold modify. intros [= <-]. rewrite upd_upd by exact Hi.
    repeat split; auto.
  - intros [= <-]. repeat split; auto.
Qed.

Lemma holdingsleep_true i s :
  holdingsleep i s = true <-> locked (ip_at i s) <> 0 /\ lkpid (ip_at i s) = pid s.
Proof.
  unfold holdingsleep. rewrite andb_true_iff, negb_true_iff, Z.eqb_neq, Z.eqb_eq.
  reflexivity.
Qed.

Lemma iunlock_returns i s :
  holdingsleep i s = true -> 1 <= ref (ip_at i s) ->
  iunlock i s = Ret tt (upd_ip i (set_lock 0 0) s).
Proof.
  intros Hh Hr. unfold iunlock, bind, gets. rewrite Hh.
  rewrite (proj2 (Z.ltb_ge _ _)) by lia. reflexivity.
Qed.

Lemma iunlock_inv i s s' :
  iunlock i s = Ret tt s' ->
  holdingsleep i s = true /\ 1 <= ref (ip_at i s) /\ s' = upd_ip i (set_lock 0 0) s.
Proof.
  unfold iunlock, bind, gets. destruct (holdingsleep i s); [|discriminate].
  destruct (Z.ltb_spec (ref (ip_at i s)) 1); [discriminate|].
  cbn [negb orb]. unfold releasesleep, modify. intros [= <-]. auto.
Qed.

Lemma ip_at_set_dinode j d n v s : ip_at j (set_dinode d n v s) = ip_at j s.
Proof. reflexivity. Qed.
Lemma ip_at_set_content j d n f s : ip_at j (set_content d n f s) = ip_at j s.
Proof. reflexivity. Qed.
Lemma icache_set_dinode d n v s : icache (set_dinode d n v s) = icache s.
Proof. reflexivity. Qed.
Lemma icache_set_content d n f s : icache (set_content d n f s) = icache s.
Proof. reflexivity. Qed.
Lemma dinodes_set_content d n f s : dinodes (set_content d n f s) = dinodes s.
Proof. reflexivity. Qed.
Lemma content_set_dinode d n v s : content (set_dinode d n v s) = content s.
Proof. reflexivity. Qed.
Lemma dinodes_set_dinode d n v s d' n' :
  dinodes (set_dinode d n v s) d' n'
  = if (d' =? d) && (n' =? n) then v else dinodes s d' n'.
Proof. reflexivity. Qed.
Lemma content_set_content d n f s d' n' :
  content (set_content d n f s) d' n'
  = if (d' =? d) && (n' =? n) then f else content s d' n'.
Proof. reflexivity. Qed.

Lemma key_eqb_false d n d' n' :
  ~ (d' = d /\ n' = n) -> (d' =? d) && (n' =? n) = false.
Proof.
  intros H. destruct (Z.eqb_spec d' d); destruct (Z.eqb_spec n' n); auto.
  exfalso. auto.
Qed.

Lemma key_eqb_true d n : (d =? d) && (n =? n) = true.
Proof. now rewrite !Z.eqb_refl. Qed.

Ltac norm :=
  repeat first
    [ rewrite ip_at_set_dinode | rewrite ip_at_set_content
    | rewrite icache_set_dinode | rewrite icache_set_content
    | rewrite dinodes_upd | rewrite content_upd
    | rewrite dinodes_set_content | rewrite content_set_dinode
    | rewrite length_upd_ip
    | rewrite ip_at_upd_eq by (norm; assumption)
    | rewrite ip_at_upd_ne by assumption ].

(** [iput] of an unlocked inode returns; the disk changes only when the
    inode is freed, and then only at this inode. *)
Lemma iput_returns i s :
  (i < length (icache s))%nat -> locked (ip_at i s) = 0 ->
  exists s',
    iput i s = Ret tt s' /\
    length (icache s') = length (icache s) /\ pid s' = pid s /\ cwd s' = cwd s /\
    (forall j, i <> j -> ip_at j s' = ip_at j s) /\
    (forall d n, ~ (d = dev (ip_at i s) /\ n = inum (ip_at i s)) ->
       dinodes s' d n = dinodes s d n /\ content s' d n = content s d n) /\
    ((dinodes s' (dev (ip_at i s)) (inum (ip_at i s))
      = dinodes s (dev (ip_at i s)) (inum (ip_at i s)) /\
      content s' (dev (ip_at i s)) (inum (ip_at i s))
      = content s (dev (ip_at i s)) (inum (ip_at i s))) \/
     (nlink (ip_at i s) = 0 /\
      dnlink (dinodes s' (dev (ip_at i s)) (inum (ip_at i s))) = 0 /\
      forall o, content s' (dev (ip_at i s)) (inum (ip_at i s)) o = 0)).
Proof.
  intros Hi Hl.
  unfold iput, acquiresleep. unfold bind at 1. rewrite Hl. cbn [Z.eqb negb].
  unfold bind at 1. unfold gets at 1.
  rewrite ip_at_upd_eq by exact Hi.
  cbn [valid nlink ref set_lock].
  destruct (negb (valid (ip_at i s) =? 0) && (nlink (ip_at i s) =? 0)) eqn:Hfree;
    [destruct (Z.eqb_spec (ref (ip_at i s)) 1) as [Hr1|Hr1]|].
  - (* the inode is freed *)
    apply andb_true_iff in Hfree as [_ Hn]. apply Z.eqb_eq in Hn.
    eexists. split; [reflexivity|].
    unfold releasesleep, modify, itrunc, iupdate, bind, modify.
    split; [norm; reflexivity|]. split; [reflexivity|]. split; [reflexivity|].
    split; [|split].
    + intros j Hj. norm. reflexivity.
    + intros d n Hk.
      repeat (norm; cbn [dev inum set_lock set_size set_type];
              rewrite ?dinodes_set_dinode, ?content_set_content,
                ?(key_eqb_false _ _ _ _ Hk)).
      auto.
    + right. split; [exact Hn|].
      repeat (norm; cbn [dev inum set_lock set_size set_type];
              rewrite ?dinodes_set_dinode, ?content_set_content, ?key_eqb_true).
      cbn [dnlink nlink set_type set_size set_lock]. auto.
  - eexists. split; [reflexivity|].
    unfold releasesleep, modify, bind, ret.
    split; [norm; reflexivity|]. split; [reflexivity|]. split; [reflexivity|].
    split; [|split].
    + intros j Hj. norm. reflexivity.
    + intros d n Hk. norm. auto.
    + left. norm. auto.
  - eexists. split; [reflexivity|].
    unfold releasesleep, modify, bind, ret.
    split; [norm; reflexivity|]. split; [reflexivity|]. split; [reflexivity|].
    split; [|split].
    + intros j Hj. norm. reflexivity.
    + intros d n Hk. norm. auto.
    + left. norm. auto.
Qed.


(** [iunlockput] by the holder of the lock returns; the disk changes only
    when the inode is freed, and then only at this inode. *)
Lemma iunlockput_returns i s :
  holdingsleep i s = true -> 1 <= ref (ip_at i s) ->
  exists s',
    iunlockput i s = Ret tt s' /\
    length (icache s') = length (icache s) /\ pid s' = pid s /\ cwd s' = cwd s /\
    (forall j, i <> j -> ip_at j s' = ip_at j s) /\
    (forall d n, ~ (d = dev (ip_at i s) /\ n = inum (ip_at i s)) ->
       dinodes s' d n = dinodes s d n /\ content s' d n = content s d n) /\
    ((dinodes s' (dev (ip_at i s)) (inum (ip_at i s))
      = dinodes s (dev (ip_at i s)) (inum (ip_at i s)) /\
      content s' (dev (ip_at i s)) (inum (ip_at i s))
      = content s (dev (ip_at i s)) (inum (ip_at i s))) \/
     (nlink (ip_at i s) = 0 /\
      dnlink (dinodes s' (dev (ip_at i s)) (inum (ip_at i s))) = 0 /\
      forall o, content s' (dev (ip_at i s)) (inum (ip_at i s)) o = 0)).
Proof.
  intros Hh Hr.
  assert (Hi : (i < length (icache s))%nat) by (apply ip_at_range; lia).
  unfold iunlockput, bind. rewrite (iunlock_returns i s Hh Hr).
  set (s1 := upd_ip i (set_lock 0 0) s).
  assert (Hx : ip_at i s1 = set_lock 0 0 (ip_at i s))
    by (unfold s1; now rewrite ip_at_upd_eq).
  destruct (iput_returns i s1) as (s' & Hrun & Hlen & Hpid & Hcwd & Hfr & Hdisk & Hown).
  { unfold s1. now rewrite length_upd_ip. }
  { rewrite Hx. reflexivity. }
  rewrite Hx in Hdisk, Hown. cbn [dev inum nlink set_lock] in Hdisk, Hown.
  exists s'. split; [exact Hrun|].
  split; [rewrite Hlen; unfold s1; apply length_upd_ip|].
  split; [exact Hpid|]. split; [exact Hcwd|].
  split; [|split].
  - intros j Hj. rewrite Hfr by exact Hj. unfold s1. now rewrite ip_at_upd_ne.
  - exact Hdisk.
  - exact Hown.
Qed.

(** [iget_scan] gives slots of the cache. *)
Lemma iget_scan_range l d n : forall i e m e',
  iget_scan l i e d n = (m, e') ->
  (forall k, e = Some k -> (k < i)%nat) ->
  (forall k, m = Some k -> (i <= k < i + length l)%nat /\
                           0 < ref (nth (k - i) l dflt_inode) /\
                           dev (nth (k - i) l dflt_inode) = d /\
                           inum (nth (k - i) l dflt_inode) = n) /\
  (forall k, e' = Some k -> (k < i + length l)%nat).
Proof.
  induction l as [|x r IH]; intros i e m e' H He; simpl in H.
  - injection H as <- <-. split; [discriminate|].
    intros k Hk. apply He in Hk. simpl. lia.
  - destruct ((0 <? ref x) && (dev x =? d) && (inum x =? n)) eqn:Hm.
    + injection H as <- <-.
      apply andb_true_iff in Hm as [Hm Hn]. apply andb_true_iff in Hm as [Hr Hd].
      split.
      * intros k [= <-]. rewrite Nat.sub_diag. simpl.
        repeat split; try lia.
      * intros k Hk. apply He in Hk. simpl. lia.
    + apply IH in H.
      * destruct H as [H1 H2]. split.
        -- intros k Hk. destruct (H1 k Hk) as (Hr & Hx).
           replace (k - i)%nat with (S (k - S i)) by lia. simpl. split; [lia|exact Hx].
        -- intros k Hk. apply H2 in Hk. simpl. lia.
      * intros k. destruct e as [e0|].
        -- intros [= <-]. specialize (He e0 eq_refl). lia.
        -- destruct (ref x =? 0); [intros [= <-]; lia|discriminate].
Qed.

(** [iget_scan] reads [ref], [dev] and [inum] only. *)
Lemma iget_scan_ext l l' d n : 
  Forall2 (fun x y => ref x = ref y /\ dev x = dev y /\ inum x = inum y) l l' ->
  forall i e, iget_scan l i e d n = iget_scan l' i e d n.
Proof.
  induction 1 as [|x y r r' (Hr & Hd & Hn) _ IH]; intros i e; simpl; [reflexivity|].
  rewrite Hr, Hd, Hn. destruct ((0 <? ref y) && (dev y =? d) && (inum y =? n)); auto.
Qed.


(** [readi] of a whole entry inside a directory. *)
Lemma readi_entry s i off :
  type (ip_at i s) = T_DIR -> 0 <= off -> off + DIRENT <= size (ip_at i s) ->
  size (ip_at i s) < 2 ^ 32 ->
  readi s i off DIRENT
  = (DIRENT, entry_at s (dev (ip_at i s)) (inum (ip_at i s)) off).
Proof.
  intros Ht Hoff Hsz Hmax. unfold readi, DIRENT, to_uint in *. rewrite Ht. cbn [Z.eqb T_DIR T_DEV].
  rewrite (proj2 (Z.ltb_ge _ _)) by lia.
  rewrite (Z.mod_small (off + 16)) by lia.
  rewrite (proj2 (Z.ltb_ge _ _)) by lia. reflexivity.
Qed.

(** [readi] reads the inode's [type], [size], [dev], [inum] and the
    bytes of its file. *)
Lemma readi_ext s s' i off n :
  type (ip_at i s') = type (ip_at i s) -> size (ip_at i s') = size (ip_at i s) ->
  dev (ip_at i s') = dev (ip_at i s) -> inum (ip_at i s') = inum (ip_at i s) ->
  content s' (dev (ip_at i s)) (inum (ip_at i s))
  = content s (dev (ip_at i s)) (inum (ip_at i s)) ->
  readi s' i off n = readi s i off n.
Proof.
  intros Ht Hs Hd Hn Hc. unfold readi. rewrite Ht, Hs, Hd, Hn, Hc. reflexivity.
Qed.

Lemma dirscan_ext s s' dp name :
  type (ip_at dp s') = type (ip_at dp s) -> size (ip_at dp s') = size (ip_at dp s) ->
  dev (ip_at dp s') = dev (ip_at dp s) -> inum (ip_at dp s') = inum (ip_at dp s) ->
  content s' (dev (ip_at dp s)) (inum (ip_at dp s))
  = content s (dev (ip_at dp s)) (inum (ip_at dp s)) ->
  forall turns off, dirscan turns s' dp name off = dirscan turns s dp name off.
Proof.
  intros Ht Hs Hd Hn Hc. induction turns as [|t IH]; intros off; simpl; [reflexivity|].
  rewrite Hs, (readi_ext s s') by assumption.
  destruct (off <? size (ip_at dp s)); [|reflexivity].
  destruct (readi s dp off DIRENT) as [r de].
  now rewrite !IH.
Qed.

Lemma emptyscan_ext s s' dp :
  type (ip_at dp s') = type (ip_at dp s) -> size (ip_at dp s') = size (ip_at dp s) ->
  dev (ip_at dp s') = dev (ip_at dp s) -> inum (ip_at dp s') = inum (ip_at dp s) ->
  content s' (dev (ip_at dp s)) (inum (ip_at dp s))
  = content s (dev (ip_at dp s)) (inum (ip_at dp s)) ->
  forall turns off, emptyscan turns s' dp off = emptyscan turns s dp off.
Proof.
  intros Ht Hs Hd Hn Hc. induction turns as [|t IH]; intros off; simpl; [reflexivity|].
  rewrite Hs, (readi_ext s s') by assumption.
  destruct (off <? size (ip_at dp s)); [|reflexivity].
  destruct (readi s dp off DIRENT) as [r de].
  now rewrite !IH.
Qed.

Lemma whole_entries sz off :
  sz mod DIRENT = 0 -> off mod DIRENT = 0 -> off < sz -> off + DIRENT <= sz.
Proof.
  unfold DIRENT. intros H1 H2 H3.
  pose proof (Z.div_mod sz 16 ltac:(lia)). pose proof (Z.div_mod off 16 ltac:(lia)).
  lia.
Qed.

(** What [dirlookup] has found: a whole entry in use with the name looked
    for, at a multiple of the entry size. *)
Lemma dirscan_found s dp name :
  type (ip_at dp s) = T_DIR ->
  size (ip_at dp s) mod DIRENT = 0 -> 0 <= size (ip_at dp s) <= MAXFILE * BSIZE ->
  forall turns off0 off n,
    0 <= off0 -> off0 mod DIRENT = 0 ->
    dirscan turns s dp name off0 = Found off n ->
    off0 <= off /\ off mod DIRENT = 0 /\ off + DIRENT <= size (ip_at dp s) /\
    n = de_inum (entry_at s (dev (ip_at dp s)) (inum (ip_at dp s)) off) /\ n <> 0 /\
    namecmp name (de_name (entry_at s (dev (ip_at dp s)) (inum (ip_at dp s)) off)) = 0.
Proof.
  intros Ht Hmod Hsz.
  assert (Hmax : MAXFILE * BSIZE = 71680) by reflexivity.
  induction turns as [|t IH]; intros off0 off n H0 Hal; simpl; [discriminate|].
  destruct (Z.ltb_spec off0 (size (ip_at dp s))) as [Hlt|]; [|discriminate].
  pose proof (whole_entries _ _ Hmod Hal Hlt) as Hfit.
  rewrite readi_entry by (auto; lia).
  rewrite Z.eqb_refl. cbn [negb].
  assert (Hnext : to_uint (off0 + DIRENT) = off0 + DIRENT).
  { unfold to_uint, DIRENT in *. apply Z.mod_small. lia. }
  assert (Hal' : (off0 + DIRENT) mod DIRENT = 0).
  { unfold DIRENT in *. rewrite <- Zplus_mod_idemp_l, Hal. reflexivity. }
  rewrite Hnext.
  destruct (Z.eqb_spec (de_inum (entry_at s (dev (ip_at dp s)) (inum (ip_at dp s)) off0)) 0)
    as [E|E].
  - intros H. apply IH in H; auto; [|unfold DIRENT in *; lia].
    destruct H as (H1 & H2). split; [unfold DIRENT in *; lia|exact H2].
  - destruct (Z.eqb_spec
                (namecmp name
                   (de_name (entry_at s (dev (ip_at dp s)) (inum (ip_at dp s)) off0))) 0)
      as [En|En].
    + intros [= <- <-]. repeat split; auto. lia.
    + intros H. apply IH in H; auto; [|unfold DIRENT in *; lia].
      destruct H as (H1 & H2). split; [unfold DIRENT in *; lia|exact H2].
Qed.

(** The loop of [dirlookup] reads whole entries of a directory of whole
    entries. *)
Lemma dirscan_reads s dp name :
  type (ip_at dp s) = T_DIR ->
  size (ip_at dp s) mod DIRENT = 0 -> 0 <= size (ip_at dp s) <= MAXFILE * BSIZE ->
  forall turns off0,
    0 <= off0 -> off0 mod DIRENT = 0 ->
    dirscan turns s dp name off0 <> ReadError.
Proof.
  intros Ht Hmod Hsz.
  assert (Hmax : MAXFILE * BSIZE = 71680) by reflexivity.
  induction turns as [|t IH]; intros off0 H0 Hal; simpl; [discriminate|].
  destruct (Z.ltb_spec off0 (size (ip_at dp s))) as [Hlt|]; [|discriminate].
  pose proof (whole_entries _ _ Hmod Hal Hlt) as Hfit.
  rewrite readi_entry by (auto; lia).
  rewrite Z.eqb_refl. cbn [negb].
  assert (Hnext : to_uint (off0 + DIRENT) = off0 + DIRENT).
  { unfold to_uint, DIRENT in *. apply Z.mod_small. lia. }
  assert (Hal' : (off0 + DIRENT) mod DIRENT = 0).
  { unfold DIRENT in *. rewrite <- Zplus_mod_idemp_l, Hal. reflexivity. }
  rewrite Hnext.
  destruct (de_inum _ =? 0); [apply IH; auto; unfold DIRENT in *; lia|].
  destruct (namecmp _ _ =? 0); [discriminate|apply IH; auto; unfold DIRENT in *; lia].
Qed.

(** [isdirempty] on a directory of whole entries: 0 exactly when an entry
    after the first two is in use. *)
Lemma emptyscan_cases s ip :
  type (ip_at ip s) = T_DIR ->
  size (ip_at ip s) mod DIRENT = 0 -> 0 <= size (ip_at ip s) < 2 ^ 31 ->
  forall turns j,
    0 <= j -> size (ip_at ip s) / DIRENT < j + Z.of_nat turns ->
    (emptyscan turns s ip (DIRENT * j) = Some 0 /\
     exists k, j <= k /\ DIRENT * k < size (ip_at ip s) /\
               de_inum (entry_at s (dev (ip_at ip s)) (inum (ip_at ip s)) (DIRENT * k)) <> 0)
    \/
    (emptyscan turns s ip (DIRENT * j) = Some 1 /\
     forall k, j <= k -> DIRENT * k < size (ip_at ip s) ->
               de_inum (entry_at s (dev (ip_at ip s)) (inum (ip_at ip s)) (DIRENT * k)) = 0).
Proof.
  intros Ht Hmod Hsz.
  pose proof (Z.div_mod (size (ip_at ip s)) DIRENT ltac:(unfold DIRENT; lia)) as Hdm.
  rewrite Hmod in Hdm.
  induction turns as [|t IH]; intros j Hj Hturns.
  { right. split; [reflexivity|]. intros k Hk Hlt. unfold DIRENT in *. lia. }
  cbn [emptyscan].
  destruct (Z.ltb_spec (DIRENT * j) (size (ip_at ip s))) as [Hlt|Hge].
  - assert (Hal : (DIRENT * j) mod DIRENT = 0).
    { rewrite Z.mul_comm. apply Z.mod_mul. unfold DIRENT. lia. }
    pose proof (whole_entries _ _ Hmod Hal Hlt) as Hfit.
    rewrite readi_entry by (auto; unfold DIRENT in *; lia).
    rewrite Z.eqb_refl. cbn [negb].
    destruct (Z.eqb_spec
                (de_inum (entry_at s (dev (ip_at ip s)) (inum (ip_at ip s)) (DIRENT * j))) 0)
      as [E|E]; cbn [negb].
    + replace (DIRENT * j + DIRENT) with (DIRENT * (j + 1)) by lia.
      destruct (IH (j + 1)) as [(H1 & k & Hk & H2)|(H1 & H2)]; try lia.
      * left. split; [exact H1|]. exists k. split; [lia|exact H2].
      * right. split; [exact H1|]. intros k Hk Hklt.
        destruct (Z.eq_dec k j) as [->|]; [exact E|]. apply H2; lia.
    + left. split; [reflexivity|]. exists j. split; [lia|]. split; [exact Hlt|exact E].
  - right. split; [reflexivity|]. intros k Hk Hklt. unfold DIRENT in *. lia.
Qed.

(** [writei] of a zeroed entry over an entry of a directory. *)
Lemma writei_entry s dp off :
  type (ip_at dp s) = T_DIR -> 0 <= off -> off + DIRENT <= size (ip_at dp s) ->
  size (ip_at dp s) <= MAXFILE * BSIZE ->
  writei dp (repeat 0 (Z.to_nat DIRENT)) off DIRENT s
  = Ret DIRENT
        (set_content (dev (ip_at dp s)) (inum (ip_at dp s))
           (fun o => if (off <=? o) && (o <? off + DIRENT)
                     then nth (Z.to_nat (o - off)) (repeat 0 (Z.to_nat DIRENT)) 0
                     else content s (dev (ip_at dp s)) (inum (ip_at dp s)) o) s).
Proof.
  intros Ht H0 Hfit Hmax.
  assert (Hm : MAXFILE * BSIZE = 71680) by reflexivity.
  unfold writei. unfold bind at 1. unfold gets at 1. rewrite Ht.
  cbn [Z.eqb T_DIR T_DEV].
  assert (Hu : to_uint (off + DIRENT) = off + DIRENT).
  { unfold to_uint, DIRENT in *. apply Z.mod_small. lia. }
  rewrite Hu.
  rewrite (proj2 (Z.ltb_ge (size (ip_at dp s)) off)) by (unfold DIRENT in *; lia).
  rewrite (proj2 (Z.ltb_ge (off + DIRENT) off)) by (unfold DIRENT; lia).
  cbn [orb].
  rewrite (proj2 (Z.ltb_ge (MAXFILE * BSIZE) (off + DIRENT))) by lia.
  rewrite (proj2 (Z.ltb_ge (size (ip_at dp s)) (off + DIRENT))) by lia.
  rewrite andb_false_r. reflexivity.
Qed.

Lemma zero_entry_byte off o :
  (if (off <=? o) && (o <? off + DIRENT)
   then nth (Z.to_nat (o - off)) (repeat 0 (Z.to_nat DIRENT)) 0 else 0) = 0.
Proof.
  destruct ((off <=? o) && (o <? off + DIRENT)); [|reflexivity].
  generalize (Z.to_nat (o - off)). intros k.
  destruct (Nat.lt_ge_cases k (Z.to_nat DIRENT)).
  - apply nth_repeat.
  - apply nth_overflow. now rewrite repeat_length.
Qed.


Lemma skip_slashes_length p : (length (skip_slashes p) <= length p)%nat.
Proof.
  induction p as [|c r IH]; simpl; [lia|]. destruct (c =? 47); simpl; lia.
Qed.

Lemma skip_name_length p : (length (skip_name p) <= length p)%nat.
Proof.
  induction p as [|c r IH]; simpl; [lia|].
  destruct ((c =? 47) || (c =? 0)); simpl; lia.
Qed.

Lemma skip_slashes_hd p : hd 0 (skip_slashes p) <> 47.
Proof.
  induction p as [|c r IH]; simpl; [lia|].
  destruct (Z.eqb_spec c 47); simpl; auto.
Qed.

Lemma skip_slashes_id p : hd 0 p <> 47 -> skip_slashes p = p.
Proof.
  destruct p as [|c r]; simpl; [reflexivity|].
  intros H. now rewrite (proj2 (Z.eqb_neq _ _) H).
Qed.

(** Every [skipelem] takes a character of the path at least. *)
Lemma skipelem_shorter path name p' n' :
  skipelem path name = Some (p', n') -> (length p' < length path)%nat.
Proof.
  unfold skipelem. pose proof (skip_slashes_length path) as H1.
  pose proof (skip_slashes_hd path) as Hh.
  destruct (skip_slashes path) as [|c r]; simpl in *; [discriminate|].
  destruct (Z.eqb_spec c 0); [discriminate|].
  intros [= <- _]. cbn [skip_name].
  rewrite ?(proj2 (Z.eqb_neq c 47)), ?(proj2 (Z.eqb_neq c 0)) by auto. simpl.
  pose proof (skip_name_length r). pose proof (skip_slashes_length (skip_name r)). lia.
Qed.

(** After a [skipelem] that leaves characters, the next one finds a
    name. *)
Lemma skipelem_next path name p' n' n2 :
  skipelem path name = Some (p', n') -> hd 0 p' <> 0 -> skipelem p' n2 <> None.
Proof.
  unfold skipelem at 1.
  destruct (hd 0 (skip_slashes path) =? 0); [discriminate|].
  intros [= <- _] Hh. unfold skipelem.
  rewrite (skip_slashes_id (skip_slashes _)) by apply skip_slashes_hd.
  rewrite (proj2 (Z.eqb_neq _ _) Hh). discriminate.
Qed.

Lemma locked_copy_fields s i :
  ref (locked_copy s i) = ref (ip_at i s) /\
  dev (locked_copy s i) = dev (ip_at i s) /\
  inum (locked_copy s i) = inum (ip_at i s) /\
  locked (locked_copy s i) = 1 /\ lkpid (locked_copy s i) = pid s.
Proof. unfold locked_copy. destruct (valid (ip_at i s) =? 0); simpl; auto. Qed.

Lemma locked_copy_valid s i :
  valid (ip_at i s) <> 0 -> locked_copy s i = set_lock 1 (pid s) (ip_at i s).
Proof.
  intros H. unfold locked_copy. now rewrite (proj2 (Z.eqb_neq _ _) H).
Qed.

(** The directory that [nameiparent] returns for a path with a name in it
    is referenced, unlocked, valid and a directory, and the buffer holds
    the last name of the path. *)
Lemma namex_loop_parent : forall turns ip path name s dp nm s',
  (length path <= turns)%nat -> skipelem path name <> None ->
  namex_loop turns true ip path name s = Ret (Some dp, nm) s' ->
  (1 <= ref (ip_at dp s') /\ locked (ip_at dp s') = 0 /\
   valid (ip_at dp s') <> 0 /\ type (ip_at dp s') = T_DIR) /\
  last_name turns path name = Some nm.
Proof.
  induction turns as [|t IH]; intros ip path name s dp nm s' Hlen Hsk H.
  { destruct path; [|simpl in Hlen; lia]. exfalso. apply Hsk. reflexivity. }
  cbn [namex_loop last_name] in *.
  destruct (skipelem path name) as [[p' n']|] eqn:Esk; [|contradiction].
  apply FsSpec.bind_ret_inv in H as ([] & s1 & Hlock & H).
  apply ilock_inv in Hlock as (Hi & Hr & Hl & -> & Hv).
  unfold bind at 1 in H. unfold gets at 1 in H.
  rewrite ip_at_upd_eq in H by exact Hi.
  destruct (Z.eqb_spec (type (locked_copy s ip)) T_DIR) as [Ht|Ht]; cbn [negb] in H.
  2: { apply FsSpec.bind_ret_inv in H as (? & ? & _ & H). discriminate H. }
  cbn [andb] in H.
  destruct (Z.eqb_spec (hd 0 p') 0) as [Hend|Hmore].
  - apply FsSpec.bind_ret_inv in H as ([] & s2 & Hun & H).
    apply iunlock_inv in Hun as (_ & _ & ->).
    injection H as <- <- <-.
    split; [|reflexivity].
    rewrite upd_upd, ip_at_upd_eq by exact Hi.
    destruct (locked_copy_fields s ip) as (Hrf & _).
    cbn [ref locked valid type set_lock]. rewrite Hrf. auto.
  - apply FsSpec.bind_ret_inv in H as (l & s2 & Hlook & H).
    destruct l as [[next off]|].
    2: { apply FsSpec.bind_ret_inv in H as (? & ? & _ & H). discriminate H. }
    apply FsSpec.bind_ret_inv in H as ([] & s3 & _ & H).
    apply IH in H; auto.
    + apply skipelem_shorter in Esk. lia.
    + eapply skipelem_next; eauto.
Qed.


(** The label [bad] of [sys_unlink] with the directory locked. *)
Lemma bad_returns (end_op : M unit) dp s :
  (forall x, end_op x = Ret tt x) ->
  holdingsleep dp s = true -> 1 <= ref (ip_at dp s) ->
  exists s', bad end_op dp s = Ret (-1) s'.
Proof.
  intros Hend Hh Hr.
  destruct (iunlockput_returns dp s Hh Hr) as (s' & Hrun & _).
  exists s'. unfold bad, bind. rewrite Hrun, Hend. reflexivity.
Qed.

Lemma iget_scan_locked l dp v d n i e :
  ref v = ref (nth dp l dflt_inode) -> dev v = dev (nth dp l dflt_inode) ->
  inum v = inum (nth dp l dflt_inode) ->
  iget_scan (<[dp := v]> l) i e d n = iget_scan l i e d n.
Proof.
  intros Hr Hd Hn. apply iget_scan_ext.
  apply Forall2_same_length_lookup. split; [apply length_insert|].
  intros k x y Hx Hy.
  destruct (Nat.eq_dec dp k) as [->|Hne].
  - assert (Hk : (k < length l)%nat) by (apply lookup_lt_Some in Hy; exact Hy).
    rewrite list_lookup_insert_eq in Hx by exact Hk. injection Hx as <-.
    rewrite (nth_lookup_Some _ _ _ _ Hy) in *. auto.
  - rewrite list_lookup_insert_ne in Hx by exact Hne.
    rewrite Hx in Hy. injection Hy as <-. auto.
Qed.

(** [iget] and [ilock] of the inode that [dirlookup] has found, with the
    directory locked: the inode is locked in slot [ip] with the fields it
    has on disk. *)
Lemma lookup_target s1 dp n ip :
  target_ok s1 dp n ip ->
  exists s3 s4,
    iget (dev (ip_at dp s1)) n (upd_ip dp (set_lock 1 (pid s1)) s1) = Ret ip s3 /\
    ilock ip s3 = Ret tt s4 /\
    length (icache s4) = length (icache s1) /\ pid s4 = pid s1 /\
    dinodes s4 = dinodes s1 /\ content s4 = content s1 /\
    (forall j, ip <> j -> ip_at j s4 = ip_at j (upd_ip dp (set_lock 1 (pid s1)) s1)) /\
    dev (ip_at ip s4) = dev (ip_at dp s1) /\ inum (ip_at ip s4) = n /\
    1 <= ref (ip_at ip s4) /\ holdingsleep ip s4 = true /\
    type (ip_at ip s4) = dtype (dinodes s1 (dev (ip_at dp s1)) n) /\
    nlink (ip_at ip s4) = dnlink (dinodes s1 (dev (ip_at dp s1)) n) /\
    size (ip_at ip s4) = dsize (dinodes s1 (dev (ip_at dp s1)) n).
Proof.
  unfold target_ok. cbv zeta.
  set (d := dev (ip_at dp s1)). set (t := dinodes s1 d n).
  set (s2 := upd_ip dp (set_lock 1 (pid s1)) s1).
  intros (Hscan & Hne & Hnum & Hl & Hty & Hnl & Hdir).
  assert (Hsc : iget_scan (icache s2) 0 None d n = iget_scan (icache s1) 0 None d n).
  { unfold s2, upd_ip. cbn [icache]. apply iget_scan_locked; reflexivity. }
  assert (Hx2 : ip_at ip s2 = ip_at ip s1).
  { unfold s2. apply ip_at_upd_ne. auto. }
  unfold iget. rewrite Hsc.
  destruct (iget_scan (icache s1) 0 None d n) as [m e] eqn:Esc.
  destruct (iget_scan_range _ _ _ _ _ _ _ Esc ltac:(discriminate)) as [Hm He].
  assert (Hfin : forall g : inode -> inode,
    (ip < length (icache s1))%nat ->
    1 <= ref (g (ip_at ip s1)) -> locked (g (ip_at ip s1)) = 0 ->
    dev (g (ip_at ip s1)) = d -> inum (g (ip_at ip s1)) = n ->
    (valid (g (ip_at ip s1)) <> 0 ->
     type (g (ip_at ip s1)) = dtype t /\ nlink (g (ip_at ip s1)) = dnlink t /\
     size (g (ip_at ip s1)) = dsize t) ->
    exists s3 s4 : fsys,
      Ret ip (upd_ip ip g s2) = Ret ip s3 /\
      ilock ip s3 = Ret tt s4 /\
      length (icache s4) = length (icache s1) /\ pid s4 = pid s1 /\
      dinodes s4 = dinodes s1 /\ content s4 = content s1 /\
      (forall j, ip <> j -> ip_at j s4 = ip_at j s2) /\
      dev (ip_at ip s4) = d /\ inum (ip_at ip s4) = n /\
      1 <= ref (ip_at ip s4) /\ holdingsleep ip s4 = true /\
      type (ip_at ip s4) = dtype t /\ nlink (ip_at ip s4) = dnlink t /\
      size (ip_at ip s4) = dsize t).
  { intros g Hi Hr Hlk Hd Hn Hv.
    assert (Hi2 : (ip < length (icache s2))%nat) by (unfold s2; now rewrite length_upd_ip).
    assert (Hx3 : ip_at ip (upd_ip ip g s2) = g (ip_at ip s1)).
    { rewrite ip_at_upd_eq by exact Hi2. now rewrite Hx2. }
    exists (upd_ip ip g s2). eexists. split; [reflexivity|]. split.
    { apply ilock_returns; rewrite Hx3; auto.
      intros _. rewrite Hd, Hn. exact Hty. }
    set (s3 := upd_ip ip g s2).
    assert (Hc : ip_at ip (upd_ip ip (fun _ => locked_copy s3 ip) s3) = locked_copy s3 ip).
    { apply ip_at_upd_eq. unfold s3. now rewrite length_upd_ip. }
    destruct (locked_copy_fields s3 ip) as (Lr & Ld & Ln & Ll & Lp).
    split; [unfold s3, s2; now rewrite !length_upd_ip|].
    split; [reflexivity|]. split; [reflexivity|]. split; [reflexivity|].
    split; [intros j Hj; unfold s3; now rewrite !ip_at_upd_ne by exact Hj|].
    rewrite Hc, Ld, Ln, Lr. subst s3. rewrite Hx3.
    split; [exact Hd|]. split; [exact Hn|]. split; [exact Hr|].
    split.
    { apply holdingsleep_true. rewrite Hc, Ll, Lp. split; [lia|reflexivity]. }
    unfold locked_copy. rewrite Hx3.
    destruct (Z.eqb_spec (valid (g (ip_at ip s1))) 0) as [E|E].
    - rewrite Hd, Hn. cbn [type nlink size load]. auto.
    - cbn [type nlink size set_lock]. auto. }
  destruct m as [i|]; [|destruct e as [e|]; [|contradiction]].
  - destruct Hscan as [-> Hcoh]. destruct (Hm i eq_refl) as (Hi & Hr & Hd & Hn).
    rewrite Nat.sub_0_r in *. fold (ip_at i s1) in *.
    apply (Hfin (fun x => set_ref (ref x + 1) x)); cbn [ref locked dev inum valid type nlink size set_ref]; auto; try lia.
    intros Hv. specialize (Hcoh Hv). unfold coherent in Hcoh. cbv zeta in Hcoh.
    rewrite Hd, Hn in Hcoh. fold t in Hcoh. rewrite Hcoh. auto.
  - subst ip. specialize (He e eq_refl).
    apply (Hfin (fun x => mkInode d n 1 (locked x) (lkpid x) 0 (type x) (major x)
                                  (minor x) (nlink x) (size x)));
      cbn [ref locked dev inum valid type nlink size]; auto; try lia.
Qed.


Lemma to_short_dec v : 1 <= v <= 32767 -> to_short (v - 1) = v - 1.
Proof.
  intros H. unfold to_short. rewrite Z.mod_small by lia.
  now rewrite (proj2 (Z.ltb_lt _ _)) by lia.
Qed.

Lemma holdingsleep_ext i s s' :
  locked (ip_at i s') = locked (ip_at i s) -> lkpid (ip_at i s') = lkpid (ip_at i s) ->
  pid s' = pid s -> holdingsleep i s' = holdingsleep i s.
Proof. intros H1 H2 H3. unfold holdingsleep. now rewrite H1, H2, H3. Qed.

(** The end of [sys_unlink]: both inodes are unlocked and put, and the
    link count of the unlinked inode goes to the disk. *)
Lemma finish_steps (end_op : M unit) s dp ip :
  (forall x, end_op x = Ret tt x) -> ip <> dp ->
  holdingsleep dp s = true -> 1 <= ref (ip_at dp s) ->
  holdingsleep ip s = true -> 1 <= ref (ip_at ip s) ->
  1 <= nlink (ip_at ip s) <= 32767 ->
  ~ (dev (ip_at dp s) = dev (ip_at ip s) /\ inum (ip_at dp s) = inum (ip_at ip s)) ->
  exists s',
    (iunlockput dp ;;
     modify (upd_ip ip (fun d => set_nlink (to_short (nlink d - 1)) d)) ;;
     iupdate ip ;;
     iunlockput ip ;;
     end_op ;;
     ret 0) s = Ret 0 s' /\
    dnlink (dinodes s' (dev (ip_at ip s)) (inum (ip_at ip s))) = nlink (ip_at ip s) - 1 /\
    ((dinodes s' (dev (ip_at dp s)) (inum (ip_at dp s))
      = dinodes s (dev (ip_at dp s)) (inum (ip_at dp s)) /\
      content s' (dev (ip_at dp s)) (inum (ip_at dp s))
      = content s (dev (ip_at dp s)) (inum (ip_at dp s))) \/
     (nlink (ip_at dp s) = 0 /\
      dnlink (dinodes s' (dev (ip_at dp s)) (inum (ip_at dp s))) = 0 /\
      forall o, content s' (dev (ip_at dp s)) (inum (ip_at dp s)) o = 0)).
Proof.
  intros Hend Hne Hhd Hrd Hhi Hri Hnl Hkey.
  assert (Hi : (ip < length (icache s))%nat) by (apply ip_at_range; lia).
  destruct (iunlockput_returns dp s Hhd Hrd)
    as (s7 & Hrun7 & Hlen7 & Hpid7 & _ & Hfr7 & Hdisk7 & Hown7).
  assert (Hx7 : ip_at ip s7 = ip_at ip s) by (apply Hfr7; auto).
  set (X := ip_at ip s) in *.
  set (s8 := upd_ip ip (fun d => set_nlink (to_short (nlink d - 1)) d) s7).
  assert (Hi7 : (ip < length (icache s7))%nat) by (rewrite Hlen7; exact Hi).
  assert (Hx8 : ip_at ip s8 = set_nlink (nlink X - 1) X).
  { unfold s8. rewrite ip_at_upd_eq by exact Hi7. rewrite Hx7.
    now rewrite to_short_dec by exact Hnl. }
  set (s9 := set_dinode (dev X) (inum X)
               (mkDinode (type X) (major X) (minor X) (nlink X - 1) (size X)) s8).
  assert (Hup : iupdate ip s8 = Ret tt s9).
  { unfold iupdate, modify. rewrite Hx8. reflexivity. }
  assert (Hx9 : ip_at ip s9 = set_nlink (nlink X - 1) X) by exact Hx8.
  destruct (iunlockput_returns ip s9)
    as (s' & Hrun & _ & _ & _ & _ & Hdisk & Hown).
  { rewrite <- Hhi. apply holdingsleep_ext; rewrite ?Hx9; auto. }
  { rewrite Hx9. exact Hri. }
  rewrite Hx9 in Hdisk, Hown. cbn [dev inum nlink set_nlink] in Hdisk, Hown.
  exists s'. split.
  { unfold bind. rewrite Hrun7. unfold modify. fold s8. rewrite Hup, Hrun, Hend.
    reflexivity. }
  assert (Hkey' : ~ (dev (ip_at dp s) = dev X /\ inum (ip_at dp s) = inum X)) by exact Hkey.
  split.
  - destruct Hown as [[Hd _]|(Hz & Hd & _)].
    + rewrite Hd. unfold s9. rewrite dinodes_set_dinode, key_eqb_true. reflexivity.
    + rewrite Hd. lia.
  - destruct (Hdisk _ _ Hkey') as [Hd9 Hc9].
    rewrite Hd9, Hc9. unfold s9, s8.
    rewrite dinodes_set_dinode, (key_eqb_false _ _ _ _ Hkey').
    rewrite content_set_dinode, dinodes_upd, content_upd.
    exact Hown7.
Qed.

(** [sys_unlink] from its [writei] on: the entry is zeroed, the link count
    of the directory goes down when a directory is removed, and that of
    the unlinked inode goes down. *)
Lemma remove_steps (end_op : M unit) s dp ip off :
  (forall x, end_op x = Ret tt x) -> ip <> dp ->
  holdingsleep dp s = true -> 1 <= ref (ip_at dp s) -> type (ip_at dp s) = T_DIR ->
  0 <= off -> off + DIRENT <= size (ip_at dp s) -> size (ip_at dp s) <= MAXFILE * BSIZE ->
  1 <= nlink (ip_at dp s) <= 32767 ->
  holdingsleep ip s = true -> 1 <= ref (ip_at ip s) ->
  1 <= nlink (ip_at ip s) <= 32767 ->
  ~ (dev (ip_at dp s) = dev (ip_at ip s) /\ inum (ip_at dp s) = inum (ip_at ip s)) ->
  exists s',
    (let! w := writei dp (repeat 0 (Z.to_nat DIRENT)) off DIRENT in
     if negb (w =? DIRENT) then panic "unlink: writei"
     else
       let! x := gets (ip_at ip) in
       (if type x =? T_DIR then
          modify (upd_ip dp (fun d => set_nlink (to_short (nlink d - 1)) d)) ;;
          iupdate dp
        else ret tt) ;;
       iunlockput dp ;;
       modify (upd_ip ip (fun d => set_nlink (to_short (nlink d - 1)) d)) ;;
       iupdate ip ;;
       iunlockput ip ;;
       end_op ;;
       ret 0) s = Ret 0 s' /\
    (forall k, 0 <= k < DIRENT ->
       content s' (dev (ip_at dp s)) (inum (ip_at dp s)) (off + k) = 0) /\
    dnlink (dinodes s' (dev (ip_at ip s)) (inum (ip_at ip s))) = nlink (ip_at ip s) - 1 /\
    (type (ip_at ip s) = T_DIR ->
     dnlink (dinodes s' (dev (ip_at dp s)) (inum (ip_at dp s))) = nlink (ip_at dp s) - 1) /\
    (type (ip_at ip s) <> T_DIR ->
     dnlink (dinodes s' (dev (ip_at dp s)) (inum (ip_at dp s)))
     = dnlink (dinodes s (dev (ip_at dp s)) (inum (ip_at dp s)))).
Proof.
  intros Hend Hne Hhd Hrd Htd Hoff Hfit Hmax Hnd Hhi Hri Hni Hkey.
  assert (Hdp : (dp < length (icache s))%nat) by (apply ip_at_range; lia).
  rewrite (ProcSpec.bind_ret _ _ _ _ _ (writei_entry s dp off Htd Hoff Hfit Hmax)).
  rewrite Z.eqb_refl. cbn [negb].
  set (D := ip_at dp s) in *. set (X := ip_at ip s) in *.
  set (s5 := set_content (dev D) (inum D)
               (fun o => if (off <=? o) && (o <? off + DIRENT)
                         then nth (Z.to_nat (o - off)) (repeat 0 (Z.to_nat DIRENT)) 0
                         else content s (dev D) (inum D) o) s).
  assert (Hzero : forall k, 0 <= k < DIRENT -> content s5 (dev D) (inum D) (off + k) = 0).
  { intros k Hk. unfold s5. rewrite content_set_content, key_eqb_true.
    rewrite (proj2 (Z.leb_le off (off + k))), (proj2 (Z.ltb_lt (off + k) (off + DIRENT)))
      by lia.
    cbn [andb]. apply nth_repeat. }
  unfold bind at 1. unfold gets at 1.
  change (ip_at ip s5) with X.
  destruct (Z.eqb_spec (type X) T_DIR) as [Ht|Ht].
  - set (s6 := set_dinode (dev D) (inum D)
                 (mkDinode (type D) (major D) (minor D) (nlink D - 1) (size D))
                 (upd_ip dp (fun d => set_nlink (to_short (nlink d - 1)) d) s5)).
    assert (Hd6 : ip_at dp s6 = set_nlink (nlink D - 1) D).
    { unfold s6. rewrite ip_at_set_dinode, ip_at_upd_eq by exact Hdp.
      change (ip_at dp s5) with D. now rewrite to_short_dec by exact Hnd. }
    assert (Hx6 : ip_at ip s6 = X).
    { unfold s6. rewrite ip_at_set_dinode, ip_at_upd_ne by auto. reflexivity. }
    assert (Hstep : (modify (upd_ip dp (fun d => set_nlink (to_short (nlink d - 1)) d)) ;;
                     iupdate dp) s5 = Ret tt s6).
    { unfold bind, modify, iupdate, modify.
      rewrite ip_at_upd_eq by exact Hdp. change (ip_at dp s5) with D.
      rewrite to_short_dec by exact Hnd. reflexivity. }
    rewrite (ProcSpec.bind_ret _ _ _ _ _ Hstep).
    destruct (finish_steps end_op s6 dp ip Hend Hne) as (s' & Hrun & Hx & Hown).
    { rewrite <- Hhd. apply holdingsleep_ext; rewrite ?Hd6; auto. }
    { rewrite Hd6. exact Hrd. }
    { rewrite <- Hhi. apply holdingsleep_ext; rewrite ?Hx6; auto. }
    { rewrite Hx6. exact Hri. }
    { rewrite Hx6. exact Hni. }
    { rewrite Hd6, Hx6. exact Hkey. }
    rewrite Hd6, Hx6 in *. cbn [dev inum nlink set_nlink] in *.
    exists s'. split; [exact Hrun|].
    assert (Hd6d : dinodes s6 (dev D) (inum D)
                   = mkDinode (type D) (major D) (minor D) (nlink D - 1) (size D)).
    { unfold s6. now rewrite dinodes_set_dinode, key_eqb_true. }
    split; [|split; [exact Hx|split; [|contradiction]]].
    + intros k Hk. destruct Hown as [[_ Hc]|(_ & _ & Hc)]; [|apply Hc].
      rewrite Hc. unfold s6. rewrite content_set_dinode, content_upd. now apply Hzero.
    + intros _. destruct Hown as [[Hd _]|(Hz & Hd & _)].
      * rewrite Hd, Hd6d. reflexivity.
      * rewrite Hd. lia.
  - destruct (finish_steps end_op s5 dp ip Hend Hne) as (s' & Hrun & Hx & Hown); auto.
    change (ip_at ip s5) with X in *. change (ip_at dp s5) with D in *.
    exists s'. split.
    { unfold bind at 1. unfold ret at 1. exact Hrun. }
    split; [|split; [exact Hx|split; [contradiction|]]].
    + intros k Hk. destruct Hown as [[_ Hc]|(_ & _ & Hc)]; [|apply Hc].
      rewrite Hc. now apply Hzero.
    + intros _. destruct Hown as [[Hd _]|(Hz & _)]; [|lia].
      rewrite Hd. unfold s5. now rewrite dinodes_set_content.
Qed.


(** [isdirempty] of a directory of whole entries returns: 0 when an entry
    after the first two is in use, 1 when none is. *)
Lemma isdirempty_spec s ip :
  type (ip_at ip s) = T_DIR ->
  size (ip_at ip s) mod DIRENT = 0 -> 0 <= size (ip_at ip s) < 2 ^ 31 ->
  (isdirempty ip s = Ret 0 s /\
   exists k, 2 <= k /\ DIRENT * k < size (ip_at ip s) /\
             de_inum (entry_at s (dev (ip_at ip s)) (inum (ip_at ip s)) (DIRENT * k)) <> 0)
  \/
  (isdirempty ip s = Ret 1 s /\
   forall k, 2 <= k -> DIRENT * k < size (ip_at ip s) ->
             de_inum (entry_at s (dev (ip_at ip s)) (inum (ip_at ip s)) (DIRENT * k)) = 0).
Proof.
  intros Ht Hmod Hsz. unfold isdirempty.
  change (2 * DIRENT) with (DIRENT * 2).
  destruct (emptyscan_cases s ip Ht Hmod Hsz
              (S (Z.to_nat (size (ip_at ip s) / DIRENT))) 2) as [[H1 H2]|[H1 H2]].
  - lia.
  - assert (0 <= size (ip_at ip s) / DIRENT) by (apply Z.div_pos; unfold DIRENT; lia).
    lia.
  - left. now rewrite H1.
  - right. now rewrite H1.
Qed.

(** [sys_unlink] up to the lock on the directory that the walk returned. *)
Lemma unlink_walk (begin_op end_op : M unit) path name0 s dp name s1 :
  (forall x, begin_op x = Ret tt x) ->
  nameiparent path name0 s = Ret (Some dp, name) s1 ->
  1 <= ref (ip_at dp s1) -> locked (ip_at dp s1) = 0 -> valid (ip_at dp s1) <> 0 ->
  sys_unlink begin_op end_op (Some path) name0 s
  = (if (namecmp name dot =? 0) || (namecmp name dotdot =? 0) then bad end_op dp
     else
       let! l := dirlookup dp name in
       match l with
       | None => bad end_op dp
       | Some (ip, off) =>
           ilock ip ;;
           let! x := gets (ip_at ip) in
           if nlink x <? 1 then panic "unlink: nlink < 1"
           else
             let! e := (if type x =? T_DIR then isdirempty ip else ret 1) in
             if (type x =? T_DIR) && (e =? 0) then iunlockput ip ;; bad end_op dp
             else
               let! w := writei dp (repeat 0 (Z.to_nat DIRENT)) off DIRENT in
               if negb (w =? DIRENT) then panic "unlink: writei"
               else
                 let! x := gets (ip_at ip) in
                 (if type x =? T_DIR then
                    modify (upd_ip dp (fun d => set_nlink (to_short (nlink d - 1)) d)) ;;
                    iupdate dp
                  else ret tt) ;;
                 iunlockput dp ;;
                 modify (upd_ip ip (fun d => set_nlink (to_short (nlink d - 1)) d)) ;;
                 iupdate ip ;;
                 iunlockput ip ;;
                 end_op ;;
                 ret 0
       end) (upd_ip dp (set_lock 1 (pid s1)) s1).
Proof.
  intros Hbegin Hwalk Hr Hl Hv.
  unfold sys_unlink.
  rewrite (ProcSpec.bind_ret _ _ _ _ _ (Hbegin s)).
  rewrite (ProcSpec.bind_ret _ _ _ _ _ Hwalk).
  cbv beta iota.
  assert (Hlock : ilock dp s1 = Ret tt (upd_ip dp (set_lock 1 (pid s1)) s1)).
  { rewrite ilock_returns by (auto; intros; contradiction).
    rewrite locked_copy_valid by exact Hv. reflexivity. }
  rewrite (ProcSpec.bind_ret _ _ _ _ _ Hlock). reflexivity.
Qed.

Lemma last_name_some turns path name nm :
  last_name turns path name = Some nm -> skipelem path name <> None.
Proof.
  destruct turns; simpl; [discriminate|].
  destruct (skipelem path name); [discriminate|discriminate].
Qed.

(** For a path with a name in it, [nameiparent] returns the directory
    referenced, unlocked, valid and of type [T_DIR], with the last name of
    the path in the buffer. *)
Lemma nameiparent_returns_directory path name0 s dp name s1 nm :
  nameiparent path name0 s = Ret (Some dp, name) s1 ->
  last_name (length path) path name0 = Some nm ->
  name = nm /\
  1 <= ref (ip_at dp s1) /\ locked (ip_at dp s1) = 0 /\
  valid (ip_at dp s1) <> 0 /\ type (ip_at dp s1) = T_DIR.
Proof.
  intros Hwalk Hlast. unfold nameiparent, namex in Hwalk.
  apply FsSpec.bind_ret_inv in Hwalk as (ip0 & s0 & _ & Hloop).
  apply namex_loop_parent in Hloop as [Hpost Hnm].
  - rewrite Hlast in Hnm. injection Hnm as ->. auto.
  - lia.
  - eapply last_name_some; eauto.
Qed.


(** C6.  Let [nameiparent] return for the path of [unlink], with the
    transaction calls of the log returning.  (1) When the final name of
    the path is [.] or [..], [sys_unlink] returns -1.  In the directory
    that the walk returned, a directory of whole entries whose cached
    inode is as on disk: when no entry in use has the name, it returns -1; when
    [dirlookup] finds the entry at [off] with the number [n] of an inode
    that can be locked, then (2) for a directory [n] with an entry in use
    after its first two it returns -1, and (3, 4) otherwise it returns 0,
    the 16 bytes of the entry at [off] are zero, the link count of inode
    [n] on disk is one less, and the link count of the directory is one
    less when [n] is a directory and unchanged when it is not. *)
Theorem sys_unlink_refuses_or_removes
    (begin_op end_op : M unit) path name0 s r name s1 :
  (forall x, begin_op x = Ret tt x) -> (forall x, end_op x = Ret tt x) ->
  nameiparent path name0 s = Ret (r, name) s1 ->
  (forall nm, last_name (length path) path name0 = Some nm ->
     namecmp nm dot = 0 \/ namecmp nm dotdot = 0 ->
     exists s', sys_unlink begin_op end_op (Some path) name0 s = Ret (-1) s') /\
  (forall dp, r = Some dp -> parent_ok s1 dp ->
     namecmp name dot <> 0 -> namecmp name dotdot <> 0 ->
     let d := dev (ip_at dp s1) in
     let pn := inum (ip_at dp s1) in
     let turns := S (Z.to_nat (size (ip_at dp s1) / DIRENT)) in
     ((forall k, 0 <= k -> DIRENT * k < size (ip_at dp s1) ->
         de_inum (entry_at s1 d pn (DIRENT * k)) = 0 \/
         namecmp name (de_name (entry_at s1 d pn (DIRENT * k))) <> 0) ->
      exists s', sys_unlink begin_op end_op (Some path) name0 s = Ret (-1) s') /\
     (forall off n ip,
        dirscan turns s1 dp name 0 = Found off n -> target_ok s1 dp n ip ->
        (n = de_inum (entry_at s1 d pn off) /\
         namecmp name (de_name (entry_at s1 d pn off)) = 0) /\
        (dtype (dinodes s1 d n) = T_DIR -> has_entries s1 d n ->
         exists s', sys_unlink begin_op end_op (Some path) name0 s = Ret (-1) s') /\
        (~ (dtype (dinodes s1 d n) = T_DIR /\ has_entries s1 d n) ->
         exists s',
           sys_unlink begin_op end_op (Some path) name0 s = Ret 0 s' /\
           (forall k, 0 <= k < DIRENT -> content s' d pn (off + k) = 0) /\
           dnlink (dinodes s' d n) = dnlink (dinodes s1 d n) - 1 /\
           (dtype (dinodes s1 d n) = T_DIR ->
            dnlink (dinodes s' d pn) = dnlink (dinodes s1 d pn) - 1) /\
           (dtype (dinodes s1 d n) <> T_DIR ->
            dnlink (dinodes s' d pn) = dnlink (dinodes s1 d pn))))).
Proof.
  intros Hbegin Hend Hwalk. split.
  { (* the final name is "." or ".." *)
    intros nm Hlast Hdots. destruct r as [dp|].
    - destruct (nameiparent_returns_directory _ _ _ _ _ _ _ Hwalk Hlast)
        as (-> & Hr & Hl & Hv & Ht).
      rewrite (unlink_walk begin_op end_op _ _ _ _ _ _ Hbegin Hwalk Hr Hl Hv).
      assert (Htest : (namecmp nm dot =? 0) || (namecmp nm dotdot =? 0) = true).
      { destruct Hdots as [E|E]; rewrite E; [reflexivity|apply orb_true_r]. }
      rewrite Htest.
      assert (Hdp : (dp < length (icache s1))%nat) by (apply ip_at_range; lia).
      apply bad_returns; [exact Hend| |].
      + apply holdingsleep_true. rewrite ip_at_upd_eq by exact Hdp.
        cbn [locked lkpid set_lock]. split; [lia|reflexivity].
      + rewrite ip_at_upd_eq by exact Hdp. exact Hr.
    - unfold sys_unlink.
      rewrite (ProcSpec.bind_ret _ _ _ _ _ (Hbegin s)).
      rewrite (ProcSpec.bind_ret _ _ _ _ _ Hwalk).
      cbv beta iota. unfold bind. rewrite Hend. eexists. reflexivity. }
  intros dp -> Hpar Hn1 Hn2. cbv zeta.
  destruct Hpar as ((Hr & Hl & Hv & Ht) & Hmod & Hsz & Hnl & Hcoh).
  assert (Hdp : (dp < length (icache s1))%nat) by (apply ip_at_range; lia).
  rewrite (unlink_walk begin_op end_op _ _ _ _ _ _ Hbegin Hwalk Hr Hl Hv).
  rewrite (proj2 (Z.eqb_neq _ _) Hn1), (proj2 (Z.eqb_neq _ _) Hn2). cbn [orb].
  set (s2 := upd_ip dp (set_lock 1 (pid s1)) s1).
  assert (Hd2 : ip_at dp s2 = set_lock 1 (pid s1) (ip_at dp s1)).
  { unfold s2. now rewrite ip_at_upd_eq. }
  assert (Hh2 : holdingsleep dp s2 = true).
  { apply holdingsleep_true. rewrite Hd2. cbn [locked lkpid set_lock].
    split; [lia|reflexivity]. }
  assert (Hscan : forall turns, dirscan turns s2 dp name 0 = dirscan turns s1 dp name 0).
  { intros turns. apply dirscan_ext; rewrite ?Hd2; reflexivity. }
  assert (Hlook : forall res,
            dirscan (S (Z.to_nat (size (ip_at dp s1) / DIRENT))) s1 dp name 0 = res ->
            dirlookup dp name s2
            = match res with
              | NotFound => Ret None s2
              | ReadError => Panic "dirlookup read"
              | Found off n => (let! ip := iget (dev (ip_at dp s1)) n in
                                ret (Some (ip, off))) s2
              end).
  { intros res Hres. unfold dirlookup. rewrite Hd2. cbn [type size dev set_lock].
    rewrite Ht, Z.eqb_refl. cbn [negb]. rewrite Hscan, Hres. reflexivity. }
  split.
  { (* no entry of that name *)
    intros Hnone.
    assert (Hnf : dirscan (S (Z.to_nat (size (ip_at dp s1) / DIRENT))) s1 dp name 0
                  = NotFound).
    { destruct (dirscan (S (Z.to_nat (size (ip_at dp s1) / DIRENT))) s1 dp name 0)
        as [| |off n] eqn:E; [reflexivity| |].
      - exfalso. revert E. apply dirscan_reads; auto. lia.
      - exfalso.
        destruct (dirscan_found s1 dp name Ht Hmod Hsz _ 0 off n ltac:(lia) eq_refl E)
          as (H0 & Hal & Hfit & Hnum & Hnz & Hname).
        assert (Eo : off = DIRENT * (off / DIRENT)).
        { rewrite (Z.div_mod off DIRENT) at 1 by (unfold DIRENT; lia). lia. }
        destruct (Hnone (off / DIRENT)) as [Hz|Hz].
        + apply Z.div_pos; unfold DIRENT; lia.
        + rewrite <- Eo. unfold DIRENT in *. lia.
        + rewrite <- Eo in Hz. congruence.
        + rewrite <- Eo in Hz. contradiction. }
    rewrite (ProcSpec.bind_ret _ _ _ _ _ (Hlook _ Hnf)).
    apply bad_returns; auto. rewrite Hd2. exact Hr. }
  intros off n ip Hfound Htarget.
  destruct (dirscan_found s1 dp name Ht Hmod Hsz _ 0 off n ltac:(lia) eq_refl Hfound)
    as (Hoff0 & Hoffal & Hfit & Hnum & Hnz & Hname).
  split; [split; [exact Hnum|exact Hname]|].
  pose proof Htarget as (_ & Hne & Hnn & _ & Hty & Htn & Htdir).
  destruct (lookup_target s1 dp n ip Htarget)
    as (s3 & s4 & Hget & Hlock & Hlen4 & Hpid4 & Hdin4 & Hcon4 & Hfr4 &
        Hxd & Hxn & Hxr & Hxh & Hxt & Hxl & Hxs).
  fold s2 in Hget, Hfr4.
  assert (Hdl : dirlookup dp name s2 = Ret (Some (ip, off)) s3).
  { rewrite (Hlook _ Hfound). unfold bind. rewrite Hget. reflexivity. }
  rewrite (ProcSpec.bind_ret _ _ _ _ _ Hdl). cbv beta iota.
  rewrite (ProcSpec.bind_ret _ _ _ _ _ Hlock).
  rewrite (ProcSpec.bind_ret (gets (ip_at ip)) _ s4 (ip_at ip s4) s4 eq_refl).
  rewrite Hxl, Hxt. rewrite (proj2 (Z.ltb_ge _ _)) by lia.
  assert (Hd4 : ip_at dp s4 = set_lock 1 (pid s1) (ip_at dp s1)).
  { rewrite Hfr4 by exact Hne. exact Hd2. }
  assert (Hh4 : holdingsleep dp s4 = true).
  { apply holdingsleep_true. rewrite Hd4, Hpid4. cbn [locked lkpid set_lock].
    split; [lia|reflexivity]. }
  set (d := dev (ip_at dp s1)) in *. set (pn := inum (ip_at dp s1)) in *.
  set (t := dinodes s1 d n) in *.
  (* what is left once the target may be removed *)
  assert (Hremove :
    exists s',
      (let! w := writei dp (repeat 0 (Z.to_nat DIRENT)) off DIRENT in
       if negb (w =? DIRENT) then panic "unlink: writei"
       else
         let! x := gets (ip_at ip) in
         (if type x =? T_DIR then
            modify (upd_ip dp (fun d => set_nlink (to_short (nlink d - 1)) d)) ;;
            iupdate dp
          else ret tt) ;;
         iunlockput dp ;;
         modify (upd_ip ip (fun d => set_nlink (to_short (nlink d - 1)) d)) ;;
         iupdate ip ;;
         iunlockput ip ;;
         end_op ;;
         ret 0) s4 = Ret 0 s' /\
      (forall k, 0 <= k < DIRENT -> content s' d pn (off + k) = 0) /\
      dnlink (dinodes s' d n) = dnlink t - 1 /\
      (dtype t = T_DIR -> dnlink (dinodes s' d pn) = dnlink (dinodes s1 d pn) - 1) /\
      (dtype t <> T_DIR -> dnlink (dinodes s' d pn) = dnlink (dinodes s1 d pn))).
  { destruct (remove_steps end_op s4 dp ip off Hend Hne Hh4)
      as (s' & Hrun & Hzero & Hx & Hdir & Hfile);
      rewrite ?Hd4, ?Hxd, ?Hxn, ?Hxl; cbn [ref type size nlink dev inum set_lock];
      auto; try lia.
    rewrite Hd4, Hxd, Hxn, Hxl, Hxt, Hdin4 in *.
    cbn [ref type size nlink dev inum set_lock] in *. fold d pn in Hzero, Hdir, Hfile.
    assert (Hpn : dnlink (dinodes s1 d pn) = nlink (ip_at dp s1)).
    { unfold coherent in Hcoh. cbv zeta in Hcoh. fold d pn in Hcoh. now rewrite Hcoh. }
    exists s'. split; [exact Hrun|]. split; [exact Hzero|]. split; [exact Hx|].
    split; [intros E; rewrite Hpn; auto|exact Hfile]. }
  destruct (Z.eqb_spec (dtype t) T_DIR) as [Hdir|Hfile].
  2: { (* not a directory *)
    split; [intros E; contradiction|]. intros _.
    rewrite (ProcSpec.bind_ret (ret 1) _ s4 1 s4 eq_refl). cbn [andb].
    exact Hremove. }
  destruct (Htdir Hdir) as [Htm Hts].
  assert (He4 : forall a b c, entry_at s4 a b c = entry_at s1 a b c).
  { intros a b c. unfold entry_at. now rewrite Hcon4. }
  destruct (isdirempty_spec s4 ip) as [[Hrun Hk]|[Hrun Hk]];
    rewrite ?Hxt, ?Hxs; auto.
  - (* a directory with entries *)
    rewrite Hxd, Hxn, Hxs in Hk. setoid_rewrite He4 in Hk.
    split.
    + intros _ _. rewrite (ProcSpec.bind_ret _ _ _ _ _ Hrun). cbn [andb Z.eqb].
      destruct (iunlockput_returns ip s4 Hxh Hxr)
        as (s5 & Hput & _ & Hpid5 & _ & Hfr5 & _).
      rewrite (ProcSpec.bind_ret _ _ _ _ _ Hput).
      apply bad_returns; [exact Hend| |].
      * rewrite <- Hh4. apply holdingsleep_ext; rewrite ?Hfr5; auto.
      * rewrite Hfr5, Hd4 by exact Hne. exact Hr.
    + intros Hno. exfalso. apply Hno. split; [exact Hdir|]. exact Hk.
  - (* an empty directory *)
    rewrite Hxd, Hxn, Hxs in Hk. setoid_rewrite He4 in Hk.
    split.
    + intros _ (k & Hk1 & Hk2 & Hk3). exfalso. apply Hk3. now apply Hk.
    + intros _. rewrite (ProcSpec.bind_ret _ _ _ _ _ Hrun). cbn [andb Z.eqb].
      exact Hremove.
Qed.


Lemma walked_disk_parent_ok : parent_ok walked_disk 0.
Proof.
  unfold parent_ok. simpl. unfold T_DIR, coherent. simpl.
  split; [split; [lia|split; [reflexivity|split; [discriminate|reflexivity]]]|].
  split; [reflexivity|]. split; [split; [lia|discriminate]|].
  split; [lia|reflexivity].
Defined.

Lemma walked_disk_target n :
  3 <= n <= 4 -> target_ok walked_disk 0 n 1.
Proof.
  intros Hn. assert (n = 3 \/ n = 4) as [-> | ->] by lia;
    unfold target_ok; simpl;
    (split; [reflexivity|]); (split; [discriminate|]); (split; [discriminate|]);
    (split; [reflexivity|]); (split; [discriminate|]); (split; [lia|]);
    intros _; (split; [reflexivity|split; [lia|reflexivity]]).
Defined.

Lemma sys_unlink_refuses_or_removes_witness :
  nameiparent [47; 100] buffer0 small_disk = Ret (Some 0%nat, buffer1 100) walked_disk /\
  parent_ok walked_disk 0 /\ target_ok walked_disk 0 3 1 /\
  (exists s', sys_unlink (ret tt) (ret tt) (Some [47; 46; 46]) buffer0 small_disk
              = Ret (-1) s') /\
  (exists s', sys_unlink (ret tt) (ret tt) (Some [47; 101]) buffer0 small_disk
              = Ret (-1) s') /\
  (exists s',
     sys_unlink (ret tt) (ret tt) (Some [47; 100]) buffer0 small_disk = Ret 0 s' /\
     (forall k, 0 <= k < DIRENT -> content s' 1 1 (48 + k) = 0) /\
     dnlink (dinodes s' 1 3) = 0 /\ dnlink (dinodes s' 1 1) = 2).
Proof.
  assert (Hlog : forall x : fsys, ret tt x = Ret tt x) by reflexivity.
  split; [reflexivity|]. split; [exact walked_disk_parent_ok|].
  split; [apply walked_disk_target; lia|].
  split; [|split].
  - destruct (sys_unlink_refuses_or_removes (ret tt) (ret tt) [47; 46; 46] buffer0
                small_disk (Some 0%nat) (46 :: 46 :: repeat 0 12) walked_disk
                Hlog Hlog eq_refl) as [H _].
    apply (H (46 :: 46 :: repeat 0 12)); [reflexivity|right; reflexivity].
  - destruct (sys_unlink_refuses_or_removes (ret tt) (ret tt) [47; 101] buffer0
                small_disk (Some 0%nat) (buffer1 101) walked_disk
                Hlog Hlog eq_refl) as [_ H].
    destruct (H 0%nat eq_refl walked_disk_parent_ok) as [_ H2];
      [discriminate|discriminate|].
    destruct (H2 64 4 1%nat eq_refl (walked_disk_target 4 ltac:(lia))) as (_ & H3 & _).
    apply H3; [reflexivity|].
    exists 2. split; [lia|]. split; [reflexivity|discriminate].
  - destruct (sys_unlink_refuses_or_removes (ret tt) (ret tt) [47; 100] buffer0
                small_disk (Some 0%nat) (buffer1 100) walked_disk
                Hlog Hlog eq_refl) as [_ H].
    destruct (H 0%nat eq_refl walked_disk_parent_ok) as [_ H2];
      [discriminate|discriminate|].
    destruct (H2 48 3 1%nat eq_refl (walked_disk_target 3 ltac:(lia))) as (_ & _ & H3).
    destruct H3 as (s' & Hrun & Hz & Hn & Hd & _).
    { intros [_ (k & Hk & Hlt & _)]. simpl in Hlt. unfold DIRENT in Hlt. lia. }
    exists s'. split; [exact Hrun|]. split; [exact Hz|].
    split; [exact Hn|]. exact (Hd eq_refl).
Defined.

(** [unlink] of the empty directory [/d]: the entry is zeroed, the link
    counts of the root and of [d] go down by one. *)
Example unlink_empty_directory :
  summary (sys_unlink (ret tt) (ret tt) (Some [47; 100]) buffer0 small_disk)
  = Some (0, [2; 1; 0; 1], [1; 1; 2; 0; 4]).
Proof. vm_compute. reflexivity. Qed.

(** [unlink] of the directory [/e], which holds a file: refused, nothing
    changes. *)
Example unlink_directory_with_entries :
  summary (sys_unlink (ret tt) (ret tt) (Some [47; 101]) buffer0 small_disk)
  = Some (-1, [3; 1; 1; 1], [1; 1; 2; 3; 4]).
Proof. vm_compute. reflexivity. Qed.

(** [unlink] of [/e/.] and of [/e/..]: refused. *)
Example unlink_dot_and_dotdot :
  summary (sys_unlink (ret tt) (ret tt) (Some [47; 101; 47; 46]) buffer0 small_disk)
  = Some (-1, [3; 1; 1; 1], [1; 1; 2; 3; 4]) /\
  summary (sys_unlink (ret tt) (ret tt) (Some [47; 101; 47; 46; 46]) buffer0 small_disk)
  = Some (-1, [3; 1; 1; 1], [1; 1; 2; 3; 4]).
Proof. split; vm_compute; reflexivity. Qed.


(** The loop of [namex] needs no more turns than the path has
    characters. *)
Lemma namex_loop_turns parent : forall t1 t2 ip path name s,
  (length path <= t1)%nat -> (length path <= t2)%nat ->
  namex_loop t1 parent ip path name s = namex_loop t2 parent ip path name s.
Proof.
  assert (Hnil : forall t ip name s,
            namex_loop t parent ip [] name s = Ret (Some ip, name) s).
  { intros [|t] ip name s; reflexivity. }
  induction t1 as [|t1 IH]; intros t2 ip path name s H1 H2.
  { destruct path; [|simpl in H1; lia]. now rewrite !Hnil. }
  destruct t2 as [|t2].
  { destruct path; [|simpl in H2; lia]. now rewrite !Hnil. }
  cbn [namex_loop].
  destruct (skipelem path name) as [[p' n']|] eqn:E; [|reflexivity].
  apply skipelem_shorter in E.
  unfold bind. destruct (ilock ip s) as [[] s1| | |]; try reflexivity.
  unfold gets.
  destruct (negb (type (ip_at ip s1) =? T_DIR)); [reflexivity|].
  destruct (parent && (hd 0 p' =? 0)); [reflexivity|].
  destruct (dirlookup ip n' s1) as [[[next off]|] s2| | |]; try reflexivity.
  destruct (iunlockput ip s2) as [[] s3| | |]; try reflexivity.
  apply IH; lia.
Qed.

(** When no entry in use has the name, [dirlookup] finds nothing, and the
    other way round. *)
Lemma dirscan_not_found s dp name :
  type (ip_at dp s) = T_DIR ->
  size (ip_at dp s) mod DIRENT = 0 -> 0 <= size (ip_at dp s) <= MAXFILE * BSIZE ->
  forall turns j,
    0 <= j -> size (ip_at dp s) / DIRENT < j + Z.of_nat turns ->
    dirscan turns s dp name (DIRENT * j) = NotFound ->
    forall k, j <= k -> DIRENT * k < size (ip_at dp s) ->
      de_inum (entry_at s (dev (ip_at dp s)) (inum (ip_at dp s)) (DIRENT * k)) = 0 \/
      namecmp name (de_name (entry_at s (dev (ip_at dp s)) (inum (ip_at dp s))
                                      (DIRENT * k))) <> 0.
Proof.
  intros Ht Hmod Hsz.
  assert (Hmax : MAXFILE * BSIZE = 71680) by reflexivity.
  pose proof (Z.div_mod (size (ip_at dp s)) DIRENT ltac:(unfold DIRENT; lia)) as Hdm.
  rewrite Hmod in Hdm.
  induction turns as [|t IH]; intros j Hj Hturns Hscan k Hk Hlt.
  { unfold DIRENT in *. lia. }
  cbn [dirscan] in Hscan.
  destruct (Z.ltb_spec (DIRENT * j) (size (ip_at dp s))) as [Hjlt|Hge];
    [|unfold DIRENT in *; lia].
  assert (Hal : (DIRENT * j) mod DIRENT = 0).
  { rewrite Z.mul_comm. apply Z.mod_mul. unfold DIRENT. lia. }
  pose proof (whole_entries _ _ Hmod Hal Hjlt) as Hfit.
  rewrite readi_entry in Hscan by (auto; unfold DIRENT in *; lia).
  rewrite Z.eqb_refl in Hscan. cbn [negb] in Hscan.
  assert (Hnext : to_uint (DIRENT * j + DIRENT) = DIRENT * (j + 1)).
  { unfold to_uint, DIRENT in *. rewrite Z.mod_small by lia. lia. }
  rewrite Hnext in Hscan.
  destruct (Z.eq_dec k j) as [->|Hne].
  - destruct (Z.eqb_spec
                (de_inum (entry_at s (dev (ip_at dp s)) (inum (ip_at dp s)) (DIRENT * j))) 0)
      as [E|E]; [now left|].
    destruct (Z.eqb_spec
                (namecmp name
                   (de_name (entry_at s (dev (ip_at dp s)) (inum (ip_at dp s))
                                      (DIRENT * j)))) 0)
      as [En|En]; [discriminate|now right].
  - apply (IH (j + 1)); try lia.
    destruct (de_inum _ =? 0); [exact Hscan|].
    destruct (namecmp _ _ =? 0); [discriminate|exact Hscan].
Qed.


(** What the loop of [iget] finds: the first slot in use that holds the
    inode, or else the first slot with [ref == 0]. *)
Lemma iget_scan_spec d n l :
  forall i e,
    match iget_scan l i e d n with
    | (Some k, _) =>
        (i <= k < i + length l)%nat /\
        (0 < ref (nth (k - i) l dflt_inode) /\ dev (nth (k - i) l dflt_inode) = d /\
         inum (nth (k - i) l dflt_inode) = n) /\
        forall j, (j < k - i)%nat ->
          ~ (0 < ref (nth j l dflt_inode) /\ dev (nth j l dflt_inode) = d /\
             inum (nth j l dflt_inode) = n)
    | (None, e') =>
        (forall x, In x l -> ~ (0 < ref x /\ dev x = d /\ inum x = n)) /\
        match e with
        | Some k => e' = Some k
        | None =>
            match e' with
            | Some k => (i <= k < i + length l)%nat /\
                        ref (nth (k - i) l dflt_inode) = 0 /\
                        forall j, (j < k - i)%nat -> ref (nth j l dflt_inode) <> 0
            | None => forall x, In x l -> ref x <> 0
            end
        end
    end.
Proof.
  induction l as [|x l IH]; intros i e.
  - simpl. split; [intros x []|]. destruct e; [reflexivity|]. intros x [].
  - cbn [iget_scan].
    destruct ((0 <? ref x) && (dev x =? d) && (inum x =? n)) eqn:Hhit.
    + apply andb_true_iff in Hhit as [Hhit H3]. apply andb_true_iff in Hhit as [H1 H2].
      apply Z.ltb_lt in H1. apply Z.eqb_eq in H2, H3.
      rewrite Nat.sub_diag. simpl. split; [lia|]. split; [auto|]. intros j Hj; lia.
    + assert (Hno : ~ (0 < ref x /\ dev x = d /\ inum x = n)).
      { intros (H1 & H2 & H3). rewrite (proj2 (Z.ltb_lt _ _) H1) in Hhit.
        rewrite (proj2 (Z.eqb_eq _ _) H2), (proj2 (Z.eqb_eq _ _) H3) in Hhit.
        discriminate. }
      specialize (IH (S i) (match e with
                            | None => if ref x =? 0 then Some i else None
                            | Some e0 => Some e0
                            end)).
      destruct (iget_scan l (S i) _ d n) as [[k|] e'].
      * destruct IH as (Hr & Hh & Hb). split; [simpl; lia|].
        replace (k - i)%nat with (S (k - S i)) by lia. split; [exact Hh|].
        intros [|j] Hj; [exact Hno|]. apply Hb. lia.
      * destruct IH as (Hnone & He). split.
        { intros y [<-|Hy]; [exact Hno|now apply Hnone]. }
        destruct e as [k|]; [exact He|].
        destruct (Z.eqb_spec (ref x) 0) as [E|E].
        -- subst e'. rewrite Nat.sub_diag. simpl. split; [lia|]. split; [exact E|].
           intros j Hj; lia.
        -- destruct e' as [k|].
           ++ destruct He as (Hr & Hz & Hb). split; [simpl; lia|].
              replace (k - i)%nat with (S (k - S i)) by lia. split; [exact Hz|].
              intros [|j] Hj; [exact E|]. apply Hb. lia.
           ++ intros y [<-|Hy]; [exact E|now apply He].
Qed.

(** X24.  The inode cache keeps one slot for an inode.  In a cache that
    holds no inode twice, [iget(dev, inum)] returns the slot in use that
    holds the inode, with its count raised by one and nothing else
    changed; or, when no slot in use holds it, the first slot whose count
    is 0, set to this inode with count 1 and [valid] 0; or it panics,
    when every slot is in use for another inode.  Afterwards the cache
    still holds no inode twice, and a second [iget] of the same inode
    returns the same slot and raises its count again. *)
Theorem iget_one_slot_per_inode d n s :
  cache_ok s ->
  match iget d n s with
  | Ret i s' =>
      (i < length (icache s))%nat /\
      dev (ip_at i s') = d /\ inum (ip_at i s') = n /\
      (forall j, j <> i -> ip_at j s' = ip_at j s) /\
      ((0 < ref (ip_at i s) /\ ip_at i s' = set_ref (ref (ip_at i s) + 1) (ip_at i s)) \/
       (ref (ip_at i s) = 0 /\ ref (ip_at i s') = 1 /\ valid (ip_at i s') = 0 /\
        (forall j, (j < i)%nat -> ref (ip_at j s) <> 0) /\
        forall j, ~ (0 < ref (ip_at j s) /\ dev (ip_at j s) = d /\ inum (ip_at j s) = n))) /\
      cache_ok s' /\
      exists s'', iget d n s' = Ret i s'' /\ ref (ip_at i s'') = ref (ip_at i s') + 1
  | Panic msg =>
      msg = "iget: no inodes"%string /\
      forall j, (j < length (icache s))%nat ->
        ref (ip_at j s) <> 0 /\
        ~ (0 < ref (ip_at j s) /\ dev (ip_at j s) = d /\ inum (ip_at j s) = n)
  | _ => False
  end.
Proof.
  intros Hok.
  assert (Hagain : forall i s', (i < length (icache s'))%nat -> cache_ok s' ->
            0 < ref (ip_at i s') -> dev (ip_at i s') = d -> inum (ip_at i s') = n ->
            exists s'', iget d n s' = Ret i s'' /\ ref (ip_at i s'') = ref (ip_at i s') + 1).
  { intros i s' Hlen Hok' Hr Hd Hn. unfold iget.
    pose proof (iget_scan_spec d n (icache s') 0 None) as Hs.
    destruct (iget_scan (icache s') 0 None d n) as [[k|] e'].
    - destruct Hs as (Hrange & (H1 & H2 & H3) & _). rewrite Nat.sub_0_r in *.
      assert (k = i) as ->.
      { unfold ip_at in *. apply Hok'; unfold ip_at; auto; congruence. }
      eexists. split; [reflexivity|]. rewrite ip_at_upd_eq by exact Hlen. reflexivity.
    - exfalso. destruct Hs as (Hnone & _).
      apply (Hnone (ip_at i s')); [apply nth_In; exact Hlen|auto]. }
  unfold iget. pose proof (iget_scan_spec d n (icache s) 0 None) as Hs.
  destruct (iget_scan (icache s) 0 None d n) as [[k|] e']; [|destruct e' as [e|]].
  - destruct Hs as (Hrange & (H1 & H2 & H3) & _). rewrite Nat.sub_0_r in *.
    fold (ip_at k s) in H1, H2, H3.
    assert (Hlen : (k < length (icache s))%nat) by lia.
    assert (Hk : ip_at k (upd_ip k (fun x => set_ref (ref x + 1) x) s)
                 = set_ref (ref (ip_at k s) + 1) (ip_at k s))
      by (now rewrite ip_at_upd_eq).
    assert (Hok' : cache_ok (upd_ip k (fun x => set_ref (ref x + 1) x) s)).
    { intros a b Ha Hb Hd Hn. apply Hok.
      - destruct (Nat.eq_dec k a) as [<-|Hne]; [exact H1|].
        now rewrite ip_at_upd_ne in Ha by exact Hne.
      - destruct (Nat.eq_dec k b) as [<-|Hne]; [exact H1|].
        now rewrite ip_at_upd_ne in Hb by exact Hne.
      - destruct (Nat.eq_dec k a) as [<-|Hna]; destruct (Nat.eq_dec k b) as [<-|Hnb];
          rewrite ?Hk, ?ip_at_upd_ne in Hd by assumption; exact Hd.
      - destruct (Nat.eq_dec k a) as [<-|Hna]; destruct (Nat.eq_dec k b) as [<-|Hnb];
          rewrite ?Hk, ?ip_at_upd_ne in Hn by assumption; exact Hn. }
    split; [exact Hlen|]. rewrite Hk. split; [exact H2|]. split; [exact H3|].
    split; [intros j Hj; apply ip_at_upd_ne; congruence|].
    split; [left; auto|]. split; [exact Hok'|].
    rewrite <- Hk. apply Hagain; auto.
    + now rewrite length_upd_ip.
    + rewrite Hk. simpl. lia.
    + rewrite Hk. exact H2.
    + rewrite Hk. exact H3.
  - destruct Hs as (Hnone & Hrange & Hz & Hb). rewrite Nat.sub_0_r in *.
    fold (ip_at e s) in Hz.
    assert (Hlen : (e < length (icache s))%nat) by lia.
    set (f := fun x => mkInode d n 1 (locked x) (lkpid x) 0 (type x) (major x)
                               (minor x) (nlink x) (size x)).
    assert (He : ip_at e (upd_ip e f s) = f (ip_at e s)) by (now rewrite ip_at_upd_eq).
    assert (Hmiss : forall j, ~ (0 < ref (ip_at j s) /\ dev (ip_at j s) = d /\
                                 inum (ip_at j s) = n)).
    { intros j H. destruct (decide (j < length (icache s))%nat) as [Hj|Hj].
      - apply (Hnone (ip_at j s)); [apply nth_In; exact Hj|exact H].
      - unfold ip_at in H. rewrite nth_overflow in H by lia. simpl in H. lia. }
    assert (Hok' : cache_ok (upd_ip e f s)).
    { intros a b Ha Hb' Hd Hn.
      destruct (Nat.eq_dec e a) as [<-|Hna]; destruct (Nat.eq_dec e b) as [<-|Hnb];
        auto.
      - exfalso. rewrite He in Hd, Hn. rewrite ip_at_upd_ne in Hb', Hd, Hn by exact Hnb.
        apply (Hmiss b). simpl in Hd, Hn. auto.
      - exfalso. rewrite He in Hd, Hn. rewrite ip_at_upd_ne in Ha, Hd, Hn by exact Hna.
        apply (Hmiss a). simpl in Hd, Hn. auto.
      - rewrite (ip_at_upd_ne e a) in Ha, Hd, Hn by exact Hna.
        rewrite (ip_at_upd_ne e b) in Hb', Hd, Hn by exact Hnb.
        now apply Hok. }
    split; [exact Hlen|]. rewrite He. split; [reflexivity|]. split; [reflexivity|].
    split; [intros j Hj; apply ip_at_upd_ne; congruence|].
    split.
    { right. split; [exact Hz|]. split; [reflexivity|]. split; [reflexivity|].
      split; [intros j Hj; apply (Hb j Hj)|exact Hmiss]. }
    split; [exact Hok'|].
    rewrite <- He. apply Hagain; auto.
    + now rewrite length_upd_ip.
    + rewrite He. simpl. lia.
    + rewrite He. reflexivity.
    + rewrite He. reflexivity.
  - destruct Hs as (Hnone & Hfull). split; [reflexivity|].
    intros j Hj. split.
    + apply Hfull. apply nth_In. exact Hj.
    + apply Hnone. apply nth_In. exact Hj.
Qed.

Lemma three_slots_ok : cache_ok three_slots.
Proof.
  intros i j Hi Hj Hd Hn.
  assert (Hout : forall k, ref (ip_at (S (S (S k))) three_slots) = 0)
    by (intros k; unfold ip_at; rewrite nth_overflow; [reflexivity|simpl; lia]).
  destruct i as [|[|[|i]]]; destruct j as [|[|[|j]]];
    try reflexivity; rewrite ?Hout in *; simpl in *; try lia; try discriminate.
Qed.

Lemma iget_one_slot_per_inode_witness :
  (exists s', iget 1 1 three_slots = Ret 0%nat s' /\ ref (ip_at 0 s') = 3) /\
  (exists s', iget 1 9 three_slots = Ret 1%nat s' /\ ref (ip_at 1 s') = 1).
Proof.
  pose proof (iget_one_slot_per_inode 1 1 three_slots three_slots_ok) as H1.
  pose proof (iget_one_slot_per_inode 1 9 three_slots three_slots_ok) as H2.
  split.
  - destruct (iget 1 1 three_slots) as [i s'| | |] eqn:E; try contradiction.
    + assert (i = 0%nat) by (vm_compute in E; congruence). subst i.
      exists s'. split; [reflexivity|].
      destruct H1 as (_ & _ & _ & _ & [(_ & Hr)|(Hz & _)] & _).
      * rewrite Hr. reflexivity.
      * discriminate Hz.
    + vm_compute in E. discriminate E.
  - destruct (iget 1 9 three_slots) as [i s'| | |] eqn:E; try contradiction.
    + assert (i = 1%nat) by (vm_compute in E; congruence). subst i.
      exists s'. split; [reflexivity|].
      destruct H2 as (_ & _ & _ & _ & [(Hr & _)|(_ & Hr & _)] & _).
      * simpl in Hr. lia.
      * exact Hr.
    + vm_compute in E. discriminate E.
Defined.

End SysfileSpec.

Module LogDiskSpec.
Import Fs FsSpec LogDisk.

Lemma get8_copy_block dv from to d dv' b o :
  get8 (copy_block dv from to d) dv' b o
  = if (dv' =? dv) && (b =? to) && (0 <=? o) && (o <? BSIZE)
    then get8 d dv from o else get8 d dv' b o.
Proof.
  unfold copy_block.
  destruct ((dv' =? dv) && (b =? to) && (0 <=? o) && (o <? BSIZE)) eqn:E.
  - apply andb_true_iff in E as [E E4]. apply andb_true_iff in E as [E E3].
    apply andb_true_iff in E as [E1 E2].
    apply Z.eqb_eq in E1, E2. apply Z.leb_le in E3. apply Z.ltb_lt in E4. subst dv' b.
    rewrite get8_put_in by (rewrite length_map, length_seq, Z2Nat.id; unfold BSIZE in *; lia).
    rewrite Z.sub_0_r.
    rewrite (nth_indep _ 0 ((fun o => get8 d dv from (Z.of_nat o)) 0%nat))
      by (rewrite length_map, length_seq; unfold BSIZE in *; lia).
    rewrite (map_nth (fun o => get8 d dv from (Z.of_nat o))).
    rewrite seq_nth by (unfold BSIZE in *; lia). cbn [Nat.add].
    now rewrite Z2Nat.id by lia.
  - apply get8_put_out. intros (-> & -> & Ho).
    rewrite length_map, length_seq, Z2Nat.id in Ho by (unfold BSIZE; lia).
    rewrite !Z.eqb_refl in E. cbn [andb] in E.
    apply andb_false_iff in E as [E|E]; [apply Z.leb_gt in E|apply Z.ltb_ge in E]; lia.
Qed.

Lemma get32_ext d d' dv b i :
  (forall o, 4 * i <= o < 4 * i + 4 -> get8 d' dv b o = get8 d dv b o) ->
  get32 d' dv b i = get32 d dv b i.
Proof. intros H. unfold get32. rewrite !H by lia. reflexivity. Qed.

Lemma get8_put32_out dv b i v d dv' b' o :
  ~ (dv' = dv /\ b' = b /\ 4 * i <= o < 4 * i + 4) ->
  get8 (put32 dv b i v d) dv' b' o = get8 d dv' b' o.
Proof.
  intros H. unfold put32. apply get8_put_out. rewrite length_le. exact H.
Qed.

(** The [for] loop of [write_head] after [k] turns. *)
Lemma write_head_fold dv hb blk d : forall k,
  let d' := fold_left (fun d i => put32 dv hb (1 + Z.of_nat i) (nth i blk 0) d)
                      (seq 0 k) d in
  (forall i, (i < k)%nat -> 0 <= nth i blk 0 < 2 ^ 32 ->
             get32 d' dv hb (1 + Z.of_nat i) = nth i blk 0) /\
  (forall dv' b o, ~ (dv' = dv /\ b = hb /\ 4 <= o < 4 + 4 * Z.of_nat k) ->
                   get8 d' dv' b o = get8 d dv' b o).
Proof.
  induction k as [|k IH]; cbv zeta.
  - split; [intros i Hi; lia|reflexivity].
  - rewrite seq_S, fold_left_app. cbn [fold_left Nat.add].
    cbv zeta in IH. destruct IH as (IH1 & IH2).
    set (d1 := fold_left _ (seq 0 k) d) in *. split.
    + intros i Hi Hv. destruct (Nat.eq_dec i k) as [->|Hne].
      * apply get32_put32; lia.
      * rewrite <- (IH1 i ltac:(lia) Hv). apply get32_ext. intros o Ho.
        apply get8_put32_out. lia.
    + intros dv' b o Hout. rewrite get8_put32_out by lia. apply IH2. lia.
Qed.

(** The [for] loop of [read_head] after [k] turns. *)
Lemma read_head_fold (g : nat -> Z) : forall k blk t,
  nth t (fold_left (fun blk i => <[i := g i]> blk) (seq 0 k) blk) 0
  = if bool_decide (t < k)%nat && bool_decide (t < length blk)%nat
    then g t else nth t blk 0.
Proof.
  induction k as [|k IH]; intros blk t.
  - reflexivity.
  - rewrite seq_S, fold_left_app. cbn [fold_left Nat.add].
    set (b1 := fold_left _ (seq 0 k) blk).
    assert (Hlen : length b1 = length blk).
    { unfold b1. clear. generalize (seq 0 k). intros l. revert blk.
      induction l as [|a l IHl]; intros blk; [reflexivity|].
      cbn [fold_left]. rewrite IHl. apply length_insert. }
    destruct (Nat.eq_dec t k) as [->|Hne].
    + destruct (decide (k < length blk)%nat) as [Hk|Hk].
      * rewrite (nth_lookup_Some _ _ _ (g k))
          by (apply list_lookup_insert_eq; lia).
        rewrite !bool_decide_eq_true_2 by lia. reflexivity.
      * rewrite (bool_decide_eq_false_2 (k < length blk)%nat) by exact Hk.
        rewrite andb_false_r. rewrite !nth_overflow; [reflexivity|lia|].
        rewrite length_insert. lia.
    + replace (nth t (<[k := g k]> b1) 0) with (nth t b1 0).
      * unfold b1. rewrite IH.
        destruct (decide (t < k)%nat).
        -- rewrite (bool_decide_eq_true_2 (t < k)%nat),
             (bool_decide_eq_true_2 (t < S k)%nat) by lia. reflexivity.
        -- rewrite (bool_decide_eq_false_2 (t < k)%nat),
             (bool_decide_eq_false_2 (t < S k)%nat) by lia. reflexivity.
      * destruct (decide (t < length b1)%nat) as [Ht|Ht].
        -- destruct (lookup_lt_is_Some_2 b1 t Ht) as [x Hx].
           rewrite (nth_lookup_Some _ _ _ x Hx).
           symmetry. apply nth_lookup_Some.
           rewrite list_lookup_insert_ne by auto. exact Hx.
        -- rewrite !nth_overflow; [reflexivity| |lia].
           rewrite length_insert. lia.
Qed.

Lemma to_int_small v : 0 <= v < 2 ^ 31 -> Log.to_int v = v.
Proof.
  intros Hv. unfold Log.to_int. rewrite Z.mod_small by lia.
  destruct (Z.ltb_spec v (2 ^ 31)); lia.
Qed.

Lemma to_uint_small v : 0 <= v < 2 ^ 32 -> Log.to_uint v = v.
Proof. intros Hv. unfold Log.to_uint. apply Z.mod_small. lia. Qed.

(** X27.  [write_head] stores the block numbers of the header, but not
    its count.  For a header in memory of [n] block numbers, [write_head]
    puts them into the header block of the log as its entries
    [block[0..n)] and changes no other byte of the device: the count [n]
    of the header block stays what it was.  So the [read_head] that
    follows sets [log.lh.n] to the count that was on the disk before
    [write_head], not to [n], and gets back the block numbers below both
    counts. *)
Theorem write_head_leaves_count s :
  0 <= Log.n (Log.lh (lg s)) <= Log.LOGSIZE ->
  length (Log.block (Log.lh (lg s))) = Z.to_nat Log.LOGSIZE ->
  (forall t, 0 <= t < Log.n (Log.lh (lg s)) ->
             0 <= nth (Z.to_nat t) (Log.block (Log.lh (lg s))) 0 < 2 ^ 31) ->
  exists s',
    write_head s = Ret tt s' /\ lg s' = lg s /\
    disk_count s' = disk_count s /\
    (forall t, 0 <= t < Log.n (Log.lh (lg s)) ->
       get32 (dsk s') (ldev s) (head_block s) (1 + t)
       = nth (Z.to_nat t) (Log.block (Log.lh (lg s))) 0) /\
    (forall dv b o,
       ~ (dv = ldev s /\ b = head_block s /\ 4 <= o < 4 + 4 * Log.n (Log.lh (lg s))) ->
       get8 (dsk s') dv b o = get8 (dsk s) dv b o) /\
    exists s'',
      read_head s' = Ret tt s'' /\ dsk s'' = dsk s' /\
      Log.n (Log.lh (lg s'')) = disk_count s /\
      forall t, 0 <= t < Log.n (Log.lh (lg s)) -> t < disk_count s ->
        nth (Z.to_nat t) (Log.block (Log.lh (lg s''))) 0
        = nth (Z.to_nat t) (Log.block (Log.lh (lg s))) 0.
Proof.
  intros Hn Hlen Hent.
  pose proof (write_head_fold (ldev s) (head_block s) (Log.block (Log.lh (lg s)))
                (dsk s) (Z.to_nat (Log.n (Log.lh (lg s))))) as Hw.
  cbv zeta in Hw. destruct Hw as (Hw1 & Hw2).
  set (d' := fold_left _ _ (dsk s)) in *.
  exists (set_dsk d' s).
  assert (Hcount : disk_count (set_dsk d' s) = disk_count s).
  { unfold disk_count. f_equal. apply get32_ext. intros o Ho.
    apply Hw2. lia. }
  assert (Hget : forall t, 0 <= t < Log.n (Log.lh (lg s)) ->
            get32 d' (ldev s) (head_block s) (1 + t)
            = nth (Z.to_nat t) (Log.block (Log.lh (lg s))) 0).
  { intros t Ht. specialize (Hw1 (Z.to_nat t) ltac:(lia)).
    rewrite Z2Nat.id in Hw1 by lia. apply Hw1. specialize (Hent t Ht). lia. }
  split; [reflexivity|]. split; [reflexivity|]. split; [exact Hcount|].
  split; [exact Hget|]. split.
  { intros dv b o Hout. apply Hw2. rewrite Z2Nat.id by lia. exact Hout. }
  eexists. split; [reflexivity|]. split; [reflexivity|]. split; [exact Hcount|].
  intros t Ht Hlt. cbn [lg set_lh Log.lh Log.set_lh Log.block].
  fold (disk_count (set_dsk d' s)). rewrite Hcount.
  rewrite (read_head_fold
             (fun i => Log.to_int (get32 (dsk (set_dsk d' s)) (ldev (set_dsk d' s))
                                         (head_block (set_dsk d' s)) (1 + Z.of_nat i)))).
  rewrite !bool_decide_eq_true_2.
  - cbn [andb]. rewrite Z2Nat.id by lia.
    cbn [dsk set_dsk]. change (ldev (set_dsk d' s)) with (ldev s).
    change (head_block (set_dsk d' s)) with (head_block s).
    rewrite (Hget t Ht). apply to_int_small. apply Hent. exact Ht.
  - cbn [lg set_dsk]. rewrite Hlen. unfold Log.LOGSIZE, Log.MAXOPBLOCKS in *. lia.
  - lia.
Qed.

Lemma write_head_leaves_count_witness :
  exists s' s'',
    write_head staged_two = Ret tt s' /\ read_head s' = Ret tt s'' /\
    get32 (dsk s') 1 2 1 = 40 /\ get32 (dsk s') 1 2 2 = 41 /\
    Log.n (Log.lh (lg staged_two)) = 2 /\ Log.n (Log.lh (lg s'')) = 0.
Proof.
  destruct (write_head_leaves_count staged_two) as (s' & H1 & _ & _ & H2 & _ & s'' & H3 & _ & H4 & _).
  - vm_compute. split; intros H; discriminate H.
  - reflexivity.
  - intros t Ht. change (Log.n (Log.lh (lg staged_two))) with 2 in Ht.
    assert (E : t = 0 \/ t = 1) by lia. destruct E as [->| ->]; vm_compute;
      (split; [intros H; discriminate H|reflexivity]).
  - exists s', s''. split; [exact H1|]. split; [exact H3|].
    split; [exact (H2 0 ltac:(vm_compute; split; [intros H; discriminate H|reflexivity]))|].
    split; [exact (H2 1 ltac:(vm_compute; split; [intros H; discriminate H|reflexivity]))|].
    split; [reflexivity|exact H4].
Defined.


Lemma lg_write_log_loop : forall todo tail s, lg (write_log_loop todo tail s) = lg s.
Proof.
  induction todo as [|t IH]; intros tail s; [reflexivity|].
  cbn [write_log_loop]. now rewrite IH.
Qed.

Lemma lg_install_loop : forall todo tail s, lg (install_loop todo tail s) = lg s.
Proof.
  induction todo as [|t IH]; intros tail s; [reflexivity|].
  cbn [install_loop]. now rewrite IH.
Qed.

(** The blocks of the log are apart. *)
Lemma log_block_inj s t u :
  0 <= Log.start (lg s) -> Log.start (lg s) + Log.LOGSIZE < 2 ^ 31 ->
  0 <= t < Log.LOGSIZE -> 0 <= u < Log.LOGSIZE ->
  log_block s t = log_block s u -> t = u.
Proof.
  unfold log_block. intros H1 H2 Ht Hu.
  rewrite !to_uint_small by lia. lia.
Qed.

Lemma log_block_not_head s t :
  0 <= Log.start (lg s) -> Log.start (lg s) + Log.LOGSIZE < 2 ^ 31 ->
  0 <= t < Log.LOGSIZE -> log_block s t <> head_block s.
Proof.
  unfold log_block, head_block. intros H1 H2 Ht.
  rewrite !to_uint_small by lia. lia.
Qed.

(** [write_log]: the blocks of the log get the bytes of the home blocks,
    and nothing else changes. *)
Lemma write_log_loop_spec s0 n : forall todo tail s,
  lg s = lg s0 -> 0 <= tail -> tail + Z.of_nat todo <= n -> n <= Log.LOGSIZE ->
  0 <= Log.start (lg s0) -> Log.start (lg s0) + Log.LOGSIZE < 2 ^ 31 ->
  (forall t, 0 <= t < n -> ~ in_log s0 n (home_block s0 t)) ->
  let s' := write_log_loop todo tail s in
  (forall t o, tail <= t < tail + Z.of_nat todo -> 0 <= o < BSIZE ->
     get8 (dsk s') (ldev s0) (log_block s0 t) o
     = get8 (dsk s) (ldev s0) (home_block s0 t) o) /\
  (forall dv b o,
     ~ (dv = ldev s0 /\ exists t, tail <= t < tail + Z.of_nat todo /\ b = log_block s0 t) ->
     get8 (dsk s') dv b o = get8 (dsk s) dv b o).
Proof.
  induction todo as [|k IH]; intros tail s Hlg Htail Hn Hmax Hst Hst2 Hhome; cbv zeta.
  - split; [intros t o Ht; lia|reflexivity].
  - cbn [write_log_loop].
    assert (El : ldev s = ldev s0) by (unfold ldev; now rewrite Hlg).
    assert (Eh : forall t, home_block s t = home_block s0 t)
      by (intros t; unfold home_block; now rewrite Hlg).
    assert (Eb : forall t, log_block s t = log_block s0 t)
      by (intros t; unfold log_block; now rewrite Hlg).
    rewrite El, Eh, Eb.
    set (s1 := set_dsk (copy_block (ldev s0) (home_block s0 tail) (log_block s0 tail)
                                   (dsk s)) s).
    destruct (IH (tail + 1) s1 Hlg ltac:(lia) ltac:(lia) Hmax Hst Hst2 Hhome)
      as (IHa & IHb).
    split.
    + intros t o Ht Ho. destruct (Z.eq_dec t tail) as [->|Hne].
      * rewrite IHb.
        -- unfold s1. cbn [dsk set_dsk]. rewrite get8_copy_block.
           rewrite !Z.eqb_refl, (proj2 (Z.leb_le _ _)), (proj2 (Z.ltb_lt _ _)) by lia.
           reflexivity.
        -- intros (_ & u & Hu & E).
           apply (log_block_inj s0) in E; [lia|lia|lia|lia|lia].
      * rewrite IHa by lia. unfold s1. cbn [dsk set_dsk]. rewrite get8_copy_block.
        destruct (Z.eqb_spec (home_block s0 t) (log_block s0 tail)) as [E|E].
        -- exfalso. apply (Hhome t ltac:(lia)). right. exists tail. split; [lia|exact E].
        -- rewrite andb_false_r. reflexivity.
    + intros dv b o Hout. rewrite IHb.
      * unfold s1. cbn [dsk set_dsk]. rewrite get8_copy_block.
        destruct (Z.eqb_spec dv (ldev s0)) as [->|]; [|reflexivity].
        destruct (Z.eqb_spec b (log_block s0 tail)) as [->|]; [|reflexivity].
        exfalso. apply Hout. split; [reflexivity|]. exists tail. split; [lia|reflexivity].
      * intros (Hd & u & Hu & E). apply Hout. split; [exact Hd|].
        exists u. split; [lia|exact E].
Qed.

(** [install_trans] changes nothing when the blocks of the log hold the
    bytes of their home blocks already. *)
Lemma install_loop_same s0 : forall todo tail s,
  lg s = lg s0 ->
  (forall t o, tail <= t < tail + Z.of_nat todo -> 0 <= o < BSIZE ->
     get8 (dsk s) (ldev s0) (log_block s0 t) o
     = get8 (dsk s) (ldev s0) (home_block s0 t) o) ->
  forall dv b o,
    get8 (dsk (install_loop todo tail s)) dv b o = get8 (dsk s) dv b o.
Proof.
  induction todo as [|k IH]; intros tail s Hlg Hsame dv b o; [reflexivity|].
  cbn [install_loop].
  assert (El : ldev s = ldev s0) by (unfold ldev; now rewrite Hlg).
  assert (Eh : forall t, home_block s t = home_block s0 t)
    by (intros t; unfold home_block; now rewrite Hlg).
  assert (Eb : forall t, log_block s t = log_block s0 t)
    by (intros t; unfold log_block; now rewrite Hlg).
  rewrite El, Eh, Eb.
  set (s1 := set_dsk (copy_block (ldev s0) (log_block s0 tail) (home_block s0 tail)
                                 (dsk s)) s).
  assert (H1 : forall dv b o, get8 (dsk s1) dv b o = get8 (dsk s) dv b o).
  { intros dv' b' o'. unfold s1. cbn [dsk set_dsk]. rewrite get8_copy_block.
    destruct ((dv' =? ldev s0) && (b' =? home_block s0 tail) && (0 <=? o') && (o' <? BSIZE))
      eqn:E; [|reflexivity].
    apply andb_true_iff in E as [E E4]. apply andb_true_iff in E as [E E3].
    apply andb_true_iff in E as [E1 E2].
    apply Z.eqb_eq in E1, E2. apply Z.leb_le in E3. apply Z.ltb_lt in E4. subst dv' b'.
    apply Hsame; lia. }
  rewrite (IH (tail + 1) s1 Hlg); [apply H1|].
  intros t o' Ht Ho. rewrite !H1. apply Hsame; lia.
Qed.

(** X28.  [commit] copies the blocks of the transaction into the log
    and names them in the header block, but the count of the header
    block on the disk stays what it was.  For a staged header of [n > 0]
    block numbers outside the log, [commit] returns with [log.lh.n = 0];
    block [t] of the log then holds the bytes of home block [t], the
    header block names the home blocks, no byte outside the log has
    changed, and the count in the header block is the one from before
    the commit.  If that count was 0, a [recover_from_log] after the
    commit replays nothing: it changes no byte of the device. *)
Theorem commit_leaves_disk_count s :
  staged_ok s -> 0 < Log.n (Log.lh (lg s)) ->
  exists s',
    commit s = Ret tt s' /\ Log.n (Log.lh (lg s')) = 0 /\
    disk_count s' = disk_count s /\
    (forall t o, 0 <= t < Log.n (Log.lh (lg s)) -> 0 <= o < BSIZE ->
       get8 (dsk s') (ldev s) (log_block s t) o
       = get8 (dsk s) (ldev s) (home_block s t) o) /\
    (forall t, 0 <= t < Log.n (Log.lh (lg s)) ->
       get32 (dsk s') (ldev s) (head_block s) (1 + t) = home_block s t) /\
    (forall dv b o, ~ (dv = ldev s /\ in_log s (Log.n (Log.lh (lg s))) b) ->
       get8 (dsk s') dv b o = get8 (dsk s) dv b o) /\
    (disk_count s = 0 ->
     exists s'', recover_from_log s' = Ret tt s'' /\ dsk s'' = dsk s').
Proof.
  intros (Hn & Hlen & Hst & Hst2 & Hent) Hpos.
  set (n := Log.n (Log.lh (lg s))) in *.
  assert (Hmax : n <= 30) by (unfold Log.LOGSIZE, Log.MAXOPBLOCKS in Hn; lia).
  assert (Hhb : forall t, 0 <= t < n ->
            home_block s t = nth (Z.to_nat t) (Log.block (Log.lh (lg s))) 0).
  { intros t Ht. unfold home_block. apply to_uint_small.
    destruct (Hent t Ht) as (Hr & _). lia. }
  assert (Hhome : forall t, 0 <= t < n -> ~ in_log s n (home_block s t)).
  { intros t Ht. rewrite (Hhb t Ht). apply (Hent t Ht). }
  pose (s1 := write_log_loop (Z.to_nat n) 0 s).
  pose (s2 := set_dsk
                (fold_left
                   (fun d i => put32 (ldev s1) (head_block s1) (1 + Z.of_nat i)
                                     (nth i (Log.block (Log.lh (lg s1))) 0) d)
                   (seq 0 (Z.to_nat (Log.n (Log.lh (lg s1))))) (dsk s1)) s1).
  pose (s3 := install_loop (Z.to_nat (Log.n (Log.lh (lg s2)))) 0 s2).
  pose (s4 := set_lh (Log.mkHeader 0 (Log.block (Log.lh (lg s3)))) s3).
  exists s4.
  assert (Hlg1 : lg s1 = lg s) by apply lg_write_log_loop.
  assert (Hlg3 : lg s3 = lg s).
  { unfold s3. rewrite lg_install_loop. exact Hlg1. }
  assert (El : ldev s1 = ldev s) by (unfold ldev; now rewrite Hlg1).
  assert (Ehd : head_block s1 = head_block s) by (unfold head_block; now rewrite Hlg1).
  destruct (write_log_loop_spec s n (Z.to_nat n) 0 s eq_refl ltac:(lia) ltac:(lia)
              ltac:(unfold Log.LOGSIZE, Log.MAXOPBLOCKS; lia) Hst Hst2 Hhome)
    as (Hl1 & Ho1).
  fold s1 in Hl1, Ho1. rewrite Z2Nat.id in Hl1, Ho1 by lia.
  pose proof (write_head_fold (ldev s1) (head_block s1) (Log.block (Log.lh (lg s1)))
                (dsk s1) (Z.to_nat (Log.n (Log.lh (lg s1))))) as Hw.
  cbv zeta in Hw. destruct Hw as (Hw1 & Hw2).
  change (fold_left _ _ (dsk s1)) with (dsk s2) in Hw1, Hw2.
  rewrite El, Ehd in Hw1, Hw2. rewrite Hlg1 in Hw1, Hw2. fold n in Hw1, Hw2.
  rewrite Z2Nat.id in Hw2 by lia.
  assert (H2 : forall dv b o, ~ (dv = ldev s /\ b = head_block s) ->
            get8 (dsk s2) dv b o = get8 (dsk s1) dv b o).
  { intros dv b o Hout. apply Hw2. intros (-> & -> & _). apply Hout. auto. }
  assert (Hnh : forall t, 0 <= t < n -> log_block s t <> head_block s).
  { intros t Ht. apply log_block_not_head; auto.
    unfold Log.LOGSIZE, Log.MAXOPBLOCKS. lia. }
  assert (Hlog2 : forall t o, 0 <= t < n -> 0 <= o < BSIZE ->
            get8 (dsk s2) (ldev s) (log_block s t) o
            = get8 (dsk s) (ldev s) (home_block s t) o).
  { intros t o Ht Ho. rewrite H2 by (intros (_ & E); now apply (Hnh t Ht)).
    apply Hl1; lia. }
  assert (Hhome2 : forall t o, 0 <= t < n ->
            get8 (dsk s2) (ldev s) (home_block s t) o
            = get8 (dsk s) (ldev s) (home_block s t) o).
  { intros t o Ht. rewrite H2.
    - apply Ho1. intros (_ & u & Hu & E). apply (Hhome t Ht). right. eauto.
    - intros (_ & E). apply (Hhome t Ht). left. exact E. }
  assert (H3 : forall dv b o, get8 (dsk s3) dv b o = get8 (dsk s2) dv b o).
  { intros dv b o. unfold s3. apply (install_loop_same s).
    - exact Hlg1.
    - intros t o' Ht Ho. change (lg s2) with (lg s1) in Ht. rewrite Hlg1 in Ht.
      fold n in Ht. rewrite Z2Nat.id in Ht by lia.
      rewrite Hlog2, Hhome2 by lia. reflexivity. }
  assert (E4 : forall dv b o, get8 (dsk s4) dv b o = get8 (dsk s2) dv b o)
    by (intros; apply H3).
  assert (El4 : ldev s4 = ldev s).
  { unfold ldev, s4. cbn [lg set_lh Log.set_lh Log.dev]. now rewrite Hlg3. }
  assert (Eh4 : head_block s4 = head_block s).
  { unfold head_block, s4. cbn [lg set_lh Log.set_lh Log.start]. now rewrite Hlg3. }
  assert (Hcount : disk_count s4 = disk_count s).
  { unfold disk_count. rewrite El4, Eh4. f_equal.
    transitivity (get32 (dsk s1) (ldev s) (head_block s) 0).
    - apply get32_ext. intros o Ho. rewrite E4. apply Hw2. lia.
    - apply get32_ext. intros o Ho. apply Ho1.
      intros (_ & u & Hu & E). symmetry in E. now apply (Hnh u Hu). }
  split.
  { unfold commit, bind, gets. fold n. rewrite (proj2 (Z.ltb_lt 0 n) Hpos).
    reflexivity. }
  split; [reflexivity|]. split; [exact Hcount|].
  split; [intros t o Ht Ho; rewrite E4; now apply Hlog2|].
  split.
  { intros t Ht. rewrite (get32_ext (dsk s2) (dsk s4)) by (intros; apply E4).
    specialize (Hw1 (Z.to_nat t) ltac:(lia)). rewrite Z2Nat.id in Hw1 by lia.
    rewrite (Hhb t Ht). apply Hw1. destruct (Hent t Ht) as (Hr & _). lia. }
  split.
  { intros dv b o Hout. rewrite E4, H2.
    - apply Ho1. intros (Hd & u & Hu & E). apply Hout. split; [exact Hd|]. right. eauto.
    - intros (Hd & E). apply Hout. split; [exact Hd|]. left. exact E. }
  intros Hzero.
  assert (Hrh : read_head s4
                = Ret tt (set_lh (Log.mkHeader 0 (Log.block (Log.lh (lg s4)))) s4)).
  { unfold read_head, modify. fold (disk_count s4). rewrite Hcount, Hzero. reflexivity. }
  eexists. split.
  - unfold recover_from_log, bind. rewrite Hrh. reflexivity.
  - reflexivity.
Qed.

Lemma staged_two_ok : staged_ok staged_two.
Proof.
  unfold staged_ok. cbv zeta.
  change (Log.n (Log.lh (lg staged_two))) with 2.
  change (Log.start (lg staged_two)) with 2.
  unfold Log.LOGSIZE, Log.MAXOPBLOCKS.
  split; [lia|]. split; [reflexivity|]. split; [lia|]. split; [lia|].
  intros t Ht. assert (E : t = 0 \/ t = 1) by lia.
  destruct E as [->| ->].
  - split; [vm_compute; split; [intros H; discriminate H|reflexivity]|].
    intros [H|(u & Hu & H)]; [discriminate H|].
    unfold log_block in H. change (Log.start (lg staged_two)) with 2 in H.
    rewrite to_uint_small in H by lia. change (nth (Z.to_nat 0) _ 0) with 40 in H. lia.
  - split; [vm_compute; split; [intros H; discriminate H|reflexivity]|].
    intros [H|(u & Hu & H)]; [discriminate H|].
    unfold log_block in H. change (Log.start (lg staged_two)) with 2 in H.
    rewrite to_uint_small in H by lia. change (nth (Z.to_nat 1) _ 0) with 41 in H. lia.
Qed.

Lemma commit_leaves_disk_count_witness :
  exists s' s'',
    commit staged_two = Ret tt s' /\
    get8 (dsk s') 1 3 0 = 7 /\ get8 (dsk s') 1 4 0 = 9 /\
    disk_count s' = 0 /\
    recover_from_log s' = Ret tt s'' /\ dsk s'' = dsk s'.
Proof.
  destruct (commit_leaves_disk_count staged_two staged_two_ok
              ltac:(vm_compute; reflexivity))
    as (s' & H1 & _ & H2 & H3 & _ & _ & H4).
  destruct (H4 eq_refl) as (s'' & H5 & H6).
  exists s', s''. split; [exact H1|].
  split; [exact (H3 0 0 ltac:(vm_compute; split; [intros H; discriminate H|reflexivity])
                   ltac:(vm_compute; split; [intros H; discriminate H|reflexivity]))|].
  split; [exact (H3 1 0 ltac:(vm_compute; split; [intros H; discriminate H|reflexivity])
                   ltac:(vm_compute; split; [intros H; discriminate H|reflexivity]))|].
  split; [exact H2|]. split; [exact H5|exact H6].
Defined.

End LogDiskSpec.

Module BioSpec.
Import Spinlock SpinlockSpec Proc ProcSpec Bio.

Lemma buf_at_upd_eq b f s :
  (b < length (bufs s))%nat -> buf_at b (upd_buf b f s) = f (buf_at b s).
Proof.
  intros H. unfold buf_at, upd_buf. cbn [bufs].
  apply nth_lookup_Some. apply list_lookup_insert_eq. exact H.
Qed.

Lemma buf_at_upd_ne b b' f s : b <> b' -> buf_at b' (upd_buf b f s) = buf_at b' s.
Proof.
  intros H. unfold buf_at, upd_buf. cbn [bufs].
  destruct (bufs s !! b') as [x|] eqn:E.
  - rewrite (nth_lookup_Some _ _ _ x), (nth_lookup_Some _ _ _ x); auto.
    rewrite list_lookup_insert_ne; auto.
  - rewrite !nth_overflow; auto.
    + apply lookup_ge_None in E. lia.
    + apply lookup_ge_None in E. rewrite length_insert. lia.
Qed.

Lemma length_upd_buf b f s : length (bufs (upd_buf b f s)) = length (bufs s).
Proof. unfold upd_buf. cbn [bufs]. apply length_insert. Qed.

Lemma liftK_buf_ret {A} (m : Proc.M A) s a k :
  m (kern s) = Ret a k -> liftK m s = Ret a (set_kern k s).
Proof. intros H. unfold liftK. now rewrite H. Qed.

Lemma liftK_buf_panic {A} (m : Proc.M A) s msg :
  m (kern s) = Panic msg -> liftK m s = Panic msg.
Proof. intros H. unfold liftK. now rewrite H. Qed.

(** A spinlock operation in the buffer-cache state. *)
Lemma lock_step (m : Spinlock.M unit) s m' :
  m (mach (kern s)) = Ret tt m' ->
  liftK (lift m) s = Ret tt (set_kern (set_mach m' (kern s)) s).
Proof. intros H. apply liftK_buf_ret. now apply lift_ret. Qed.

(** [linked] looks at the [next] of every buffer but the last and at the
    [prev] of every buffer but the first. *)
Lemma linked_ext s s' : forall l,
  (forall x, In x (removelast l) -> next (buf_at x s') = next (buf_at x s)) ->
  (forall y, In y (tl l) -> prev (buf_at y s') = prev (buf_at y s)) ->
  linked s l -> linked s' l.
Proof.
  induction l as [|x [|y r] IH]; intros Hn Hp H; [exact I|exact I|].
  destruct H as (H1 & H2 & H3). split; [|split].
  - rewrite Hn; [exact H1|]. left. reflexivity.
  - rewrite Hp; [exact H2|]. left. reflexivity.
  - apply IH; [| |exact H3].
    + intros z Hz. apply Hn. right. exact Hz.
    + intros z Hz. apply Hp. right. exact Hz.
Qed.

Lemma linked_app s : forall l1 x l2,
  linked s (l1 ++ x :: l2) <-> linked s (l1 ++ [x]) /\ linked s (x :: l2).
Proof.
  induction l1 as [|a l1 IH]; intros x l2.
  - cbn [app]. split; [intros H; split; [exact I|exact H]|intros [_ H]; exact H].
  - destruct l1 as [|a' l1].
    + cbn [app linked]. destruct l2; tauto.
    + specialize (IH x l2). cbn [app] in IH |- *.
      change (linked s (a :: a' :: l1 ++ x :: l2))
        with (next (buf_at a s) = Some a' /\ prev (buf_at a' s) = Some a /\
              linked s (a' :: l1 ++ x :: l2)).
      change (linked s (a :: a' :: l1 ++ [x]))
        with (next (buf_at a s) = Some a' /\ prev (buf_at a' s) = Some a /\
              linked s (a' :: l1 ++ [x])).
      tauto.
Qed.

Lemma linked_pair s x y :
  linked s [x; y] <-> next (buf_at x s) = Some y /\ prev (buf_at y s) = Some x.
Proof. cbn [linked]. tauto. Qed.

Lemma linked_snoc s d : forall A y,
  A <> [] ->
  (linked s (A ++ [y]) <->
   linked s A /\ next (buf_at (List.last A d) s) = Some y /\
   prev (buf_at y s) = Some (List.last A d)).
Proof.
  intros A y HA. destruct (exists_last HA) as (A' & p & ->).
  rewrite last_last. rewrite <- app_assoc. cbn [app].
  rewrite linked_app, linked_pair. tauto.
Qed.

(** A change that leaves the pointers alone leaves the ring alone. *)
Lemma ring_ext s s' l :
  head s' = head s -> length (bufs s') = length (bufs s) ->
  (forall x, next (buf_at x s') = next (buf_at x s)) ->
  (forall x, prev (buf_at x s') = prev (buf_at x s)) ->
  ring s l -> ring s' l.
Proof.
  intros Hh Hlen Hn Hp (Hnd & Hin & Hl).
  split; [exact Hnd|]. split; [intros x Hx; rewrite Hlen; now apply Hin|].
  destruct l as [|h t]; [exact Hl|]. destruct Hl as (Hhd & Hlk).
  split; [now rewrite Hh|].
  apply (linked_ext s s'); auto.
Qed.

(** The walk of [bget] along the ring: from buffer [b] on it finds the
    first buffer of the rest of the ring that passes the test. *)
Lemma walk_ring test s l :
  ring s l ->
  forall post pre b turns,
    l = pre ++ b :: post -> (length post < turns)%nat ->
    walk test turns b s = Ret (find (fun x => test (buf_at x s)) (b :: post)) s.
Proof.
  intros (Hnd & Hin & Hl).
  destruct l as [|h t]; [contradiction|]. destruct Hl as (Hhd & Hlk).
  induction post as [|b' post IH]; intros pre b turns El Hturns.
  - destruct turns as [|turns]; [simpl in Hturns; lia|].
    cbn [walk find]. destruct (test (buf_at b s)); [reflexivity|].
    assert (Hnext : next (buf_at b s) = Some h).
    { change (h :: t ++ [h]) with ((h :: t) ++ [h]) in Hlk. rewrite El in Hlk.
      rewrite <- app_assoc in Hlk. cbn [app] in Hlk.
      apply linked_app in Hlk as (_ & Hlk). apply linked_pair in Hlk. tauto. }
    rewrite Hnext, Hhd. rewrite bool_decide_eq_true_2 by reflexivity. reflexivity.
  - destruct turns as [|turns]; [simpl in Hturns; lia|].
    cbn [walk]. cbn [find]. destruct (test (buf_at b s)) eqn:Et; [reflexivity|].
    assert (Hnext : next (buf_at b s) = Some b').
    { change (h :: t ++ [h]) with ((h :: t) ++ [h]) in Hlk. rewrite El in Hlk.
      rewrite <- app_assoc in Hlk. cbn [app] in Hlk.
      apply linked_app in Hlk as (_ & Hlk). cbn [linked] in Hlk. tauto. }
    assert (Hne : b' <> h).
    { intros ->. rewrite El in Hnd. destruct pre as [|x pre].
      - cbn [app] in El. inversion El; subst. cbn [app] in Hnd.
        apply NoDup_cons in Hnd as (Hnot & _). apply Hnot.
        apply list_elem_of_In. left. reflexivity.
      - cbn [app] in El. inversion El; subst. cbn [app] in Hnd.
        apply NoDup_cons in Hnd as (Hnot & _). apply Hnot.
        apply list_elem_of_In. apply in_or_app. right. right. left. reflexivity. }
    rewrite Hnext, Hhd. rewrite bool_decide_eq_false_2 by congruence.
    unfold bind, deref, ret.
    rewrite (IH (pre ++ [b]) b' turns).
    + reflexivity.
    + rewrite El, <- app_assoc. reflexivity.
    + simpl in Hturns. lia.
Qed.

Lemma walk_head test s h t turns :
  ring s (h :: t) -> (length t < turns)%nat ->
  walk test turns h s = Ret (find (fun x => test (buf_at x s)) (h :: t)) s.
Proof. intros Hr Ht. apply (walk_ring test s (h :: t) Hr t [] h turns eq_refl Ht). Qed.

(** [find] names the first element that passes. *)
Lemma find_first {A} (f : A -> bool) l1 x l2 :
  f x = true -> (forall y, In y l1 -> f y = false) -> find f (l1 ++ x :: l2) = Some x.
Proof.
  intros Hx. induction l1 as [|a l1 IH]; intros Hn; cbn [app find].
  - now rewrite Hx.
  - rewrite (Hn a) by (left; reflexivity). apply IH. intros y Hy. apply Hn. now right.
Qed.

Lemma find_none' {A} (f : A -> bool) l :
  (forall y, In y l -> f y = false) -> find f l = None.
Proof.
  induction l as [|a l IH]; intros Hn; cbn [find]; [reflexivity|].
  rewrite (Hn a) by (left; reflexivity). apply IH. intros y Hy. apply Hn. now right.
Qed.


Lemma acquire_ncli l c s s' :
  inv s -> (c < length (cpus s))%nat -> acquire l c s = Ret tt s' ->
  ncli (mycpu c s') = ncli (mycpu c s) + 1.
Proof.
  intros Hinv Hc H. destruct (Hinv c Hc) as (_ & Hle & _). pose proof (nheld_nonneg c s).
  rewrite acquire_eq in H by (auto; lia). cbv zeta in H.
  destruct (held_by _ _); [discriminate|]. destruct (negb _); [discriminate|].
  inversion H; subst s'. rewrite mycpu_set_lock, mycpu_set_eq by exact Hc. reflexivity.
Qed.

(** [sleep] with a second lock held: [sched] finds [ncli] other than 1. *)
Lemma sleep_enter_sched_locks c ch lk k p :
  inv (mach k) -> (c < length (cpus (mach k)))%nat ->
  nth c (cpu_proc k) None = Some p ->
  lk <> ptable_lock -> held_by c (lock_at lk (mach k)) = true ->
  (ptable_lock < length (locks (mach k)))%nat ->
  locked (lock_at ptable_lock (mach k)) = 0 ->
  ncli (mycpu c (mach k)) <> 1 ->
  sleep_enter c ch lk k = Panic "sched locks".
Proof.
  intros Hinv Hc Hcur Hne Hh Hpl Hfree Hn.
  destruct (held_intr_off c lk _ (Hinv c Hc) Hh) as [Hoff Hn1].
  pose proof (held_in_range _ _ _ Hh) as Hlk.
  set (m0 := mach k) in *.
  set (m1 := set_lock ptable_lock (mkLock 1 (Some c))
               (set_cpu c (pushcli_cpu (mycpu c m0)) m0)).
  assert (Ha : acquire ptable_lock c m0 = Ret tt m1).
  { rewrite acquire_eq by (auto; lia). cbv zeta. unfold held_by. rewrite Hfree. reflexivity. }
  assert (Hc1 : (c < length (cpus m1))%nat) by (unfold m1; simpl; now rewrite length_insert).
  assert (Hx1 : mycpu c m1 = pushcli_cpu (mycpu c m0)).
  { unfold m1. rewrite mycpu_set_lock. now apply mycpu_set_eq. }
  assert (Hlk1 : lock_at lk m1 = lock_at lk m0).
  { unfold m1. rewrite lock_at_set_ne by congruence. apply lock_at_set_cpu. }
  set (m2 := set_cpu c (popcli_cpu (mycpu c m1)) (set_lock lk (mkLock 0 None) m1)).
  assert (Hr : release lk c m1 = Ret tt m2).
  { rewrite release_eq; [rewrite Hlk1, Hh; reflexivity|exact Hc1| |].
    - rewrite Hx1. simpl. lia.
    - unfold intr_off. rewrite Hx1. simpl. apply land_cli. }
  assert (Hc2 : (c < length (cpus m2))%nat) by (unfold m2; simpl; now rewrite length_insert).
  assert (Hx2 : mycpu c m2 = mycpu c m0).
  { unfold m2. rewrite mycpu_set_eq by (simpl; exact Hc1).
    rewrite Hx1. apply holding_cpu_id; [lia|exact Hoff]. }
  assert (Hp2 : lock_at ptable_lock m2 = mkLock 1 (Some c)).
  { unfold m2. rewrite lock_at_set_cpu, lock_at_set_ne by exact Hne.
    unfold m1. apply lock_at_set_eq. simpl. exact Hpl. }
  unfold sleep_enter.
  rewrite (bind_ret _ _ _ _ _ (myproc_eq c k Hc ltac:(fold m0; lia))). fold m0.
  rewrite (holding_cpu_id (mycpu c m0)) by (auto; lia).
  rewrite set_cpu_same. unfold m0 at 1. rewrite set_mach_same. rewrite Hcur.
  rewrite bool_decide_eq_false_2 by exact Hne.
  unfold bind at 1. unfold bind at 1. rewrite (lift_ret _ _ _ _ Ha).
  unfold bind at 1. unfold lift at 1. cbn [mach set_mach]. rewrite Hr.
  unfold bind at 1, modify. unfold bind at 1.
  set (k3 := upd_proc p (set_state SLEEPING) (upd_proc p (set_chan (Some ch))
               (set_mach m2 (set_mach m1 k)))).
  assert (Hm3 : mach k3 = m2) by reflexivity.
  unfold sched_enter, bind at 1. unfold bind at 1. unfold lift at 1. rewrite Hm3.
  rewrite holding_id;
    [|exact Hc2|rewrite Hx2; lia|unfold intr_off; rewrite Hx2; exact Hoff].
  unfold held_by. rewrite Hp2. cbn [locked owner].
  rewrite bool_decide_eq_true_2 by reflexivity. cbn [negb andb Z.eqb].
  rewrite <- Hm3 at 1. rewrite set_mach_same.
  unfold bind at 1, gets. rewrite Hm3, Hx2.
  rewrite (proj2 (Z.eqb_neq _ _) Hn). reflexivity.
Qed.

Lemma sleep_while_locked_free env c b s :
  slocked (buf_at b s) = 0 -> sleep_while_locked env c b s = Ret tt s.
Proof. intros H. destruct env; cbn [sleep_while_locked]; rewrite H; reflexivity. Qed.

(** [acquiresleep] on a free sleeplock takes it for the running process. *)
Lemma acquiresleep_free env c b s p :
  lock_ready c (buf_lk b) (mach (kern s)) ->
  slocked (buf_at b s) = 0 ->
  nth c (cpu_proc (kern s)) None = Some p ->
  exists m',
    acquiresleep env c b s
    = Ret tt (upd_buf b (set_slock 1 (pid (proc_at p (kern s))))
                (set_kern (set_mach m' (kern s)) s)) /\
    lock_ready c (buf_lk b) m' /\
    (forall l, l <> buf_lk b -> lock_at l m' = lock_at l (mach (kern s))) /\
    length (locks m') = length (locks (mach (kern s))).
Proof.
  intros Hready Hfree Hcur.
  destruct (acquire_ready _ _ _ Hready) as (m1 & Ha & Hi1 & Hc1 & Hl1 & Hh1 & Ho1 & Hn1 & _).
  set (s1 := set_kern (set_mach m1 (kern s)) s).
  destruct (myproc_ret c (kern s1) Hi1 Hc1) as (m2 & Hmp & Hi2 & Hc2 & Hlocks2).
  change (mach (kern s1)) with m1 in Hc2, Hlocks2.
  assert (Hh2 : held_by c (lock_at (buf_lk b) m2) = true)
    by (unfold lock_at; rewrite Hlocks2; exact Hh1).
  destruct (release_ready (buf_lk b) c m2 Hi2 ltac:(lia) Hh2)
    as (m3 & Hrel & Hready3 & Ho3 & Hn3 & _).
  exists m3. split; [|split; [exact Hready3|split]].
  - unfold acquiresleep.
    rewrite (bind_ret _ _ _ _ _ (lock_step _ _ _ Ha)). fold s1.
    rewrite (bind_ret _ _ _ _ _ (sleep_while_locked_free env c b s1 Hfree)).
    rewrite (bind_ret _ _ _ _ _ (liftK_buf_ret _ _ _ _ Hmp)).
    change (nth c (cpu_proc (kern s1)) None) with (nth c (cpu_proc (kern s)) None).
    rewrite Hcur. unfold deref, bind at 1, ret. unfold bind at 1, modify.
    unfold liftK, lift. cbn [kern upd_buf set_kern mach set_mach]. rewrite Hrel.
    reflexivity.
  - intros l Hne. rewrite Ho3 by exact Hne. unfold lock_at. rewrite Hlocks2.
    apply Ho1. exact Hne.
  - rewrite Hn3. rewrite Hlocks2. exact Hn1.
Qed.

(** [acquiresleep] on a sleeplock that is taken, called with a spinlock
    held: the sleep ends in the panic of [sched]. *)
Lemma acquiresleep_holding env c b s p :
  lock_ready c (buf_lk b) (mach (kern s)) ->
  slocked (buf_at b s) <> 0 ->
  nth c (cpu_proc (kern s)) None = Some p ->
  (ptable_lock < length (locks (mach (kern s))))%nat ->
  locked (lock_at ptable_lock (mach (kern s))) = 0 ->
  1 <= ncli (mycpu c (mach (kern s))) ->
  acquiresleep env c b s = Panic "sched locks".
Proof.
  intros Hready Hbusy Hcur Hpl Hpfree Hn.
  pose proof Hready as (Hinv & Hc & _).
  destruct (acquire_ready _ _ _ Hready) as (m1 & Ha & Hi1 & Hc1 & Hl1 & Hh1 & Ho1 & Hn1 & _).
  pose proof (acquire_ncli _ _ _ _ Hinv Hc Ha) as Hncli.
  set (s1 := set_kern (set_mach m1 (kern s)) s).
  assert (Hpanic : sleep_enter c (ChanSleeplock b) (buf_lk b) (kern s1)
                   = Panic "sched locks").
  { apply (sleep_enter_sched_locks c _ _ (kern s1) p).
    - exact Hi1.
    - exact Hc1.
    - exact Hcur.
    - unfold buf_lk, ptable_lock. lia.
    - exact Hh1.
    - change (mach (kern s1)) with m1. rewrite Hn1. exact Hpl.
    - change (mach (kern s1)) with m1. rewrite Ho1; [exact Hpfree|].
      unfold buf_lk, ptable_lock. lia.
    - change (mach (kern s1)) with m1. lia. }
  unfold acquiresleep.
  rewrite (bind_ret _ _ _ _ _ (lock_step _ _ _ Ha)). fold s1.
  unfold bind at 1.
  assert (Hloop : sleep_while_locked env c b s1 = Panic "sched locks").
  { destruct env; cbn [sleep_while_locked];
      change (buf_at b s1) with (buf_at b s);
      rewrite (proj2 (Z.eqb_neq _ _) Hbusy); cbn [negb];
      unfold bind; rewrite (liftK_buf_panic _ _ _ Hpanic); reflexivity. }
  rewrite Hloop. reflexivity.
Qed.

(** [holdingsleep]: the lock is taken, and by the running process. *)
Lemma holdingsleep_ret c b s p :
  lock_ready c (buf_lk b) (mach (kern s)) ->
  nth c (cpu_proc (kern s)) None = Some p ->
  exists m',
    holdingsleep c b s
    = Ret (negb (slocked (buf_at b s) =? 0)
           && (spid (buf_at b s) =? pid (proc_at p (kern s))))
          (set_kern (set_mach m' (kern s)) s) /\
    lock_ready c (buf_lk b) m' /\
    (forall l, l <> buf_lk b -> lock_at l m' = lock_at l (mach (kern s))) /\
    length (locks m') = length (locks (mach (kern s))).
Proof.
  intros Hready Hcur.
  destruct (acquire_ready _ _ _ Hready) as (m1 & Ha & Hi1 & Hc1 & Hl1 & Hh1 & Ho1 & Hn1 & _).
  set (s1 := set_kern (set_mach m1 (kern s)) s).
  destruct (Z.eqb_spec (slocked (buf_at b s)) 0) as [Hz|Hnz].
  - destruct (release_ready (buf_lk b) c m1 Hi1 Hc1 Hh1)
      as (m3 & Hrel & Hready3 & Ho3 & Hn3 & _).
    exists m3. split; [|split; [exact Hready3|split]].
    + unfold holdingsleep.
      rewrite (bind_ret _ _ _ _ _ (lock_step _ _ _ Ha)). fold s1.
      unfold bind at 1, gets. change (buf_at b s1) with (buf_at b s).
      rewrite Hz. cbn [Z.eqb]. unfold bind at 1, ret. unfold bind at 1.
      unfold liftK, lift. change (mach (kern s1)) with m1. rewrite Hrel. reflexivity.
    + intros l Hne. rewrite Ho3 by exact Hne. apply Ho1. exact Hne.
    + rewrite Hn3. exact Hn1.
  - destruct (myproc_ret c (kern s1) Hi1 Hc1) as (m2 & Hmp & Hi2 & Hc2 & Hlocks2).
    change (mach (kern s1)) with m1 in Hc2, Hlocks2.
    assert (Hh2 : held_by c (lock_at (buf_lk b) m2) = true)
      by (unfold lock_at; rewrite Hlocks2; exact Hh1).
    destruct (release_ready (buf_lk b) c m2 Hi2 ltac:(lia) Hh2)
      as (m3 & Hrel & Hready3 & Ho3 & Hn3 & _).
    exists m3. split; [|split; [exact Hready3|split]].
    + unfold holdingsleep.
      rewrite (bind_ret _ _ _ _ _ (lock_step _ _ _ Ha)). fold s1.
      unfold bind at 1, gets. change (buf_at b s1) with (buf_at b s).
      rewrite (proj2 (Z.eqb_neq _ _) Hnz). cbn [negb andb].
      unfold bind at 1. unfold bind at 1.
      rewrite (liftK_buf_ret _ _ _ _ Hmp).
      change (nth c (cpu_proc (kern s1)) None) with (nth c (cpu_proc (kern s)) None).
      rewrite Hcur. unfold deref, bind at 1, ret. unfold bind at 1.
      unfold liftK, lift. cbn [kern set_kern mach set_mach]. rewrite Hrel. reflexivity.
    + intros l Hne. rewrite Ho3 by exact Hne. unfold lock_at. rewrite Hlocks2.
      apply Ho1. exact Hne.
    + rewrite Hn3, Hlocks2. exact Hn1.
Qed.

(** [releasesleep] frees the sleeplock and wakes the processes that sleep
    on it. *)
Lemma releasesleep_ret c b s :
  lock_ready c (buf_lk b) (mach (kern s)) ->
  lock_ready c ptable_lock (mach (kern s)) ->
  exists m',
    releasesleep c b s
    = Ret tt (upd_buf b (set_slock 0 0)
                (set_kern (set_mach m'
                   (set_procs (map (wakeup1_proc (ChanSleeplock b)) (procs (kern s)))
                              (kern s))) s)) /\
    lock_ready c (buf_lk b) m' /\ lock_ready c ptable_lock m' /\
    (forall l, l <> buf_lk b -> l <> ptable_lock ->
               lock_at l m' = lock_at l (mach (kern s))) /\
    length (locks m') = length (locks (mach (kern s))).
Proof.
  intros Hready (_ & _ & Hpl & Hpfree).
  assert (Hne : ptable_lock <> buf_lk b) by (unfold buf_lk, ptable_lock; lia).
  destruct (acquire_ready _ _ _ Hready) as (m1 & Ha & Hi1 & Hc1 & Hl1 & Hh1 & Ho1 & Hn1 & _).
  set (s2 := upd_buf b (set_slock 0 0) (set_kern (set_mach m1 (kern s)) s)).
  assert (Hp1 : lock_ready c ptable_lock (mach (kern s2))).
  { change (mach (kern s2)) with m1. split; [exact Hi1|]. split; [exact Hc1|].
    split; [rewrite Hn1; exact Hpl|]. rewrite Ho1 by exact Hne. exact Hpfree. }
  destruct (LogSpec.wakeup_ret c (ChanSleeplock b) (kern s2) Hp1)
    as (m2 & Hw & Hready2 & Ho2 & Hn2).
  change (mach (kern s2)) with m1 in Ho2, Hn2.
  pose proof Hready2 as (Hi2 & Hc2 & _).
  assert (Hh2 : held_by c (lock_at (buf_lk b) m2) = true).
  { rewrite Ho2 by (intros E; now apply Hne). exact Hh1. }
  destruct (release_ready (buf_lk b) c m2 Hi2 Hc2 Hh2)
    as (m3 & Hrel & Hready3 & Ho3 & Hn3 & _).
  exists m3. split; [|split; [exact Hready3|split; [|split]]].
  - unfold releasesleep.
    rewrite (bind_ret _ _ _ _ _ (lock_step _ _ _ Ha)).
    unfold bind at 1, modify. fold s2.
    rewrite (bind_ret _ _ _ _ _ (liftK_buf_ret _ _ _ _ Hw)).
    unfold liftK, lift. cbn [kern set_kern mach set_mach]. rewrite Hrel. reflexivity.
  - pose proof Hready3 as (Hi3 & Hc3 & _). split; [exact Hi3|]. split; [exact Hc3|].
    destruct Hready2 as (_ & _ & Hpl2 & Hpf2).
    split; [rewrite Hn3; exact Hpl2|]. rewrite Ho3 by exact Hne. exact Hpf2.
  - intros l Hl1' Hl2'. rewrite Ho3, Ho2, Ho1 by auto. reflexivity.
  - rewrite Hn3, Hn2. exact Hn1.
Qed.


Lemma locks_free_ready c l m k :
  locks_free c l m ->
  k = ptable_lock \/ k = bcache_lock \/ (exists x, In x l /\ k = buf_lk x) ->
  lock_ready c k m.
Proof.
  intros (Hinv & Hc & Hk) H. destruct (Hk k H) as (Hl & Hf).
  split; [exact Hinv|]. split; [exact Hc|]. split; [exact Hl|exact Hf].
Qed.

Lemma ring_in_range s l x : ring s l -> In x l -> (x < length (bufs s))%nat.
Proof. intros (_ & H & _) Hx. now apply H. Qed.

Lemma ring_set_kern s l k : ring s l -> ring (set_kern k s) l.
Proof. apply ring_ext; reflexivity. Qed.

(** A change of the fields of one buffer other than its pointers. *)
Lemma ring_upd_buf s l b f :
  (forall x, next (f x) = next x) -> (forall x, prev (f x) = prev x) ->
  ring s l -> ring (upd_buf b f s) l.
Proof.
  intros Hn Hp Hr. apply (ring_ext s); [reflexivity|apply length_upd_buf| | |exact Hr].
  - intros x. destruct (Nat.eq_dec b x) as [<-|Hne].
    + destruct (decide (b < length (bufs s))%nat) as [Hb|Hb].
      * rewrite buf_at_upd_eq by exact Hb. apply Hn.
      * unfold buf_at, upd_buf. cbn [bufs]. rewrite list_insert_ge by lia. reflexivity.
    + now rewrite buf_at_upd_ne.
  - intros x. destruct (Nat.eq_dec b x) as [<-|Hne].
    + destruct (decide (b < length (bufs s))%nat) as [Hb|Hb].
      * rewrite buf_at_upd_eq by exact Hb. apply Hp.
      * unfold buf_at, upd_buf. cbn [bufs]. rewrite list_insert_ge by lia. reflexivity.
    + now rewrite buf_at_upd_ne.
Qed.

(** The state in which [bget] returns a cached buffer, and the one in
    which it returns a recycled one. *)
Lemma bget_hit turns env c dv bn s l l1 b l2 p :
  ring s l -> locks_free c l (mach (kern s)) ->
  nth c (cpu_proc (kern s)) None = Some p -> (length l <= turns)%nat ->
  l = l1 ++ b :: l2 ->
  cached dv bn (buf_at b s) = true ->
  (forall y, In y l1 -> cached dv bn (buf_at y s) = false) ->
  slocked (buf_at b s) = 0 ->
  exists m',
    bget turns env c dv bn s
    = Ret b (upd_buf b (set_slock 1 (pid (proc_at p (kern s))))
               (upd_buf b (fun x => set_refcnt ((refcnt x + 1) mod 2 ^ 32) x)
                  (set_kern (set_mach m' (kern s)) s))) /\
    locks_free c l m'.
Proof.
  intros Hring Hfree Hcur Hturns El Hb Hl1 Hsl.
  assert (Hbl : In b l) by (rewrite El; apply in_or_app; right; left; reflexivity).
  pose proof (ring_in_range _ _ _ Hring Hbl) as Hrange.
  destruct (acquire_ready _ _ _ (locks_free_ready c l _ bcache_lock Hfree ltac:(auto)))
    as (m1 & Ha & Hi1 & Hc1 & Hll1 & Hh1 & Ho1 & Hn1 & _).
  set (s1 := set_kern (set_mach m1 (kern s)) s).
  assert (Hr1 : ring s1 l) by (apply ring_set_kern; exact Hring).
  destruct l as [|h t]; [destruct l1; discriminate El|].
  assert (Hhead : head s1 = Some h) by (destruct Hr1 as (_ & _ & E & _); exact E).
  assert (Hwalk : find_cached turns h dv bn s1 = Ret (Some b) s1).
  { unfold find_cached. rewrite (walk_head _ s1 h t turns Hr1) by (simpl in Hturns; lia).
    rewrite El. f_equal. apply find_first; [exact Hb|exact Hl1]. }
  set (s2 := upd_buf b (fun x => set_refcnt ((refcnt x + 1) mod 2 ^ 32) x) s1).
  assert (Hne : buf_lk b <> bcache_lock) by (unfold buf_lk, bcache_lock; lia).
  assert (Hready2 : lock_ready c (buf_lk b) (mach (kern s2))).
  { change (mach (kern s2)) with m1.
    destruct (locks_free_ready c _ _ (buf_lk b) Hfree ltac:(right; right; eauto))
      as (_ & _ & Hlb & Hfb).
    split; [exact Hi1|]. split; [exact Hc1|]. split; [rewrite Hn1; exact Hlb|].
    rewrite Ho1 by exact Hne. exact Hfb. }
  assert (Hsl2 : slocked (buf_at b s2) = 0).
  { unfold s2. rewrite buf_at_upd_eq by exact Hrange. exact Hsl. }
  destruct (acquiresleep_free env c b s2 p Hready2 Hsl2 Hcur)
    as (m2 & Has & Hready3 & Ho2 & Hn2).
  change (mach (kern s2)) with m1 in Ho2, Hn2.
  pose proof Hready3 as (Hi2 & Hc2 & _).
  assert (Hh2 : held_by c (lock_at bcache_lock m2) = true).
  { rewrite Ho2 by (intros E; now apply Hne). exact Hh1. }
  destruct (release_ready bcache_lock c m2 Hi2 Hc2 Hh2)
    as (m3 & Hrel & Hready4 & Ho3 & Hn3 & _).
  exists m3. split.
  - unfold bget.
    rewrite (bind_ret _ _ _ _ _ (lock_step (acquire bcache_lock c) s m1 Ha)). fold s1.
    unfold bind at 1, gets. rewrite Hhead. unfold bind at 1, deref, ret.
    rewrite (bind_ret _ _ _ _ _ Hwalk).
    unfold bind at 1, modify. fold s2.
    rewrite (bind_ret _ _ _ _ _ Has).
    unfold bind at 1. unfold liftK, lift. cbn [kern upd_buf set_kern mach set_mach].
    rewrite Hrel. reflexivity.
  - destruct Hfree as (_ & _ & Hk). destruct Hready4 as (Hi3 & Hc3 & Hl3 & Hf3).
    split; [exact Hi3|]. split; [exact Hc3|]. intros k Hin.
    destruct (Hk k Hin) as (Hlk & Hfk). split; [rewrite Hn3, Hn2, Hn1; exact Hlk|].
    destruct (Nat.eq_dec k bcache_lock) as [->|Hnk]; [exact Hf3|].
    rewrite Ho3 by exact Hnk.
    destruct (Nat.eq_dec k (buf_lk b)) as [->|Hnb]; [apply Hready3|].
    rewrite Ho2, Ho1 by assumption. exact Hfk.
Qed.

Lemma bget_busy turns env c dv bn s l l1 b l2 p :
  ring s l -> locks_free c l (mach (kern s)) ->
  nth c (cpu_proc (kern s)) None = Some p -> (length l <= turns)%nat ->
  l = l1 ++ b :: l2 ->
  cached dv bn (buf_at b s) = true ->
  (forall y, In y l1 -> cached dv bn (buf_at y s) = false) ->
  slocked (buf_at b s) <> 0 ->
  bget turns env c dv bn s = Panic "sched locks".
Proof.
  intros Hring Hfree Hcur Hturns El Hb Hl1 Hsl.
  assert (Hbl : In b l) by (rewrite El; apply in_or_app; right; left; reflexivity).
  pose proof (ring_in_range _ _ _ Hring Hbl) as Hrange.
  pose proof Hfree as (Hinv & Hc & Hk).
  destruct (acquire_ready _ _ _ (locks_free_ready c l _ bcache_lock Hfree ltac:(auto)))
    as (m1 & Ha & Hi1 & Hc1 & Hll1 & Hh1 & Ho1 & Hn1 & _).
  pose proof (acquire_ncli _ _ _ _ Hinv Hc Ha) as Hncli.
  destruct (Hinv c Hc) as (_ & Hle & _). pose proof (nheld_nonneg c (mach (kern s))).
  set (s1 := set_kern (set_mach m1 (kern s)) s).
  assert (Hr1 : ring s1 l) by (apply ring_set_kern; exact Hring).
  destruct l as [|h t]; [destruct l1; discriminate El|].
  assert (Hhead : head s1 = Some h) by (destruct Hr1 as (_ & _ & E & _); exact E).
  assert (Hwalk : find_cached turns h dv bn s1 = Ret (Some b) s1).
  { unfold find_cached. rewrite (walk_head _ s1 h t turns Hr1) by (simpl in Hturns; lia).
    rewrite El. f_equal. apply find_first; [exact Hb|exact Hl1]. }
  set (s2 := upd_buf b (fun x => set_refcnt ((refcnt x + 1) mod 2 ^ 32) x) s1).
  assert (Hne : buf_lk b <> bcache_lock) by (unfold buf_lk, bcache_lock; lia).
  assert (Hnp : ptable_lock <> bcache_lock) by (unfold ptable_lock, bcache_lock; lia).
  assert (Hready2 : lock_ready c (buf_lk b) (mach (kern s2))).
  { change (mach (kern s2)) with m1.
    destruct (Hk (buf_lk b) ltac:(right; right; eauto)) as (Hlb & Hfb).
    split; [exact Hi1|]. split; [exact Hc1|]. split; [rewrite Hn1; exact Hlb|].
    rewrite Ho1 by exact Hne. exact Hfb. }
  assert (Hsl2 : slocked (buf_at b s2) <> 0).
  { unfold s2. rewrite buf_at_upd_eq by exact Hrange. exact Hsl. }
  destruct (Hk ptable_lock ltac:(auto)) as (Hpl & Hpf).
  assert (Hpanic : acquiresleep env c b s2 = Panic "sched locks").
  { apply (acquiresleep_holding env c b s2 p Hready2 Hsl2 Hcur).
    - change (mach (kern s2)) with m1. rewrite Hn1. exact Hpl.
    - change (mach (kern s2)) with m1. rewrite Ho1 by exact Hnp. exact Hpf.
    - change (mach (kern s2)) with m1. lia. }
  unfold bget.
  rewrite (bind_ret _ _ _ _ _ (lock_step (acquire bcache_lock c) s m1 Ha)). fold s1.
  unfold bind at 1, gets. rewrite Hhead. unfold bind at 1, deref, ret.
  rewrite (bind_ret _ _ _ _ _ Hwalk).
  unfold bind at 1, modify. fold s2.
  unfold bind at 1. rewrite Hpanic. reflexivity.
Qed.

Lemma bget_miss turns env c dv bn s l l1 b l2 p :
  ring s l -> locks_free c l (mach (kern s)) ->
  nth c (cpu_proc (kern s)) None = Some p -> (length l <= turns)%nat ->
  (forall y, In y l -> cached dv bn (buf_at y s) = false) ->
  l = l1 ++ b :: l2 ->
  unused (buf_at b s) = true ->
  (forall y, In y l1 -> unused (buf_at y s) = false) ->
  slocked (buf_at b s) = 0 ->
  exists m',
    bget turns env c dv bn s
    = Ret b (upd_buf b (set_slock 1 (pid (proc_at p (kern s))))
               (upd_buf b (recycle dv bn) (set_kern (set_mach m' (kern s)) s))) /\
    locks_free c l m'.
Proof.
  intros Hring Hfree Hcur Hturns Hnone El Hb Hl1 Hsl.
  assert (Hbl : In b l) by (rewrite El; apply in_or_app; right; left; reflexivity).
  pose proof (ring_in_range _ _ _ Hring Hbl) as Hrange.
  pose proof Hfree as (Hinv & Hc & Hk).
  destruct (acquire_ready _ _ _ (locks_free_ready c l _ bcache_lock Hfree ltac:(auto)))
    as (m1 & Ha & Hi1 & Hc1 & Hll1 & Hh1 & Ho1 & Hn1 & _).
  set (s1 := set_kern (set_mach m1 (kern s)) s).
  assert (Hr1 : ring s1 l) by (apply ring_set_kern; exact Hring).
  destruct l as [|h t]; [destruct l1; discriminate El|].
  assert (Hhead : head s1 = Some h) by (destruct Hr1 as (_ & _ & E & _); exact E).
  assert (Hwalk : find_cached turns h dv bn s1 = Ret None s1).
  { unfold find_cached. rewrite (walk_head _ s1 h t turns Hr1) by (simpl in Hturns; lia).
    f_equal. apply find_none'. exact Hnone. }
  assert (Hwalk2 : find_free turns h s1 = Ret (Some b) s1).
  { unfold find_free. rewrite (walk_head _ s1 h t turns Hr1) by (simpl in Hturns; lia).
    rewrite El. f_equal. apply find_first; [exact Hb|exact Hl1]. }
  set (s2 := upd_buf b (recycle dv bn) s1).
  assert (Hne : buf_lk b <> bcache_lock) by (unfold buf_lk, bcache_lock; lia).
  destruct (release_ready bcache_lock c m1 Hi1 Hc1 Hh1)
    as (m2 & Hrel & Hready2 & Ho2 & Hn2 & _).
  set (s3 := set_kern (set_mach m2 (kern s2)) s2).
  assert (Hready3 : lock_ready c (buf_lk b) (mach (kern s3))).
  { change (mach (kern s3)) with m2.
    destruct (Hk (buf_lk b) ltac:(right; right; eauto)) as (Hlb & Hfb).
    destruct Hready2 as (Hi2 & Hc2 & _).
    split; [exact Hi2|]. split; [exact Hc2|]. split; [rewrite Hn2, Hn1; exact Hlb|].
    rewrite Ho2, Ho1 by exact Hne. exact Hfb. }
  assert (Hsl3 : slocked (buf_at b s3) = 0).
  { change (buf_at b s3) with (buf_at b s2). unfold s2.
    rewrite buf_at_upd_eq by exact Hrange. exact Hsl. }
  destruct (acquiresleep_free env c b s3 p Hready3 Hsl3 Hcur)
    as (m3 & Has & Hready4 & Ho3 & Hn3).
  change (mach (kern s3)) with m2 in Ho3, Hn3.
  exists m3. split.
  - unfold bget.
    rewrite (bind_ret _ _ _ _ _ (lock_step (acquire bcache_lock c) s m1 Ha)). fold s1.
    unfold bind at 1, gets. rewrite Hhead. unfold bind at 1, deref, ret.
    rewrite (bind_ret _ _ _ _ _ Hwalk).
    unfold bind at 1. rewrite Hhead. unfold bind at 1.
    rewrite (bind_ret _ _ _ _ _ Hwalk2).
    unfold bind at 1, modify. fold s2.
    rewrite (bind_ret _ _ _ _ _ (lock_step (release bcache_lock c) s2 m2 Hrel)). fold s3.
    rewrite (bind_ret _ _ _ _ _ Has). reflexivity.
  - destruct Hready4 as (Hi3 & Hc3 & Hl3 & Hf3).
    split; [exact Hi3|]. split; [exact Hc3|]. intros k Hin.
    destruct (Hk k Hin) as (Hlk & Hfk). split; [rewrite Hn3, Hn2, Hn1; exact Hlk|].
    destruct (Nat.eq_dec k (buf_lk b)) as [->|Hnb]; [exact Hf3|].
    rewrite Ho3 by exact Hnb.
    destruct (Nat.eq_dec k bcache_lock) as [->|Hnk]; [apply Hready2|].
    rewrite Ho2, Ho1 by assumption. exact Hfk.
Qed.

Lemma bget_none turns env c dv bn s l :
  ring s l -> locks_free c l (mach (kern s)) -> (length l <= turns)%nat ->
  (forall y, In y l -> cached dv bn (buf_at y s) = false) ->
  (forall y, In y l -> unused (buf_at y s) = false) ->
  bget turns env c dv bn s = Panic "bget: no buffers".
Proof.
  intros Hring Hfree Hturns Hnone Hused.
  destruct (acquire_ready _ _ _ (locks_free_ready c l _ bcache_lock Hfree ltac:(auto)))
    as (m1 & Ha & _).
  set (s1 := set_kern (set_mach m1 (kern s)) s).
  assert (Hr1 : ring s1 l) by (apply ring_set_kern; exact Hring).
  destruct l as [|h t]; [destruct Hring as (_ & _ & []) |].
  assert (Hhead : head s1 = Some h) by (destruct Hr1 as (_ & _ & E & _); exact E).
  assert (Hwalk : find_cached turns h dv bn s1 = Ret None s1).
  { unfold find_cached. rewrite (walk_head _ s1 h t turns Hr1) by (simpl in Hturns; lia).
    f_equal. apply find_none'. exact Hnone. }
  assert (Hwalk2 : find_free turns h s1 = Ret None s1).
  { unfold find_free. rewrite (walk_head _ s1 h t turns Hr1) by (simpl in Hturns; lia).
    f_equal. apply find_none'. exact Hused. }
  unfold bget.
  rewrite (bind_ret _ _ _ _ _ (lock_step (acquire bcache_lock c) s m1 Ha)). fold s1.
  unfold bind at 1, gets. rewrite Hhead. unfold bind at 1, deref, ret.
  rewrite (bind_ret _ _ _ _ _ Hwalk).
  unfold bind at 1. rewrite Hhead. unfold bind at 1.
  rewrite (bind_ret _ _ _ _ _ Hwalk2). reflexivity.
Qed.

(** What two changes of buffer [b] that leave its pointers alone do to
    the cache. *)
Lemma two_updates s l b f1 f2 m' :
  ring s l -> In b l ->
  (forall x, next (f1 x) = next x) -> (forall x, prev (f1 x) = prev x) ->
  (forall x, next (f2 x) = next x) -> (forall x, prev (f2 x) = prev x) ->
  let s' := upd_buf b f2 (upd_buf b f1 (set_kern (set_mach m' (kern s)) s)) in
  buf_at b s' = f2 (f1 (buf_at b s)) /\
  (forall y, y <> b -> buf_at y s' = buf_at y s) /\
  ring s' l /\ mach (kern s') = m' /\ procs (kern s') = procs (kern s).
Proof.
  intros Hring Hb Hn1 Hp1 Hn2 Hp2. cbv zeta.
  pose proof (ring_in_range _ _ _ Hring Hb) as Hrange.
  split; [|split; [|split; [|split; reflexivity]]].
  - rewrite buf_at_upd_eq by (rewrite length_upd_buf; exact Hrange).
    rewrite buf_at_upd_eq by exact Hrange. reflexivity.
  - intros y Hy. rewrite !buf_at_upd_ne by congruence. reflexivity.
  - apply ring_upd_buf; [exact Hn2|exact Hp2|].
    apply ring_upd_buf; [exact Hn1|exact Hp1|].
    apply ring_set_kern. exact Hring.
Qed.

(** X29.  [bget] looks for the block along the ring from the head, then
    for a buffer to recycle.  On a well-formed ring with the locks of the
    cache free: the first buffer in ring order that holds the block is
    returned with its reference count raised by one and its sleeplock
    taken for the calling process, if that sleeplock is free; if it is
    taken, [bget] panics with "sched locks", because it calls
    [acquiresleep] while it holds [bcache.lock].  When no buffer holds
    the block, the first buffer in ring order with count 0 that is not
    dirty is set to the block with flags 0 and count 1 and returned
    locked; when there is none, [bget] panics with "bget: no buffers".
    A [bget] that returns changes no other buffer, leaves the ring as it
    is and the locks of the cache free. *)
Theorem bget_cached_or_recycled turns env c p dv bn s l :
  ring s l -> locks_free c l (mach (kern s)) ->
  nth c (cpu_proc (kern s)) None = Some p -> (length l <= turns)%nat ->
  (forall l1 b l2,
     l = l1 ++ b :: l2 -> cached dv bn (buf_at b s) = true ->
     (forall y, In y l1 -> cached dv bn (buf_at y s) = false) ->
     if slocked (buf_at b s) =? 0
     then exists s',
            bget turns env c dv bn s = Ret b s' /\
            buf_at b s'
            = set_slock 1 (pid (proc_at p (kern s)))
                (set_refcnt ((refcnt (buf_at b s) + 1) mod 2 ^ 32) (buf_at b s)) /\
            (forall y, y <> b -> buf_at y s' = buf_at y s) /\
            ring s' l /\ locks_free c l (mach (kern s')) /\
            procs (kern s') = procs (kern s)
     else bget turns env c dv bn s = Panic "sched locks") /\
  ((forall y, In y l -> cached dv bn (buf_at y s) = false) ->
   (forall l1 b l2,
      l = l1 ++ b :: l2 -> unused (buf_at b s) = true ->
      (forall y, In y l1 -> unused (buf_at y s) = false) ->
      slocked (buf_at b s) = 0 ->
      exists s',
        bget turns env c dv bn s = Ret b s' /\
        buf_at b s'
        = set_slock 1 (pid (proc_at p (kern s))) (recycle dv bn (buf_at b s)) /\
        (forall y, y <> b -> buf_at y s' = buf_at y s) /\
        ring s' l /\ locks_free c l (mach (kern s')) /\
        procs (kern s') = procs (kern s)) /\
   ((forall y, In y l -> unused (buf_at y s) = false) ->
    bget turns env c dv bn s = Panic "bget: no buffers")).
Proof.
  intros Hring Hfree Hcur Hturns. split.
  - intros l1 b l2 El Hb Hl1.
    assert (Hbl : In b l) by (rewrite El; apply in_or_app; right; left; reflexivity).
    destruct (Z.eqb_spec (slocked (buf_at b s)) 0) as [Hz|Hnz].
    + destruct (bget_hit turns env c dv bn s l l1 b l2 p Hring Hfree Hcur Hturns El Hb Hl1 Hz)
        as (m' & Hrun & Hfree').
      destruct (two_updates s l b (fun x => set_refcnt ((refcnt x + 1) mod 2 ^ 32) x)
                  (set_slock 1 (pid (proc_at p (kern s)))) m' Hring Hbl
                  ltac:(reflexivity) ltac:(reflexivity) ltac:(reflexivity)
                  ltac:(reflexivity)) as (H1 & H2 & H3 & H4 & H5).
      eexists. split; [exact Hrun|]. split; [exact H1|]. split; [exact H2|].
      split; [exact H3|]. split; [rewrite H4; exact Hfree'|exact H5].
    + apply (bget_busy turns env c dv bn s l l1 b l2 p); assumption.
  - intros Hnone. split.
    + intros l1 b l2 El Hb Hl1 Hz.
      assert (Hbl : In b l) by (rewrite El; apply in_or_app; right; left; reflexivity).
      destruct (bget_miss turns env c dv bn s l l1 b l2 p Hring Hfree Hcur Hturns Hnone
                  El Hb Hl1 Hz) as (m' & Hrun & Hfree').
      destruct (two_updates s l b (recycle dv bn)
                  (set_slock 1 (pid (proc_at p (kern s)))) m' Hring Hbl
                  ltac:(reflexivity) ltac:(reflexivity) ltac:(reflexivity)
                  ltac:(reflexivity)) as (H1 & H2 & H3 & H4 & H5).
      eexists. split; [exact Hrun|]. split; [exact H1|]. split; [exact H2|].
      split; [exact H3|]. split; [rewrite H4; exact Hfree'|exact H5].
    + intros Hused. apply (bget_none turns env c dv bn s l); assumption.
Qed.

Lemma three_bufs_ring : ring three_bufs [2; 1; 0]%nat.
Proof.
  split; [|split].
  - apply NoDup_ListNoDup. repeat constructor; simpl; intuition discriminate.
  - intros x [<-|[<-|[<-|[]]]]; simpl; lia.
  - split; [reflexivity|]. cbn [app linked]. repeat split; reflexivity.
Qed.

Lemma three_bufs_locks : locks_free 0 [2; 1; 0]%nat (mach (kern three_bufs)).
Proof.
  split; [|split].
  - intros c Hc. simpl in Hc. assert (c = 0%nat) as -> by lia.
    split; [simpl; lia|]. split; [vm_compute; intros H; discriminate H|].
    intros H. vm_compute in H. discriminate H.
  - simpl. lia.
  - intros k [->|[->|(x & [<-|[<-|[<-|[]]]] & ->)]]; (split; [unfold buf_lk, ptable_lock, bcache_lock; simpl; lia|reflexivity]).
Qed.

Lemma bget_cached_or_recycled_witness :
  (exists s', bget 3 [] 0 1 35 three_bufs = Ret 0%nat s' /\
              refcnt (buf_at 0 s') = 1 /\ spid (buf_at 0 s') = 7) /\
  bget 3 [] 0 1 33 three_bufs = Panic "sched locks" /\
  (exists s', bget 3 [] 0 1 40 three_bufs = Ret 0%nat s' /\
              blockno (buf_at 0 s') = 40 /\ flags (buf_at 0 s') = 0) /\
  bget 3 [] 0 1 40 (upd_buf 0 (set_refcnt 1) three_bufs) = Panic "bget: no buffers".
Proof.
  split; [|split; [|split]].
  - destruct (bget_cached_or_recycled 3 [] 0 0 1 35 three_bufs [2; 1; 0]%nat
                three_bufs_ring three_bufs_locks eq_refl ltac:(simpl; lia)) as (H & _).
    specialize (H [2; 1]%nat 0%nat [] eq_refl eq_refl).
    destruct H as (s' & H1 & H2 & _).
    + intros y [<-|[<-|[]]]; reflexivity.
    + exists s'. split; [exact H1|]. rewrite H2. split; reflexivity.
  - destruct (bget_cached_or_recycled 3 [] 0 0 1 33 three_bufs [2; 1; 0]%nat
                three_bufs_ring three_bufs_locks eq_refl ltac:(simpl; lia)) as (H & _).
    apply (H [] 2%nat [1; 0]%nat eq_refl eq_refl). intros y [].
  - destruct (bget_cached_or_recycled 3 [] 0 0 1 40 three_bufs [2; 1; 0]%nat
                three_bufs_ring three_bufs_locks eq_refl ltac:(simpl; lia)) as (_ & H).
    destruct H as (H & _).
    + intros y [<-|[<-|[<-|[]]]]; reflexivity.
    + destruct (H [2; 1]%nat 0%nat [] eq_refl eq_refl) as (s' & H1 & H2 & _).
      * intros y [<-|[<-|[]]]; reflexivity.
      * reflexivity.
      * exists s'. split; [exact H1|]. rewrite H2. split; reflexivity.
  - destruct (bget_cached_or_recycled 3 [] 0 0 1 40 (upd_buf 0 (set_refcnt 1) three_bufs)
                [2; 1; 0]%nat
                (ring_upd_buf three_bufs _ 0%nat (set_refcnt 1) ltac:(reflexivity) ltac:(reflexivity)
                   three_bufs_ring)
                three_bufs_locks eq_refl ltac:(simpl; lia)) as (_ & H).
    destruct H as (_ & H).
    + intros y [<-|[<-|[<-|[]]]]; reflexivity.
    + apply H. intros y [<-|[<-|[<-|[]]]]; reflexivity.
Defined.


Lemma buf_at_upd y f x s :
  (y < length (bufs s))%nat ->
  buf_at x (upd_buf y f s) = if bool_decide (x = y) then f (buf_at y s) else buf_at x s.
Proof.
  intros Hy. destruct (decide (x = y)) as [->|Hne].
  - rewrite bool_decide_eq_true_2 by reflexivity. now apply buf_at_upd_eq.
  - rewrite bool_decide_eq_false_2 by exact Hne. apply buf_at_upd_ne. congruence.
Qed.

Lemma upd_prev_fields y v x s :
  (y < length (bufs s))%nat ->
  payload (buf_at x (upd_buf y (set_prev v) s)) = payload (buf_at x s) /\
  next (buf_at x (upd_buf y (set_prev v) s)) = next (buf_at x s) /\
  prev (buf_at x (upd_buf y (set_prev v) s))
  = if bool_decide (x = y) then v else prev (buf_at x s).
Proof.
  intros Hy. rewrite buf_at_upd by exact Hy.
  destruct (decide (x = y)) as [->|Hne].
  - rewrite !bool_decide_eq_true_2 by reflexivity. repeat split; reflexivity.
  - rewrite !bool_decide_eq_false_2 by exact Hne. repeat split; reflexivity.
Qed.

Lemma upd_next_fields y v x s :
  (y < length (bufs s))%nat ->
  payload (buf_at x (upd_buf y (set_next v) s)) = payload (buf_at x s) /\
  prev (buf_at x (upd_buf y (set_next v) s)) = prev (buf_at x s) /\
  next (buf_at x (upd_buf y (set_next v) s))
  = if bool_decide (x = y) then v else next (buf_at x s).
Proof.
  intros Hy. rewrite buf_at_upd by exact Hy.
  destruct (decide (x = y)) as [->|Hne].
  - rewrite !bool_decide_eq_true_2 by reflexivity. repeat split; reflexivity.
  - rewrite !bool_decide_eq_false_2 by exact Hne. repeat split; reflexivity.
Qed.

(** The pointers after the seven assignments of [to_front]. *)
Lemma to_front_spec b s q p h z :
  next (buf_at b s) = Some q -> prev (buf_at b s) = Some p ->
  head s = Some h -> prev (buf_at h s) = Some z ->
  b <> q -> b <> h ->
  (b < length (bufs s))%nat -> (q < length (bufs s))%nat -> (p < length (bufs s))%nat ->
  (h < length (bufs s))%nat -> (z < length (bufs s))%nat ->
  let hp := if bool_decide (h = q) then p else z in
  exists s',
    to_front b s = Ret tt s' /\ head s' = Some b /\ kern s' = kern s /\
    length (bufs s') = length (bufs s) /\
    (forall x, payload (buf_at x s') = payload (buf_at x s)) /\
    (forall x, next (buf_at x s')
               = if bool_decide (x = hp) then Some b
                 else if bool_decide (x = b) then Some h
                 else if bool_decide (x = p) then Some q
                 else next (buf_at x s)) /\
    (forall x, prev (buf_at x s')
               = if bool_decide (x = h) then Some b
                 else if bool_decide (x = b) then Some hp
                 else if bool_decide (x = q) then Some p
                 else prev (buf_at x s)).
Proof.
  intros Hnb Hpb Hh Hph Hbq Hbh Rb Rq Rp Rh Rz hp.
  set (s1 := upd_buf q (set_prev (Some p)) s).
  set (s2 := upd_buf p (set_next (Some q)) s1).
  set (s3 := upd_buf b (set_next (Some h)) s2).
  set (s4 := upd_buf b (set_prev (Some hp)) s3).
  set (s5 := upd_buf hp (set_next (Some b)) s4).
  set (s6 := upd_buf h (set_prev (Some b)) s5).
  assert (Rhp : (hp < length (bufs s))%nat) by (unfold hp; destruct (bool_decide _); assumption).
  assert (L1 : length (bufs s1) = length (bufs s)) by apply length_upd_buf.
  assert (L2 : length (bufs s2) = length (bufs s)) by (unfold s2; now rewrite length_upd_buf).
  assert (L3 : length (bufs s3) = length (bufs s)) by (unfold s3; now rewrite length_upd_buf).
  assert (L4 : length (bufs s4) = length (bufs s)) by (unfold s4; now rewrite length_upd_buf).
  assert (L5 : length (bufs s5) = length (bufs s)) by (unfold s5; now rewrite length_upd_buf).
  assert (L6 : length (bufs s6) = length (bufs s)) by (unfold s6; now rewrite length_upd_buf).
  pose proof (fun x => upd_prev_fields q (Some p) x s Rq) as F1. fold s1 in F1.
  pose proof (fun x => upd_next_fields p (Some q) x s1 ltac:(rewrite L1; exact Rp)) as F2.
  fold s2 in F2.
  pose proof (fun x => upd_next_fields b (Some h) x s2 ltac:(rewrite L2; exact Rb)) as F3.
  fold s3 in F3.
  pose proof (fun x => upd_prev_fields b (Some hp) x s3 ltac:(rewrite L3; exact Rb)) as F4.
  fold s4 in F4.
  pose proof (fun x => upd_next_fields hp (Some b) x s4 ltac:(rewrite L4; exact Rhp)) as F5.
  fold s5 in F5.
  pose proof (fun x => upd_prev_fields h (Some b) x s5 ltac:(rewrite L5; exact Rh)) as F6.
  fold s6 in F6.
  assert (E1 : prev (buf_at b s1) = Some p).
  { rewrite (proj2 (proj2 (F1 b))), bool_decide_eq_false_2 by exact Hbq. exact Hpb. }
  assert (E2 : next (buf_at b s1) = Some q).
  { rewrite (proj1 (proj2 (F1 b))). exact Hnb. }
  assert (Hph1 : prev (buf_at h s1) = Some hp).
  { rewrite (proj2 (proj2 (F1 h))). unfold hp.
    destruct (bool_decide (h = q)); [reflexivity|exact Hph]. }
  assert (Hph3 : prev (buf_at h s3) = Some hp).
  { rewrite (proj1 (proj2 (F3 h))), (proj1 (proj2 (F2 h))). exact Hph1. }
  assert (Hph4 : prev (buf_at h s4) = Some hp).
  { rewrite (proj2 (proj2 (F4 h))), bool_decide_eq_false_2 by congruence. exact Hph3. }
  exists (set_head (Some b) s6).
  split; [|split; [reflexivity|split; [reflexivity|split; [exact L6|split; [|split]]]]].
  - unfold to_front. unfold bind at 1, gets. rewrite Hnb. unfold bind at 1, deref, ret.
    unfold bind at 1, modify. rewrite Hpb. fold s1.
    unfold bind at 1. rewrite E1. unfold bind at 1. unfold bind at 1. rewrite E2. fold s2.
    unfold bind at 1. change (head s2) with (head s). rewrite Hh.
    unfold bind at 1. fold s3. unfold bind at 1. unfold bind at 1.
    rewrite Hph3. unfold bind at 1. fold s4.
    unfold bind at 1. rewrite Hph4. unfold bind at 1. unfold bind at 1. fold s5.
    unfold bind at 1. fold s6. reflexivity.
  - intros x. change (buf_at x (set_head (Some b) s6)) with (buf_at x s6).
    rewrite (proj1 (F6 x)), (proj1 (F5 x)), (proj1 (F4 x)), (proj1 (F3 x)),
      (proj1 (F2 x)), (proj1 (F1 x)). reflexivity.
  - intros x. change (buf_at x (set_head (Some b) s6)) with (buf_at x s6).
    rewrite (proj1 (proj2 (F6 x))), (proj2 (proj2 (F5 x))), (proj1 (proj2 (F4 x))),
      (proj2 (proj2 (F3 x))), (proj2 (proj2 (F2 x))), (proj1 (proj2 (F1 x))).
    reflexivity.
  - intros x. change (buf_at x (set_head (Some b) s6)) with (buf_at x s6).
    rewrite (proj2 (proj2 (F6 x))), (proj1 (proj2 (F5 x))), (proj2 (proj2 (F4 x))),
      (proj1 (proj2 (F3 x))), (proj1 (proj2 (F2 x))), (proj2 (proj2 (F1 x))).
    reflexivity.
Qed.

Lemma nodup_app_facts (A B : list nat) b :
  NoDup (A ++ b :: B) ->
  List.NoDup A /\ List.NoDup B /\ ~ In b A /\ ~ In b B /\
  (forall x, In x A -> ~ In x B).
Proof.
  intros H. apply NoDup_app in H as (HA & Hd & HB).
  apply NoDup_cons in HB as (HbB & HB).
  split; [now apply NoDup_ListNoDup|]. split; [now apply NoDup_ListNoDup|].
  split.
  { intros Hin. apply list_elem_of_In in Hin. apply (Hd b Hin). left. }
  split; [intros Hin; apply HbB; now apply list_elem_of_In|].
  intros x Hx HxB. apply list_elem_of_In in Hx. apply (Hd x Hx).
  right. now apply list_elem_of_In.
Qed.

Lemma last_in (A : list nat) d : A <> [] -> In (List.last A d) A.
Proof.
  induction A as [|a A IH]; intros H; [congruence|].
  destruct A as [|a' A]; [left; reflexivity|].
  right. apply IH. discriminate.
Qed.

Lemma removelast_not_last (A : list nat) d x :
  List.NoDup A -> In x (removelast A) -> x <> List.last A d /\ In x A.
Proof.
  induction A as [|a A IH]; intros Hnd Hx; [destruct Hx|].
  destruct A as [|a' A]; [destruct Hx|].
  inversion Hnd as [|? ? Hna Hnd']; subst.
  change (removelast (a :: a' :: A)) with (a :: removelast (a' :: A)) in Hx.
  change (List.last (a :: a' :: A) d) with (List.last (a' :: A) d).
  destruct Hx as [<-|Hx].
  - split; [|left; reflexivity]. intros E. apply Hna. rewrite E.
    apply last_in. discriminate.
  - destruct (IH Hnd' Hx) as (H1 & H2). split; [exact H1|right; exact H2].
Qed.

Lemma last_of_app (A B : list nat) d : B <> [] -> List.last (A ++ B) d = List.last B d.
Proof.
  intros HB. induction A as [|a A IH]; [reflexivity|].
  cbn [app]. destruct (A ++ B) as [|x r] eqn:E.
  - destruct A; [cbn [app] in E; congruence|discriminate E].
  - exact IH.
Qed.

(** [to_front] keeps the ring and moves buffer [b] before the head. *)
Lemma to_front_ring s h t1 b B :
  ring s ((h :: t1) ++ b :: B) ->
  exists s',
    to_front b s = Ret tt s' /\ ring s' (b :: (h :: t1) ++ B) /\
    kern s' = kern s /\ (forall x, payload (buf_at x s') = payload (buf_at x s)).
Proof.
  set (A := h :: t1). intros (Hnd & Hin & Hl).
  assert (HA0 : A <> []) by discriminate.
  destruct (nodup_app_facts A B b Hnd) as (HA & HB & HbA & HbB & HAB).
  change (A ++ b :: B) with (h :: t1 ++ b :: B) in Hl. destruct Hl as (Hhd & Hlk).
  change (h :: (t1 ++ b :: B) ++ [h]) with ((A ++ b :: B) ++ [h]) in Hlk.
  rewrite <- app_assoc in Hlk. cbn [app] in Hlk.
  apply linked_app in Hlk as (Hlk1 & Hlk2).
  apply (linked_snoc s 0%nat A b HA0) in Hlk1 as (HlA & Hnp & Hpb).
  set (p := List.last A 0%nat) in *.
  assert (HpA : In p A) by (apply last_in; exact HA0).
  assert (HhA : In h A) by (left; reflexivity).
  assert (Rb : (b < length (bufs s))%nat)
    by (apply Hin, in_or_app; right; left; reflexivity).
  assert (RA : forall x, In x A -> (x < length (bufs s))%nat)
    by (intros x Hx; apply Hin, in_or_app; left; exact Hx).
  assert (RB : forall x, In x B -> (x < length (bufs s))%nat)
    by (intros x Hx; apply Hin, in_or_app; right; right; exact Hx).
  assert (Hbh : b <> h) by (intros ->; now apply HbA).
  assert (Hbp : b <> p) by (intros E; apply HbA; rewrite E; exact HpA).
  destruct B as [|q B'].
  - (* [b] is the last buffer of the ring *)
    apply linked_pair in Hlk2 as (Hnb & Hph).
    destruct (to_front_spec b s h p h b Hnb Hpb Hhd Hph Hbh Hbh Rb (RA h HhA) (RA p HpA)
                (RA h HhA) Rb) as (s' & Hrun & Hhd' & Hk & Hlen & Hpay & Hn' & Hp').
    rewrite bool_decide_eq_true_2 in Hn', Hp' by reflexivity.
    exists s'. split; [exact Hrun|]. split; [|split; [exact Hk|exact Hpay]].
    rewrite app_nil_r. split; [|split].
    + apply NoDup_ListNoDup. constructor; [exact HbA|exact HA].
    + intros x [<-|Hx]; rewrite Hlen; [exact Rb|now apply RA].
    + split; [exact Hhd'|].
      change (b :: A ++ [b]) with (b :: h :: t1 ++ [b]).
      change (linked s' (b :: h :: t1 ++ [b]))
        with (next (buf_at b s') = Some h /\ prev (buf_at h s') = Some b /\
              linked s' (A ++ [b])).
      split; [|split].
      * rewrite Hn'. rewrite bool_decide_eq_false_2 by exact Hbp.
        rewrite bool_decide_eq_true_2 by reflexivity. reflexivity.
      * rewrite Hp'. rewrite bool_decide_eq_true_2 by reflexivity. reflexivity.
      * apply (linked_snoc s' 0%nat A b HA0). fold p. split; [|split].
        -- apply (linked_ext s s'); [| |exact HlA].
           ++ intros x Hx. destruct (removelast_not_last A 0%nat x HA Hx) as (Hxp & HxA).
              fold p in Hxp. rewrite Hn'.
              rewrite (bool_decide_eq_false_2 (x = p)) by exact Hxp.
              rewrite (bool_decide_eq_false_2 (x = b)) by (intros ->; now apply HbA).
              reflexivity.
           ++ intros y Hy. cbn [tl A] in Hy. rewrite Hp'.
              assert (Hyh : y <> h).
              { intros ->. inversion HA; subst. contradiction. }
              rewrite (bool_decide_eq_false_2 (y = h)) by exact Hyh.
              rewrite (bool_decide_eq_false_2 (y = b))
                by (intros ->; apply HbA; right; exact Hy).
              reflexivity.
        -- rewrite Hn'. rewrite bool_decide_eq_true_2 by reflexivity. reflexivity.
        -- rewrite Hp'. rewrite bool_decide_eq_false_2 by exact Hbh.
           rewrite bool_decide_eq_true_2 by reflexivity. reflexivity.
  - (* buffers follow [b] *)
    set (B := q :: B') in *.
    assert (HB0 : B <> []) by discriminate.
    change (b :: (q :: B') ++ [h]) with (b :: q :: B' ++ [h]) in Hlk2.
    destruct Hlk2 as (Hnb & Hpq & Hlk2).
    change (q :: B' ++ [h]) with (B ++ [h]) in Hlk2.
    apply (linked_snoc s 0%nat B h HB0) in Hlk2 as (HlB & Hnz & Hph).
    set (z := List.last B 0%nat) in *.
    assert (HzB : In z B) by (apply last_in; exact HB0).
    assert (HqB : In q B) by (left; reflexivity).
    assert (Hbq : b <> q) by (intros ->; now apply HbB).
    assert (Hhq : h <> q) by (intros ->; now apply (HAB q HhA)).
    destruct (to_front_spec b s q p h z Hnb Hpb Hhd Hph Hbq Hbh Rb (RB q HqB) (RA p HpA)
                (RA h HhA) (RB z HzB)) as (s' & Hrun & Hhd' & Hk & Hlen & Hpay & Hn' & Hp').
    rewrite (bool_decide_eq_false_2 (h = q)) in Hn', Hp' by exact Hhq.
    assert (Hbz : b <> z) by (intros E; apply HbB; rewrite E; exact HzB).
    assert (Hpz : p <> z) by (intros E; apply (HAB p HpA); rewrite E; exact HzB).
    exists s'. split; [exact Hrun|]. split; [|split; [exact Hk|exact Hpay]].
    assert (HlA' : linked s' A).
    { apply (linked_ext s s'); [| |exact HlA].
      - intros x Hx. destruct (removelast_not_last A 0%nat x HA Hx) as (Hxp & HxA).
        fold p in Hxp. rewrite Hn'.
        rewrite (bool_decide_eq_false_2 (x = z))
          by (intros E; apply (HAB x HxA); rewrite E; exact HzB).
        rewrite (bool_decide_eq_false_2 (x = b)) by (intros ->; now apply HbA).
        rewrite (bool_decide_eq_false_2 (x = p)) by exact Hxp.
        reflexivity.
      - intros y Hy. cbn [tl A] in Hy. rewrite Hp'.
        assert (HyA : In y A) by (right; exact Hy).
        assert (Hyh : y <> h).
        { intros ->. inversion HA; subst. contradiction. }
        rewrite (bool_decide_eq_false_2 (y = h)) by exact Hyh.
        rewrite (bool_decide_eq_false_2 (y = b)) by (intros ->; now apply HbA).
        rewrite (bool_decide_eq_false_2 (y = q))
          by (intros ->; now apply (HAB q HyA)).
        reflexivity. }
    assert (HlB' : linked s' B).
    { apply (linked_ext s s'); [| |exact HlB].
      - intros x Hx. destruct (removelast_not_last B 0%nat x HB Hx) as (Hxz & HxB).
        fold z in Hxz. rewrite Hn'.
        rewrite (bool_decide_eq_false_2 (x = z)) by exact Hxz.
        rewrite (bool_decide_eq_false_2 (x = b)) by (intros ->; now apply HbB).
        rewrite (bool_decide_eq_false_2 (x = p))
          by (intros ->; now apply (HAB p HpA)).
        reflexivity.
      - intros y Hy. cbn [tl B] in Hy. rewrite Hp'.
        assert (HyB : In y B) by (right; exact Hy).
        rewrite (bool_decide_eq_false_2 (y = h))
          by (intros ->; now apply (HAB h HhA)).
        rewrite (bool_decide_eq_false_2 (y = b)) by (intros ->; now apply HbB).
        assert (Hyq : y <> q).
        { intros ->. inversion HB; subst. contradiction. }
        rewrite (bool_decide_eq_false_2 (y = q)) by exact Hyq.
        reflexivity. }
    split; [|split].
    + apply NoDup_ListNoDup. constructor.
      * intros Hx. apply in_app_or in Hx as [Hx|Hx]; [now apply HbA|now apply HbB].
      * apply NoDup_ListNoDup. apply NoDup_app. split; [now apply NoDup_ListNoDup|].
        split; [|now apply NoDup_ListNoDup].
        intros x Hx HxB. apply list_elem_of_In in Hx, HxB. now apply (HAB x Hx).
    + intros x [<-|Hx]; rewrite Hlen; [exact Rb|].
      apply in_app_or in Hx as [Hx|Hx]; [now apply RA|now apply RB].
    + split; [exact Hhd'|].
      change (b :: (A ++ B) ++ [b]) with (b :: h :: (t1 ++ B) ++ [b]).
      change (linked s' (b :: h :: (t1 ++ B) ++ [b]))
        with (next (buf_at b s') = Some h /\ prev (buf_at h s') = Some b /\
              linked s' ((A ++ B) ++ [b])).
      split; [|split].
      * rewrite Hn'. rewrite bool_decide_eq_false_2 by exact Hbz.
        rewrite bool_decide_eq_true_2 by reflexivity. reflexivity.
      * rewrite Hp'. rewrite bool_decide_eq_true_2 by reflexivity. reflexivity.
      * assert (HAB0 : A ++ B <> []) by discriminate.
        apply (linked_snoc s' 0%nat (A ++ B) b HAB0).
        assert (Elast : List.last (A ++ B) 0%nat = z).
        { unfold z. apply last_of_app. exact HB0. }
        rewrite Elast. split; [|split].
        -- unfold B. apply linked_app. split; [|exact HlB'].
           apply (linked_snoc s' 0%nat A q HA0). fold p. split; [exact HlA'|]. split.
           ++ rewrite Hn'. rewrite (bool_decide_eq_false_2 (p = z)) by exact Hpz.
              rewrite (bool_decide_eq_false_2 (p = b)) by congruence.
              rewrite bool_decide_eq_true_2 by reflexivity. reflexivity.
           ++ rewrite Hp'. rewrite (bool_decide_eq_false_2 (q = h)) by congruence.
              rewrite (bool_decide_eq_false_2 (q = b)) by congruence.
              rewrite bool_decide_eq_true_2 by reflexivity. reflexivity.
        -- rewrite Hn'. rewrite bool_decide_eq_true_2 by reflexivity. reflexivity.
        -- rewrite Hp'. rewrite bool_decide_eq_false_2 by exact Hbh.
           rewrite bool_decide_eq_true_2 by reflexivity. reflexivity.
Qed.

Lemma locks_free_sub c l l' m :
  (forall x, In x l' -> In x l) -> locks_free c l m -> locks_free c l' m.
Proof.
  intros Hsub (Hinv & Hc & Hk). split; [exact Hinv|]. split; [exact Hc|].
  intros k [->|[->|(x & Hx & ->)]]; apply Hk; auto.
  right. right. exists x. split; [now apply Hsub|reflexivity].
Qed.

(** [brelse] by a process that does not hold the sleeplock of the
    buffer. *)
Lemma brelse_not_holding c p b s l :
  locks_free c l (mach (kern s)) -> In b l ->
  nth c (cpu_proc (kern s)) None = Some p ->
  slocked (buf_at b s) = 0 \/ spid (buf_at b s) <> pid (proc_at p (kern s)) ->
  brelse c b s = Panic "brelse".
Proof.
  intros Hfree Hb Hcur Hnot.
  destruct (holdingsleep_ret c b s p
              (locks_free_ready c l _ (buf_lk b) Hfree ltac:(right; right; eauto)) Hcur)
    as (m1 & Hhold & _).
  unfold brelse. rewrite (bind_ret _ _ _ _ _ Hhold).
  destruct Hnot as [Hz|Hne].
  - rewrite Hz. reflexivity.
  - rewrite (proj2 (Z.eqb_neq _ _) Hne). rewrite andb_false_r. reflexivity.
Qed.

(** [brelse] by the process that holds the sleeplock. *)
Lemma brelse_spec c p b s l1 l2 :
  ring s (l1 ++ b :: l2) -> locks_free c (l1 ++ b :: l2) (mach (kern s)) ->
  nth c (cpu_proc (kern s)) None = Some p ->
  slocked (buf_at b s) <> 0 -> spid (buf_at b s) = pid (proc_at p (kern s)) ->
  exists s',
    brelse c b s = Ret tt s' /\
    ring s' (if (refcnt (buf_at b s) - 1) mod 2 ^ 32 =? 0
             then b :: l1 ++ l2 else l1 ++ b :: l2) /\
    payload (buf_at b s')
    = (flags (buf_at b s), dev (buf_at b s), blockno (buf_at b s), 0, 0,
       (refcnt (buf_at b s) - 1) mod 2 ^ 32) /\
    (forall y, y <> b -> payload (buf_at y s') = payload (buf_at y s)) /\
    procs (kern s') = map (wakeup1_proc (ChanSleeplock b)) (procs (kern s)) /\
    cpu_proc (kern s') = cpu_proc (kern s) /\
    locks_free c (l1 ++ b :: l2) (mach (kern s')).
Proof.
  set (l := l1 ++ b :: l2). intros Hring Hfree Hcur Hbusy Hpid.
  assert (Hbl : In b l) by (apply in_or_app; right; left; reflexivity).
  pose proof (ring_in_range _ _ _ Hring Hbl) as Hrange.
  pose proof Hfree as (Hinv & Hc & Hk).
  assert (Hnb1 : buf_lk b <> bcache_lock) by (unfold buf_lk, bcache_lock; lia).
  assert (Hnb2 : buf_lk b <> ptable_lock) by (unfold buf_lk, ptable_lock; lia).
  assert (Hnb3 : bcache_lock <> ptable_lock) by (unfold bcache_lock, ptable_lock; lia).
  destruct (Hk ptable_lock ltac:(auto)) as (Hpl & Hpf).
  destruct (Hk bcache_lock ltac:(auto)) as (Hcl & Hcf).
  (* holdingsleep *)
  destruct (holdingsleep_ret c b s p
              (locks_free_ready c l _ (buf_lk b) Hfree ltac:(right; right; eauto)) Hcur)
    as (m1 & Hhold & Hready1 & Ho1 & Hn1).
  rewrite (proj2 (Z.eqb_neq _ _) Hbusy), Hpid, Z.eqb_refl in Hhold. cbn [negb andb] in Hhold.
  set (s1 := set_kern (set_mach m1 (kern s)) s) in *.
  pose proof Hready1 as (Hi1 & Hc1 & _).
  (* releasesleep *)
  assert (Hp1 : lock_ready c ptable_lock (mach (kern s1))).
  { change (mach (kern s1)) with m1. split; [exact Hi1|]. split; [exact Hc1|].
    split; [rewrite Hn1; exact Hpl|]. rewrite Ho1 by congruence. exact Hpf. }
  destruct (releasesleep_ret c b s1 Hready1 Hp1) as (m2 & Hrs & Hready2 & Hp2 & Ho2 & Hn2).
  change (mach (kern s1)) with m1 in Ho2, Hn2.
  set (s2 := upd_buf b (set_slock 0 0)
               (set_kern (set_mach m2
                  (set_procs (map (wakeup1_proc (ChanSleeplock b)) (procs (kern s1)))
                             (kern s1))) s1)) in *.
  pose proof Hready2 as (Hi2 & Hc2 & _).
  (* acquire bcache.lock *)
  assert (Hb2 : lock_ready c bcache_lock m2).
  { split; [exact Hi2|]. split; [exact Hc2|]. split; [rewrite Hn2, Hn1; exact Hcl|].
    rewrite Ho2, Ho1 by congruence. exact Hcf. }
  destruct (acquire_ready _ _ _ Hb2) as (m3 & Ha & Hi3 & Hc3 & Hl3 & Hh3 & Ho3 & Hn3 & _).
  set (s3 := set_kern (set_mach m3 (kern s2)) s2).
  set (s4 := upd_buf b (fun x => set_refcnt ((refcnt x - 1) mod 2 ^ 32) x) s3).
  destruct (release_ready bcache_lock c m3 Hi3 Hc3 Hh3)
    as (m4 & Hrel & Hready4 & Ho4 & Hn4 & _).
  assert (Hfree4 : locks_free c l m4).
  { destruct Hready4 as (Hi4 & Hc4 & Hl4 & Hf4).
    split; [exact Hi4|]. split; [exact Hc4|]. intros k Hin.
    destruct (Hk k Hin) as (Hlk & Hfk).
    split; [rewrite Hn4, Hn3, Hn2, Hn1; exact Hlk|].
    destruct (Nat.eq_dec k bcache_lock) as [->|N1]; [exact Hf4|].
    rewrite Ho4, Ho3 by exact N1.
    destruct (Nat.eq_dec k (buf_lk b)) as [->|N2]; [apply Hready2|].
    destruct (Nat.eq_dec k ptable_lock) as [->|N3]; [apply Hp2|].
    rewrite Ho2, Ho1 by assumption. exact Hfk. }
  assert (Hr4 : ring s4 l).
  { apply ring_upd_buf; [reflexivity|reflexivity|]. apply ring_set_kern.
    apply ring_upd_buf; [reflexivity|reflexivity|]. apply ring_set_kern.
    apply ring_set_kern. exact Hring. }
  assert (Hb4 : buf_at b s4
                = set_refcnt ((refcnt (buf_at b s) - 1) mod 2 ^ 32)
                    (set_slock 0 0 (buf_at b s))).
  { unfold s4. rewrite buf_at_upd_eq by (unfold s3, s2; cbn [bufs set_kern];
                                        rewrite length_upd_buf; exact Hrange).
    change (buf_at b s3) with (buf_at b s2). unfold s2.
    rewrite buf_at_upd_eq by exact Hrange. reflexivity. }
  assert (Ho4' : forall y, y <> b -> buf_at y s4 = buf_at y s).
  { intros y Hy. unfold s4. rewrite buf_at_upd_ne by congruence.
    change (buf_at y s3) with (buf_at y s2). unfold s2.
    rewrite buf_at_upd_ne by congruence. reflexivity. }
  assert (Hstart :
    brelse c b s
    = (let! x := gets (buf_at b) in
       let! h := gets head in
       (if (refcnt x =? 0) && negb (bool_decide (Some b = h))
        then to_front b else ret tt) ;;
       liftK (lift (release bcache_lock c))) s4).
  { unfold brelse. rewrite (bind_ret _ _ _ _ _ Hhold). cbn [negb].
    rewrite (bind_ret _ _ _ _ _ Hrs).
    rewrite (bind_ret _ _ _ _ _ (lock_step (acquire bcache_lock c) s2 m3 Ha)). fold s3.
    unfold bind at 1, modify. reflexivity. }
  rewrite Hstart. unfold bind at 1, gets. unfold bind at 1. rewrite Hb4.
  cbn [refcnt set_refcnt].
  destruct (Z.eqb_spec ((refcnt (buf_at b s) - 1) mod 2 ^ 32) 0) as [Hz|Hnz].
  2:{ (* the buffer is still in use *)
      cbn [andb]. unfold bind at 1, ret.
      exists (set_kern (set_mach m4 (kern s4)) s4). split.
      { unfold liftK, lift. change (mach (kern s4)) with m3. rewrite Hrel. reflexivity. }
      split; [apply ring_set_kern; exact Hr4|].
      split; [change (buf_at b (set_kern (set_mach m4 (kern s4)) s4)) with (buf_at b s4);
              rewrite Hb4; reflexivity|].
      split; [intros y Hy;
              change (buf_at y (set_kern (set_mach m4 (kern s4)) s4)) with (buf_at y s4);
              rewrite Ho4' by exact Hy; reflexivity|].
      split; [reflexivity|]. split; [reflexivity|exact Hfree4]. }
  destruct l1 as [|h t1].
  - (* the buffer is the head *)
    assert (Hhd : head s4 = Some b) by (destruct Hr4 as (_ & _ & E & _); exact E).
    rewrite Hhd. rewrite bool_decide_eq_true_2 by reflexivity. cbn [andb negb].
    unfold bind at 1, ret.
    exists (set_kern (set_mach m4 (kern s4)) s4). split.
    { unfold liftK, lift. change (mach (kern s4)) with m3. rewrite Hrel. reflexivity. }
    split; [apply ring_set_kern; exact Hr4|].
    split; [change (buf_at b (set_kern (set_mach m4 (kern s4)) s4)) with (buf_at b s4);
            rewrite Hb4, Hz; reflexivity|].
    split; [intros y Hy;
            change (buf_at y (set_kern (set_mach m4 (kern s4)) s4)) with (buf_at y s4);
            rewrite Ho4' by exact Hy; reflexivity|].
    split; [reflexivity|]. split; [reflexivity|exact Hfree4].
  - (* the buffer moves to the front *)
    assert (Hhd : head s4 = Some h) by (destruct Hr4 as (_ & _ & E & _); exact E).
    assert (Hbh : b <> h).
    { intros ->. destruct Hring as (Hnd & _). unfold l in Hnd. cbn [app] in Hnd.
      apply NoDup_cons in Hnd as (Hnot & _). apply Hnot. apply list_elem_of_In.
      apply in_or_app. right. left. reflexivity. }
    rewrite Hhd. rewrite bool_decide_eq_false_2 by congruence. cbn [andb negb].
    destruct (to_front_ring s4 h t1 b l2 Hr4) as (s5 & Hrun & Hr5 & Hk5 & Hpay5).
    unfold bind at 1. rewrite Hrun.
    exists (set_kern (set_mach m4 (kern s5)) s5). split.
    { unfold liftK, lift. rewrite Hk5. change (mach (kern s4)) with m3. rewrite Hrel.
      rewrite <- Hk5. reflexivity. }
    split; [apply ring_set_kern; exact Hr5|].
    split; [change (buf_at b (set_kern (set_mach m4 (kern s5)) s5)) with (buf_at b s5);
            rewrite Hpay5, Hb4, Hz; reflexivity|].
    split; [intros y Hy;
            change (buf_at y (set_kern (set_mach m4 (kern s5)) s5)) with (buf_at y s5);
            rewrite Hpay5, Ho4' by exact Hy; reflexivity|].
    cbn [kern set_kern procs set_mach cpu_proc mach]. rewrite Hk5.
    split; [reflexivity|]. split; [reflexivity|exact Hfree4].
Qed.


Lemma down_cons k : rev (seq 0 (S (S k))) = S k :: rev (seq 0 (S k)).
Proof. rewrite (seq_S (S k)), rev_app_distr. reflexivity. Qed.

Lemma down_in k x : In x (rev (seq 0 (S k))) -> (x <= k)%nat.
Proof. intros H. apply in_rev in H. apply in_seq in H. lia. Qed.

Lemma down_nodup k : List.NoDup (rev (seq 0 (S k))).
Proof. apply NoDup_rev. apply seq_NoDup. Qed.

Lemma down_hd k : exists t, rev (seq 0 (S k)) = k :: t.
Proof.
  destruct k as [|k]; [exists []; reflexivity|].
  exists (rev (seq 0 (S k))). apply down_cons.
Qed.

Lemma down_last k : List.last (rev (seq 0 (S k))) 0%nat = 0%nat.
Proof.
  change (seq 0 (S k)) with (0%nat :: seq 1 k). cbn [rev].
  apply last_last.
Qed.

(** The four fields of a buffer that [binit] leaves alone. *)
Lemma binit_loop_spec : forall todo k s,
  head s = Some k -> linked s (rev (seq 0 (S k))) ->
  (S k + todo <= length (bufs s))%nat ->
  exists s',
    binit_loop todo (S k) s = Ret tt s' /\
    head s' = Some (k + todo)%nat /\ linked s' (rev (seq 0 (S (k + todo)))) /\
    length (bufs s') = length (bufs s) /\
    procs (kern s') = procs (kern s) /\
    (forall x, flags (buf_at x s') = flags (buf_at x s) /\
               dev (buf_at x s') = dev (buf_at x s) /\
               blockno (buf_at x s') = blockno (buf_at x s) /\
               refcnt (buf_at x s') = refcnt (buf_at x s)) /\
    (forall x, (k < x <= k + todo)%nat ->
               slocked (buf_at x s') = 0 /\ spid (buf_at x s') = 0) /\
    (forall x, (x <= k)%nat ->
               slocked (buf_at x s') = slocked (buf_at x s) /\
               spid (buf_at x s') = spid (buf_at x s)).
Proof.
  induction todo as [|todo IH]; intros k s Hhd Hlk Hlen.
  - exists s. rewrite Nat.add_0_r. split; [reflexivity|]. split; [exact Hhd|].
    split; [exact Hlk|]. split; [reflexivity|]. split; [reflexivity|].
    split; [intros x; repeat split|]. split; [intros x Hx; lia|intros x Hx; split; reflexivity].
  - set (i := S k).
    set (sa := upd_buf i (set_next (Some k)) s).
    set (sb := upd_buf k (set_prev (Some i)) sa).
    set (sc := set_head (Some i) sb).
    set (sd := initsleeplock i sc).
    assert (La : length (bufs sa) = length (bufs s)) by apply length_upd_buf.
    assert (Lb : length (bufs sb) = length (bufs s)) by (unfold sb; now rewrite length_upd_buf).
    assert (Ld : length (bufs sd) = length (bufs s)).
    { unfold sd, initsleeplock. rewrite length_upd_buf. exact Lb. }
    assert (Bd : forall x, buf_at x sd
                 = if bool_decide (x = i)
                   then set_slock 0 0 (set_next (Some k) (buf_at i s))
                   else if bool_decide (x = k) then set_prev (Some i) (buf_at k s)
                   else buf_at x s).
    { intros x. unfold sd, initsleeplock.
      rewrite buf_at_upd by (cbn [bufs set_kern]; unfold sc; cbn [bufs set_head];
                              rewrite Lb; unfold i; lia).
      change (buf_at i (set_kern _ sc)) with (buf_at i sb).
      change (buf_at x (set_kern _ sc)) with (buf_at x sb).
      unfold sb. rewrite !buf_at_upd by (rewrite La; lia).
      rewrite (bool_decide_eq_false_2 (i = k)) by (unfold i; lia).
      unfold sa. rewrite !buf_at_upd by (unfold i; lia).
      rewrite (bool_decide_eq_true_2 (i = i)) by reflexivity.
      rewrite (bool_decide_eq_false_2 (k = i)) by (unfold i; lia).
      destruct (bool_decide (x = i)); [reflexivity|].
      destruct (bool_decide (x = k)); reflexivity. }
    assert (Hlkd : linked sd (rev (seq 0 (S i)))).
    { unfold i. rewrite down_cons. destruct (down_hd k) as (t & Et).
      rewrite Et. rewrite <- Et.
      assert (Hstep : next (buf_at (S k) sd) = Some k /\ prev (buf_at k sd) = Some (S k) /\
                      linked sd (rev (seq 0 (S k)))).
      { split; [|split].
        - rewrite Bd. fold i. rewrite bool_decide_eq_true_2 by reflexivity. reflexivity.
        - rewrite Bd. fold i. rewrite bool_decide_eq_false_2 by (unfold i; lia).
          rewrite bool_decide_eq_true_2 by reflexivity. reflexivity.
        - apply (linked_ext s sd); [| |exact Hlk].
          + intros x Hx.
            destruct (removelast_not_last _ 0%nat x (down_nodup k) Hx) as (_ & Hin).
            apply down_in in Hin. rewrite Bd.
            rewrite bool_decide_eq_false_2 by (unfold i; lia).
            destruct (bool_decide (x = k)) eqn:E; [|reflexivity].
            apply bool_decide_eq_true in E. subst x. reflexivity.
          + intros y Hy. rewrite Et in Hy. cbn [tl] in Hy.
            assert (Hyk : y <> k).
            { intros ->. pose proof (down_nodup k) as Hnd. rewrite Et in Hnd.
              inversion Hnd; subst. contradiction. }
            assert (Hyin : In y (rev (seq 0 (S k)))) by (rewrite Et; right; exact Hy).
            apply down_in in Hyin. rewrite Bd.
            rewrite bool_decide_eq_false_2 by (unfold i; lia).
            rewrite bool_decide_eq_false_2 by exact Hyk. reflexivity. }
      rewrite Et in Hstep |- *. exact Hstep. }
    destruct (IH i sd eq_refl Hlkd ltac:(rewrite Ld; unfold i; lia))
      as (s' & Hrun & Hhd' & Hlk' & Hlen' & Hprocs & Hsame & Hzero & Hkeep).
    exists s'. replace (k + S todo)%nat with (i + todo)%nat by (unfold i; lia).
    split.
    { cbn [binit_loop]. unfold bind at 1, gets. rewrite Hhd.
      unfold bind at 1, modify. fold i. fold sa.
      unfold bind at 1, deref, ret. unfold bind at 1. fold sb.
      unfold bind at 1. fold sc. unfold bind at 1. fold sd. exact Hrun. }
    split; [exact Hhd'|]. split; [exact Hlk'|]. split; [rewrite Hlen'; exact Ld|].
    split; [rewrite Hprocs; reflexivity|].
    split; [|split].
    + intros x. destruct (Hsame x) as (E1 & E2 & E3 & E4).
      rewrite E1, E2, E3, E4, Bd.
      destruct (bool_decide (x = i)) eqn:Ei.
      * apply bool_decide_eq_true in Ei. subst x. repeat split.
      * destruct (bool_decide (x = k)) eqn:Ek; [|repeat split].
        apply bool_decide_eq_true in Ek. subst x. repeat split.
    + intros x Hx. destruct (Nat.eq_dec x i) as [->|Hne].
      * destruct (Hkeep i ltac:(lia)) as (E1 & E2). rewrite E1, E2, Bd.
        rewrite bool_decide_eq_true_2 by reflexivity. split; reflexivity.
      * apply Hzero. unfold i in *. lia.
    + intros x Hx. destruct (Hkeep x ltac:(unfold i; lia)) as (E1 & E2).
      rewrite E1, E2, Bd. rewrite bool_decide_eq_false_2 by (unfold i; lia).
      destruct (bool_decide (x = k)) eqn:Ek; [|split; reflexivity].
      apply bool_decide_eq_true in Ek. subst x. split; reflexivity.
Qed.

(** [binit] links the buffers of [bcache.buf] into a ring, the last one
    first. *)
Lemma binit_spec s :
  length (bufs s) = NBUF ->
  exists s',
    binit s = Ret tt s' /\ ring s' (rev (seq 0 NBUF)) /\
    procs (kern s') = procs (kern s) /\
    (forall x, flags (buf_at x s') = flags (buf_at x s) /\
               dev (buf_at x s') = dev (buf_at x s) /\
               blockno (buf_at x s') = blockno (buf_at x s) /\
               refcnt (buf_at x s') = refcnt (buf_at x s)) /\
    (forall x, (0 < x < NBUF)%nat ->
               slocked (buf_at x s') = 0 /\ spid (buf_at x s') = 0) /\
    slocked (buf_at 0 s') = slocked (buf_at 0 s) /\
    spid (buf_at 0 s') = spid (buf_at 0 s).
Proof.
  intros Hlen. unfold NBUF in *.
  set (s0 := set_head (Some 0%nat)
               (set_kern (set_mach (initlock bcache_lock (mach (kern s))) (kern s)) s)).
  destruct (binit_loop_spec 29 0 s0 eq_refl I ltac:(cbn [bufs s0 set_head set_kern]; lia))
    as (s1 & Hrun & Hhd & Hlk & Hlen1 & Hprocs & Hsame & Hzero & Hkeep).
  change (0 + 29)%nat with 29%nat in *.
  change (length (bufs s0)) with (length (bufs s)) in Hlen1.
  set (s2 := upd_buf 0 (set_next (Some 29%nat)) s1).
  set (s3 := upd_buf 29 (set_prev (Some 0%nat)) s2).
  assert (L2 : length (bufs s2) = length (bufs s)) by (unfold s2; now rewrite length_upd_buf).
  assert (B3 : forall x, buf_at x s3
               = if bool_decide (x = 29%nat) then set_prev (Some 0%nat) (buf_at 29 s1)
                 else if bool_decide (x = 0%nat) then set_next (Some 29%nat) (buf_at 0 s1)
                 else buf_at x s1).
  { intros x. unfold s3. rewrite !buf_at_upd by (rewrite L2; lia).
    unfold s2. rewrite !buf_at_upd by lia.
    rewrite (bool_decide_eq_false_2 (29%nat = 0%nat)) by lia.
    destruct (bool_decide (x = 29%nat)); [reflexivity|].
    destruct (bool_decide (x = 0%nat)); reflexivity. }
  exists s3. split; [|split; [|split; [|split; [|split; [|split]]]]].
  - unfold binit. unfold bind at 1, modify. unfold bind at 1. fold s0.
    unfold bind at 1. change (NBUF - 1)%nat with 29%nat. rewrite Hrun.
    unfold bind at 1, gets. rewrite Hhd. unfold bind at 1. fold s2.
    unfold bind at 1, deref, ret. fold s3. reflexivity.
  - split; [apply NoDup_ListNoDup; apply (down_nodup 29)|].
    split.
    { intros x Hx. apply (down_in 29) in Hx. unfold s3. rewrite length_upd_buf, L2. lia. }
    destruct (down_hd 29) as (t & Et). rewrite Et.
    split; [exact Hhd|].
    change (29%nat :: t ++ [29%nat]) with ((29%nat :: t) ++ [29%nat]).
    rewrite <- Et.
    apply (linked_snoc s3 0%nat); [rewrite Et; discriminate|].
    rewrite (down_last 29). split; [|split].
    + apply (linked_ext s1 s3); [| |exact Hlk].
      * intros x Hx.
        destruct (removelast_not_last _ 0%nat x (down_nodup 29) Hx) as (Hx0 & _).
        rewrite (down_last 29) in Hx0. rewrite B3.
        rewrite (bool_decide_eq_false_2 (x = 0%nat)) by exact Hx0.
        destruct (bool_decide (x = 29%nat)) eqn:E; [|reflexivity].
        apply bool_decide_eq_true in E. subst x. reflexivity.
      * intros y Hy. rewrite Et in Hy. cbn [tl] in Hy.
        assert (Hy29 : y <> 29%nat).
        { intros ->. pose proof (down_nodup 29) as Hnd. rewrite Et in Hnd.
          inversion Hnd; subst. contradiction. }
        rewrite B3. rewrite (bool_decide_eq_false_2 (y = 29%nat)) by exact Hy29.
        destruct (bool_decide (y = 0%nat)) eqn:E; [|reflexivity].
        apply bool_decide_eq_true in E. subst y. reflexivity.
    + rewrite B3. rewrite bool_decide_eq_false_2 by lia.
      rewrite bool_decide_eq_true_2 by reflexivity. reflexivity.
    + rewrite B3. rewrite bool_decide_eq_true_2 by reflexivity. reflexivity.
  - unfold s3, s2. cbn [kern upd_buf]. rewrite Hprocs. reflexivity.
  - intros x. rewrite B3. destruct (Hsame x) as (E1 & E2 & E3 & E4).
    change (buf_at x s0) with (buf_at x s) in E1, E2, E3, E4.
    rewrite <- E1, <- E2, <- E3, <- E4.
    destruct (bool_decide (x = 29%nat)) eqn:Ea.
    + apply bool_decide_eq_true in Ea. subst x. repeat split.
    + destruct (bool_decide (x = 0%nat)) eqn:Eb; [|repeat split].
      apply bool_decide_eq_true in Eb. subst x. repeat split.
  - intros x Hx. destruct (Hzero x ltac:(lia)) as (E1 & E2). rewrite B3.
    destruct (bool_decide (x = 29%nat)) eqn:Ea.
    + apply bool_decide_eq_true in Ea. subst x. split; [exact E1|exact E2].
    + rewrite bool_decide_eq_false_2 by lia. split; [exact E1|exact E2].
  - rewrite B3. cbn [bool_decide]. destruct (Hkeep 0%nat ltac:(lia)) as (E1 & _).
    rewrite bool_decide_eq_false_2 by lia. rewrite bool_decide_eq_true_2 by reflexivity.
    exact E1.
  - rewrite B3. destruct (Hkeep 0%nat ltac:(lia)) as (_ & E2).
    rewrite bool_decide_eq_false_2 by lia. rewrite bool_decide_eq_true_2 by reflexivity.
    exact E2.
Qed.

Lemma payload_eq x y :
  payload x = payload y ->
  flags x = flags y /\ dev x = dev y /\ blockno x = blockno y /\
  slocked x = slocked y /\ spid x = spid y /\ refcnt x = refcnt y.
Proof. unfold payload. intros H. inversion H. auto 10. Qed.

Lemma payload_inv x f d bn sl sp r :
  payload x = (f, d, bn, sl, sp, r) ->
  flags x = f /\ dev x = d /\ blockno x = bn /\ slocked x = sl /\ spid x = sp /\
  refcnt x = r.
Proof. unfold payload. intros H. injection H. intros. auto 10. Qed.

(** X30.  The list of the buffer cache is a ring, and [brelse] puts the
    buffer it frees at its head.  [binit] links the [NBUF] buffers into a
    ring, the last buffer of the array first, and changes no block
    number, flag or count.  [brelse] panics with "brelse" unless the
    calling process holds the sleeplock of the buffer; otherwise it
    frees the sleeplock, wakes the processes that sleep on it and takes
    one off the reference count, and when the count is 0 it moves the
    buffer to the head of the ring, the other buffers keeping their
    order.  Nothing else changes, and the locks of the cache are free
    again.  The [bget] that follows, for a block that is not cached,
    recycles this very buffer if it is not dirty. *)
Theorem buffer_ring_kept :
  (forall s,
     length (bufs s) = NBUF ->
     exists s',
       binit s = Ret tt s' /\ ring s' (rev (seq 0 NBUF)) /\
       forall x, flags (buf_at x s') = flags (buf_at x s) /\
                 dev (buf_at x s') = dev (buf_at x s) /\
                 blockno (buf_at x s') = blockno (buf_at x s) /\
                 refcnt (buf_at x s') = refcnt (buf_at x s)) /\
  (forall c p b s l1 l2,
     ring s (l1 ++ b :: l2) -> locks_free c (l1 ++ b :: l2) (mach (kern s)) ->
     nth c (cpu_proc (kern s)) None = Some p ->
     if negb (slocked (buf_at b s) =? 0)
        && (spid (buf_at b s) =? pid (proc_at p (kern s)))
     then
       exists s',
         brelse c b s = Ret tt s' /\
         ring s' (if (refcnt (buf_at b s) - 1) mod 2 ^ 32 =? 0
                  then b :: l1 ++ l2 else l1 ++ b :: l2) /\
         payload (buf_at b s')
         = (flags (buf_at b s), dev (buf_at b s), blockno (buf_at b s), 0, 0,
            (refcnt (buf_at b s) - 1) mod 2 ^ 32) /\
         (forall y, y <> b -> payload (buf_at y s') = payload (buf_at y s)) /\
         procs (kern s') = map (wakeup1_proc (ChanSleeplock b)) (procs (kern s)) /\
         locks_free c (l1 ++ b :: l2) (mach (kern s')) /\
         ((refcnt (buf_at b s) - 1) mod 2 ^ 32 = 0 ->
          Z.land (flags (buf_at b s)) B_DIRTY = 0 ->
          forall turns env dv bn,
            (length (l1 ++ b :: l2) <= turns)%nat ->
            (forall y, In y (l1 ++ b :: l2) -> cached dv bn (buf_at y s) = false) ->
            exists s'', bget turns env c dv bn s' = Ret b s'')
     else brelse c b s = Panic "brelse").
Proof.
  split.
  - intros s Hlen.
    destruct (binit_spec s Hlen) as (s' & Hrun & Hring & _ & Hsame & _).
    exists s'. split; [exact Hrun|]. split; [exact Hring|exact Hsame].
  - intros c p b s l1 l2 Hring Hfree Hcur.
    assert (Hbl : In b (l1 ++ b :: l2)) by (apply in_or_app; right; left; reflexivity).
    destruct (Z.eqb_spec (slocked (buf_at b s)) 0) as [Hz|Hnz].
    { cbn [negb andb]. apply (brelse_not_holding c p b s _ Hfree Hbl Hcur). now left. }
    destruct (Z.eqb_spec (spid (buf_at b s)) (pid (proc_at p (kern s)))) as [Hpid|Hpid].
    2:{ cbn [negb andb]. apply (brelse_not_holding c p b s _ Hfree Hbl Hcur). now right. }
    cbn [negb andb].
    destruct (brelse_spec c p b s l1 l2 Hring Hfree Hcur Hnz Hpid)
      as (s' & Hrun & Hring' & Hpb & Hpo & Hprocs & Hcpu & Hfree').
    exists s'. split; [exact Hrun|]. split; [exact Hring'|]. split; [exact Hpb|].
    split; [exact Hpo|]. split; [exact Hprocs|]. split; [exact Hfree'|].
    intros Hr0 Hclean turns env dv bn Hturns Hnone.
    rewrite Hr0 in Hring', Hpb. cbn [Z.eqb] in Hring'.
    destruct (payload_inv _ _ _ _ _ _ _ Hpb) as (F1 & F2 & F3 & F4 & F5 & F6).
    assert (Esame : forall y, dev (buf_at y s') = dev (buf_at y s) /\
                              blockno (buf_at y s') = blockno (buf_at y s)).
    { intros y. destruct (Nat.eq_dec y b) as [->|Hne].
      - split; [exact F2|exact F3].
      - destruct (payload_eq _ _ (Hpo y Hne)) as (_ & E1 & E2 & _). auto. }
    destruct (bget_miss turns env c dv bn s' (b :: l1 ++ l2) [] b (l1 ++ l2) p) as (m' & Hb & _).
    + exact Hring'.
    + apply (locks_free_sub c (l1 ++ b :: l2)); [|exact Hfree'].
      intros x [<-|Hx]; [exact Hbl|].
      apply in_app_or in Hx as [Hx|Hx]; apply in_or_app; [left|right; right]; exact Hx.
    + rewrite Hcpu. exact Hcur.
    + rewrite length_app in Hturns. cbn [length] in Hturns |- *.
      rewrite length_app. lia.
    + intros y Hy. unfold cached. destruct (Esame y) as (E1 & E2). rewrite E1, E2.
      apply Hnone. destruct Hy as [<-|Hy]; [exact Hbl|].
      apply in_app_or in Hy as [Hy|Hy]; apply in_or_app; [left|right; right]; exact Hy.
    + reflexivity.
    + unfold unused. rewrite F6, F1, Hclean. reflexivity.
    + intros y [].
    + exact F4.
    + eexists. exact Hb.
Qed.

Lemma buffer_ring_kept_witness :
  (exists s', binit unlinked_bufs = Ret tt s' /\ head s' = Some 29%nat) /\
  (exists s' s'',
     brelse 0 0 held_bufs = Ret tt s' /\ head s' = Some 0%nat /\
     bget 3 [] 0 1 40 s' = Ret 0%nat s'') /\
  brelse 0 2 three_bufs = Panic "brelse".
Proof.
  destruct buffer_ring_kept as (Hinit & Hrel).
  split; [|split].
  - destruct (Hinit unlinked_bufs eq_refl) as (s' & Hrun & (_ & _ & Hh) & _).
    exists s'. split; [exact Hrun|]. cbn in Hh. apply Hh.
  - pose proof (Hrel 0%nat 0%nat 0%nat held_bufs [2; 1]%nat []
                  (ring_upd_buf three_bufs _ 0%nat (fun x => set_slock 1 7 (set_refcnt 1 x))
                     ltac:(reflexivity) ltac:(reflexivity) three_bufs_ring)
                  three_bufs_locks eq_refl) as H.
    cbn in H. destruct H as (s' & Hrun & (_ & _ & Hh & _) & _ & _ & _ & _ & Hget).
    destruct (Hget eq_refl eq_refl 3%nat [] 1 40 ltac:(lia)) as (s'' & Hb).
    + intros y [<-|[<-|[<-|[]]]]; reflexivity.
    + exists s', s''. split; [exact Hrun|]. split; [exact Hh|exact Hb].
  - exact (Hrel 0%nat 0%nat 2%nat three_bufs [] [1; 0]%nat
             three_bufs_ring three_bufs_locks eq_refl).
Defined.

End BioSpec.
